(** * CookieBlock crawler prototype: a shallow embedding of the three
      consent-platform scrapers and of the shared base scraper.

    The development follows the layout of the Python sources:
    - [base_scraper.py]      : [CrawlState], [CookieCategory], the collected
                               data, [update_crawl_stats], [collect_cookie_dat],
                               [static_get_request], [driver_get];
    - [onetrust_scraper.py]  : the keyword patterns, [category_lookup_en],
                               the two extraction variants and [scrape_website];
    - [cookiebot_scraper.py] : the bucket patterns and [scrape_website];
    - [termly_scraper.py]    : [retrieve_termly_json],
                               [parse_termly_cookie_json], [scrape_website].

    Python objects are modelled as follows.
    - [str] is [string]; a character is a code point below 256.  Under
      [re.IGNORECASE] only the ASCII letters have a case partner in that range.
      For the category names of OneTrust, which [category_lookup_en] reads
      through its patterns only, the code points above 255 are modelled as
      well: see [as_latin1].
    - Values produced by [json.loads], [ast.literal_eval] and [js2py] are
      [pyval] (None, bool, int, str, list, tuple, dict with string keys).
    - Exceptions are values of [exn]; a computation is a function from the
      scraper object to an [outcome] and the updated scraper object, so that
      what was written before an exception is raised stays written.
    - The browser, the network and the three library evaluators are a
      [World]: an oracle indexed by a logical clock that ticks at every
      external call. *)

From Stdlib Require Import String Ascii List ZArith Lia Bool Arith PeanoNat.
From Stdlib Require Import DecimalString.
Import ListNotations.
Local Open Scope string_scope.
Local Open Scope list_scope.
Local Open Scope nat_scope.

Set Implicit Arguments.

(* ===================================================================== *)
(** ** Outcome model (base_scraper.py, lines 35-58)                       *)
(* ===================================================================== *)

Inductive CrawlState : Set :=
| SUCCESS | CONN_FAILED | HTTP_ERROR | PARSE_ERROR | CMP_NOT_FOUND
| BOT_DETECTION | MALFORMED_URL | SSL_ERROR | LIBRARY_ERROR | REGION_BLOCK
| MALFORM_RESP | NO_COOKIES | JSON_DECODE_ERROR | UNKNOWN.

Inductive CookieCategory : Set :=
| CAT_UNKNOWN | ESSENTIAL | FUNCTIONAL | ANALYTICAL | ADVERTISING | UNCLASSIFIED.

(** The [IntEnum] values. *)
Definition CrawlState_value (s : CrawlState) : Z :=
  match s with
  | SUCCESS => 0 | CONN_FAILED => 1 | HTTP_ERROR => 2 | PARSE_ERROR => 3
  | CMP_NOT_FOUND => 4 | BOT_DETECTION => 5 | MALFORMED_URL => 6
  | SSL_ERROR => 7 | LIBRARY_ERROR => 8 | REGION_BLOCK => 9
  | MALFORM_RESP => 10 | NO_COOKIES => 11 | JSON_DECODE_ERROR => 12
  | UNKNOWN => -1
  end%Z.

Definition CookieCategory_value (c : CookieCategory) : Z :=
  match c with
  | CAT_UNKNOWN => -1 | ESSENTIAL => 0 | FUNCTIONAL => 1 | ANALYTICAL => 2
  | ADVERTISING => 3 | UNCLASSIFIED => 4
  end%Z.

Definition CrawlState_eqb (a b : CrawlState) : bool :=
  Z.eqb (CrawlState_value a) (CrawlState_value b).

Definition CrawlState_name (s : CrawlState) : string :=
  match s with
  | SUCCESS => "CrawlState.SUCCESS" | CONN_FAILED => "CrawlState.CONN_FAILED"
  | HTTP_ERROR => "CrawlState.HTTP_ERROR" | PARSE_ERROR => "CrawlState.PARSE_ERROR"
  | CMP_NOT_FOUND => "CrawlState.CMP_NOT_FOUND"
  | BOT_DETECTION => "CrawlState.BOT_DETECTION"
  | MALFORMED_URL => "CrawlState.MALFORMED_URL" | SSL_ERROR => "CrawlState.SSL_ERROR"
  | LIBRARY_ERROR => "CrawlState.LIBRARY_ERROR"
  | REGION_BLOCK => "CrawlState.REGION_BLOCK" | MALFORM_RESP => "CrawlState.MALFORM_RESP"
  | NO_COOKIES => "CrawlState.NO_COOKIES"
  | JSON_DECODE_ERROR => "CrawlState.JSON_DECODE_ERROR" | UNKNOWN => "CrawlState.UNKNOWN"
  end.

(* ===================================================================== *)
(** ** Strings                                                            *)
(* ===================================================================== *)

Definition chars (s : string) : list ascii := list_ascii_of_string s.
Definition str (l : list ascii) : string := string_of_list_ascii l.

Definition code (c : ascii) : nat := nat_of_ascii c.

(** [str.isspace] on one code point below 256; the same set is what [\s]
    matches in a [str] pattern and what [str.strip()] removes. *)
Definition is_space (c : ascii) : bool :=
  let n := code c in
  ((9 <=? n) && (n <=? 13)) || ((28 <=? n) && (n <=? 32))
  || (n =? 133) || (n =? 160).

Definition is_upper (c : ascii) : bool := (65 <=? code c) && (code c <=? 90).

(** Lower-casing of one code point: only A-Z move. *)
Definition lower (c : ascii) : ascii :=
  if is_upper c then ascii_of_nat (code c + 32) else c.

Definition is_digit (c : ascii) : bool := (48 <=? code c) && (code c <=? 57).
Definition is_hex (c : ascii) : bool :=
  is_digit c || ((97 <=? code c) && (code c <=? 102))
             || ((65 <=? code c) && (code c <=? 70)).
Definition is_alpha (c : ascii) : bool :=
  is_upper c || ((97 <=? code c) && (code c <=? 122)).

Definition newline : ascii := ascii_of_nat 10.

(** [str.isspace] on a code point of any size, which is what [\s] matches
    in a [str] pattern: below 256 the set of [is_space], above it U+1680,
    U+2000 to U+200A, U+2028, U+2029, U+202F, U+205F and U+3000. *)
Definition is_white (x : N) : bool :=
  (((9 <=? x) && (x <=? 13)) || ((28 <=? x) && (x <=? 32)) || (x =? 0x85) || (x =? 0xA0)
   || (x =? 0x1680) || ((0x2000 <=? x) && (x <=? 0x200A)) || (x =? 0x2028)
   || (x =? 0x2029) || (x =? 0x202F) || (x =? 0x205F) || (x =? 0x3000))%N.

(** A [str] holds code points of any size.  A pattern made of letters A-Z
    and a-z under [re.IGNORECASE], of blanks, of [\s], of [.] and of [^]
    reads a code point through four tests only: is it a given letter, letter
    case ignored; is it U+0020; is it white space; is it U+000A.  Under
    [re.IGNORECASE] a letter of a [str] pattern matches the code points whose
    lower case it is, and the code points that [re] holds equivalent to it:
    besides the letter and its capital these are U+0130 and U+0131 for i,
    U+017F for s and U+212A for k, all above 255.  [as_latin1] sends a code
    point to a character below 256 that passes the same four tests: a code
    point below 256 to itself, the four letters to i, s and k, white space
    above 255 to a tabulator, and every other code point to U+0000, which is
    no letter, no white space and no line feed. *)
Definition as_latin1 (x : N) : ascii :=
  if (x <? 256)%N then ascii_of_N x
  else if ((x =? 0x130) || (x =? 0x131))%N then "i"%char
  else if (x =? 0x17F)%N then "s"%char
  else if (x =? 0x212A)%N then "k"%char
  else if is_white x then "009"%char
  else "000"%char.

(** Decimal rendering of a count, as an f-string does. *)
Definition str_of_nat (n : nat) : string := NilEmpty.string_of_uint (Nat.to_uint n).
Definition str_of_Z (z : Z) : string := NilEmpty.string_of_int (Z.to_int z).

(** [s.strip()] *)
Fixpoint lstrip (l : list ascii) : list ascii :=
  match l with
  | c :: t => if is_space c then lstrip t else l
  | [] => []
  end.
Definition strip (s : string) : string :=
  str (rev (lstrip (rev (lstrip (chars s))))).

(** [re.sub('\n', ' ', s)] *)
Definition purge_newlines (s : string) : string :=
  str (map (fun c => if Ascii.eqb c newline then " "%char else c) (chars s)).

(** [needle in haystack] for two strings. *)
Fixpoint is_prefix (p l : list ascii) : bool :=
  match p, l with
  | [], _ => true
  | a :: p', b :: l' => Ascii.eqb a b && is_prefix p' l'
  | _ :: _, [] => false
  end.
Fixpoint contains_chars (p l : list ascii) : bool :=
  is_prefix p l || match l with [] => false | _ :: t => contains_chars p t end.
Definition str_contains (needle hay : string) : bool :=
  contains_chars (chars needle) (chars hay).

(** [s[i:j]] for [0 <= i], [0 <= j]. *)
Definition slice (s : list ascii) (i j : nat) : list ascii :=
  firstn (j - i) (skipn i s).

(* ===================================================================== *)
(** ** A backtracking matcher for the [re] patterns of the sources        *)
(* ===================================================================== *)

(** The constructs that occur in the patterns of the four modules.  The
    matcher enumerates the successful continuations in the order in which
    a backtracking engine tries them, so the head of the list is the match
    that [re] reports. *)
Inductive regex : Type :=
| Nul                               (* no alternative *)
| Eps
| Sym (p : ascii -> bool)           (* one character satisfying p *)
| Bol                               (* ^ without re.MULTILINE *)
| Seq (a b : regex)
| Alt (a b : regex)
| Star (a : regex)                  (* greedy a* *)
| Group (n : nat) (a : regex).      (* capturing group number n *)

Record mstate : Type := MState {
  m_pos : nat;                       (* characters consumed so far *)
  m_rest : list ascii;               (* what is left of the subject *)
  m_groups : list (nat * (nat * nat)) (* group number -> (start, end) *)
}.

Definition advance (st : mstate) (t : list ascii) : mstate :=
  MState (S (m_pos st)) t (m_groups st).

Definition close_group (n start : nat) (st : mstate) : mstate :=
  MState (m_pos st) (m_rest st) ((n, (start, m_pos st)) :: m_groups st).

(** Greedy iteration: one more round first, then stop.  A round that
    consumes nothing is not repeated. *)
Fixpoint iter_star (step : mstate -> list mstate) (fuel : nat) (st : mstate)
  : list mstate :=
  match fuel with
  | 0 => [st]
  | S k =>
      flat_map (iter_star step k)
               (filter (fun st' => m_pos st <? m_pos st') (step st)) ++ [st]
  end.

Fixpoint run (r : regex) (st : mstate) : list mstate :=
  match r with
  | Nul => []
  | Eps => [st]
  | Sym p => match m_rest st with
             | c :: t => if p c then [advance st t] else []
             | [] => []
             end
  | Bol => if m_pos st =? 0 then [st] else []
  | Seq a b => flat_map (run b) (run a st)
  | Alt a b => run a st ++ run b st
  | Star a => iter_star (run a) (length (m_rest st)) st
  | Group n a => map (close_group n (m_pos st)) (run a st)
  end.

(** A match object: span of group 0 and the spans of the groups. *)
Record re_match : Type := ReMatch {
  mt_subject : list ascii;
  mt_start : nat;
  mt_end : nat;
  mt_groups : list (nat * (nat * nat))
}.

Definition match_at (r : regex) (subject : list ascii) (i : nat) : option re_match :=
  match run r (MState i (skipn i subject) []) with
  | st :: _ => Some (ReMatch subject i (m_pos st) (m_groups st))
  | [] => None
  end.

(** [pattern.match(s)]: anchored at position 0. *)
Definition re_match_ (r : regex) (s : string) : option re_match :=
  match_at r (chars s) 0.

(** [pattern.search(s)]: leftmost start position that matches. *)
Fixpoint search_from (r : regex) (subject : list ascii) (i fuel : nat)
  : option re_match :=
  match match_at r subject i with
  | Some m => Some m
  | None => match fuel with
            | 0 => None
            | S k => search_from r subject (S i) k
            end
  end.
Definition re_search (r : regex) (s : string) : option re_match :=
  search_from r (chars s) 0 (length (chars s)).

Fixpoint assoc_nat {A} (n : nat) (l : list (nat * A)) : option A :=
  match l with
  | [] => None
  | (k, v) :: t => if k =? n then Some v else assoc_nat n t
  end.

(** [m.group(n)]; a group that did not take part gives [None]. *)
Definition group (m : re_match) (n : nat) : option string :=
  match n with
  | 0 => Some (str (slice (mt_subject m) (mt_start m) (mt_end m)))
  | _ => match assoc_nat n (mt_groups m) with
         | Some (a, b) => Some (str (slice (mt_subject m) a b))
         | None => None
         end
  end.

Definition is_match (o : option re_match) : bool :=
  match o with Some _ => true | None => false end.

(** Pattern builders. *)
Definition chr (c : ascii) : regex := Sym (Ascii.eqb c).
Definition chr_i (c : ascii) : regex := Sym (fun x => Ascii.eqb (lower x) (lower c)).
Definition dot : regex := Sym (fun c => negb (Ascii.eqb c newline)).
Definition space : regex := Sym is_space.
Definition plus (a : regex) : regex := Seq a (Star a).
Fixpoint seqs (l : list regex) : regex :=
  match l with [] => Eps | a :: t => Seq a (seqs t) end.
Fixpoint alts (l : list regex) : regex :=
  match l with [] => Nul | a :: t => Alt a (alts t) end.
Fixpoint rep (n : nat) (a : regex) : regex :=
  match n with 0 => Eps | S k => Seq a (rep k a) end.
(** A literal, case-sensitive and under [re.IGNORECASE]. *)
Definition lit (s : string) : regex := seqs (map chr (chars s)).
Definition lit_i (s : string) : regex := seqs (map chr_i (chars s)).

(** [uuid_pattern] (base_scraper.py, line 32). *)
Definition hex : regex := Sym is_hex.
Definition uuid_pattern : regex :=
  seqs [rep 8 hex; chr "-"; rep 4 hex; chr "-"; rep 4 hex; chr "-";
        rep 4 hex; chr "-"; rep 12 hex].

(* ===================================================================== *)
(** ** Python values and exceptions                                       *)
(* ===================================================================== *)

(** What [json.loads], [ast.literal_eval] and a converted JavaScript object
    hand to the scrapers. *)
#[warnings="-register-all"] Inductive pyval : Type :=
| PNone
| PBool (b : bool)
| PInt (z : Z)
| PStr (s : string)
| PList (l : list pyval)
| PTuple (l : list pyval)
| PDict (d : list (string * pyval)).

(** The exception classes that the sources name or that the libraries they
    call raise, with the base classes each library declares. *)
Inductive exn_class : Set :=
| Exception_
| LookupError | KeyError | IndexError | TypeError | AttributeError
| ValueError | SyntaxError | RuntimeError | OSError
| JSONDecodeError
| RequestException | HTTPError | ConnectionError_ | ProxyError | SSLError
| Timeout | ConnectTimeout | ReadTimeout | URLRequired | TooManyRedirects
| MissingSchema | InvalidSchema | InvalidURL | ChunkedEncodingError
| WebDriverException | TimeoutException | StaleElementReferenceException
| InvalidArgumentException | InsecureCertificateException
| NoAlertPresentException
| VariantFailedException.

Definition bases (c : exn_class) : list exn_class :=
  match c with
  | Exception_ => []
  | LookupError | TypeError | AttributeError | ValueError | SyntaxError
  | RuntimeError | OSError | WebDriverException | VariantFailedException =>
      [Exception_]
  | KeyError | IndexError => [LookupError]
  | JSONDecodeError => [ValueError]
  | RequestException => [OSError]
  | HTTPError | ConnectionError_ | Timeout | URLRequired | TooManyRedirects
  | ChunkedEncodingError => [RequestException]
  | ProxyError | SSLError => [ConnectionError_]
  | ConnectTimeout => [ConnectionError_; Timeout]
  | ReadTimeout => [Timeout]
  | MissingSchema | InvalidSchema | InvalidURL => [RequestException; ValueError]
  | TimeoutException | StaleElementReferenceException | InvalidArgumentException
  | InsecureCertificateException | NoAlertPresentException =>
      [WebDriverException]
  end.

Definition exn_class_eqb (a b : exn_class) : bool :=
  match a, b with
  | Exception_, Exception_ | LookupError, LookupError | KeyError, KeyError
  | IndexError, IndexError | TypeError, TypeError
  | AttributeError, AttributeError | ValueError, ValueError
  | SyntaxError, SyntaxError | RuntimeError, RuntimeError | OSError, OSError
  | JSONDecodeError, JSONDecodeError | RequestException, RequestException
  | HTTPError, HTTPError | ConnectionError_, ConnectionError_
  | ProxyError, ProxyError | SSLError, SSLError | Timeout, Timeout
  | ConnectTimeout, ConnectTimeout | ReadTimeout, ReadTimeout
  | URLRequired, URLRequired | TooManyRedirects, TooManyRedirects
  | MissingSchema, MissingSchema | InvalidSchema, InvalidSchema
  | InvalidURL, InvalidURL | ChunkedEncodingError, ChunkedEncodingError
  | WebDriverException, WebDriverException
  | TimeoutException, TimeoutException
  | StaleElementReferenceException, StaleElementReferenceException
  | InvalidArgumentException, InvalidArgumentException
  | InsecureCertificateException, InsecureCertificateException
  | NoAlertPresentException, NoAlertPresentException
  | VariantFailedException, VariantFailedException => true
  | _, _ => false
  end.

(** [issubclass c d]; the hierarchy is at most five classes deep. *)
Fixpoint issubclass_fuel (fuel : nat) (c d : exn_class) : bool :=
  exn_class_eqb c d ||
  match fuel with
  | 0 => false
  | S k => existsb (fun b => issubclass_fuel k b d) (bases c)
  end.
Definition issubclass (c d : exn_class) : bool := issubclass_fuel 5 c d.

Definition exn_class_name (c : exn_class) : string :=
  match c with
  | Exception_ => "Exception" | LookupError => "LookupError"
  | KeyError => "KeyError" | IndexError => "IndexError"
  | TypeError => "TypeError" | AttributeError => "AttributeError"
  | ValueError => "ValueError" | SyntaxError => "SyntaxError"
  | RuntimeError => "RuntimeError" | OSError => "OSError"
  | JSONDecodeError => "json.decoder.JSONDecodeError"
  | RequestException => "requests.exceptions.RequestException"
  | HTTPError => "requests.exceptions.HTTPError"
  | ConnectionError_ => "requests.exceptions.ConnectionError"
  | ProxyError => "requests.exceptions.ProxyError"
  | SSLError => "requests.exceptions.SSLError"
  | Timeout => "requests.exceptions.Timeout"
  | ConnectTimeout => "requests.exceptions.ConnectTimeout"
  | ReadTimeout => "requests.exceptions.ReadTimeout"
  | URLRequired => "requests.exceptions.URLRequired"
  | TooManyRedirects => "requests.exceptions.TooManyRedirects"
  | MissingSchema => "requests.exceptions.MissingSchema"
  | InvalidSchema => "requests.exceptions.InvalidSchema"
  | InvalidURL => "requests.exceptions.InvalidURL"
  | ChunkedEncodingError => "requests.exceptions.ChunkedEncodingError"
  | WebDriverException => "selenium.common.exceptions.WebDriverException"
  | TimeoutException => "selenium.common.exceptions.TimeoutException"
  | StaleElementReferenceException =>
      "selenium.common.exceptions.StaleElementReferenceException"
  | InvalidArgumentException =>
      "selenium.common.exceptions.InvalidArgumentException"
  | InsecureCertificateException =>
      "selenium.common.exceptions.InsecureCertificateException"
  | NoAlertPresentException =>
      "selenium.common.exceptions.NoAlertPresentException"
  | VariantFailedException => "src.onetrust_scraper.VariantFailedException"
  end.

(** An exception object.  [VariantFailed] is the class of
    onetrust_scraper.py, lines 54-60, with its two attributes. *)
Inductive exn : Type :=
| PyExc (c : exn_class) (msg : string)
| VariantFailed (crawlstate : CrawlState) (message : option string).

Definition class_of (e : exn) : exn_class :=
  match e with
  | PyExc c _ => c
  | VariantFailed _ _ => VariantFailedException
  end.
Definition isinstance (e : exn) (c : exn_class) : bool := issubclass (class_of e) c.

(** [str(ex)] and [str(type(ex))]. *)
Definition str_ex (e : exn) : string :=
  match e with
  | PyExc _ m => m
  | VariantFailed _ (Some m) => m
  | VariantFailed _ None => "None"
  end.
Definition type_ex (e : exn) : string :=
  "<class '" ++ exn_class_name (class_of e) ++ "'>".

Inductive outcome (A : Type) : Type :=
| Val (a : A)
| Exc (e : exn).
Arguments Val {A} a.
Arguments Exc {A} e.

(** *** Operations on Python values, with the exceptions Python raises *)

Definition type_name (v : pyval) : string :=
  match v with
  | PNone => "NoneType" | PBool _ => "bool" | PInt _ => "int" | PStr _ => "str"
  | PList _ => "list" | PTuple _ => "tuple" | PDict _ => "dict"
  end.

Fixpoint assoc_str {A} (k : string) (d : list (string * A)) : option A :=
  match d with
  | [] => None
  | (k', v) :: t => if String.eqb k' k then Some v else assoc_str k t
  end.

(** [str(v)] for the values that end up in URLs and messages; containers are
    rendered by their type name only. *)
Definition py_str (v : pyval) : string :=
  match v with
  | PNone => "None"
  | PBool true => "True" | PBool false => "False"
  | PInt z => str_of_Z z
  | PStr s => s
  | PList _ => "[...]" | PTuple _ => "(...)" | PDict _ => "{...}"
  end.

(** [v == s] for a string [s]. *)
Definition py_eq_str (v : pyval) (s : string) : bool :=
  match v with PStr t => String.eqb t s | _ => false end.

(** [v is None] *)
Definition is_None (v : pyval) : bool :=
  match v with PNone => true | _ => false end.

(** [v[key]] for a string key. *)
Definition getitem (v : pyval) (key : string) : outcome pyval :=
  match v with
  | PDict d => match assoc_str key d with
               | Some x => Val x
               | None => Exc (PyExc KeyError ("'" ++ key ++ "'"))
               end
  | PList _ | PTuple _ =>
      Exc (PyExc TypeError (type_name v ++ " indices must be integers or slices, not str"))
  | PStr _ => Exc (PyExc TypeError "string indices must be integers")
  | _ => Exc (PyExc TypeError ("'" ++ type_name v ++ "' object is not subscriptable"))
  end.

(** [v[i]] for a non-negative integer literal [i]. *)
Definition getindex (v : pyval) (i : nat) : outcome pyval :=
  match v with
  | PList l | PTuple l =>
      match nth_error l i with
      | Some x => Val x
      | None => Exc (PyExc IndexError (type_name v ++ " index out of range"))
      end
  | PStr s => match nth_error (chars s) i with
              | Some c => Val (PStr (String c EmptyString))
              | None => Exc (PyExc IndexError "string index out of range")
              end
  | PDict d => Exc (PyExc KeyError (str_of_nat i))
  | _ => Exc (PyExc TypeError ("'" ++ type_name v ++ "' object is not subscriptable"))
  end.

(** ["key" in v] *)
Definition contains_key (key : string) (v : pyval) : outcome bool :=
  match v with
  | PDict d => Val (match assoc_str key d with Some _ => true | None => false end)
  | PList l | PTuple l => Val (existsb (fun x => py_eq_str x key) l)
  | PStr s => Val (str_contains key s)
  | _ => Exc (PyExc TypeError ("argument of type '" ++ type_name v ++ "' is not iterable"))
  end.

(** The elements that [for x in v] visits. *)
Definition iterate (v : pyval) : outcome (list pyval) :=
  match v with
  | PList l | PTuple l => Val l
  | PDict d => Val (map (fun kv => PStr (fst kv)) d)
  | PStr s => Val (map (fun c => PStr (String c EmptyString)) (chars s))
  | _ => Exc (PyExc TypeError ("'" ++ type_name v ++ "' object is not iterable"))
  end.

(** [len(v)] *)
Definition py_len (v : pyval) : outcome nat :=
  match v with
  | PList l | PTuple l => Val (length l)
  | PDict d => Val (length d)
  | PStr s => Val (length (chars s))
  | _ => Exc (PyExc TypeError ("object of type '" ++ type_name v ++ "' has no len()"))
  end.

Definition no_attribute {A} (v : pyval) (attr : string) : outcome A :=
  Exc (PyExc AttributeError
         ("'" ++ type_name v ++ "' object has no attribute '" ++ attr ++ "'")).

(** [v.values()], [v.items()], [v.keys()] *)
Definition py_values (v : pyval) : outcome (list pyval) :=
  match v with PDict d => Val (map snd d) | _ => no_attribute v "values" end.
Definition py_items (v : pyval) : outcome (list (string * pyval)) :=
  match v with PDict d => Val d | _ => no_attribute v "items" end.
Definition py_keys (v : pyval) : outcome (list string) :=
  match v with PDict d => Val (map fst d) | _ => no_attribute v "keys" end.

(** Hashability, needed when a value becomes part of a dictionary key. *)
Fixpoint hashable (v : pyval) : bool :=
  match v with
  | PNone | PBool _ | PInt _ | PStr _ => true
  | PTuple l => (fix all (l : list pyval) : bool :=
                   match l with [] => true | x :: t => hashable x && all t end) l
  | PList _ | PDict _ => false
  end.

Definition Z_of_bool (b : bool) : Z := if b then 1%Z else 0%Z.

(** [a == b] on hashable values: [True == 1] and [False == 0]. *)
Fixpoint key_eqb (a b : pyval) : bool :=
  match a, b with
  | PNone, PNone => true
  | PBool x, PBool y => Bool.eqb x y
  | PBool x, PInt z => Z.eqb (Z_of_bool x) z
  | PInt z, PBool x => Z.eqb z (Z_of_bool x)
  | PInt x, PInt y => Z.eqb x y
  | PStr s, PStr t => String.eqb s t
  | PTuple l, PTuple m =>
      (fix all (l m : list pyval) : bool :=
         match l, m with
         | [], [] => true
         | x :: l', y :: m' => key_eqb x y && all l' m'
         | _, _ => false
         end) l m
  | _, _ => false
  end.

(* ===================================================================== *)
(** ** The scraper object, the world around it, and computations          *)
(* ===================================================================== *)

(** One row of [database_cookie_data]:
    [(site_url, name, domain, path, cat_id, cat_name, purpose, type)]. *)
Record CookieTuple : Type := MkCookie {
  ct_site_url : string;
  ct_name : pyval;
  ct_domain : pyval;
  ct_path : string;
  ct_cat_id : CookieCategory;
  ct_cat_name : string;
  ct_purpose : pyval;
  ct_type : pyval
}.

(** A key of [cookie_labels]: [(name, domain, path)]. *)
Definition cookie_ident : Type := (pyval * pyval * string)%type.

Inductive LogLevel : Set := DEBUG | INFO | WARNING | ERROR.

(** The attributes of [BaseScraper] (base_scraper.py, lines 63-95), followed
    by the process state that the methods also write: the logger's records,
    the files written in debug mode, the logical clock of the world, and the
    two local variables that a method updates inside a [try] block and reads
    after it. *)
Record Scraper : Type := MkScraper {
  webdriver : bool;
  crawl_log : list (string * (CrawlState * string));
  failed_urls : list string;
  status_counts : CrawlState -> nat;
  logpath : string;
  debug_mode : bool;
  database_cookie_data : list CookieTuple;
  cookie_labels : list (cookie_ident * list string);
  total_debug_outs : nat;
  logged : list (LogLevel * string);
  files : list (string * string);
  clock : nat;
  cookie_count : nat;
  weird_stuff_occurred : bool
}.

(** [BaseScraper.__init__]: every counter at zero, nothing collected. *)
Definition new_scraper (log_path : string) (debug : bool) : Scraper :=
  MkScraper false [] [] (fun _ => 0) log_path debug [] [] 0 [] [] 0 0 false.

Definition set_webdriver (x : bool) (s : Scraper) : Scraper :=
  MkScraper x (crawl_log s) (failed_urls s) (status_counts s) (logpath s)
    (debug_mode s) (database_cookie_data s) (cookie_labels s)
    (total_debug_outs s) (logged s) (files s) (clock s) (cookie_count s)
    (weird_stuff_occurred s).
Definition set_crawl_log (x : list (string * (CrawlState * string))) (s : Scraper) : Scraper :=
  MkScraper (webdriver s) x (failed_urls s) (status_counts s) (logpath s)
    (debug_mode s) (database_cookie_data s) (cookie_labels s)
    (total_debug_outs s) (logged s) (files s) (clock s) (cookie_count s)
    (weird_stuff_occurred s).
Definition set_failed_urls (x : list string) (s : Scraper) : Scraper :=
  MkScraper (webdriver s) (crawl_log s) x (status_counts s) (logpath s)
    (debug_mode s) (database_cookie_data s) (cookie_labels s)
    (total_debug_outs s) (logged s) (files s) (clock s) (cookie_count s)
    (weird_stuff_occurred s).
Definition set_status_counts (x : CrawlState -> nat) (s : Scraper) : Scraper :=
  MkScraper (webdriver s) (crawl_log s) (failed_urls s) x (logpath s)
    (debug_mode s) (database_cookie_data s) (cookie_labels s)
    (total_debug_outs s) (logged s) (files s) (clock s) (cookie_count s)
    (weird_stuff_occurred s).
Definition set_logpath (x : string) (s : Scraper) : Scraper :=
  MkScraper (webdriver s) (crawl_log s) (failed_urls s) (status_counts s) x
    (debug_mode s) (database_cookie_data s) (cookie_labels s)
    (total_debug_outs s) (logged s) (files s) (clock s) (cookie_count s)
    (weird_stuff_occurred s).
Definition set_debug_mode (x : bool) (s : Scraper) : Scraper :=
  MkScraper (webdriver s) (crawl_log s) (failed_urls s) (status_counts s)
    (logpath s) x (database_cookie_data s) (cookie_labels s)
    (total_debug_outs s) (logged s) (files s) (clock s) (cookie_count s)
    (weird_stuff_occurred s).
Definition set_database_cookie_data (x : list CookieTuple) (s : Scraper) : Scraper :=
  MkScraper (webdriver s) (crawl_log s) (failed_urls s) (status_counts s)
    (logpath s) (debug_mode s) x (cookie_labels s) (total_debug_outs s)
    (logged s) (files s) (clock s) (cookie_count s) (weird_stuff_occurred s).
Definition set_cookie_labels (x : list (cookie_ident * list string)) (s : Scraper) : Scraper :=
  MkScraper (webdriver s) (crawl_log s) (failed_urls s) (status_counts s)
    (logpath s) (debug_mode s) (database_cookie_data s) x (total_debug_outs s)
    (logged s) (files s) (clock s) (cookie_count s) (weird_stuff_occurred s).
Definition set_total_debug_outs (x : nat) (s : Scraper) : Scraper :=
  MkScraper (webdriver s) (crawl_log s) (failed_urls s) (status_counts s)
    (logpath s) (debug_mode s) (database_cookie_data s) (cookie_labels s) x
    (logged s) (files s) (clock s) (cookie_count s) (weird_stuff_occurred s).
Definition set_logged (x : list (LogLevel * string)) (s : Scraper) : Scraper :=
  MkScraper (webdriver s) (crawl_log s) (failed_urls s) (status_counts s)
    (logpath s) (debug_mode s) (database_cookie_data s) (cookie_labels s)
    (total_debug_outs s) x (files s) (clock s) (cookie_count s)
    (weird_stuff_occurred s).
Definition set_files (x : list (string * string)) (s : Scraper) : Scraper :=
  MkScraper (webdriver s) (crawl_log s) (failed_urls s) (status_counts s)
    (logpath s) (debug_mode s) (database_cookie_data s) (cookie_labels s)
    (total_debug_outs s) (logged s) x (clock s) (cookie_count s)
    (weird_stuff_occurred s).
Definition set_clock (x : nat) (s : Scraper) : Scraper :=
  MkScraper (webdriver s) (crawl_log s) (failed_urls s) (status_counts s)
    (logpath s) (debug_mode s) (database_cookie_data s) (cookie_labels s)
    (total_debug_outs s) (logged s) (files s) x (cookie_count s)
    (weird_stuff_occurred s).
Definition set_cookie_count (x : nat) (s : Scraper) : Scraper :=
  MkScraper (webdriver s) (crawl_log s) (failed_urls s) (status_counts s)
    (logpath s) (debug_mode s) (database_cookie_data s) (cookie_labels s)
    (total_debug_outs s) (logged s) (files s) (clock s) x
    (weird_stuff_occurred s).
Definition set_weird_stuff_occurred (x : bool) (s : Scraper) : Scraper :=
  MkScraper (webdriver s) (crawl_log s) (failed_urls s) (status_counts s)
    (logpath s) (debug_mode s) (database_cookie_data s) (cookie_labels s)
    (total_debug_outs s) (logged s) (files s) (clock s) (cookie_count s) x.

(** A computation on the scraper: the state survives an exception. *)
Definition M (A : Type) : Type := Scraper -> outcome A * Scraper.

Definition ret {A} (a : A) : M A := fun s => (Val a, s).
Definition raise {A} (e : exn) : M A := fun s => (Exc e, s).
Definition bind {A B} (c : M A) (f : A -> M B) : M B :=
  fun s => match c s with
           | (Val a, s') => f a s'
           | (Exc e, s') => (Exc e, s')
           end.
Definition lift {A} (o : outcome A) : M A := fun s => (o, s).

(** [try: c  except ...:] where [handler e] is [Some k] when one of the
    except clauses accepts [e], tried in the order in which they are written. *)
Definition try_except {A} (c : M A) (handler : exn -> option (M A)) : M A :=
  fun s => match c s with
           | (Val a, s') => (Val a, s')
           | (Exc e, s') => match handler e with
                            | Some k => k s'
                            | None => (Exc e, s')
                            end
           end.

Declare Scope py_scope.
Delimit Scope py_scope with py.
Notation "x <- c ;; k" := (bind c (fun x => k))
  (at level 61, c at next level, right associativity) : py_scope.
Notation "' p <- c ;; k" := (bind c (fun x => match x with p => k end))
  (at level 61, p pattern, c at next level, right associativity) : py_scope.
Notation "c ;; k" := (bind c (fun _ => k))
  (at level 61, right associativity) : py_scope.
Local Open Scope py_scope.

Definition log (lvl : LogLevel) (msg : string) : M unit :=
  fun s => (Val tt, set_logged (logged s ++ [(lvl, msg)]) s).

(** The instant of the next external call. *)
Definition tick : M nat :=
  fun s => (Val (clock s), set_clock (S (clock s)) s).

Definition write_file (path content : string) : M unit :=
  fun s => (Val tt, set_files (files s ++ [(path, content)]) s).

Definition when (b : bool) (c : M unit) : M unit := if b then c else ret tt.

(** Reading the scraper object and the two locals. *)
Definition get : M Scraper := fun s => (Val s, s).
Definition set_count (n : nat) : M unit := fun s => (Val tt, set_cookie_count n s).
Definition add_count (n : nat) : M unit :=
  fun s => (Val tt, set_cookie_count (cookie_count s + n) s).
Definition get_count : M nat := fun s => (Val (cookie_count s), s).
Definition set_weird (b : bool) : M unit :=
  fun s => (Val tt, set_weird_stuff_occurred b s).

(** A [requests.Response]: what the scrapers read of it. *)
Record Response : Type := MkResponse { status_code : Z; text : string }.

(** A script element of the rendered page: [e.get_attribute(name)] at a
    given instant (an element may go stale between two reads). *)
Definition Element : Type := nat -> string -> outcome (option string).

(** Everything outside the process.  The first argument of a field is the
    instant of the call. *)
Record World : Type := MkWorld {
  (* requests.get(url, headers=...) and session.get(url, headers=...) *)
  requests_get : nat -> string -> list (string * string) -> outcome Response;
  (* self.webdriver.get(url) *)
  wd_get : nat -> string -> outcome unit;
  (* self.webdriver.switch_to.alert() and alert.dismiss() *)
  wd_switch_to_alert : nat -> outcome unit;
  wd_alert_dismiss : nat -> outcome unit;
  (* self.webdriver.switch_to.default_content() *)
  wd_default_content : nat -> outcome unit;
  (* self.webdriver.implicitly_wait(5) *)
  wd_implicitly_wait : nat -> outcome unit;
  (* driver.find_elements_by_tag_name("script") *)
  wd_find_scripts : nat -> outcome (list Element);
  (* self.webdriver.page_source *)
  wd_page_source : nat -> outcome string;
  (* how many more polls a WebDriverWait started now makes before it times out *)
  wd_wait_polls : nat -> nat;
  (* json.loads(text) *)
  json_loads : string -> outcome pyval;
  (* ast.literal_eval(text) *)
  literal_eval : string -> outcome pyval;
  (* js2py.eval_js(source)() *)
  eval_js_call : string -> outcome pyval;
  (* re.compile(f"...{cbid}...").search(page_source), group 2 *)
  referer_search : string -> string -> outcome (option string)
}.

(** From here on [++] joins strings; lists are joined with [%list]. *)
Local Open Scope string_scope.

(** [except (C1, C2, ...) as ex: k ex] and a chain of such clauses. *)
Definition except_ {A} (classes : list exn_class) (k : exn -> M A)
  : exn -> option (M A) :=
  fun e => if existsb (isinstance e) classes then Some (k e) else None.
Fixpoint clauses {A} (hs : list (exn -> option (M A))) : exn -> option (M A) :=
  fun e => match hs with
           | [] => None
           | h :: t => match h e with Some k => Some k | None => clauses t e end
           end.

(** The double quote, for messages that contain one. *)
Definition dq : string := String (ascii_of_nat 34) EmptyString.

(** An [IntEnum] member inside an f-string is formatted as its integer. *)
Definition fmt_state (st : CrawlState) : string := str_of_Z (CrawlState_value st).

(* ===================================================================== *)
(** ** base_scraper.py: class BaseScraper                                 *)
(* ===================================================================== *)

Definition fmt_report (report : option string) : string :=
  match report with Some r => r | None => "None" end.

(** [d[k] = v] on a dictionary kept in insertion order. *)
Fixpoint dict_set {A} (k : string) (v : A) (d : list (string * A)) : list (string * A) :=
  match d with
  | [] => [(k, v)]
  | (k', v') :: t => if String.eqb k' k then (k', v) :: t else (k', v') :: dict_set k v t
  end.

(** [update_crawl_stats] (lines 98-119). *)
Definition update_crawl_stats (url : string) (state : CrawlState)
                              (report : option string) : M unit :=
  fun s =>
    let s1 := set_status_counts
                (fun e => if CrawlState_eqb e state then S (status_counts s e)
                          else status_counts s e) s in
    let s2 := match report with
              | Some r => set_crawl_log (dict_set url (state, r) (crawl_log s1)) s1
              | None => s1
              end in
    let s3 := if negb (CrawlState_eqb state SUCCESS)
              then set_failed_urls (failed_urls s2 ++ [url])%list s2 else s2 in
    (log DEBUG ("Crawl Result for " ++ dq ++ url ++ dq ++ " = " ++ fmt_state state) ;;
     log DEBUG ("Details: " ++ fmt_report report)) s3.

Definition ident_hashable (k : cookie_ident) : bool :=
  let '(name, domain, _) := k in hashable name && hashable domain.

Definition ident_eqb (a b : cookie_ident) : bool :=
  let '(n1, d1, p1) := a in
  let '(n2, d2, p2) := b in
  key_eqb n1 n2 && key_eqb d1 d2 && String.eqb p1 p2.

(** [cookie_labels[k]] and [k in cookie_labels]. *)
Fixpoint labels_get (k : cookie_ident) (d : list (cookie_ident * list string))
  : option (list string) :=
  match d with
  | [] => None
  | (k', v) :: t => if ident_eqb k' k then Some v else labels_get k t
  end.

(** [cookie_labels[k].append(cat_name)] for a key that is present. *)
Fixpoint labels_append (k : cookie_ident) (cat_name : string)
                       (d : list (cookie_ident * list string)) :=
  match d with
  | [] => []
  | (k', v) :: t => if ident_eqb k' k then (k', (v ++ [cat_name])%list) :: t
                    else (k', v) :: labels_append k cat_name t
  end.

Definition in_strings (x : string) (l : list string) : bool :=
  existsb (String.eqb x) l.

(** [collect_cookie_dat] (lines 362-376).  Looking the key up hashes it,
    which raises [TypeError] when the name or the domain is a list or a
    dictionary. *)
Definition collect_cookie_dat (site_url : string) (name domain : pyval)
    (path cat_name : string) (cat_id : CookieCategory) (purpose type : pyval)
  : M unit :=
  let cookie_ident := (name, domain, path) in
  if negb (ident_hashable cookie_ident) then
    raise (PyExc TypeError "unhashable type")
  else fun s =>
    let labels :=
      match labels_get cookie_ident (cookie_labels s) with
      | Some existing_categories =>
          if negb (in_strings cat_name existing_categories)
          then labels_append cookie_ident cat_name (cookie_labels s)
          else cookie_labels s
      | None => (cookie_labels s ++ [(cookie_ident, [cat_name])])%list
      end in
    (Val tt,
     set_database_cookie_data
       (database_cookie_data s ++
        [MkCookie site_url name domain path cat_id cat_name purpose type])%list
       (set_cookie_labels labels s)).

Section WithWorld.

Variable W : World.

(** An external call: take the instant, ask the world. *)
Definition external {A} (f : nat -> outcome A) : M A :=
  t <- tick ;; lift (f t).

(** [static_get_request] (lines 300-343).  The result is
    [(response or None, state, report)]. *)
Definition static_get_request (url : string) (headers : list (string * string))
  : M (option Response * CrawlState * string) :=
  try_except
    (r <- external (fun t => requests_get W t url headers) ;;
     if (status_code r =? 525)%Z then
       ret (Some r, SSL_ERROR, "Error Code: 525 -- SSL Handshake with Cloudflare failed.")
     else if (status_code r >=? 400)%Z then
       ret (Some r, HTTP_ERROR, "Error Status Code: " ++ str_of_Z (status_code r))
     else
       ret (Some r, SUCCESS, str_of_Z (status_code r)))
    (clauses
       [except_ [HTTPError] (fun ex =>
          ret (None, HTTP_ERROR,
               "HTTP Error Exception for URL " ++ dq ++ url ++ dq ++ ". Details: "
               ++ str_ex ex));
        except_ [SSLError] (fun ex =>
          ret (None, SSL_ERROR,
               "SSL Certificate issue encountered when connecting to " ++ url
               ++ ". -- Details: " ++ str_ex ex));
        except_ [URLRequired; MissingSchema] (fun ex =>
          ret (None, MALFORMED_URL,
               "Possibly malformed URL: " ++ dq ++ url ++ dq ++ " -- Details: "
               ++ dq ++ str_ex ex ++ dq));
        except_ [ConnectionError_; ProxyError; TooManyRedirects; Timeout] (fun ex =>
          ret (None, CONN_FAILED,
               "Connection to " ++ dq ++ url ++ dq ++ " failed. -- Details: "
               ++ str_ex ex));
        except_ [Exception_] (fun ex =>
          ret (None, UNKNOWN, "Unknown Error: " ++ type_ex ex ++ " " ++ str_ex ex))]).

(** [driver_get] (lines 252-286). *)
Definition driver_get (url : string) : M (CrawlState * option string) :=
  s <- get ;;
  if negb (webdriver s) then raise (PyExc RuntimeError "Webdriver isn't running!")
  else
  try_except
    (external (fun t => wd_get W t url) ;;
     try_except
       (external (wd_switch_to_alert W) ;;
        external (wd_alert_dismiss W))
       (clauses [except_ [NoAlertPresentException] (fun _ => ret tt)]) ;;
     external (wd_default_content W) ;;
     ret (SUCCESS, None))
    (clauses
       [except_ [TimeoutException] (fun ex =>
          log WARNING "Timeout reached, but site may have loaded required data anyways, continuing." ;;
          ret (SUCCESS, Some (type_ex ex ++ str_ex ex)));
        except_ [InvalidArgumentException] (fun ex =>
          ret (MALFORMED_URL, Some (str_ex ex)));
        except_ [InsecureCertificateException] (fun ex =>
          ret (SSL_ERROR, Some (str_ex ex)));
        except_ [WebDriverException] (fun ex =>
          if str_contains "Reached error page:" (str_ex ex)
          then ret (CONN_FAILED, Some (str_ex ex))
          else ret (UNKNOWN, Some (type_ex ex ++ str_ex ex)))]).

(** [driver_get_current_pagesource] (lines 289-297). *)
Definition driver_get_current_pagesource : M string :=
  s <- get ;;
  if negb (webdriver s) then raise (PyExc RuntimeError "Webdriver isn't running!")
  else external (wd_page_source W).

End WithWorld.

(** [for x in l: body x] *)
Fixpoint for_each {A} (l : list A) (body : A -> M unit) : M unit :=
  match l with
  | [] => ret tt
  | x :: t => body x ;; for_each t body
  end.

(** A loop whose body may [return]: [Some r] leaves the loop with [r],
    [None] goes on to the next element. *)
Fixpoint for_return {A R} (l : list A) (body : A -> M (option R)) : M (option R) :=
  match l with
  | [] => ret None
  | x :: t => r <- body x ;;
              match r with
              | Some v => ret (Some v)
              | None => for_return t body
              end
  end.

(** [c[key] if key in c else None] *)
Definition optional_field (c : pyval) (key : string) : M pyval :=
  present <- lift (contains_key key c) ;;
  if present then lift (getitem c key) else ret PNone.

(* ===================================================================== *)
(** ** onetrust_scraper.py                                                *)
(* ===================================================================== *)

Module OneTrust.

(** Base patterns of Variant A (lines 38-43), each with its source text. *)
Definition cookielaw_base_pattern : regex := Group 1 (lit "https://cdn.cookielaw.org").
Definition optanon_base_pattern : regex :=
  Group 1 (lit "https://optanon.blob.core.windows.net").
Definition cookiecdn_base_pattern : regex :=
  Group 1 (lit "https://cookie-cdn.cookiepro.com").
Definition cookiepro_base_pattern : regex :=
  Group 1 (lit "https://cookiepro.blob.core.windows.net").

Definition base_patterns : list (string * regex) :=
  [("(https://cdn\.cookielaw\.org)", cookielaw_base_pattern);
   ("(https://optanon\.blob\.core\.windows\.net)", optanon_base_pattern);
   ("(https://cookie-cdn\.cookiepro\.com)", cookiecdn_base_pattern);
   ("(https://cookiepro\.blob\.core\.windows\.net)", cookiepro_base_pattern)].

(** Direct script links of Variant B (lines 46-51):
    prefix, [uuid_pattern], [[a-zA-Z0-9_-]*], [\.js]. *)
Definition is_word_or_dash (c : ascii) : bool :=
  is_alpha c || is_digit c || Ascii.eqb c "_" || Ascii.eqb c "-".
Definition consent_js (prefix : string) : regex :=
  seqs [lit prefix; uuid_pattern; Star (Sym is_word_or_dash); lit ".js"].

Definition v2_cookielaw_pattern : regex := consent_js "https://cdn.cookielaw.org/consent/".
Definition v2_optanon_pattern : regex :=
  consent_js "https://optanon.blob.core.windows.net/consent/".
Definition v2_cookiepro_cdn_pattern : regex :=
  consent_js "https://cookie-cdn.cookiepro.com/consent/".
Definition v2_cookiepro_blob_pattern : regex :=
  consent_js "https://cookiepro.blob.core.windows.net/consent/".

Definition variantB_patterns : list regex :=
  [v2_cookielaw_pattern; v2_optanon_pattern; v2_cookiepro_cdn_pattern;
   v2_cookiepro_cdn_pattern].

(** Keyword indicators (lines 65-71), all compiled with [re.IGNORECASE]. *)
Definition necessary_keywords : list string := ["necessary"; "essential"; "required"].
Definition analytical_keywords : list string :=
  ["measurement"; "analytic"; "anonym"; "research"; "performance"].
Definition functional_keywords : list string :=
  ["functional"; "preference"; "security"; "secure"].
Definition advertise_keywords : list string :=
  ["Ad Selection"; "advertising"; "advertise"; "targeting";
   "sale of personal data"; "marketing"; "tracking"; "tracker"; "fingerprint"].

Definition necessary_pattern : regex := Group 1 (alts (map lit_i necessary_keywords)).
Definition analytical_pattern : regex := Group 1 (alts (map lit_i analytical_keywords)).
Definition functional_pattern : regex := Group 1 (alts (map lit_i functional_keywords)).
Definition advertise_pattern : regex :=
  Group 1 (Alt (seqs [Bol; lit_i "ads"; Star dot])
          (Alt (seqs [Star dot; plus space; lit_i "ads"; Star dot])
               (alts (map lit_i advertise_keywords)))).
(** [uncategori[zs]e|unknown] *)
Definition uncat_pattern : regex :=
  Group 1 (Alt (seqs [lit_i "uncategori";
                      Sym (fun c => Ascii.eqb (lower c) "z" || Ascii.eqb (lower c) "s");
                      lit_i "e"])
               (lit_i "unknown")).

(** [category_lookup_en] (lines 75-83): the category it returns for a string.
    The warning it logs in the last branch is issued by [cat_lookup] below. *)
Definition category_lookup_en (cat_name : string) : CookieCategory :=
  if is_match (re_search advertise_pattern cat_name) then ADVERTISING
  else if is_match (re_search necessary_pattern cat_name) then ESSENTIAL
  else if is_match (re_search analytical_pattern cat_name) then ANALYTICAL
  else if is_match (re_search functional_pattern cat_name) then FUNCTIONAL
  else if is_match (re_search uncat_pattern cat_name) then UNCLASSIFIED
  else CAT_UNKNOWN.

(** [category_lookup_en] on a name of code points of any size: the five
    patterns are of the kind that [as_latin1] is made for, so that their
    searches on the name are their searches on its image. *)
Definition category_lookup_en_unicode (cat_name : list N) : CookieCategory :=
  category_lookup_en (str (map as_latin1 cat_name)).

(** The call [cat_lookup(cat_name)] on whatever the document holds:
    [pattern.search] raises [TypeError] on anything but a string. *)
Definition cat_lookup (cat_name : pyval) : M CookieCategory :=
  match cat_name with
  | PStr name =>
      let cat := category_lookup_en name in
      match cat with
      | CAT_UNKNOWN => log WARNING ("Unrecognized category name: " ++ name)
      | _ => ret tt
      end ;;
      ret cat
  | _ => raise (PyExc TypeError "expected string or bytes-like object")
  end.

Section Variants.

Variable W : World.

(** [e.get_attribute(name)] *)
Definition get_attribute (e : Element) (name : string) : M (option string) :=
  external (fun t => e t name).

(** [str(x)] of an attribute value: [None] becomes the text [None]. *)
Definition str_attr (a : option string) : string :=
  match a with Some v => v | None => "None" end.

(** The inner loop of lines 111-118: the first base pattern that matches
    the source decides; every failed pattern is logged. *)
Fixpoint try_base_patterns (pats : list (string * regex)) (source_stub dd_id : string)
  : M (option (string * string * CrawlState * option string)) :=
  match pats with
  | [] =>
      log WARNING ("Found a data-domain-script tag with unknown source URL: "
                   ++ source_stub ++ ". Script ID: " ++ dd_id) ;;
      ret None
  | (src, pat) :: rest =>
      match re_match_ pat source_stub with
      | Some m =>
          ret (Some (str_attr (group m 1), dd_id, SUCCESS,
                     Some "Found data-domain-script id"))
      | None =>
          log DEBUG ("no match for pattern " ++ src ++ " on " ++ source_stub) ;;
          try_base_patterns rest source_stub dd_id
      end
  end.

(** The body of the loop of lines 101-126 for one script element. *)
Definition variantA_check_element (e : Element)
  : M (option (string * string * CrawlState * option string)) :=
  try_except
    (a <- get_attribute e "data-domain-script" ;;
     let dd_id := str_attr a in
     if is_match (re_match_ uuid_pattern dd_id) then
       source_stub <- get_attribute e "src" ;;
       match source_stub with
       | None =>
           log WARNING ("Found a script tag with the data-domain attribute, but no URL? Script ID: " ++ dd_id) ;;
           ret None
       | Some source_stub => try_base_patterns base_patterns source_stub dd_id
       end
     else ret None)
    (clauses
       [except_ [StaleElementReferenceException] (fun ex =>
          log WARNING "Stale Element Exception -- skipping to next script tag." ;;
          log DEBUG ("Exception Details: " ++ type_ex ex ++ " " ++ str_ex ex) ;;
          ret None);
        except_ [Exception_] (fun ex =>
          ret (Some ("", "", UNKNOWN,
                     Some ("Unexpected error while retrieving dd-id: : "
                           ++ type_ex ex ++ " " ++ str_ex ex))))]).

(** [variantA_try_retrieve_uuid] (lines 88-133). *)
Definition variantA_try_retrieve_uuid (url : string)
  : M (string * string * CrawlState * option string) :=
  '(state, report) <- driver_get W url ;;
  if negb (CrawlState_eqb state SUCCESS) then ret ("", "", state, report)
  else
    found <-
      try_except
        (external (wd_implicitly_wait W) ;;
         elems <- external (wd_find_scripts W) ;;
         for_return elems variantA_check_element)
        (clauses
           [except_ [TimeoutException] (fun _ =>
              log ERROR "Timeout on trying to retrieve data domain id value." ;;
              ret None)]) ;;
    match found with
    | Some r => ret r
    | None =>
        ret ("", "", PARSE_ERROR,
             Some ("Could not find data-domain script id on website: " ++ url))
    end.

(** The loop of lines 159-164 over the rule sets. *)
Definition collect_ruleset_ids (rulesets : list pyval) : M (list pyval) :=
  fold_left
    (fun (acc : M (list pyval)) (r : pyval) =>
       ids <- acc ;;
       languageset <- lift (getitem r "LanguageSwitcherPlaceholder") ;;
       if is_None languageset then ret ids
       else
         vals <- lift (py_values languageset) ;;
         if existsb (fun v => py_eq_str v "en") vals then
           id <- lift (getitem r "Id") ;;
           ret (ids ++ [id])%list
         else ret ids)
    rulesets (ret []).

(** [variantA_try_retrieve_ruleset_id] (lines 136-171).  [json.loads] is
    called before the [try] block is entered. *)
Definition variantA_try_retrieve_ruleset_id (domain_url dd_id : string)
  : M (list pyval * CrawlState * option string) :=
  let target_url := domain_url ++ "/consent/" ++ dd_id ++ "/" ++ dd_id ++ ".json" in
  '(ruleset_json, state, report) <- static_get_request W target_url [] ;;
  if negb (CrawlState_eqb state SUCCESS) then ret ([], state, Some report)
  else
    rs_dict <- lift (json_loads W (match ruleset_json with
                                   | Some r => text r | None => "" end)) ;;
    try_except
      (rulesets <- lift (getitem rs_dict "RuleSet") ;;
       if is_None rulesets then
         ret ([], PARSE_ERROR,
              Some ("No valid 'RuleSet' element found on " ++ target_url))
       else
         rs <- lift (iterate rulesets) ;;
         ids <- collect_ruleset_ids rs ;;
         if Nat.eqb (length ids) 0 then
           ret ([], PARSE_ERROR,
                Some ("No valid language ruleset found on " ++ target_url))
         else
           ret (ids, SUCCESS,
                Some ("Found " ++ str_of_nat (length ids) ++ " ruleset ids")))
      (clauses
         [except_ [AttributeError; KeyError] (fun kex =>
            ret ([], PARSE_ERROR,
                 Some ("Key Error on " ++ target_url ++ " -- Details: " ++ str_ex kex)))]).

(** One cookie entry of Variant A (lines 215-218 and 223-226). *)
Definition variantA_collect_cookie (website_url : string) (cat_name : string)
    (cat_id : CookieCategory) (c : pyval) : M unit :=
  cdesc <- optional_field c "description" ;;
  name <- lift (getitem c "Name") ;;
  host <- lift (getitem c "Host") ;;
  collect_cookie_dat website_url name host "/" cat_name cat_id cdesc PNone ;;
  add_count 1.

(** The name under which a group is recorded once [cat_lookup] accepted it. *)
Definition as_name (v : pyval) : string := py_str v.

(** The body of the [try] block of lines 198-226 for one rule set. *)
Definition variantA_parse_ruleset (website_url : string) (body : string) : M unit :=
  json_data <- lift (json_loads W body) ;;
  json_body <- lift (getitem json_data "DomainData") ;;
  language <- lift (getitem json_body "Language") ;;
  culture <- lift (getitem language "Culture") ;;
  english <- lift (contains_key "en" culture) ;;
  if negb english then
    log WARNING ("Unrecognized language in ruleset: " ++ py_str culture)
  else
    domain_data <- lift (getitem json_data "DomainData") ;;
    group_list <- lift (getitem domain_data "Groups") ;;
    groups <- lift (iterate group_list) ;;
    for_each groups (fun g_contents =>
      cat_name <- lift (getitem g_contents "GroupName") ;;
      cat_id <- cat_lookup cat_name ;;
      firstp_cookies <- lift (getitem g_contents "FirstPartyCookies") ;;
      firstp <- lift (iterate firstp_cookies) ;;
      for_each firstp
        (variantA_collect_cookie website_url (as_name cat_name) cat_id) ;;
      thirdp_cookies <- lift (getitem g_contents "Hosts") ;;
      thirdp <- lift (iterate thirdp_cookies) ;;
      for_each thirdp (fun host_dat =>
        host_cookies <- lift (getitem host_dat "Cookies") ;;
        cs <- lift (iterate host_cookies) ;;
        for_each cs
          (variantA_collect_cookie website_url (as_name cat_name) cat_id))).

(** One round of the loop of lines 188-233: fetch one rule set and parse it. *)
Definition variantA_fetch_ruleset (website_url domain_url dd_id : string) (i : pyval)
  : M unit :=
  let curr_ruleset_url :=
    domain_url ++ "/consent/" ++ dd_id ++ "/" ++ py_str i ++ "/en.json" in
  '(cc_json, state, report) <- static_get_request W curr_ruleset_url [] ;;
  if negb (CrawlState_eqb state SUCCESS) then
    log ERROR ("Failed to retrieve ruleset at: " ++ curr_ruleset_url) ;;
    log ERROR ("Details: " ++ fmt_state state ++ " -- " ++ report)
  else
    try_except
      (variantA_parse_ruleset website_url
         (match cc_json with Some r => text r | None => "" end))
      (clauses
         [except_ [AttributeError; KeyError] (fun ex =>
            log ERROR ("Could not retrieve an expected attribute from json for ruleset : "
                       ++ curr_ruleset_url ++ ".") ;;
            log ERROR ("Details: " ++ type_ex ex ++ " -- " ++ str_ex ex));
          except_ [JSONDecodeError] (fun ex =>
            log ERROR ("Failed to decode json file for ruleset : " ++ curr_ruleset_url) ;;
            log ERROR ("Details: " ++ type_ex ex ++ " -- " ++ str_ex ex))]).

(** [variantA_get_and_parse_json] (lines 174-239). *)
Definition variantA_get_and_parse_json (website_url domain_url dd_id : string)
    (ruleset_ids : list pyval) : M (nat * CrawlState * option string) :=
  set_count 0 ;;
  for_each ruleset_ids (variantA_fetch_ruleset website_url domain_url dd_id) ;;
  cookie_count <- get_count ;;
  if Nat.eqb cookie_count 0 then
    log ERROR ("Could not extract any cookies for ddid: " ++ dd_id ++ " and rulesets "
               ++ py_str (PList ruleset_ids)) ;;
    ret (cookie_count, PARSE_ERROR,
         Some ("Failed to extract cookies from rulesets: " ++ py_str (PList ruleset_ids)))
  else
    ret (cookie_count, SUCCESS,
         Some ("Cookies Extracted: " ++ str_of_nat cookie_count)).

(** The loop of lines 262-265: the first pattern that matches the source. *)
Fixpoint first_match (patterns : list regex) (source : string) : option re_match :=
  match patterns with
  | [] => None
  | pattern :: rest =>
      match re_match_ pattern source with
      | Some matchobj => Some matchobj
      | None => first_match rest source
      end
  end.

(** The body of the loop of lines 257-272 for one script element. *)
Definition variantB_check_element (e : Element)
  : M (option (string * CrawlState * option string)) :=
  try_except
    (source <- get_attribute e "src" ;;
     match source with
     | Some source =>
         if Nat.eqb (length (chars source)) 0 then ret None
         else
           match first_match variantB_patterns source with
           | Some matchobj =>
               ret (Some (str_attr (group matchobj 0), SUCCESS,
                          Some "Found OneTrust consent javascript link"))
           | None => ret None
           end
     | None => ret None
     end)
    (clauses
       [except_ [StaleElementReferenceException] (fun ex =>
          log WARNING "Stale element exception -- skipping to next script tag." ;;
          log DEBUG ("Exception Details: " ++ type_ex ex ++ "  -- " ++ str_ex ex) ;;
          ret None);
        except_ [Exception_] (fun ex =>
          ret (Some ("", UNKNOWN,
                     Some ("Unexpected error while retrieving javascript link: : "
                           ++ type_ex ex ++ " " ++ str_ex ex))))]).

(** [variantB_retrieve_script_path] (lines 243-279). *)
Definition variantB_retrieve_script_path (url : string)
  : M (string * CrawlState * option string) :=
  '(state, report) <- driver_get W url ;;
  if negb (CrawlState_eqb state SUCCESS) then ret ("", state, report)
  else
    try_except
      (external (wd_implicitly_wait W) ;;
       elems <- external (wd_find_scripts W) ;;
       found <- for_return elems variantB_check_element ;;
       match found with
       | Some r => ret r
       | None =>
           ret ("", PARSE_ERROR,
                Some "Variant B: Could not find OneTrust javascript url in any tag.")
       end)
      (clauses
         [except_ [TimeoutException] (fun _ =>
            log ERROR "Variant B: Timeout on trying to retrieve onetrust javascript link." ;;
            ret ("", CONN_FAILED,
                 Some "Variant B: Timed out trying to find OneTrust javascript tags."))]).

(** [,\s*Groups:\s*\[] (line 296). *)
Definition groups_marker : regex :=
  seqs [chr ","; Star space; lit "Groups:"; Star space; chr "["].

(** The [while] loop of lines 304-307, started at index [i] with [l] the
    text from that index on; the result is the index where it stops. *)
Fixpoint scan_brackets (l : list ascii) (i open_brackets : nat) : nat :=
  match l with
  | [] => i
  | c :: t =>
      if Nat.eqb open_brackets 0 then i
      else if Ascii.eqb c "[" then scan_brackets t (S i) (S open_brackets)
      else if Ascii.eqb c "]" then scan_brackets t (S i) (open_brackets - 1)
      else scan_brackets t (S i) open_brackets
  end.

(** [variantB_parse_script_for_object] (lines 282-319).  The script is
    fetched with a bare [requests.get] before the [try] block. *)
Definition variantB_parse_script_for_object (script_url : string)
  : M (option pyval * CrawlState * option string) :=
  resp <- external (fun t => requests_get W t script_url []) ;;
  let cookielaw_script := purge_newlines (strip (text resp)) in
  let matchobj := re_search groups_marker cookielaw_script in
  try_except
    (match matchobj with
     | Some m =>
         let startpoint := mt_start m in
         let i := scan_brackets (skipn (mt_end m) (chars cookielaw_script))
                                (mt_end m) 1 in
         let group_string := str (slice (chars cookielaw_script) (startpoint + 1) i) in
         let js_object_string := "function $() {return {" ++ group_string ++ "}};" in
         data_dict <- lift (eval_js_call W js_object_string) ;;
         ret (Some data_dict, SUCCESS,
              Some "Successfully extracted objects from javascript")
     | None =>
         ret (None, PARSE_ERROR,
              Some "Failed to find desired javascript object in Onetrust consent script.")
     end)
    (clauses
       [except_ [Exception_] (fun ex =>
          ret (None, UNKNOWN,
               Some ("Unexpected error while parsing OneTrust javascript: : "
                     ++ type_ex ex ++ " " ++ str_ex ex)))]).

(** The body of the [try] block of lines 333-349. *)
Definition variantB_walk_groups (website_url : string) (consent_data : pyval) : M unit :=
  g_data <- lift (getitem consent_data "Groups") ;;
  groups <- lift (iterate g_data) ;;
  for_each groups (fun g_contents =>
    parent <- lift (getitem g_contents "Parent") ;;
    owner <- (if is_None parent then ret g_contents
              else lift (getitem g_contents "Parent")) ;;
    sets <- lift (getitem owner "GroupLanguagePropertiesSets") ;;
    set0 <- lift (getindex sets 0) ;;
    group_name <- lift (getitem set0 "GroupName") ;;
    cat_name <- lift (getitem group_name "Text") ;;
    cat_id <- cat_lookup cat_name ;;
    cookies <- lift (getitem g_contents "Cookies") ;;
    cs <- lift (iterate cookies) ;;
    for_each cs (fun cookie_dat =>
      cname <- lift (getitem cookie_dat "Name") ;;
      chost <- lift (getitem cookie_dat "Host") ;;
      cdesc <- optional_field cookie_dat "description" ;;
      collect_cookie_dat website_url cname chost "/" (as_name cat_name) cat_id
                         cdesc PNone ;;
      add_count 1)).

(** [variantB_extract_cookies_from_dict] (lines 322-358). *)
Definition variantB_extract_cookies_from_dict (website_url : string)
    (consent_data : pyval) : M (nat * CrawlState * option string) :=
  set_count 0 ;;
  failed <-
    try_except
      (variantB_walk_groups website_url consent_data ;; ret None)
      (clauses
         [except_ [AttributeError; KeyError] (fun ex =>
            log ERROR "Could not retrieve an expected attribute from consent data dict." ;;
            ret (Some (0, PARSE_ERROR, Some (type_ex ex ++ " - " ++ str_ex ex))))]) ;;
  match failed with
  | Some r => ret r
  | None =>
      cookie_count <- get_count ;;
      if Nat.eqb cookie_count 0 then
        ret (0, MALFORM_RESP, Some "Consent Platform Script contained zero cookies!")
      else
        ret (cookie_count, SUCCESS,
             Some ("Successfully retrieved " ++ str_of_nat cookie_count ++ " cookies."))
  end.

(** [if state != CrawlState.SUCCESS: raise VariantFailedException(state, report)] *)
Definition check_state (state : CrawlState) (report : option string) : M unit :=
  if negb (CrawlState_eqb state SUCCESS) then raise (VariantFailed state report)
  else ret tt.

(** Lines 378-398: the three parts of Variant A.  [Some true] is the
    [return True] of line 398. *)
Definition variantA_block (url : string) : M (option bool) :=
  '(domain_url, dd_id, state, report) <- variantA_try_retrieve_uuid url ;;
  check_state state report ;;
  log DEBUG ("Onetrust data domain url = " ++ domain_url ++ "/" ++ dd_id) ;;
  '(rs_ids, state, report) <- variantA_try_retrieve_ruleset_id domain_url dd_id ;;
  check_state state report ;;
  log INFO ("Found " ++ str_of_nat (length rs_ids) ++ " ruleset ids") ;;
  log DEBUG (py_str (PList rs_ids)) ;;
  '(cookie_count, state, report) <-
     variantA_get_and_parse_json url domain_url dd_id rs_ids ;;
  check_state state report ;;
  update_crawl_stats url state report ;;
  log INFO ("VARIANT A SUCCESS -- retrieved " ++ str_of_nat cookie_count ++ " cookies") ;;
  ret (Some true).

(** Lines 404-425: the three parts of Variant B. *)
Definition variantB_block (url : string) : M bool :=
  log INFO "Attempting Variant B" ;;
  '(script_url, state, report) <- variantB_retrieve_script_path url ;;
  check_state state report ;;
  log DEBUG ("Onetrust javascript url = " ++ script_url) ;;
  '(data_dict, state, report) <- variantB_parse_script_for_object script_url ;;
  check_state state report ;;
  log DEBUG "Successfully retrieved OneTrust Consent javascript object data." ;;
  '(cookie_count, state, report) <-
     variantB_extract_cookies_from_dict url
       (match data_dict with Some d => d | None => PNone end) ;;
  check_state state report ;;
  update_crawl_stats url state report ;;
  log INFO ("VARIANT B SUCCESS -- retrieved " ++ str_of_nat cookie_count ++ " cookies") ;;
  ret true.

(** [except VariantFailedException as v: k v.crawlstate v.message] *)
Definition except_variant_failed {A} (k : CrawlState -> option string -> M A)
  : exn -> option (M A) :=
  fun e => match e with
           | VariantFailed crawlstate message => Some (k crawlstate message)
           | PyExc _ _ => None
           end.

(** [scrape_website] (lines 361-429). *)
Definition scrape_website (url : string) : M bool :=
  '(r, status, report) <- static_get_request W url [] ;;
  if negb (CrawlState_eqb status SUCCESS) then
    update_crawl_stats url status (Some report) ;;
    ret false
  else
    log DEBUG ("Connection to " ++ url ++ " successful.") ;;
    a <- try_except (variantA_block url)
           (except_variant_failed (fun crawlstate message =>
              log WARNING ("Variant A failed. Reason: " ++ fmt_state crawlstate
                           ++ " -- " ++ fmt_report message) ;;
              ret None)) ;;
    match a with
    | Some b => ret b
    | None =>
        try_except (variantB_block url)
          (except_variant_failed (fun crawlstate message =>
             update_crawl_stats url crawlstate message ;;
             ret false))
    end.

End Variants.
End OneTrust.

(* ===================================================================== *)
(** ** selenium.webdriver.support.ui.WebDriverWait                        *)
(* ===================================================================== *)

(** [WebDriverWait(driver, 3).until(method)]: [method] is called, and called
    again after each pause, until it returns something truthy; when the
    time is up [TimeoutException] is raised.  The number of further polls
    that fit into the time is given by the world. *)
Fixpoint poll_until {A} (method : M (option A)) (more : nat) : M A :=
  value <- method ;;
  match value with
  | Some v => ret v
  | None => match more with
            | 0 => raise (PyExc TimeoutException "")
            | S k => poll_until method k
            end
  end.
Definition wait_until (W : World) {A} (method : M (option A)) : M A :=
  t <- tick ;; poll_until method (wd_wait_polls W t).

(** [os.path.join(directory, name)] for a relative [name]. *)
Definition path_join (directory name : string) : string := directory ++ "/" ++ name.

(* ===================================================================== *)
(** ** cookiebot_scraper.py                                               *)
(* ===================================================================== *)

Module Cookiebot.

Definition cookiebot_catnames : list string :=
  ["Necessary"; "Preference"; "Statistics"; "Advertising"; "Unclassified"].

(** [name_to_cat] (lines 24-28); a missing key raises [KeyError]. *)
Definition name_to_cat (catname : string) : outcome CookieCategory :=
  if String.eqb catname "Necessary" then Val ESSENTIAL
  else if String.eqb catname "Preference" then Val FUNCTIONAL
  else if String.eqb catname "Statistics" then Val ANALYTICAL
  else if String.eqb catname "Advertising" then Val ADVERTISING
  else if String.eqb catname "Unclassified" then Val UNCLASSIFIED
  else Exc (PyExc KeyError ("'" ++ catname ++ "'")).

(** The UUID with its five groups of hexadecimal digits, as it is written
    out in lines 33-34. *)
Definition uuid_group : regex := Group 1 uuid_pattern.
Definition variant_2_pattern : regex :=
  seqs [lit "https://consent.cookiebot.com/"; uuid_group; lit "/cc.js"].
Definition variant_3_pattern : regex :=
  seqs [Sym (fun c => Ascii.eqb c "&" || Ascii.eqb c "?"); lit "cbid="; uuid_group].

(** The prefix [CookieConsentDialog.cookieTable<Bucket> = ], then group 1
    made of a greedy run of any characters but newlines, then a semicolon. *)
Definition table_pattern (bucket : string) : regex :=
  seqs [lit ("CookieConsentDialog.cookieTable" ++ bucket ++ " = ");
        Group 1 (Star dot); chr ";"].

(** [category_patterns] (lines 38-42); [CookieCategory.UNKNOWN] is no key. *)
Definition category_patterns (cat_id : CookieCategory) : outcome regex :=
  match cat_id with
  | ESSENTIAL => Val (table_pattern "Necessary")
  | FUNCTIONAL => Val (table_pattern "Preference")
  | ANALYTICAL => Val (table_pattern "Statistics")
  | ADVERTISING => Val (table_pattern "Advertising")
  | UNCLASSIFIED => Val (table_pattern "Unclassified")
  | CAT_UNKNOWN => Exc (PyExc KeyError "<CookieCategory.UNKNOWN: -1>")
  end.

(** [cookiedomainwarning='Error: .* is not a valid domain.] (line 229);
    the last dot of the pattern is not escaped. *)
Definition domain_warning_pattern : regex :=
  seqs [lit "cookiedomainwarning='Error: "; Star dot; lit " is not a valid domain"; dot].

Section Scraper.

Variable W : World.

Definition get_attribute (e : Element) (name : string) : M (option string) :=
  external (fun t => e t name).

Definition nonempty (s : string) : bool := negb (Nat.eqb (length (chars s)) 0).

(** [exists_script_tag_with_cbid.__call__] (lines 56-67): the first script
    element whose [data-cbid] starts with a UUID. *)
Definition exists_script_tag_with_cbid : M (option Element) :=
  elems <- external (wd_find_scripts W) ;;
  for_return elems (fun e =>
    try_except
      (cbid <- get_attribute e "data-cbid" ;;
       match cbid with
       | Some c => if nonempty c && is_match (re_match_ uuid_pattern c)
                   then ret (Some e) else ret None
       | None => ret None
       end)
      (clauses
         [except_ [StaleElementReferenceException] (fun _ =>
            log WARNING "Stale element exception while looking through script tags. Continuing with next one..." ;;
            ret None)])).

Definition str_attr (a : option string) : string :=
  match a with Some v => v | None => "None" end.

(** [try_selenium_approach] (lines 112-155).  The id is only ever used
    inside f-strings, so it is kept as the text it is formatted to. *)
Definition try_selenium_approach (url : string) : M (string * CrawlState * option string) :=
  '(state, report) <- driver_get W url ;;
  if negb (CrawlState_eqb state SUCCESS) then ret ("", state, report)
  else
  try_except
    (first <-
       try_except
         (element <- wait_until W exists_script_tag_with_cbid ;;
          cbid <- get_attribute element "data-cbid" ;;
          log INFO "Found cookie bot ID using first variant." ;;
          ret (Some (str_attr cbid, SUCCESS, Some "OK")))
         (clauses
            [except_ [TimeoutException] (fun _ =>
               log INFO "Timeout while looking for cbid." ;; ret None);
             except_ [StaleElementReferenceException] (fun ex =>
               log DEBUG ("Stale element exception encountered on " ++ dq ++ url ++ dq ++ ".") ;;
               log DEBUG ("Exception Details: " ++ type_ex ex ++ " " ++ str_ex ex) ;;
               ret None)]) ;;
     match first with
     | Some r => ret r
     | None =>
         log INFO "Attempting Variants 2 and 3" ;;
         page_source <- driver_get_current_pagesource W ;;
         let variant_2 := re_search variant_2_pattern page_source in
         let variant_3 := re_search variant_3_pattern page_source in
         match variant_2, variant_3 with
         | Some m, _ => ret (str_attr (group m 1), SUCCESS, Some "OK")
         | None, Some m => ret (str_attr (group m 1), SUCCESS, Some "OK")
         | None, None =>
             ret ("", PARSE_ERROR, Some "All attempts to find cookiebot cbid failed.")
         end
     end)
    (clauses
       [except_ [Exception_] (fun ex =>
          ret ("", UNKNOWN,
               Some ("Unexpected error: : " ++ type_ex ex ++ " " ++ str_ex ex)))]).

(** [try_retrieve_cbid] (lines 158-170). *)
Definition try_retrieve_cbid (res : option Response) (url : string)
  : M (string * CrawlState * option string) :=
  try_selenium_approach url.

(** [try_find_correct_referrer] (lines 173-190). *)
Definition try_find_correct_referrer (cbid fallback : string) : M string :=
  page_source <- driver_get_current_pagesource W ;;
  m <- lift (referer_search W cbid page_source) ;;
  match m with
  | Some new_referer =>
      log DEBUG ("Found referrer: " ++ new_referer) ;;
      ret new_referer
  | None =>
      log DEBUG ("Could not find specific referrer, falling back to: " ++ fallback) ;;
      ret fallback
  end.

(** The debug dump of lines 256-258 and 265-267.  The file is taken to be
    writable. *)
Definition dump_debug_js (cbid js_contents : string) : M unit :=
  s <- get ;;
  when (debug_mode s)
       (write_file (path_join (logpath s) ("debug_" ++ cbid ++ "_cc.js")) js_contents).

(** One round of the loop of lines 240-252. *)
Definition parse_bucket (url js_contents catname : string) : M unit :=
  cat_id <- lift (name_to_cat catname) ;;
  pattern <- lift (category_patterns cat_id) ;;
  match re_search pattern js_contents with
  | None => log WARNING ("Could not find array for category " ++ catname)
  | Some matchobj =>
      cookies <- lift (literal_eval W (str_attr (group matchobj 1))) ;;
      n <- lift (py_len cookies) ;;
      add_count n ;;
      cs <- lift (iterate cookies) ;;
      for_each cs (fun c =>
        name <- lift (getindex c 0) ;;
        domain <- lift (getindex c 1) ;;
        purpose <- lift (getindex c 2) ;;
        type <- lift (getindex c 5) ;;
        collect_cookie_dat url name domain "/" catname cat_id purpose type)
  end.

(** The loop of lines 240-252 over the five buckets. *)
Definition walk_tables (url js_contents : string) : M unit :=
  for_each cookiebot_catnames (parse_bucket url js_contents).

(** Lines 237-274: what [scrape_website] does with the body of [cc.js]. *)
Definition parse_cc_js (url cbid cc_url js_contents : string) : M bool :=
  set_count 0 ;;
  failed <-
    try_except
      (walk_tables url js_contents ;; ret false)
      (clauses
         [except_ [Exception_] (fun ex =>
            dump_debug_js cbid js_contents ;;
            update_crawl_stats url MALFORM_RESP
              (Some ("Failed to extract cookie data from " ++ cc_url ++ ": "
                     ++ type_ex ex ++ " " ++ str_ex ex)) ;;
            ret true)]) ;;
  if failed : bool then ret false
  else
    cookie_count <- get_count ;;
    if Nat.eqb cookie_count 0 then
      dump_debug_js cbid js_contents ;;
      update_crawl_stats url NO_COOKIES (Some ("No cookies found in " ++ cc_url ++ " ")) ;;
      ret false
    else
      log INFO ("Extracted " ++ str_of_nat cookie_count ++ " cookie entries.") ;;
      update_crawl_stats url SUCCESS (Some "OK") ;;
      ret true.

(** [scrape_website] (lines 193-274). *)
Definition scrape_website (url : string) : M bool :=
  '(r, state, report) <- static_get_request W url [] ;;
  if negb (CrawlState_eqb state SUCCESS) then
    update_crawl_stats url state (Some report) ;;
    ret false
  else
    log DEBUG "Connection successful." ;;
    '(cbid, state, report) <- try_retrieve_cbid r url ;;
    if negb (CrawlState_eqb state SUCCESS) then
      update_crawl_stats url state report ;;
      ret false
    else
      log DEBUG ("Cookiebot UUID = " ++ cbid) ;;
      referer <- try_find_correct_referrer cbid url ;;
      let cc_url := "https://consent.cookiebot.com/" ++ cbid ++ "/cc.js?referer=" ++ referer in
      '(cc_resp, state, report) <- static_get_request W cc_url [("Referer", url)] ;;
      if negb (CrawlState_eqb state SUCCESS) then
        update_crawl_stats url LIBRARY_ERROR (Some report) ;;
        ret false
      else
        let js_contents := match cc_resp with Some resp => text resp | None => "" end in
        if str_contains "CookieConsent.setOutOfRegion" js_contents then
          update_crawl_stats url REGION_BLOCK
            (Some ("Received an out-of-region response from " ++ dq ++ cc_url ++ dq
                   ++ ": " ++ js_contents)) ;;
          ret false
        else if is_match (re_search domain_warning_pattern js_contents) then
          update_crawl_stats url LIBRARY_ERROR
            (Some ("Cookiebot doesn't recognize referer " ++ dq ++ referer ++ dq
                   ++ " with cbid " ++ dq ++ cbid ++ dq ++ " as a valid domain.")) ;;
          ret false
        else if Nat.eqb (length (chars (strip js_contents))) 0 then
          update_crawl_stats url LIBRARY_ERROR
            (Some ("Empty response when trying to retrieve " ++ dq ++ cc_url ++ dq ++ ".")) ;;
          ret false
        else
          log DEBUG ("Successfully accessed " ++ dq ++ "https://consent.cookiebot.com/"
                     ++ cbid ++ "/cc.js" ++ dq) ;;
          parse_cc_js url cbid cc_url js_contents.

End Scraper.
End Cookiebot.

(* ===================================================================== *)
(** ** ast.literal_eval on the literals that cc.js holds                  *)
(* ===================================================================== *)

(** A reader for the part of Python's literal syntax that the Cookiebot
    tables are written in: lists, strings in either quote with backslash
    escapes, integers, [None], [True], [False].  Anything else is reported
    as a syntax error.  It is used to run the scrapers on concrete script
    bodies; the scrapers themselves take the evaluator from the world. *)
Module Literal.

Fixpoint skip_blank (l : list ascii) : list ascii :=
  match l with
  | c :: t => if Ascii.eqb c " " || Nat.eqb (code c) 9 then skip_blank t else l
  | [] => []
  end.

(** The body of a string literal up to the closing [quote]. *)
Fixpoint read_string (quote : ascii) (l acc : list ascii) : option (list ascii * list ascii) :=
  match l with
  | [] => None
  | c :: t =>
      if Ascii.eqb c quote then Some (rev acc, t)
      else if Ascii.eqb c newline then None
      else if Ascii.eqb c "\" then
        match t with
        | [] => None
        | e :: t' =>
            if Ascii.eqb e "n" then read_string quote t' (newline :: acc)
            else if Ascii.eqb e "t" then read_string quote t' (ascii_of_nat 9 :: acc)
            else if Ascii.eqb e "\" || Ascii.eqb e "'" || Ascii.eqb e (ascii_of_nat 34)
            then read_string quote t' (e :: acc)
            else read_string quote t' (e :: c :: acc)
        end
      else read_string quote t (c :: acc)
  end.

Fixpoint read_digits (l : list ascii) (acc : Z) : Z * list ascii :=
  match l with
  | c :: t => if is_digit c
              then read_digits t (10 * acc + Z.of_nat (code c - 48))%Z
              else (acc, l)
  | [] => (acc, [])
  end.

Definition keyword (w : string) (l : list ascii) : option (list ascii) :=
  if is_prefix (chars w) l then
    let r := skipn (length (chars w)) l in
    match r with
    | c :: _ => if is_alpha c || is_digit c || Ascii.eqb c "_" then None else Some r
    | [] => Some r
    end
  else None.

Fixpoint read_value (fuel : nat) (l : list ascii) : option (pyval * list ascii) :=
  match fuel with
  | 0 => None
  | S k =>
      match skip_blank l with
      | [] => None
      | c :: t =>
          if Ascii.eqb c "[" then read_items k t []
          else if Ascii.eqb c "'" || Ascii.eqb c (ascii_of_nat 34) then
            match read_string c t [] with
            | Some (body, r) => Some (PStr (str body), r)
            | None => None
            end
          else if is_digit c then
            let '(z, r) := read_digits (c :: t) 0%Z in Some (PInt z, r)
          else if Ascii.eqb c "-" then
            match t with
            | d :: _ => if is_digit d
                        then let '(z, r) := read_digits t 0%Z in Some (PInt (- z), r)
                        else None
            | [] => None
            end
          else
            match keyword "None" (c :: t), keyword "True" (c :: t),
                  keyword "False" (c :: t) with
            | Some r, _, _ => Some (PNone, r)
            | _, Some r, _ => Some (PBool true, r)
            | _, _, Some r => Some (PBool false, r)
            | _, _, _ => None
            end
      end
  end
with read_items (fuel : nat) (l : list ascii) (acc : list pyval)
  : option (pyval * list ascii) :=
  match fuel with
  | 0 => None
  | S k =>
      match skip_blank l with
      | [] => None
      | c :: t =>
          if Ascii.eqb c "]" then Some (PList (rev acc), t)
          else
            match read_value k (c :: t) with
            | None => None
            | Some (v, r) =>
                match skip_blank r with
                | d :: r' =>
                    if Ascii.eqb d "," then read_items k r' (v :: acc)
                    else if Ascii.eqb d "]" then Some (PList (rev (v :: acc)), r')
                    else None
                | [] => None
                end
            end
      end
  end.

Definition literal_eval (source : string) : outcome pyval :=
  match read_value (S (length (chars source))) (chars source) with
  | Some (v, r) =>
      match skip_blank r with
      | [] => Val v
      | _ :: _ => Exc (PyExc SyntaxError "invalid syntax")
      end
  | None => Exc (PyExc SyntaxError "invalid syntax")
  end.

End Literal.

(* ===================================================================== *)
(** ** termly_scraper.py                                                  *)
(* ===================================================================== *)

Module Termly.

(** [name_to_cat] (lines 22-27). *)
Definition name_to_cat (catname : string) : option CookieCategory :=
  if String.eqb catname "essential" then Some ESSENTIAL
  else if String.eqb catname "performance" then Some FUNCTIONAL
  else if String.eqb catname "analytics" then Some ANALYTICAL
  else if String.eqb catname "advertising" then Some ADVERTISING
  else if String.eqb catname "social_networking" then Some CAT_UNKNOWN
  else if String.eqb catname "unclassified" then Some UNCLASSIFIED
  else None.

Definition known_cookie_attributes : list string :=
  ["name"; "category"; "tracker_type"; "country"; "domain"; "source"; "url";
   "value"; "en_us"; "service"; "service_policy_link"; "expire"].

Definition termly_base : string := "https://app.termly.io/api/v1/snippets/websites/".

Definition termly_source_href_pattern : regex := lit "https://app.termly.io/embed.min.js".

Section Scraper.

Variable W : World.

Definition get_attribute (e : Element) (name : string) : M (option string) :=
  external (fun t => e t name).

(** [uuid and uuid_pattern.match(uuid)] for an attribute value. *)
Definition is_uuid_attr (a : option string) : bool :=
  match a with
  | Some u => negb (Nat.eqb (length (chars u)) 0) && is_match (re_match_ uuid_pattern u)
  | None => false
  end.

Definition attr_is (a : option string) (v : string) : bool :=
  match a with Some x => String.eqb x v | None => false end.

(** [exists_script_tag_with_termly_embed.__call__] (lines 55-82). *)
Definition exists_script_tag_with_termly_embed : M (option string) :=
  elems <- external (wd_find_scripts W) ;;
  for_return elems (fun e =>
    try_except
      (embed_src <- get_attribute e "src" ;;
       termly_found <-
         (match embed_src with
          | Some src =>
              if negb (Nat.eqb (length (chars src)) 0)
                 && is_match (re_match_ termly_source_href_pattern src)
              then ret true
              else data_name <- get_attribute e "data-name" ;;
                   ret (attr_is data_name "termly-embed-banner")
          | None => data_name <- get_attribute e "data-name" ;;
                    ret (attr_is data_name "termly-embed-banner")
          end) ;;
       if termly_found : bool then
         uuid <- get_attribute e "id" ;;
         if is_uuid_attr uuid then ret uuid
         else
           uuid <- get_attribute e "data-website-uuid" ;;
           if is_uuid_attr uuid then ret uuid
           else
             log WARNING "Found termly embed banner script tag without an id attribute." ;;
             ret None
       else ret None)
      (clauses
         [except_ [StaleElementReferenceException] (fun _ =>
            log WARNING "Stale element exception while looking through script tags. Continuing with next one..." ;;
            ret None)])).

(** The loop of lines 122-128 over the documents of the policy. *)
Fixpoint find_cookie_policy (docs : list pyval) : M (option string) :=
  match docs with
  | [] => ret None
  | doc :: rest =>
      has_name <- lift (contains_key "name" doc) ;;
      named <- (if has_name : bool
                then name <- lift (getitem doc "name") ;;
                     ret (py_eq_str name "Cookie Policy")
                else ret false) ;;
      if named : bool then
        uuid <- lift (getitem doc "uuid") ;;
        match uuid with
        | PStr u =>
            if is_match (re_match_ uuid_pattern u) then ret (Some u)
            else
              log ERROR "Found a UUID entry inside policy JSON that wasn't a UUID!" ;;
              find_cookie_policy rest
        | _ => raise (PyExc TypeError "expected string or bytes-like object")
        end
      else find_cookie_policy rest
  end.

Definition text_of (r : option Response) : string :=
  match r with Some resp => text resp | None => "" end.

(** [retrieve_termly_json] (lines 85-149).  The first component is the
    decoded document; it starts as the empty dictionary. *)
Definition retrieve_termly_json (url : string) : M (pyval * CrawlState * option string) :=
  let cookies_json := PDict [] in
  '(state, report) <- driver_get W url ;;
  if negb (CrawlState_eqb state SUCCESS) then ret (cookies_json, state, report)
  else
  try_except
    (uuid1 <- try_except
                (u <- wait_until W exists_script_tag_with_termly_embed ;; ret (Some u))
                (clauses
                   [except_ [TimeoutException] (fun _ =>
                      log INFO "Timeout while looking for termly uuid." ;; ret None)]) ;;
     match uuid1 with
     | None =>
         ret (cookies_json, CMP_NOT_FOUND,
              Some "Could not find Termly UUID to access cookie policies.")
     | Some uuid1 =>
     log INFO ("Retrieved uuid1: " ++ uuid1) ;;
     '(resp, state, err) <- static_get_request W (termly_base ++ uuid1) [] ;;
     if negb (CrawlState_eqb state SUCCESS) then
       ret (cookies_json, state, Some ("Failed to retrieve Termly policy JSON: " ++ err))
     else
     decoded <- try_except
                  (d <- lift (json_loads W (text_of resp)) ;; ret (inl d))
                  (clauses
                     [except_ [JSONDecodeError] (fun ex =>
                        ret (inr ("Failed to decode Termly policy JSON. Details: "
                                  ++ str_ex ex)))]) ;;
     match decoded with
     | inr msg => ret (cookies_json, JSON_DECODE_ERROR, Some msg)
     | inl policy_dict =>
     has_docs <- lift (contains_key "documents" policy_dict) ;;
     uuid2 <- (if has_docs : bool
               then documents <- lift (getitem policy_dict "documents") ;;
                    docs <- lift (iterate documents) ;;
                    find_cookie_policy docs
               else ret None) ;;
     match uuid2 with
     | None =>
         ret (cookies_json, PARSE_ERROR,
              Some "Failed to retrieve second UUID string from policy JSON.")
     | Some uuid2 =>
     log INFO ("Retrieved uuid2: " ++ uuid2) ;;
     let cookies_path := termly_base ++ uuid1 ++ "/documents/" ++ uuid2 ++ "/cookies" in
     '(resp2, state, err) <- static_get_request W cookies_path [] ;;
     if negb (CrawlState_eqb state SUCCESS) then
       ret (cookies_json, state,
            Some ("Failed to retrieve Termly cookies JSON from " ++ cookies_path
                  ++ ": " ++ err))
     else
     decoded2 <- try_except
                   (d <- lift (json_loads W (text_of resp2)) ;; ret (inl d))
                   (clauses
                      [except_ [JSONDecodeError] (fun ex =>
                         ret (inr ("Failed to decode Termly cookies JSON. Details: "
                                   ++ str_ex ex)))]) ;;
     match decoded2 with
     | inr msg => ret (cookies_json, JSON_DECODE_ERROR, Some msg)
     | inl cookies_json =>
         ret (cookies_json, SUCCESS, Some "Successfully retrieved Termly cookies JSON")
     end end end end)
    (clauses
       [except_ [Exception_] (fun ex =>
          ret (cookies_json, UNKNOWN,
               Some ("Unexpected error while trying to retrieve Termly Cookies JSON: : "
                     ++ type_ex ex ++ " " ++ str_ex ex)))]).

(** [debug_dump_dict] (lines 153-157).  The pickled bytes are not
    modelled; the file is recorded with the text of the value. *)
Definition debug_dump_dict (outname : string) (cookies_dict : pyval) : M unit :=
  s <- get ;;
  when (debug_mode s)
       ((fun s => (Val tt, set_total_debug_outs (total_debug_outs s + 1) s)) ;;
        s' <- get ;;
        write_file (path_join (logpath s') (outname ++ str_of_nat (total_debug_outs s')))
                   (py_str cookies_dict)).

(** One cookie of a bucket (lines 180-210).  What [print] writes in debug
    mode goes to the standard output and is left out. *)
Definition parse_cookie (url catname : string) (cat_id : CookieCategory)
    (cookie : pyval) : M unit :=
  keys <- lift (py_keys cookie) ;;
  for_each keys (fun k =>
    when (negb (in_strings k known_cookie_attributes))
         (set_weird true ;; log WARNING ("UNKNOWN COOKIE ATTRIBUTE: " ++ k))) ;;
  add_count 1 ;;
  has_name <- lift (contains_key "name" cookie) ;;
  name <- (if has_name : bool then lift (getitem cookie "name")
           else
             set_weird true ;;
             n <- get_count ;;
             log WARNING ("Cookie #" ++ str_of_nat n ++ " has no name!!!") ;;
             ret PNone) ;;
  has_category <- lift (contains_key "category" cookie) ;;
  (if has_category : bool then
     category <- lift (getitem cookie "category") ;;
     when (negb (py_eq_str category catname))
          (set_weird true ;;
           log WARNING ("Category in cookie mismatches category array!! array: "
                        ++ catname ++ ", cookie: " ++ py_str category))
   else ret tt) ;;
  tracker_type <- optional_field cookie "tracker_type" ;;
  domain <- optional_field cookie "domain" ;;
  purpose <- optional_field cookie "en_us" ;;
  collect_cookie_dat url name domain "/" catname cat_id purpose tracker_type.

(** The body of the [try] block of lines 173-210. *)
Definition walk_buckets (url : string) (cookie_dict : pyval) : M unit :=
  cookies <- lift (getitem cookie_dict "cookies") ;;
  items <- lift (py_items cookies) ;;
  for_each items (fun item =>
    let '(catname, entry) := item in
    match name_to_cat catname with
    | None =>
        set_weird true ;;
        log ERROR ("UNKNOWN CATEGORY: " ++ catname)
    | Some cat_id =>
        entries <- lift (iterate entry) ;;
        for_each entries (parse_cookie url catname cat_id)
    end).

(** [parse_termly_cookie_json] (lines 161-225). *)
Definition parse_termly_cookie_json (url : string) (cookie_dict : pyval)
  : M (CrawlState * option string) :=
  let debug_out := "termly_malf_resp.pkl" in
  set_count 0 ;;
  set_weird false ;;
  has_cookies <- lift (contains_key "cookies" cookie_dict) ;;
  if has_cookies : bool then
    failed <-
      try_except
        (walk_buckets url cookie_dict ;; ret None)
        (clauses
           [except_ [Exception_] (fun ex =>
              debug_dump_dict debug_out cookie_dict ;;
              ret (Some ("Unexpected error while extracting Cookies from Termly Dict: : "
                         ++ type_ex ex ++ " " ++ str_ex ex)))]) ;;
    match failed with
    | Some report => ret (PARSE_ERROR, Some report)
    | None =>
        s <- get ;;
        when (weird_stuff_occurred s) (debug_dump_dict debug_out cookie_dict) ;;
        cookie_count <- get_count ;;
        if Nat.eqb cookie_count 0 then
          ret (NO_COOKIES, Some "No cookies found in Termly JSON!!")
        else
          ret (SUCCESS, Some ("Number of Cookies extracted: " ++ str_of_nat cookie_count))
    end
  else
    debug_dump_dict debug_out cookie_dict ;;
    ret (MALFORM_RESP, Some "No 'cookies' attribute in cookies JSON!").

(** [scrape_website] (lines 227-242). *)
Definition scrape_website (url : string) : M bool :=
  '(cookies_dict, state, report) <- retrieve_termly_json url ;;
  if negb (CrawlState_eqb state SUCCESS) then
    update_crawl_stats url state report ;;
    ret false
  else
    log INFO "Found cookie json dict" ;;
    '(state, report) <- parse_termly_cookie_json url cookies_dict ;;
    update_crawl_stats url state report ;;
    ret (CrawlState_eqb state SUCCESS).

End Scraper.
End Termly.

(* ===================================================================== *)
(** ** run_scraper.py: the crawl loop of [main] (lines 173-194)           *)
(* ===================================================================== *)

(** [stop_webdriver] (base_scraper.py, lines 241-249). *)
Definition stop_webdriver : M unit :=
  s <- get ;;
  if negb (webdriver s) then raise (PyExc RuntimeError "Webdriver isn't running!")
  else (fun s => (Val tt, set_webdriver false s)) ;; log INFO "Webdriver stopped".

(** [try: while sites: ... finally: scraper.stop_webdriver()]: the sites
    in the order in which they are popped, the result being the two
    counters [comp_succ] and [comp_fail].  An exception that leaves
    [scrape_website] leaves the loop; the driver is stopped and the
    exception goes on.  The only [except] clause of the loop is for
    [KeyboardInterrupt], which no call of the environment modelled here
    raises, so that clause is never entered. *)
Fixpoint crawl_loop (scrape : string -> M bool) (total : nat) (sites : list string)
                    (comp_succ comp_fail : nat) : M (nat * nat) :=
  match sites with
  | [] => ret (comp_succ, comp_fail)
  | u :: rest =>
      log INFO ("Crawling: " ++ u) ;;
      success_status <- scrape u ;;
      if success_status : bool then
        log INFO ("Crawl for site " ++ u ++ " completed successfully.") ;;
        log INFO (str_of_nat (S comp_succ + comp_fail) ++ "/" ++ str_of_nat total
                  ++ " completed.") ;;
        crawl_loop scrape total rest (S comp_succ) comp_fail
      else
        log WARNING ("Crawl for site " ++ u ++ " failed!") ;;
        log INFO (str_of_nat (comp_succ + S comp_fail) ++ "/" ++ str_of_nat total
                  ++ " completed.") ;;
        crawl_loop scrape total rest comp_succ (S comp_fail)
  end.

Definition crawl_sites (scrape : string -> M bool) (sites : list string) : M (nat * nat) :=
  fun s =>
    match crawl_loop scrape (length sites) sites 0 0 s with
    | (Val r, s') => (stop_webdriver ;; ret r) s'
    | (Exc e, s') => (stop_webdriver ;; raise e) s'
    end.

(* ===================================================================== *)
(** ** Keyword containment, stated on the text alone                      *)
(* ===================================================================== *)

(** The properties of [category_lookup_en] are stated against these
    functions, which look for a keyword in a name without any pattern. *)
Definition ci_eqb (x c : ascii) : bool := Ascii.eqb (lower x) (lower c).

(** [l] starts with [w], letter case ignored. *)
Fixpoint prefix_ci (w l : list ascii) : bool :=
  match w, l with
  | [], _ => true
  | c :: w', x :: l' => ci_eqb x c && prefix_ci w' l'
  | _ :: _, [] => false
  end.

(** [f] holds of some suffix of [l]. *)
Fixpoint somewhere (f : list ascii -> bool) (l : list ascii) : bool :=
  f l || match l with [] => false | _ :: t => somewhere f t end.

Definition contains_ci (kw name : string) : bool :=
  somewhere (prefix_ci (chars kw)) (chars name).
Definition contains_any_ci (kws : list string) (name : string) : bool :=
  existsb (fun kw => contains_ci kw name) kws.

(** The two forms of the word "ads" that count as advertising: at the very
    start of the name, or right after a white-space character. *)
Definition starts_with_ads (name : string) : bool := prefix_ci (chars "ads") (chars name).
Definition space_then_ads (l : list ascii) : bool :=
  match l with
  | c :: t => is_space c && prefix_ci (chars "ads") t
  | [] => false
  end.
Definition has_ads_word (name : string) : bool :=
  starts_with_ads name || somewhere space_then_ads (chars name).

Definition names_advertising (name : string) : bool :=
  has_ads_word name || contains_any_ci OneTrust.advertise_keywords name.
Definition names_necessary : string -> bool := contains_any_ci OneTrust.necessary_keywords.
Definition names_analytical : string -> bool := contains_any_ci OneTrust.analytical_keywords.
Definition names_functional : string -> bool := contains_any_ci OneTrust.functional_keywords.
Definition names_uncategorized : string -> bool :=
  contains_any_ci ["uncategorize"; "uncategorise"; "unknown"].

(** The decision list that the specification describes. *)
Definition category_by_keywords (name : string) : CookieCategory :=
  if names_advertising name then ADVERTISING
  else if names_necessary name then ESSENTIAL
  else if names_analytical name then ANALYTICAL
  else if names_functional name then FUNCTIONAL
  else if names_uncategorized name then UNCLASSIFIED
  else CAT_UNKNOWN.

(** The keyword groups as the specification fixes them, word by word and
    in the order of their priority; nothing here refers to the patterns or
    to the lists of onetrust_scraper.py. *)
Definition advertising_words : list string :=
  ["Ad Selection"; "advertising"; "advertise"; "targeting"; "sale of personal data";
   "marketing"; "tracking"; "tracker"; "fingerprint"].
Definition essential_words : list string := ["necessary"; "essential"; "required"].
Definition analytical_words : list string :=
  ["measurement"; "analytic"; "anonym"; "research"; "performance"].
Definition functional_words : list string :=
  ["functional"; "preference"; "security"; "secure"].
Definition unclassified_words : list string :=
  ["uncategorize"; "uncategorise"; "unknown"].

(** A name mentions advertising when it holds the word "ads" at its start
    or after white space, or one of the advertising words anywhere. *)
Definition mentions_advertising (name : string) : bool :=
  has_ads_word name || contains_any_ci advertising_words name.

Definition priority_table : list ((string -> bool) * CookieCategory) :=
  [(mentions_advertising, ADVERTISING);
   (contains_any_ci essential_words, ESSENTIAL);
   (contains_any_ci analytical_words, ANALYTICAL);
   (contains_any_ci functional_words, FUNCTIONAL);
   (contains_any_ci unclassified_words, UNCLASSIFIED)].

(** First match wins; no match is [UNKNOWN]. *)
Fixpoint first_match_wins (table : list ((string -> bool) * CookieCategory))
    (name : string) : CookieCategory :=
  match table with
  | [] => CAT_UNKNOWN
  | (group, category) :: rest =>
      if group name then category else first_match_wins rest name
  end.

Definition category_by_priority : string -> CookieCategory :=
  first_match_wins priority_table.

(** The same on names of code points of any size.  Letter case is ignored
    as Python ignores it for the letters of the keywords: A-Z fold to a-z,
    and so do the four code points above 255 whose lower case, or whose
    equivalent for [re], is an ASCII letter. *)
Definition fold_case (x : N) : N :=
  if ((65 <=? x) && (x <=? 90))%N then (x + 32)%N
  else if ((x =? 0x130) || (x =? 0x131))%N then 105%N
  else if (x =? 0x17F)%N then 115%N
  else if (x =? 0x212A)%N then 107%N
  else x.
(** The code point [x] is the character [c] of a keyword. *)
Definition same_letter (c : ascii) (x : N) : bool :=
  (fold_case x =? fold_case (N_of_ascii c))%N.
Fixpoint starts_with (w : list ascii) (l : list N) : bool :=
  match w, l with
  | [], _ => true
  | c :: w', x :: l' => same_letter c x && starts_with w' l'
  | _ :: _, [] => false
  end.
Fixpoint anywhere (f : list N -> bool) (l : list N) : bool :=
  f l || match l with [] => false | _ :: t => anywhere f t end.
Definition holds_word (kw : string) (name : list N) : bool :=
  anywhere (starts_with (chars kw)) name.
Definition holds_any (kws : list string) (name : list N) : bool :=
  existsb (fun kw => holds_word kw name) kws.
Definition white_then_ads (l : list N) : bool :=
  match l with
  | x :: t => is_white x && starts_with (chars "ads") t
  | [] => false
  end.
Definition holds_ads (name : list N) : bool :=
  starts_with (chars "ads") name || anywhere white_then_ads name.
(** The characters of which the keywords are made: letters and blanks. *)
Definition plain (c : ascii) : bool :=
  let n := N_of_ascii c in
  ((n =? 32) || ((65 <=? n) && (n <=? 90)) || ((97 <=? n) && (n <=? 122)))%N.
(** A name of characters below 256, as a name of code points. *)
Definition code_points (name : string) : list N := map N_of_ascii (chars name).

(** The first alternative of [advertise_pattern]: the word at the start. *)
Definition ads_at_start : regex := seqs [Bol; lit_i "ads"; Star dot].
(** Its second alternative: the word after white space. *)
Definition ads_after_space : regex := seqs [Star dot; plus space; lit_i "ads"; Star dot].

(** Does the matcher accept at a position, whatever it captures. *)
Definition accepts (r : regex) (pos : nat) (rest : list ascii) : bool :=
  match run r (MState pos rest []) with [] => false | _ :: _ => true end.

(** All the predicates of [ps] hold along the front of [l]. *)
Fixpoint front (ps : list (ascii -> bool)) (l : list ascii) : bool :=
  match ps, l with
  | [], _ => true
  | p :: ps', c :: l' => p c && front ps' l'
  | _ :: _, [] => false
  end.

(** The shape of a UUID, position by position: 8-4-4-4-12 hexadecimal
    digits separated by dashes, and nothing else. *)
Definition uuid_tests : list (ascii -> bool) :=
  (repeat is_hex 8 ++ [Ascii.eqb "-"] ++ repeat is_hex 4 ++ [Ascii.eqb "-"]
   ++ repeat is_hex 4 ++ [Ascii.eqb "-"] ++ repeat is_hex 4 ++ [Ascii.eqb "-"]
   ++ repeat is_hex 12)%list.
Definition is_uuid (u : string) : bool :=
  forallb (fun pc => fst pc (snd pc)) (combine uuid_tests (chars u))
  && Nat.eqb (length (chars u)) 36.

(** The consent script of an account on one of the hosts. *)
Definition consent_script_url (host u : string) : string :=
  host ++ "/consent/" ++ u ++ ".js".

(** A pattern whose match is a fixed sequence of one-character tests. *)
Definition linear (r : regex) (ps : list (ascii -> bool)) : Prop :=
  forall st,
    run r st =
    if front ps (m_rest st)
    then [MState (m_pos st + length ps) (skipn (length ps) (m_rest st)) (m_groups st)]
    else [].

(** The four hosts of OneTrust consent scripts named in the module
    documentation, and the link patterns defined for them. *)
Definition cookielaw_host : string := "https://cdn.cookielaw.org".
Definition optanon_host : string := "https://optanon.blob.core.windows.net".
Definition cookiepro_cdn_host : string := "https://cookie-cdn.cookiepro.com".
Definition cookiepro_blob_host : string := "https://cookiepro.blob.core.windows.net".

Definition onetrust_link_patterns : list regex :=
  [OneTrust.v2_cookielaw_pattern; OneTrust.v2_optanon_pattern;
   OneTrust.v2_cookiepro_cdn_pattern; OneTrust.v2_cookiepro_blob_pattern].

(** A script element that never raises on [src] and whose [src], when it
    has one, is either a consent script on the cookiepro blob host or no
    OneTrust consent script at all. *)
Definition blob_or_foreign_script (e : Element) : Prop :=
  forall t,
    e t "src" = Val None \/
    exists src, e t "src" = Val (Some src) /\
      ((exists u, is_uuid u = true /\ src = consent_script_url cookiepro_blob_host u)
       \/ OneTrust.first_match onetrust_link_patterns src = None).

(* ===================================================================== *)
(** ** Vocabulary for statements about runs                               *)
(* ===================================================================== *)

(** [s'] holds the log of [s] and possibly more. *)
Definition log_extends (s s' : Scraper) : Prop :=
  exists more, logged s' = (logged s ++ more)%list.

(** Nothing that the scraper reports or collects changed between [s] and
    [s']: the step only talked to the world and to the logger. *)
Record still (s s' : Scraper) : Prop := MkStill {
  still_status : status_counts s' = status_counts s;
  still_crawl_log : crawl_log s' = crawl_log s;
  still_failed : failed_urls s' = failed_urls s;
  still_data : database_cookie_data s' = database_cookie_data s;
  still_labels : cookie_labels s' = cookie_labels s;
  still_webdriver : webdriver s' = webdriver s;
  still_debug : debug_mode s' = debug_mode s;
  still_logpath : logpath s' = logpath s;
  still_dumps : total_debug_outs s' = total_debug_outs s;
  still_count : cookie_count s' = cookie_count s;
  still_logged : log_extends s s'
}.

(** The rows [new] were appended to the collected data; when there are
    none, the label dictionary is the same too. *)
Definition grown_by (new : list CookieTuple) (s s' : Scraper) : Prop :=
  database_cookie_data s' = (database_cookie_data s ++ new)%list /\
  (new = [] -> cookie_labels s' = cookie_labels s).

(** A step that may collect cookies but records no outcome. *)
Record gathers (s s' : Scraper) : Prop := MkGathers {
  gathers_status : status_counts s' = status_counts s;
  gathers_crawl_log : crawl_log s' = crawl_log s;
  gathers_failed : failed_urls s' = failed_urls s;
  gathers_webdriver : webdriver s' = webdriver s;
  gathers_debug : debug_mode s' = debug_mode s;
  gathers_logpath : logpath s' = logpath s;
  gathers_logged : log_extends s s';
  gathers_grown : exists new, grown_by new s s'
}.

(** A collecting step that keeps the local counter in step with the rows. *)
Record tracks (s s' : Scraper) : Prop := MkTracks {
  tracks_status : status_counts s' = status_counts s;
  tracks_crawl_log : crawl_log s' = crawl_log s;
  tracks_failed : failed_urls s' = failed_urls s;
  tracks_webdriver : webdriver s' = webdriver s;
  tracks_debug : debug_mode s' = debug_mode s;
  tracks_logpath : logpath s' = logpath s;
  tracks_logged : log_extends s s';
  tracks_grown : exists new, grown_by new s s' /\
                             cookie_count s' = cookie_count s + length new
}.

(** A collecting step after which the local counter is [d] ahead of the
    rows that were appended. *)
Record owes (d : Z) (s s' : Scraper) : Prop := MkOwes {
  owes_status : status_counts s' = status_counts s;
  owes_crawl_log : crawl_log s' = crawl_log s;
  owes_failed : failed_urls s' = failed_urls s;
  owes_webdriver : webdriver s' = webdriver s;
  owes_debug : debug_mode s' = debug_mode s;
  owes_logpath : logpath s' = logpath s;
  owes_logged : log_extends s s';
  owes_grown : exists new, grown_by new s s' /\
                 (Z.of_nat (cookie_count s')
                  = Z.of_nat (cookie_count s) + Z.of_nat (length new) + d)%Z
}.

(** Between [s] and [s'] exactly one outcome was recorded, and it is [st];
    or none was. *)
Definition records (st : CrawlState) (s s' : Scraper) : Prop :=
  forall e, status_counts s' e =
            if CrawlState_eqb e st then S (status_counts s e) else status_counts s e.
Definition records_nothing (s s' : Scraper) : Prop :=
  forall e, status_counts s' e = status_counts s e.

(** The collected data is what it was. *)
Definition same_data (s s' : Scraper) : Prop :=
  database_cookie_data s' = database_cookie_data s /\
  cookie_labels s' = cookie_labels s.

(** [c] relates every start state to its end state by [R], whether it
    returns or raises. *)
Definition keeps (R : Scraper -> Scraper -> Prop) {A} (c : M A) : Prop :=
  forall s, R s (snd (c s)).

(** The same with one relation for a return and one for an exception. *)
Definition sat (Rv Re : Scraper -> Scraper -> Prop) {A} (c : M A) : Prop :=
  forall s, match c s with
            | (Val _, s') => Rv s s'
            | (Exc _, s') => Re s s'
            end.

(** Every handler that an except clause offers keeps [R]. *)
Definition handled (R : Scraper -> Scraper -> Prop) {A} (h : exn -> option (M A)) : Prop :=
  forall e k, h e = Some k -> keeps R k.

(** Whatever [c] returns satisfies [Q]. *)
Definition yields {A} (c : M A) (Q : A -> Prop) : Prop :=
  forall s a s', c s = (Val a, s') -> Q a.
Definition handled_yields {A} (h : exn -> option (M A)) (Q : A -> Prop) : Prop :=
  forall e k, h e = Some k -> yields k Q.

(** [c] returns with the counter [d] ahead, or raises having at most
    collected. *)
Definition satd (d : Z) {A} (c : M A) : Prop := sat (owes d) gathers c.

(** [Q] holds of the result of running [c] from [s] and of the state it
    leaves. *)
Definition post {A} (c : M A) (s : Scraper) (Q : outcome A -> Scraper -> Prop) : Prop :=
  Q (fst (c s)) (snd (c s)).

(** The number of rows collected between [s] and [s']. *)
Definition new_records (s s' : Scraper) : nat :=
  length (database_cookie_data s') - length (database_cookie_data s).

(** The body of a parse loop ran to its end from [s]. *)
Definition completes (body : M unit) (s : Scraper) : Prop :=
  exists s', body s = (Val tt, s').

(* ===================================================================== *)
(** ** Exceptions of the libraries                                        *)
(* ===================================================================== *)

(** [VariantFailedException] is a class of onetrust_scraper.py: the
    libraries and the browser never raise it. *)
Definition library_error (e : exn) : Prop :=
  match e with
  | PyExc _ _ => True
  | VariantFailed _ _ => False
  end.
Definition from_library {A} (o : outcome A) : Prop :=
  match o with
  | Val _ => True
  | Exc e => library_error e
  end.

(** A world whose calls raise exceptions of the libraries only. *)
Record library_errors_only (W : World) : Prop := MkLibraryErrorsOnly {
  le_requests_get : forall t url headers, from_library (requests_get W t url headers);
  le_wd_get : forall t url, from_library (wd_get W t url);
  le_wd_switch_to_alert : forall t, from_library (wd_switch_to_alert W t);
  le_wd_alert_dismiss : forall t, from_library (wd_alert_dismiss W t);
  le_wd_default_content : forall t, from_library (wd_default_content W t);
  le_wd_implicitly_wait : forall t, from_library (wd_implicitly_wait W t);
  le_wd_find_scripts : forall t, from_library (wd_find_scripts W t);
  le_wd_page_source : forall t, from_library (wd_page_source W t);
  le_json_loads : forall body, from_library (json_loads W body);
  le_literal_eval : forall body, from_library (literal_eval W body);
  le_eval_js_call : forall source, from_library (eval_js_call W source);
  le_referer_search : forall cbid page, from_library (referer_search W cbid page)
}.

(** A step that, when it raises, raises an exception of the libraries. *)
Definition quiet {A} (c : M A) : Prop :=
  forall s e s', c s = (Exc e, s') -> library_error e.
Definition handled_quiet {A} (h : exn -> option (M A)) : Prop :=
  forall e k, h e = Some k -> quiet k.
(** The except clauses [h] accept every exception. *)
Definition catches_all {A} (h : exn -> option (M A)) : Prop :=
  forall e, h e <> None.

(* ===================================================================== *)
(** ** Concrete worlds                                                    *)
(* ===================================================================== *)

(** A script element with fixed attributes. *)
Definition script (attrs : list (string * string)) : Element :=
  fun _ name => Val (assoc_str name attrs).

(** A world in which the browser always loads the page and shows no alert,
    a wait makes a single poll, no referer is found in the page, and the
    literal evaluator is the reader above; what the network answers, which
    script elements the page has, and what the JSON and JavaScript
    evaluators return are the parameters. *)
Definition simple_world (get : string -> outcome Response) (scripts : list Element)
    (page : string) (json js : string -> outcome pyval) : World :=
  MkWorld (fun _ url _ => get url)
          (fun _ _ => Val tt)
          (fun _ => Exc (PyExc NoAlertPresentException "no such alert"))
          (fun _ => Val tt)
          (fun _ => Val tt)
          (fun _ => Val tt)
          (fun _ => Val scripts)
          (fun _ => Val page)
          (fun _ => 0)
          json
          Literal.literal_eval
          js
          (fun _ _ => Val None).

Definition no_json (body : string) : outcome pyval :=
  Exc (PyExc JSONDecodeError "Expecting value: line 1 column 1 (char 0)").
Definition no_js (source : string) : outcome pyval :=
  Exc (PyExc Exception_ "SyntaxError: Line 1: Unexpected token").

(** A scraper that was just created and whose driver was started. *)
Definition started_scraper : Scraper := set_webdriver true (new_scraper "out" false).

Definition ok_page (url : string) : outcome Response := Val (MkResponse 200 "<html></html>").

(** A site whose only consent script is hosted on the cookiepro blob host. *)
Definition blob_uuid : string := "0123abcd-4567-89ab-cdef-0123456789ab".
Definition blob_site_world : World :=
  simple_world ok_page
    [script [("src", "https://example.com/app.js")];
     script [("type", "text/javascript")];
     script [("src", consent_script_url cookiepro_blob_host blob_uuid)]]
    "<html></html>" no_json no_js.

(** A site that embeds Cookiebot with a [data-cbid] attribute; the answer
    of the consent server for [cc.js] is the parameter. *)
Definition cookiebot_cbid : string := "0123abcd-4567-89ab-cdef-0123456789ab".
Definition cookiebot_site : string := "https://shop.example".
Definition cookiebot_world (cc : outcome Response) : World :=
  simple_world
    (fun url => if is_prefix (chars "https://consent.cookiebot.com/") (chars url)
                then cc else ok_page url)
    [script [("src", "https://consent.cookiebot.com/uc.js"); ("data-cbid", cookiebot_cbid)]]
    "<html></html>" no_json no_js.

(** The script body of the Cookiebot scenario: one table, for the bucket
    Necessary, holding one cookie. *)
Definition necessary_table_text : string :=
  "[[" ++ dq ++ "cookieA" ++ dq ++ "," ++ dq ++ "example.com" ++ dq ++ ","
  ++ dq ++ "session mgmt" ++ dq ++ "," ++ dq ++ "session" ++ dq ++ ","
  ++ dq ++ "HTTP" ++ dq ++ ",1," ++ dq ++ dq ++ ","
  ++ dq ++ "https://example.com" ++ dq ++ "]]".
Definition necessary_only_body : string :=
  "CookieConsentDialog.cookieTableNecessary = " ++ necessary_table_text ++ ";".

(** The value that Python gives to that literal. *)
Definition necessary_table_value : pyval :=
  PList [PList [PStr "cookieA"; PStr "example.com"; PStr "session mgmt";
                PStr "session"; PStr "HTTP"; PInt 1; PStr "";
                PStr "https://example.com"]].

(** The row that the scenario expects for a crawl of [url]. *)
Definition cookieA_row (url : string) : CookieTuple :=
  MkCookie url (PStr "cookieA") (PStr "example.com") "/" ESSENTIAL "Necessary"
           (PStr "session mgmt") (PInt 1).

(* ===================================================================== *)
(** ** The outcome of a fetch, as the specification words it              *)
(* ===================================================================== *)

(** The kinds of failure that the specification names, read off the
    exception that [requests] raises for them. *)
Definition tls_failure (e : exn) : bool := isinstance e SSLError.
Definition connection_failure (e : exn) : bool :=
  isinstance e ConnectionError_ || isinstance e Timeout || isinstance e TooManyRedirects.
Definition url_scheme_failure (e : exn) : bool :=
  isinstance e MissingSchema || isinstance e URLRequired.

(** The classification in the words of the specification: the three kinds
    of failure, the two ranges of status codes, "and otherwise SUCCESS". *)
Definition outcome_as_stated (attempt : outcome Response) : CrawlState :=
  match attempt with
  | Exc e =>
      if tls_failure e then SSL_ERROR
      else if connection_failure e then CONN_FAILED
      else if url_scheme_failure e then MALFORMED_URL
      else SUCCESS
  | Val r =>
      if (status_code r =? 525)%Z then SSL_ERROR
      else if (400 <=? status_code r)%Z then HTTP_ERROR
      else SUCCESS
  end.

(** The classification that the code implements, class by class. *)
Definition state_of_failure (c : exn_class) : CrawlState :=
  match c with
  | HTTPError => HTTP_ERROR
  | SSLError => SSL_ERROR
  | URLRequired | MissingSchema => MALFORMED_URL
  | ConnectionError_ | ProxyError | ConnectTimeout | Timeout | ReadTimeout
  | TooManyRedirects => CONN_FAILED
  | _ => UNKNOWN
  end.
Definition state_of_status (status : Z) : CrawlState :=
  if (status =? 525)%Z then SSL_ERROR
  else if (400 <=? status)%Z then HTTP_ERROR
  else SUCCESS.
Definition classified (attempt : outcome Response) : option Response * CrawlState :=
  match attempt with
  | Val r => (Some r, state_of_status (status_code r))
  | Exc e => (None, state_of_failure (class_of e))
  end.

(** A fetch during which the server drops the connection in the middle of
    a chunked body. *)
Definition broken_transfer : outcome Response :=
  Exc (PyExc ChunkedEncodingError "Connection broken: IncompleteRead(0 bytes read)").
Definition broken_transfer_world : World :=
  simple_world (fun _ => broken_transfer) [] "" no_json no_js.

(* ===================================================================== *)
(** ** The label dictionary                                               *)
(* ===================================================================== *)

(** No key of the list is equal, as Python compares keys, to a key that
    comes after it. *)
Fixpoint distinct (keys : list cookie_ident) : Prop :=
  match keys with
  | [] => True
  | k :: rest => Forall (fun k' => ident_eqb k k' = false) rest /\ distinct rest
  end.
Definition unique_keys (d : list (cookie_ident * list string)) : Prop :=
  distinct (map fst d).

(** The category names recorded for an identity; none when it is absent. *)
Definition labels_of (k : cookie_ident) (s : Scraper) : list string :=
  match labels_get k (cookie_labels s) with
  | Some l => l
  | None => []
  end.

(** Two rows for one cookie that disagree on the purpose and on the
    category: the first crawl calls it a session cookie, the second an
    advertising cookie. *)
Definition sid_first : CookieTuple :=
  MkCookie "https://a.example" (PStr "sid") (PStr "a.example") "/" ESSENTIAL
           "Necessary" (PStr "keeps the session") PNone.
Definition sid_second : CookieTuple :=
  MkCookie "https://a.example" (PStr "sid") (PStr "a.example") "/" ADVERTISING
           "Advertising" (PStr "tracks the visitor") PNone.
Definition collect_row (r : CookieTuple) : M unit :=
  collect_cookie_dat (ct_site_url r) (ct_name r) (ct_domain r) (ct_path r)
                     (ct_cat_name r) (ct_cat_id r) (ct_purpose r) (ct_type r).

(* ===================================================================== *)
(** ** A rule set address that answers with a page                        *)
(* ===================================================================== *)

(** A shop that embeds the OneTrust stub from cdn.cookielaw.org with a
    data domain id.  The address of the rule set list answers 200 with an
    HTML page instead of JSON, which [json.loads] rejects. *)
Definition shop_url : string := "https://shop.example".
Definition shop_stub : Element :=
  script [("src", "https://cdn.cookielaw.org/scripttemplates/otSDKStub.js");
          ("data-domain-script", blob_uuid)].
Definition shop_ruleset_url : string :=
  "https://cdn.cookielaw.org/consent/" ++ blob_uuid ++ "/" ++ blob_uuid ++ ".json".
Definition shop_get (url : string) : outcome Response :=
  if String.eqb url shop_ruleset_url
  then Val (MkResponse 200 "<html><body>Page not found</body></html>")
  else Val (MkResponse 200 "<html></html>").
Definition shop_json (body : string) : outcome pyval :=
  if String.eqb body "<html><body>Page not found</body></html>"
  then Exc (PyExc JSONDecodeError "Expecting value: line 1 column 1 (char 0)")
  else Val (PDict []).
Definition shop_world : World :=
  simple_world shop_get [shop_stub] "<html></html>" shop_json no_js.

(** The crawl of the shop alone, and a run over the shop and a second
    site. *)
Definition next_url : string := "https://next.example".
Definition after_shop : outcome bool * Scraper :=
  OneTrust.scrape_website shop_world shop_url started_scraper.
Definition after_run : outcome (nat * nat) * Scraper :=
  crawl_sites (OneTrust.scrape_website shop_world) [shop_url; next_url] started_scraper.

(* ===================================================================== *)
(** ** The two variants of OneTrust, step by step                         *)
(* ===================================================================== *)

(** Variant A, entered in [s], fails with [state] and [report] and leaves
    [s']: one of its three steps returns a state other than [SUCCESS]. *)
Inductive variantA_fails (W : World) (url : string) (s : Scraper)
  : CrawlState -> option string -> Scraper -> Prop :=
| variantA_fails_uuid domain_url dd_id state report s1 :
    OneTrust.variantA_try_retrieve_uuid W url s
    = (Val (domain_url, dd_id, state, report), s1) ->
    state <> SUCCESS ->
    variantA_fails W url s state report s1
| variantA_fails_ruleset domain_url dd_id report1 s1 rs_ids state report s2 :
    OneTrust.variantA_try_retrieve_uuid W url s
    = (Val (domain_url, dd_id, SUCCESS, report1), s1) ->
    OneTrust.variantA_try_retrieve_ruleset_id W domain_url dd_id
      (snd (log DEBUG ("Onetrust data domain url = " ++ domain_url ++ "/" ++ dd_id) s1))
    = (Val (rs_ids, state, report), s2) ->
    state <> SUCCESS ->
    variantA_fails W url s state report s2
| variantA_fails_json domain_url dd_id report1 s1 rs_ids report2 s2
                      cookie_count state report s3 :
    OneTrust.variantA_try_retrieve_uuid W url s
    = (Val (domain_url, dd_id, SUCCESS, report1), s1) ->
    OneTrust.variantA_try_retrieve_ruleset_id W domain_url dd_id
      (snd (log DEBUG ("Onetrust data domain url = " ++ domain_url ++ "/" ++ dd_id) s1))
    = (Val (rs_ids, SUCCESS, report2), s2) ->
    OneTrust.variantA_get_and_parse_json W url domain_url dd_id rs_ids
      (snd (log DEBUG (py_str (PList rs_ids))
              (snd (log INFO ("Found " ++ str_of_nat (length rs_ids) ++ " ruleset ids") s2))))
    = (Val (cookie_count, state, report), s3) ->
    state <> SUCCESS ->
    variantA_fails W url s state report s3.

(** The same for Variant B, whose first act is to announce itself. *)
Inductive variantB_fails (W : World) (url : string) (s : Scraper)
  : CrawlState -> option string -> Scraper -> Prop :=
| variantB_fails_path script_url state report s1 :
    OneTrust.variantB_retrieve_script_path W url
      (snd (log INFO "Attempting Variant B" s))
    = (Val (script_url, state, report), s1) ->
    state <> SUCCESS ->
    variantB_fails W url s state report s1
| variantB_fails_object script_url report1 s1 data_dict state report s2 :
    OneTrust.variantB_retrieve_script_path W url
      (snd (log INFO "Attempting Variant B" s))
    = (Val (script_url, SUCCESS, report1), s1) ->
    OneTrust.variantB_parse_script_for_object W script_url
      (snd (log DEBUG ("Onetrust javascript url = " ++ script_url) s1))
    = (Val (data_dict, state, report), s2) ->
    state <> SUCCESS ->
    variantB_fails W url s state report s2
| variantB_fails_extract script_url report1 s1 data_dict report2 s2
                         cookie_count state report s3 :
    OneTrust.variantB_retrieve_script_path W url
      (snd (log INFO "Attempting Variant B" s))
    = (Val (script_url, SUCCESS, report1), s1) ->
    OneTrust.variantB_parse_script_for_object W script_url
      (snd (log DEBUG ("Onetrust javascript url = " ++ script_url) s1))
    = (Val (data_dict, SUCCESS, report2), s2) ->
    OneTrust.variantB_extract_cookies_from_dict url
      (match data_dict with Some d => d | None => PNone end)
      (snd (log DEBUG "Successfully retrieved OneTrust Consent javascript object data." s2))
    = (Val (cookie_count, state, report), s3) ->
    state <> SUCCESS ->
    variantB_fails W url s state report s3.



(** The body of a parse loop, started in [s], is cut short by an exception. *)
Definition cut_short (body : M unit) (s : Scraper) : Prop :=
  exists e s', body s = (Exc e, s').

(** The crawl of [url] from [s] gets the document of Termly and walks
    over its buckets, and an exception cuts the walk short. *)
Definition termly_cut_short (W : World) (url : string) (s : Scraper) : Prop :=
  exists cookies_dict report s1,
    Termly.retrieve_termly_json W url s = (Val (cookies_dict, SUCCESS, report), s1)
    /\ cut_short (Termly.walk_buckets url cookies_dict)
         (set_weird_stuff_occurred false
            (set_cookie_count 0 (snd (log INFO "Found cookie json dict" s1)))).

(** Variant B, entered in [s], finds the script, reads the object, and
    walks over its groups, and an exception cuts the walk short. *)
Definition variantB_cut_short (W : World) (url : string) (s : Scraper) : Prop :=
  exists script_url report1 s1 data_dict report2 s2,
    OneTrust.variantB_retrieve_script_path W url
      (snd (log INFO "Attempting Variant B" s))
    = (Val (script_url, SUCCESS, report1), s1)
    /\ OneTrust.variantB_parse_script_for_object W script_url
         (snd (log DEBUG ("Onetrust javascript url = " ++ script_url) s1))
       = (Val (data_dict, SUCCESS, report2), s2)
    /\ cut_short (OneTrust.variantB_walk_groups url
                    (match data_dict with Some d => d | None => PNone end))
         (set_cookie_count 0
            (snd (log DEBUG
                    "Successfully retrieved OneTrust Consent javascript object data." s2))).

(** The crawl of [url] from [s] reaches the site, fails with Variant A,
    and walks over the groups of Variant B, where an exception cuts the walk
    short. *)
Definition onetrust_cut_short (W : World) (url : string) (s : Scraper) : Prop :=
  exists r report s0 stA msgA sA,
    static_get_request W url [] s = (Val (r, SUCCESS, report), s0)
    /\ variantA_fails W url
         (snd (log DEBUG ("Connection to " ++ url ++ " successful.") s0)) stA msgA sA
    /\ variantB_cut_short W url
         (snd (log WARNING ("Variant A failed. Reason: " ++ fmt_state stA
                            ++ " -- " ++ fmt_report msgA) sA)).

(** Variant B fails before its third step. *)
Inductive variantB_fails_early (W : World) (url : string) (s : Scraper)
  : CrawlState -> option string -> Scraper -> Prop :=
| variantB_fails_early_path script_url state report s1 :
    OneTrust.variantB_retrieve_script_path W url
      (snd (log INFO "Attempting Variant B" s))
    = (Val (script_url, state, report), s1) ->
    state <> SUCCESS ->
    variantB_fails_early W url s state report s1
| variantB_fails_early_object script_url report1 s1 data_dict state report s2 :
    OneTrust.variantB_retrieve_script_path W url
      (snd (log INFO "Attempting Variant B" s))
    = (Val (script_url, SUCCESS, report1), s1) ->
    OneTrust.variantB_parse_script_for_object W script_url
      (snd (log DEBUG ("Onetrust javascript url = " ++ script_url) s1))
    = (Val (data_dict, state, report), s2) ->
    state <> SUCCESS ->
    variantB_fails_early W url s state report s2.

(** What [scrape_website] does with a failure of Variant B (lines 427-429). *)
Definition variantB_failed (url : string) : exn -> option (M bool) :=
  OneTrust.except_variant_failed
    (fun crawlstate message => update_crawl_stats url crawlstate message ;; ret false)%py.

(** The crawl of the site of [blob_site_world], stage by stage. *)
Definition blob_site_url : string := "https://example.com".
Definition blob_after_get : Scraper :=
  snd (static_get_request blob_site_world blob_site_url [] started_scraper).
Definition blob_entering_A : Scraper :=
  snd (log DEBUG ("Connection to " ++ blob_site_url ++ " successful.") blob_after_get).
Definition blob_after_A : Scraper :=
  snd (OneTrust.variantA_try_retrieve_uuid blob_site_world blob_site_url blob_entering_A).
Definition blob_no_id : string :=
  "Could not find data-domain script id on website: https://example.com".
Definition blob_entering_B : Scraper :=
  snd (log WARNING ("Variant A failed. Reason: " ++ fmt_state PARSE_ERROR
                    ++ " -- " ++ fmt_report (Some blob_no_id)) blob_after_A).
Definition blob_after_B : Scraper :=
  snd (OneTrust.variantB_retrieve_script_path blob_site_world blob_site_url
         (snd (log INFO "Attempting Variant B" blob_entering_B))).
Definition blob_no_link : string :=
  "Variant B: Could not find OneTrust javascript url in any tag.".

(** What a crawl that started in [s] leaves behind: an exception has
    recorded nothing; a result [b] comes with one recorded outcome, and [b]
    tells whether it is [SUCCESS].  [SUCCESS] comes with new rows; any
    other outcome than [partial], the one recorded when the parse loop is cut
    short, comes with the collected data as it was. *)
Definition crawl_cases (partial : CrawlState) (s : Scraper)
    (o : outcome bool) (s' : Scraper) : Prop :=
  match o with
  | Exc _ => records_nothing s s'
  | Val b =>
      exists st,
        b = CrawlState_eqb st SUCCESS /\ records st s s' /\
        ((st = SUCCESS /\ 0 < new_records s s')
         \/ st = partial
         \/ (st <> SUCCESS /\ same_data s s'))
  end.

(* ===================================================================== *)
(** ** Two crawls at the edge of the rules                                *)
(* ===================================================================== *)

(** A shop whose OneTrust script, hosted on cdn.cookielaw.org, lists no
    group at all; the page has no data domain id, so that Variant A finds
    nothing and Variant B reads the script. *)
Definition empty_groups_src : string := consent_script_url cookielaw_host blob_uuid.
Definition empty_groups_script : string :=
  "var OptanonData = {Domain: 'shop.example', Groups: []};".
Definition empty_groups : pyval := PDict [("Groups", PList [])].
Definition empty_groups_js (source : string) : outcome pyval :=
  if String.eqb source "function $() {return { Groups: []}};" then Val empty_groups
  else no_js source.
Definition empty_groups_world : World :=
  simple_world
    (fun url => if String.eqb url empty_groups_src
                then Val (MkResponse 200 empty_groups_script) else ok_page url)
    [script [("src", empty_groups_src)]] "<html></html>" no_json empty_groups_js.
Definition after_empty_groups : outcome bool * Scraper :=
  OneTrust.scrape_website empty_groups_world shop_url started_scraper.



(** A Cookiebot script with the table of the scenario on its first line
    and, on the second, a table for the bucket Preference whose only row
    has a single field. *)
Definition broken_preference_body : string :=
  necessary_only_body ++ String newline EmptyString
  ++ "CookieConsentDialog.cookieTablePreference = [[1]];".
Definition broken_preference_world : World :=
  cookiebot_world (Val (MkResponse 200 broken_preference_body)).
Definition after_broken_preference : outcome bool * Scraper :=
  Cookiebot.scrape_website broken_preference_world cookiebot_site started_scraper.

(** A Cookiebot site whose consent server answers 404. *)
Definition missing_cc_world : World := cookiebot_world (Val (MkResponse 404 "")).

(* ===================================================================== *)
(** ** Tallies of recorded outcomes                                       *)
(* ===================================================================== *)

(** The members of [CrawlState], in the order of the class. *)
Definition all_states : list CrawlState :=
  [SUCCESS; CONN_FAILED; HTTP_ERROR; PARSE_ERROR; CMP_NOT_FOUND; BOT_DETECTION;
   MALFORMED_URL; SSL_ERROR; LIBRARY_ERROR; REGION_BLOCK; MALFORM_RESP; NO_COOKIES;
   JSON_DECODE_ERROR; UNKNOWN].

(** The sum of all the counters of [_status_counts]. *)
Definition total_count (s : Scraper) : nat :=
  fold_right (fun e n => status_counts s e + n) 0 all_states.

(** A sequence of calls of [update_crawl_stats], one per outcome
    [(url, state, report)]. *)
Definition record_outcomes (l : list (string * CrawlState * option string)) : M unit :=
  for_each l (fun o => update_crawl_stats (fst (fst o)) (snd (fst o)) (snd o)).
Definition count_state (e : CrawlState) (l : list (string * CrawlState * option string))
  : nat :=
  length (filter (fun o => CrawlState_eqb e (snd (fst o))) l).
Definition failures (l : list (string * CrawlState * option string)) : list string :=
  map (fun o => fst (fst o))
      (filter (fun o => negb (CrawlState_eqb (snd (fst o)) SUCCESS)) l).

(* ===================================================================== *)
(** ** Brackets                                                           *)
(* ===================================================================== *)

(** What one character adds to the number of open brackets, and what a
    text adds in all. *)
Definition bracket_step (c : ascii) : Z :=
  if Ascii.eqb c "[" then 1%Z else if Ascii.eqb c "]" then (-1)%Z else 0%Z.
Fixpoint net_brackets (l : list ascii) : Z :=
  match l with
  | [] => 0%Z
  | c :: t => (bracket_step c + net_brackets t)%Z
  end.

(** A page whose OneTrust stub is served from the cookiepro blob host. *)
Definition blob_stub : Element :=
  script [("src", "https://cookiepro.blob.core.windows.net/scripttemplates/otSDKStub.js");
          ("data-domain-script", blob_uuid)].

(* ===================================================================== *)
(** ** Rule sets and their languages                                      *)
(* ===================================================================== *)

(** What the list of rule sets says of one rule set: the values of its
    language table, if it has one, and its id. *)
Definition ruleset_desc : Type := (pyval * option (list pyval))%type.
Definition english (d : ruleset_desc) : bool :=
  match snd d with
  | Some vals => existsb (fun v => py_eq_str v "en") vals
  | None => false
  end.
Definition describes (d : ruleset_desc) (r : pyval) : Prop :=
  match snd d with
  | None => getitem r "LanguageSwitcherPlaceholder" = Val PNone
  | Some vals =>
      exists languageset,
        getitem r "LanguageSwitcherPlaceholder" = Val languageset
        /\ is_None languageset = false
        /\ py_values languageset = Val vals
  end
  /\ (english d = true -> getitem r "Id" = Val (fst d)).

(** A shop with three rule sets, for Germany, for the United Kingdom and
    a global one without a language table. *)
Definition three_rulesets : list pyval :=
  [PDict [("Id", PStr "r-de");
          ("LanguageSwitcherPlaceholder", PDict [("default", PStr "de")])];
   PDict [("Id", PStr "r-uk");
          ("LanguageSwitcherPlaceholder",
           PDict [("default", PStr "en"); ("fr", PStr "fr")])];
   PDict [("Id", PStr "r-global"); ("LanguageSwitcherPlaceholder", PNone)]].
Definition three_rulesets_world : World :=
  simple_world ok_page [] "<html></html>"
               (fun _ => Val (PDict [("RuleSet", PList three_rulesets)])) no_js.

(* ===================================================================== *)
(** ** The rows that a crawl appends                                      *)
(* ===================================================================== *)

(** Between [s] and [s'] rows were only appended to the collected data,
    and every one of them satisfies [P]. *)
Definition adds (P : CookieTuple -> Prop) (s s' : Scraper) : Prop :=
  exists new,
    database_cookie_data s' = (database_cookie_data s ++ new)%list /\ Forall P new.

(** What a row collected by each extractor for [url] looks like. *)
Definition cookiebot_row (url : string) (r : CookieTuple) : Prop :=
  ct_site_url r = url /\ ct_path r = "/"
  /\ Cookiebot.name_to_cat (ct_cat_name r) = Val (ct_cat_id r).
Definition termly_row (url : string) (r : CookieTuple) : Prop :=
  ct_site_url r = url /\ ct_path r = "/"
  /\ Termly.name_to_cat (ct_cat_name r) = Some (ct_cat_id r).
Definition onetrust_row (url : string) (r : CookieTuple) : Prop :=
  ct_site_url r = url /\ ct_path r = "/" /\ ct_type r = PNone
  /\ ct_cat_id r = OneTrust.category_lookup_en (ct_cat_name r).

(** The browser is running after a step if it was running before. *)
Definition driver_kept (s s' : Scraper) : Prop := webdriver s' = webdriver s.

(** [main] (run_scraper.py, lines 155-166) picks the extractor by the
    provider named on the command line. *)
Inductive Provider : Type := cookiebot | onetrust | termly.

Definition scrape_website (W : World) (p : Provider) : string -> M bool :=
  match p with
  | cookiebot => Cookiebot.scrape_website W
  | onetrust => OneTrust.scrape_website W
  | termly => Termly.scrape_website W
  end.

(** A crawl that returns has recorded one outcome, [SUCCESS] exactly when
    it returns [True]; a crawl that raises has recorded none. *)
Definition tallies (scrape : string -> M bool) : Prop :=
  forall u s,
    match fst (scrape u s) with
    | Val b => exists st, b = CrawlState_eqb st SUCCESS /\ records st s (snd (scrape u s))
    | Exc _ => records_nothing s (snd (scrape u s))
    end.

(** What [driver_get] returns for an exception of the browser, class by
    class. *)
Definition driver_outcome (e : exn) : CrawlState * option string :=
  match class_of e with
  | TimeoutException => (SUCCESS, Some (type_ex e ++ str_ex e))
  | InvalidArgumentException => (MALFORMED_URL, Some (str_ex e))
  | InsecureCertificateException => (SSL_ERROR, Some (str_ex e))
  | _ => if str_contains "Reached error page:" (str_ex e)
         then (CONN_FAILED, Some (str_ex e))
         else (UNKNOWN, Some (type_ex e ++ str_ex e))
  end.
Definition driver_handled (e : exn) : outcome (CrawlState * option string) :=
  if isinstance e WebDriverException then Val (driver_outcome e) else Exc e.

(* ===================================================================== *)
(** ** run_scraper.py: [retrieve_urls] (lines 81-126)                     *)
(* ===================================================================== *)

(** The arguments that [retrieve_urls] reads. *)
Record Cargs : Type := MkCargs {
  arg_url : list string;
  arg_pkl : list string;
  arg_file : list string;
  arg_assume_http : bool
}.

(** The files named on the command line.  [None]: [os.path.exists] is
    false.  Otherwise what [pickle.load] returns, taken to be a list of
    strings, and the lines of a text file as the iteration over it yields
    them, or the exception that opening or reading the file raises. *)
Record Disk : Type := MkDisk {
  pickle_load : string -> option (outcome (list string));
  read_lines : string -> option (outcome (list string))
}.

(** A [set] of strings: the elements without repetition.  [set.remove]
    raises a KeyError for an element that is not in the set. *)
Definition set_add (x : string) (sites : list string) : list string :=
  if existsb (String.eqb x) sites then sites else (sites ++ [x])%list.
Definition set_remove (x : string) (sites : list string) : outcome (list string) :=
  if existsb (String.eqb x) sites
  then Val (filter (fun y => negb (String.eqb x y)) sites)
  else Exc (PyExc KeyError ("'" ++ x ++ "'")).
Definition set_update (l sites : list string) : list string :=
  fold_left (fun acc x => set_add x acc) l sites.

(** What is written to the logger "main". *)
Definition MainLog : Type := list (LogLevel * string).

(** [for p in cargs["--pkl"]: ...] *)
Fixpoint read_pickles (disk : Disk) (paths : list string) (sites : list string)
                      (lg : MainLog) : outcome (list string) * MainLog :=
  match paths with
  | [] => (Val sites, lg)
  | p :: rest =>
      match pickle_load disk p with
      | Some (Val contents) => read_pickles disk rest (set_update contents sites) lg
      | Some (Exc e) => (Exc e, lg)
      | None =>
          read_pickles disk rest sites
            (lg ++ [(ERROR, ("Provided pickle file path is invalid: " ++ dq ++ p ++ dq)%string)])%list
      end
  end.

(** [for fn in cargs["--file"]: ...] *)
Fixpoint read_files (disk : Disk) (paths : list string) (sites : list string)
                    (lg : MainLog) : outcome (list string) * MainLog :=
  match paths with
  | [] => (Val sites, lg)
  | fn :: rest =>
      match read_lines disk fn with
      | Some (Val lines) => read_files disk rest (set_update (map strip lines) sites) lg
      | Some (Exc e) => (Exc e, lg)
      | None =>
          read_files disk rest sites
            (lg ++ [(ERROR, ("Provided plaintext file path is invalid: " ++ dq ++ fn ++ dq)%string)])%list
      end
  end.

(** The two tests of the loop that checks the URLs. *)
Definition blank_or_comment (url : string) : bool :=
  Nat.eqb (length (chars url)) 0
  || Nat.eqb (length (chars (strip url))) 0
  || is_prefix (chars "#") (chars url).
Definition has_http_scheme (url : string) : bool :=
  is_prefix (chars "http://") (map lower (chars url))
  || is_prefix (chars "https://") (map lower (chars url)).

(** [while copy: url = copy.pop() ...], [copy] being listed in the order
    in which its elements are popped. *)
Fixpoint check_urls (assume_http : bool) (copy : list string) (sites : list string)
                    (lg : MainLog) : outcome (list string) * MainLog :=
  match copy with
  | [] => (Val sites, lg)
  | url :: rest =>
      if blank_or_comment url then
        match set_remove url sites with
        | Val sites' => check_urls assume_http rest sites' lg
        | Exc e => (Exc e, lg)
        end
      else if negb (has_http_scheme url) then
        match set_remove url sites with
        | Val sites' =>
            if assume_http then
              check_urls assume_http rest (set_add ("http://" ++ url)%string sites')
                (lg ++ [(DEBUG, ("Appended HTTP prefix to URL: " ++ dq ++ url ++ dq)%string)])%list
            else
              check_urls assume_http rest sites'
                (lg ++ [(WARNING, ("Removed URL: " ++ dq ++ url ++ dq
                                   ++ " (missing http schema)")%string)])%list
        | Exc e => (Exc e, lg)
        end
      else check_urls assume_http rest sites lg
  end.

(** The URLs gathered from the three kinds of arguments (lines 87-110). *)
Definition gather_urls (cargs : Cargs) (disk : Disk) : outcome (list string) * MainLog :=
  match read_pickles disk (arg_pkl cargs) (set_update (arg_url cargs) []) [] with
  | (Val sites, lg) => read_files disk (arg_file cargs) sites lg
  | (Exc e, lg) => (Exc e, lg)
  end.

(** [retrieve_urls].  The order in which a set is popped is not fixed by
    Python: [pop_order] lists the elements of a set in that order. *)
Definition retrieve_urls (pop_order : list string -> list string)
                         (cargs : Cargs) (disk : Disk) : outcome (list string) * MainLog :=
  match gather_urls cargs disk with
  | (Val sites, lg) => check_urls (arg_assume_http cargs) (pop_order sites) sites lg
  | (Exc e, lg) => (Exc e, lg)
  end.

(** A URL that the check keeps, and one that it removes for its missing
    scheme. *)
Definition kept_url (url : string) : bool :=
  negb (blank_or_comment url) && has_http_scheme url.
Definition schemeless_url (url : string) : bool :=
  negb (blank_or_comment url) && negb (has_http_scheme url).

(** The URLs that the check leaves of the [given] ones: those that it
    keeps and, under [--assume_http], those without a scheme, prefixed. *)
Definition checked (assume_http : bool) (given : string -> Prop) (x : string) : Prop :=
  (given x /\ kept_url x = true)
  \/ (assume_http = true
      /\ exists u, given u /\ schemeless_url u = true /\ x = "http://" ++ u).

(** [pop_order] lists every element of a set once. *)
Definition pops_each_once (pop_order : list string -> list string) : Prop :=
  forall l, NoDup l -> NoDup (pop_order l) /\ forall x, In x (pop_order l) <-> In x l.

(** The URLs that the arguments name: on the command line, in a pickled
    list, or as a line of a text file, stripped. *)
Definition listed (cargs : Cargs) (disk : Disk) (x : string) : Prop :=
  In x (arg_url cargs)
  \/ (exists p contents,
        In p (arg_pkl cargs) /\ pickle_load disk p = Some (Val contents) /\ In x contents)
  \/ (exists fn lines line,
        In fn (arg_file cargs) /\ read_lines disk fn = Some (Val lines)
        /\ In line lines /\ x = strip line).

(** Every file that exists can be loaded. *)
Definition loadable (cargs : Cargs) (disk : Disk) : Prop :=
  (forall p e, In p (arg_pkl cargs) -> pickle_load disk p <> Some (Exc e))
  /\ (forall fn e, In fn (arg_file cargs) -> read_lines disk fn <> Some (Exc e)).

(** A run with two URLs and a comment on the command line and a text file
    of two lines, the second one blank. *)
Definition example_cargs : Cargs :=
  MkCargs ["https://a.example/"; "b.example"; "# a note"] [] ["urls.txt"] true.
Definition example_disk : Disk :=
  MkDisk (fun _ => None)
         (fun fn => if String.eqb fn "urls.txt"
                    then Some (Val ["HTTP://c.example" ++ str [newline]; str [newline]])
                    else None).

(* ===================================================================== *)
(** ** The rows of a Termly document                                      *)
(* ===================================================================== *)

(** [c[key] if key in c else None] for the fields of a dictionary. *)
Definition field_or_None (fields : list (string * pyval)) (key : string) : pyval :=
  match assoc_str key fields with Some v => v | None => PNone end.

Definition cookie_fields (c : pyval) : list (string * pyval) :=
  match c with PDict d => d | _ => [] end.

(** The row for one cookie of the bucket [catname]. *)
Definition termly_cookie_row (url catname : string) (cat_id : CookieCategory)
    (c : pyval) : CookieTuple :=
  MkCookie url (field_or_None (cookie_fields c) "name")
           (field_or_None (cookie_fields c) "domain") "/" cat_id catname
           (field_or_None (cookie_fields c) "en_us")
           (field_or_None (cookie_fields c) "tracker_type").

(** The rows for the buckets of a document, bucket by bucket; a bucket
    whose name is not in [name_to_cat] gives none. *)
Definition termly_rows (url : string) (buckets : list (string * pyval)) : list CookieTuple :=
  flat_map (fun item =>
              match Termly.name_to_cat (fst item), snd item with
              | Some cat_id, PList cs => map (termly_cookie_row url (fst item) cat_id) cs
              | _, _ => []
              end) buckets.

(** A cookie that is a dictionary whose name and domain, if present, can
    be hashed; a bucket that is a list of such cookies, or has a name that
    is not in [name_to_cat]. *)
Definition usable_cookie (c : pyval) : bool :=
  match c with
  | PDict d => hashable (field_or_None d "name") && hashable (field_or_None d "domain")
  | _ => false
  end.
Definition usable_bucket (item : string * pyval) : bool :=
  match Termly.name_to_cat (fst item), snd item with
  | None, _ => true
  | Some _, PList cs => forallb usable_cookie cs
  | Some _, _ => false
  end.

(** A document with two known buckets and one that Termly does not
    document. *)
Definition termly_example_buckets : list (string * pyval) :=
  [("essential",
    PList [PDict [("name", PStr "session"); ("domain", PStr "shop.example");
                  ("category", PStr "essential"); ("tracker_type", PStr "http_cookie")]]);
   ("marketing", PList [PDict [("name", PStr "mk")]]);
   ("analytics",
    PList [PDict [("name", PStr "_ga"); ("en_us", PStr "Counts visits.")];
           PDict [("domain", PStr "stats.example")]])].
Definition termly_example : pyval := PDict [("cookies", PDict termly_example_buckets)].

(* ===================================================================== *)
(** ** base_scraper.py: the dump functions (lines 122-190)                *)
(* ===================================================================== *)

Definition slash : ascii := "/"%char.

(** [p.rfind("/") + 1] *)
Fixpoint after_last_slash (l : list ascii) : nat :=
  match l with
  | [] => 0
  | c :: t => match after_last_slash t with
              | 0 => if Ascii.eqb c slash then 1 else 0
              | S n => S (S n)
              end
  end.

Fixpoint drop_slashes (l : list ascii) : list ascii :=
  match l with
  | c :: t => if Ascii.eqb c slash then drop_slashes t else l
  | [] => []
  end.

(** [os.path.split] of posixpath; [None] is not a path. *)
Definition os_path_split (p : option string) : outcome (string * string) :=
  match p with
  | None => Exc (PyExc TypeError "expected str, bytes or os.PathLike object, not NoneType")
  | Some p =>
      let i := after_last_slash (chars p) in
      let head := firstn i (chars p) in
      let tail := skipn i (chars p) in
      let head := if negb (Nat.eqb (length head) 0) && negb (forallb (Ascii.eqb slash) head)
                  then rev (drop_slashes (rev head)) else head in
      Val (str head, str tail)
  end.

(** The file system: what [os.makedirs(dirs, exist_ok=True)] does for a
    path that is not empty, and what [open(path, 'w')] does. *)
Record FileSystem : Type := MkFileSystem {
  fs_makedirs : string -> outcome unit;
  fs_open_w : string -> outcome unit
}.

(** [os.makedirs(dirs, exist_ok=True)]: the empty path names no directory,
    and [mkdir] fails on it with a FileNotFoundError, an OSError. *)
Definition os_makedirs (fs : FileSystem) (dirs : string) : outcome unit :=
  if Nat.eqb (length (chars dirs)) 0
  then Exc (PyExc OSError "[Errno 2] No such file or directory: ''")
  else fs_makedirs fs dirs.

(** [not outpath] and the path that [outpath = self.logpath] leaves. *)
Definition no_path (outpath : option string) : bool :=
  match outpath with
  | None => true
  | Some p => Nat.eqb (length (chars p)) 0
  end.
Definition path_or (outpath : option string) (fallback : string) : string :=
  match outpath with
  | None => fallback
  | Some p => if Nat.eqb (length (chars p)) 0 then fallback else p
  end.

Definition nl : string := str [newline].

(** What the [for] loop of [dump_failed_urls] writes. *)
Definition failed_urls_text (urls : list string) : string :=
  String.concat "" (map (fun u => u ++ nl) urls).

(** [dump_failed_urls] (lines 122-139). *)
Definition dump_failed_urls (fs : FileSystem) (outpath : option string) : M unit :=
  s <- get ;;
  if Nat.eqb (length (failed_urls s)) 0 then log DEBUG "No failed URLs to dump."
  else
    let outpath := path_or outpath (logpath s) in
    '(dirs, fn) <- lift (os_path_split (Some outpath)) ;;
    lift (os_makedirs fs dirs) ;;
    lift (fs_open_w fs outpath) ;;
    write_file outpath (failed_urls_text (failed_urls s)) ;;
    log INFO ("Dumped failed crawl URLs to: " ++ dq ++ outpath ++ dq).

(** The lines of [dump_crawl_statistics] (lines 154-164), in order. *)
Definition statistics_rows : list (string * CrawlState) :=
  [("Successful requests:          ", SUCCESS);
   ("Failed to connect:            ", CONN_FAILED);
   ("HTTP errors:                  ", HTTP_ERROR);
   ("Website parse failures:       ", PARSE_ERROR);
   ("Consent Library not found:    ", CMP_NOT_FOUND);
   ("Malformed URL:                ", MALFORMED_URL);
   ("SSL Errors:                   ", SSL_ERROR);
   ("Region Block Response:        ", REGION_BLOCK);
   ("Malformed Response:           ", MALFORM_RESP);
   ("Library Returned Error:       ", LIBRARY_ERROR);
   ("Unknown Errors:               ", UNKNOWN)].
Definition statistics_text (s : Scraper) : string :=
  String.concat ""
    (map (fun r => fst r ++ str_of_nat (status_counts s (snd r)) ++ nl) statistics_rows).

(** [dump_crawl_statistics] (lines 142-166). *)
Definition dump_crawl_statistics (fs : FileSystem) (outpath : option string) : M unit :=
  '(dirs, fn) <- lift (os_path_split outpath) ;;
  lift (os_makedirs fs dirs) ;;
  s <- get ;;
  let outpath := path_or outpath (logpath s) in
  lift (fs_open_w fs outpath) ;;
  write_file outpath (statistics_text s) ;;
  log INFO ("Dumped crawl statistics to: " ++ dq ++ outpath ++ dq).

(** What [dump_full_error_info] writes for one state (lines 184-188). *)
Definition error_lines (s : Scraper) (e : CrawlState) : list string :=
  map (fun kv => "Website: " ++ dq ++ fst kv ++ dq ++ "  ----  Details: "
                 ++ dq ++ snd (snd kv) ++ dq)
      (filter (fun kv => CrawlState_eqb (fst (snd kv)) e) (crawl_log s)).
Definition error_section (s : Scraper) (e : CrawlState) : string :=
  "Error Type " ++ fmt_state e ++ nl
  ++ (if Nat.eqb (length (error_lines s e)) 0 then ""
      else String.concat nl (error_lines s e) ++ nl).
Definition error_info_text (s : Scraper) : string :=
  String.concat ""
    (map (error_section s)
         (filter (fun e => negb (CrawlState_eqb e SUCCESS)) all_states)).

(** [dump_full_error_info] (lines 169-190). *)
Definition dump_full_error_info (fs : FileSystem) (outpath : option string) : M unit :=
  '(dirs, fn) <- lift (os_path_split outpath) ;;
  lift (os_makedirs fs dirs) ;;
  s <- get ;;
  let outpath := path_or outpath (logpath s) in
  lift (fs_open_w fs outpath) ;;
  write_file outpath (error_info_text s) ;;
  log INFO ("Dumped full error info to: " ++ dq ++ outpath ++ dq).

(** Reading a text file line by line.  Python translates the line ends
    [\r\n] and [\r] to [\n]; a line keeps its [\n]. *)
Definition carriage_return : ascii := ascii_of_nat 13.
Fixpoint universal_newlines (l : list ascii) : list ascii :=
  match l with
  | [] => []
  | c :: t =>
      if Ascii.eqb c carriage_return then
        match t with
        | d :: t' => if Ascii.eqb d newline then newline :: universal_newlines t'
                     else newline :: universal_newlines t
        | [] => [newline]
        end
      else c :: universal_newlines t
  end.
Fixpoint split_lines (l : list ascii) (cur : list ascii) : list (list ascii) :=
  match l with
  | [] => match cur with [] => [] | _ => [rev cur] end
  | c :: t => if Ascii.eqb c newline then rev (c :: cur) :: split_lines t []
              else split_lines t (c :: cur)
  end.
Definition file_lines (content : string) : list string :=
  map str (split_lines (universal_newlines (chars content)) []).

(** A string without a line end. *)
Definition single_line (u : string) : bool :=
  forallb (fun c => negb (Ascii.eqb c newline) && negb (Ascii.eqb c carriage_return))
          (chars u).

(** The counters that [dump_crawl_statistics] writes, added up. *)
Definition listed_count (s : Scraper) : nat :=
  fold_right (fun r n => status_counts s (snd r) + n) 0 statistics_rows.

(** The exceptions with which a dump function stops before it writes. *)
Definition not_a_path : exn :=
  PyExc TypeError "expected str, bytes or os.PathLike object, not NoneType".
Definition no_directory : exn :=
  PyExc OSError "[Errno 2] No such file or directory: ''".

(* ===================================================================== *)
(** ** The outcomes that an extractor can record                          *)
(* ===================================================================== *)

(** The states that [static_get_request] and [driver_get] return. *)
Definition fetch_state (st : CrawlState) : bool :=
  match st with
  | SUCCESS | SSL_ERROR | HTTP_ERROR | MALFORMED_URL | CONN_FAILED | UNKNOWN => true
  | _ => false
  end.

(** The states that occur in cookiebot_scraper.py and in
    termly_scraper.py, next to those of a fetch. *)
Definition cookiebot_state (st : CrawlState) : bool :=
  fetch_state st
  || match st with
     | PARSE_ERROR | LIBRARY_ERROR | REGION_BLOCK | MALFORM_RESP | NO_COOKIES => true
     | _ => false
     end.
Definition termly_state (st : CrawlState) : bool :=
  fetch_state st
  || match st with
     | CMP_NOT_FOUND | JSON_DECODE_ERROR | PARSE_ERROR | MALFORM_RESP | NO_COOKIES => true
     | _ => false
     end.

(** Between [s] and [s'] only counters of states in [P] have moved. *)
Definition only (P : CrawlState -> bool) (s s' : Scraper) : Prop :=
  forall e, P e = false -> status_counts s' e = status_counts s e.

(** The states that the steps of Variant B return, next to those of a
    fetch. *)
Definition onetrust_state (st : CrawlState) : bool :=
  fetch_state st || match st with PARSE_ERROR | MALFORM_RESP => true | _ => false end.

(** The state of every [VariantFailedException] that leaves [c] is in [P]. *)
Definition fails_within (P : CrawlState -> bool) {A} (c : M A) : Prop :=
  forall s e s', c s = (Exc e, s') ->
    match e with
    | VariantFailed st _ => P st = true
    | PyExc _ _ => True
    end.

(** The states that the extractor of a provider can record. *)
Definition recordable (p : Provider) : CrawlState -> bool :=
  match p with
  | cookiebot => cookiebot_state
  | onetrust => onetrust_state
  | termly => termly_state
  end.

(* ===================================================================== *)
(** ** The failed URLs of a crawl                                         *)
(* ===================================================================== *)

(** How often [e] occurs among the outcomes [l], and how many of them are
    failures. *)
Definition tally (e : CrawlState) (l : list CrawlState) : nat :=
  length (filter (CrawlState_eqb e) l).
Definition failures_among (l : list CrawlState) : nat :=
  length (filter (fun st => negb (CrawlState_eqb st SUCCESS)) l).

(** Between [s] and [s'] the outcomes [l] were recorded for [url]. *)
Definition updates_for (url : string) (l : list CrawlState) (s s' : Scraper) : Prop :=
  (forall e, status_counts s' e = status_counts s e + tally e l)
  /\ failed_urls s' = (failed_urls s ++ repeat url (failures_among l))%list.
Definition logs_for (url : string) (s s' : Scraper) : Prop :=
  exists l, updates_for url l s s'.

(** What a crawl of [u] that ends with [o] adds to [failed_urls]. *)
Definition failure_of (u : string) (o : outcome bool) : list string :=
  match o with
  | Val false => [u]
  | _ => []
  end.

(* ===================================================================== *)
(** ** The rows of a OneTrust consent object (Variant B)                  *)
(* ===================================================================== *)

(** [g["GroupLanguagePropertiesSets"][0]["GroupName"]["Text"]], when it is
    there and is a string. *)
Definition group_text (g : pyval) : option string :=
  match getitem g "GroupLanguagePropertiesSets" with
  | Val sets =>
      match getindex sets 0 with
      | Val set0 =>
          match getitem set0 "GroupName" with
          | Val group_name =>
              match getitem group_name "Text" with
              | Val (PStr name) => Some name
              | _ => None
              end
          | Exc _ => None
          end
      | Exc _ => None
      end
  | Exc _ => None
  end.

(** The name under which the cookies of a group are recorded: its own, or
    the one of its parent when it has one. *)
Definition group_category_name (g : pyval) : option string :=
  match getitem g "Parent" with
  | Val parent => if is_None parent then group_text g else group_text parent
  | Exc _ => None
  end.

(** The row for one cookie of a group recorded under [cat_name]. *)
Definition variantB_cookie_row (url cat_name : string) (c : pyval) : option CookieTuple :=
  match getitem c "Name", getitem c "Host", contains_key "description" c with
  | Val cname, Val chost, Val present =>
      if hashable cname && hashable chost then
        Some (MkCookie url cname chost "/" (OneTrust.category_lookup_en cat_name) cat_name
                (if present : bool
                 then match getitem c "description" with Val d => d | Exc _ => PNone end
                 else PNone)
                PNone)
      else None
  | _, _, _ => None
  end.

Fixpoint all_some {A} (l : list (option A)) : option (list A) :=
  match l with
  | [] => Some []
  | Some x :: t => match all_some t with Some r => Some (x :: r) | None => None end
  | None :: _ => None
  end.

Definition variantB_group_rows (url : string) (g : pyval) : option (list CookieTuple) :=
  match group_category_name g, getitem g "Cookies" with
  | Some cat_name, Val cookies =>
      match iterate cookies with
      | Val cs => all_some (map (variantB_cookie_row url cat_name) cs)
      | Exc _ => None
      end
  | _, _ => None
  end.

(** The rows of the groups of a consent object, group by group. *)
Definition variantB_rows (url : string) (groups : list pyval) : option (list CookieTuple) :=
  match all_some (map (variantB_group_rows url) groups) with
  | Some rows => Some (concat rows)
  | None => None
  end.

(** A consent object with a group of its own name and a sub-group that
    names its parent. *)
Definition named_group (name : string) : list (string * pyval) :=
  [("GroupLanguagePropertiesSets", PList [PDict [("GroupName", PDict [("Text", PStr name)])]])].
Definition consent_example_groups : list pyval :=
  [PDict (("Parent", PNone)
          :: ("Cookies", PList [PDict [("Name", PStr "sid"); ("Host", PStr "shop.example")]])
          :: named_group "Strictly Necessary Cookies");
   PDict (("Parent", PDict (named_group "Targeting Cookies"))
          :: ("Cookies",
              PList [PDict [("Name", PStr "_fbp"); ("Host", PStr "facebook.com");
                            ("description", PStr "Used by Facebook.")]])
          :: named_group "Social Media Cookies")].
Definition consent_example : pyval := PDict [("Groups", PList consent_example_groups)].

(* ===================================================================== *)
(** ** Two crawls whose parse loop is cut short                           *)
(* ===================================================================== *)

(** A site that embeds Termly.  Its cookie document lists, in the bucket
    "essential", one cookie and then the number 7, on which [cookie.keys()]
    raises [AttributeError]. *)
Definition termly_site : string := "https://shop.example".
Definition termly_site_uuid : string := "0123abcd-4567-89ab-cdef-0123456789ab".
Definition termly_policy_uuid : string := "89abcdef-0123-4567-89ab-cdef01234567".
Definition termly_policy_url : string := Termly.termly_base ++ termly_site_uuid.
Definition termly_cookies_url : string :=
  Termly.termly_base ++ termly_site_uuid ++ "/documents/" ++ termly_policy_uuid
  ++ "/cookies".
Definition termly_policy_body : string :=
  "{" ++ dq ++ "documents" ++ dq ++ ": [{" ++ dq ++ "name" ++ dq ++ ": "
  ++ dq ++ "Cookie Policy" ++ dq ++ ", " ++ dq ++ "uuid" ++ dq ++ ": "
  ++ dq ++ termly_policy_uuid ++ dq ++ "}]}".
Definition termly_policy : pyval :=
  PDict [("documents",
          PList [PDict [("name", PStr "Cookie Policy"); ("uuid", PStr termly_policy_uuid)]])].
Definition broken_bucket_body : string :=
  "{" ++ dq ++ "cookies" ++ dq ++ ": {" ++ dq ++ "essential" ++ dq ++ ": [{"
  ++ dq ++ "name" ++ dq ++ ": " ++ dq ++ "session" ++ dq ++ ", "
  ++ dq ++ "domain" ++ dq ++ ": " ++ dq ++ "shop.example" ++ dq ++ "}, 7]}}".
Definition broken_bucket : pyval :=
  PDict [("cookies",
          PDict [("essential",
                  PList [PDict [("name", PStr "session"); ("domain", PStr "shop.example")];
                         PInt 7])])].
Definition broken_bucket_get (url : string) : outcome Response :=
  if String.eqb url termly_policy_url then Val (MkResponse 200 termly_policy_body)
  else if String.eqb url termly_cookies_url then Val (MkResponse 200 broken_bucket_body)
  else ok_page url.
Definition broken_bucket_json (body : string) : outcome pyval :=
  if String.eqb body termly_policy_body then Val termly_policy
  else if String.eqb body broken_bucket_body then Val broken_bucket
  else no_json body.
Definition broken_bucket_world : World :=
  simple_world broken_bucket_get
    [script [("src", "https://app.termly.io/embed.min.js"); ("id", termly_site_uuid)]]
    "<html></html>" broken_bucket_json no_js.
Definition after_broken_bucket : outcome bool * Scraper :=
  Termly.scrape_website broken_bucket_world termly_site started_scraper.


(** A shop whose consent script, found by Variant B, lists a group with
    one cookie and then a group without the key [Cookies], on which
    [g_contents["Cookies"]] raises [KeyError]. *)
Definition broken_group_list : string :=
  "[{Parent: null, "
  ++ "GroupLanguagePropertiesSets: [{GroupName: {Text: 'Strictly Necessary Cookies'}}], "
  ++ "Cookies: [{Name: 'sid', Host: 'shop.example'}]}, {Parent: null, "
  ++ "GroupLanguagePropertiesSets: [{GroupName: {Text: 'Performance Cookies'}}]}]".
Definition broken_group_script : string :=
  "var OptanonData = {Domain: 'shop.example', Groups: " ++ broken_group_list ++ "};".
Definition broken_group : pyval :=
  PDict [("Groups",
          PList [PDict (("Parent", PNone) :: named_group "Strictly Necessary Cookies"
                        ++ [("Cookies",
                             PList [PDict [("Name", PStr "sid");
                                           ("Host", PStr "shop.example")]])]);
                 PDict (("Parent", PNone) :: named_group "Performance Cookies")])].
Definition broken_group_js (source : string) : outcome pyval :=
  if String.eqb source ("function $() {return { Groups: " ++ broken_group_list ++ "}};")
  then Val broken_group
  else no_js source.
Definition broken_group_world : World :=
  simple_world
    (fun url => if String.eqb url empty_groups_src
                then Val (MkResponse 200 broken_group_script) else ok_page url)
    [script [("src", empty_groups_src)]] "<html></html>" no_json broken_group_js.
Definition after_broken_group : outcome bool * Scraper :=
  OneTrust.scrape_website broken_group_world shop_url started_scraper.

(* ===================================================================== *)
(** ** The checks on the text of cc.js                                    *)
(* ===================================================================== *)

(** The outcome with which the checks of lines 225-234 turn a script
    away, if they do. *)
Definition rejected_body (js_contents : string) : option CrawlState :=
  if str_contains "CookieConsent.setOutOfRegion" js_contents then Some REGION_BLOCK
  else if is_match (re_search Cookiebot.domain_warning_pattern js_contents)
       then Some LIBRARY_ERROR
  else if Nat.eqb (length (chars (strip js_contents))) 0 then Some LIBRARY_ERROR
  else None.

(** A script that tells the visitor that the region is not served, with a
    table behind. *)
Definition out_of_region_body : string :=
  "CookieConsent.setOutOfRegion();" ++ str [newline]
  ++ "CookieConsentDialog.cookieTableNecessary = " ++ necessary_table_text ++ ";".

(* ===================================================================== *)
(** ** The crawl log of a crawl                                           *)
(* ===================================================================== *)

(** Between [s] and [s'] the outcomes [l] were recorded for [url], each
    with a report, and entered in the crawl log. *)
Definition notes (url : string) (s s' : Scraper) : Prop :=
  exists l : list (CrawlState * string),
    updates_for url (map fst l) s s'
    /\ crawl_log s' = fold_left (fun d o => dict_set url o d) l (crawl_log s).

(** Every [VariantFailedException] that leaves [c] carries a message. *)
Definition fails_noted {A} (c : M A) : Prop :=
  forall s e s', c s = (Exc e, s') ->
    match e with
    | VariantFailed _ m => m <> None
    | PyExc _ _ => True
    end.

(* ===================================================================== *)
(** * Properties                                                          *)
(* ===================================================================== *)

(** ** The matcher *)

Section Matcher.

Lemma flat_map_single {A B} (f : A -> list B) (x : A) : flat_map f [x] = f x.
Proof. simpl. apply app_nil_r. Qed.

Lemma flat_map_ret {A} (l : list A) : flat_map (fun x => [x]) l = l.
Proof. induction l as [|x l IH]; simpl; [reflexivity | now rewrite IH]. Qed.

(** A sequence of single-character tests either consumes exactly as many
    characters as it has tests, or fails. *)
Lemma run_syms (ps : list (ascii -> bool)) :
  forall st,
    run (seqs (map Sym ps)) st =
    if front ps (m_rest st)
    then [MState (m_pos st + length ps) (skipn (length ps) (m_rest st)) (m_groups st)]
    else [].
Proof.
  induction ps as [|p ps IH]; intros [pos rest gs]; simpl.
  - now rewrite Nat.add_0_r.
  - destruct rest as [|c t]; simpl; [reflexivity|].
    destruct (p c); simpl; [|reflexivity].
    rewrite app_nil_r, IH. simpl.
    destruct (front ps t); [|reflexivity].
    now rewrite Nat.add_succ_r.
Qed.

Lemma front_chr (w l : list ascii) : front (map Ascii.eqb w) l = is_prefix w l.
Proof.
  revert l; induction w as [|a w IH]; intros [|b l]; simpl; try reflexivity.
  now rewrite IH.
Qed.

Lemma front_chr_i (w l : list ascii) :
  front (map (fun c x => Ascii.eqb (lower x) (lower c)) w) l = prefix_ci w l.
Proof.
  revert l; induction w as [|a w IH]; intros [|b l]; simpl; try reflexivity.
  now rewrite IH.
Qed.

Lemma lit_syms (s : string) : lit s = seqs (map Sym (map Ascii.eqb (chars s))).
Proof. unfold lit, chr. now rewrite map_map. Qed.

Lemma lit_i_syms (s : string) :
  lit_i s = seqs (map Sym (map (fun c x => Ascii.eqb (lower x) (lower c)) (chars s))).
Proof. unfold lit_i, chr_i. now rewrite map_map. Qed.

Lemma run_lit (s : string) (st : mstate) :
  run (lit s) st =
  if is_prefix (chars s) (m_rest st)
  then [MState (m_pos st + length (chars s)) (skipn (length (chars s)) (m_rest st))
               (m_groups st)]
  else [].
Proof. now rewrite lit_syms, run_syms, front_chr, !length_map. Qed.

Lemma run_lit_i (s : string) (st : mstate) :
  run (lit_i s) st =
  if prefix_ci (chars s) (m_rest st)
  then [MState (m_pos st + length (chars s)) (skipn (length (chars s)) (m_rest st))
               (m_groups st)]
  else [].
Proof. now rewrite lit_i_syms, run_syms, front_chr_i, !length_map. Qed.

Lemma accepts_lit_i (s : string) pos rest :
  accepts (lit_i s) pos rest = prefix_ci (chars s) rest.
Proof.
  unfold accepts. rewrite run_lit_i. simpl. now destruct (prefix_ci (chars s) rest).
Qed.

Lemma accepts_Alt a b pos rest :
  accepts (Alt a b) pos rest = accepts a pos rest || accepts b pos rest.
Proof.
  unfold accepts; simpl.
  destruct (run a (MState pos rest [])); simpl; [|reflexivity].
  now destruct (run b (MState pos rest [])).
Qed.

Lemma accepts_Group n a pos rest : accepts (Group n a) pos rest = accepts a pos rest.
Proof. unfold accepts; simpl. now destruct (run a (MState pos rest [])). Qed.

Lemma accepts_alts_lit_i (kws : list string) pos rest :
  accepts (alts (map lit_i kws)) pos rest =
  existsb (fun kw => prefix_ci (chars kw) rest) kws.
Proof.
  induction kws as [|kw kws IH]; [reflexivity|].
  cbn [map alts existsb]. now rewrite accepts_Alt, accepts_lit_i, IH.
Qed.

Lemma is_match_match_at r subject i :
  is_match (match_at r subject i) = accepts r i (skipn i subject).
Proof.
  unfold match_at, accepts.
  now destruct (run r (MState i (skipn i subject) [])).
Qed.

(** [search] succeeds exactly when some start position is accepted. *)
Lemma is_match_search_from r subject :
  forall fuel i,
    is_match (search_from r subject i fuel) = true <->
    exists j, i <= j <= i + fuel /\ accepts r j (skipn j subject) = true.
Proof.
  induction fuel as [|k IH]; intros i; simpl.
  - destruct (match_at r subject i) eqn:E.
    + split; [intros _|reflexivity]. exists i. split; [lia|].
      now rewrite <- is_match_match_at, E.
    + split; [discriminate|]. intros (j & Hj & Hacc).
      assert (j = i) by lia; subst j.
      now rewrite <- is_match_match_at, E in Hacc.
  - destruct (match_at r subject i) eqn:E.
    + split; [intros _|reflexivity]. exists i. split; [lia|].
      now rewrite <- is_match_match_at, E.
    + rewrite IH. split.
      * intros (j & Hj & Hacc). exists j. split; [lia|assumption].
      * intros (j & Hj & Hacc).
        destruct (Nat.eq_dec j i) as [->|Hne].
        -- now rewrite <- is_match_match_at, E in Hacc.
        -- exists j. split; [lia|assumption].
Qed.

Lemma somewhere_skipn (f : list ascii -> bool) :
  forall l, somewhere f l = true <-> exists j, j <= length l /\ f (skipn j l) = true.
Proof.
  induction l as [|c t IH]; simpl.
  - rewrite orb_false_r. split.
    + intros H. exists 0. now split.
    + intros (j & _ & H). now destruct j.
  - rewrite orb_true_iff, IH. split.
    + intros [H|(j & Hj & H)].
      * exists 0. split; [lia|assumption].
      * exists (S j). split; [lia|assumption].
    + intros (j & Hj & H). destruct j as [|j].
      * now left.
      * right. exists j. split; [lia|assumption].
Qed.

(** For a pattern whose acceptance does not depend on the position,
    [search] is the search of a suffix. *)
Lemma is_match_search_somewhere r (f : list ascii -> bool) (s : string) :
  (forall pos rest, accepts r pos rest = f rest) ->
  is_match (re_search r s) = somewhere f (chars s).
Proof.
  intros Hf. apply eq_true_iff_eq.
  unfold re_search. rewrite is_match_search_from, somewhere_skipn.
  split; intros (j & Hj & H); exists j; (split; [lia|]); now rewrite ?Hf in *.
Qed.

Lemma somewhere_orb f g l :
  somewhere (fun x => f x || g x) l = somewhere f l || somewhere g l.
Proof.
  induction l as [|c t IH]; simpl.
  - now rewrite !orb_false_r.
  - rewrite IH. destruct (f (c :: t)), (g (c :: t)), (somewhere f t); reflexivity.
Qed.

Lemma somewhere_existsb {A} (f : A -> list ascii -> bool) (xs : list A) l :
  somewhere (fun rest => existsb (fun x => f x rest) xs) l =
  existsb (fun x => somewhere (f x) l) xs.
Proof.
  induction xs as [|x xs IH]; simpl.
  - induction l as [|c t IHl]; simpl; [reflexivity|assumption].
  - now rewrite somewhere_orb, IH.
Qed.

(** A pattern that is one group around alternative keywords finds a match
    exactly in the names that contain one of the keywords. *)
Lemma search_keywords (kws : list string) (name : string) :
  is_match (re_search (Group 1 (alts (map lit_i kws))) name) = contains_any_ci kws name.
Proof.
  rewrite is_match_search_somewhere
    with (f := fun rest => existsb (fun kw => prefix_ci (chars kw) rest) kws).
  - unfold contains_any_ci, contains_ci. apply somewhere_existsb.
  - intros pos rest. now rewrite accepts_Group, accepts_alts_lit_i.
Qed.

End Matcher.

Section MatcherStar.

Lemma accepts_true_iff r pos rest :
  accepts r pos rest = true <-> exists st, In st (run r (MState pos rest [])).
Proof.
  unfold accepts. destruct (run r (MState pos rest [])) as [|st l].
  - split; [discriminate|]. now intros (st & []).
  - split; [|reflexivity]. intros _. exists st. now left.
Qed.

Lemma in_run_Seq a b st st2 :
  In st2 (run (Seq a b) st) <-> exists st1, In st1 (run a st) /\ In st2 (run b st1).
Proof. simpl. apply in_flat_map. Qed.

Lemma in_iter_star_self step fuel st : In st (iter_star step fuel st).
Proof.
  destruct fuel; simpl; [now left|]. apply in_or_app. right. now left.
Qed.

Lemma in_run_Sym p st st' :
  In st' (run (Sym p) st) <->
  exists c t, m_rest st = c :: t /\ p c = true /\ st' = advance st t.
Proof.
  simpl. destruct (m_rest st) as [|c t].
  - split; [intros []|]. now intros (c & t & H & _).
  - destruct (p c) eqn:E.
    + split.
      * intros [<-|[]]. now exists c, t.
      * intros (c' & t' & H & _ & ->). injection H as <- <-. now left.
    + split; [intros []|]. intros (c' & t' & H & Hp & _).
      injection H as <- <-. congruence.
Qed.

(** What a greedy run of one-character tests can have consumed. *)
Lemma in_iter_star_Sym p :
  forall fuel st st',
    In st' (iter_star (run (Sym p)) fuel st) ->
    exists cs, m_rest st = (cs ++ m_rest st')%list /\ forallb p cs = true.
Proof.
  induction fuel as [|k IH]; intros st st' H; simpl in H.
  - destruct H as [<-|[]]. now exists [].
  - apply in_app_or in H. destruct H as [H|[<-|[]]]; [|now exists []].
    apply in_flat_map in H. destruct H as (st1 & H1 & H2).
    apply filter_In in H1. destruct H1 as [H1 _].
    apply in_run_Sym in H1. destruct H1 as (c & t & Hr & Hp & ->).
    apply IH in H2. destruct H2 as (cs & Hcs & Hall). simpl in Hcs.
    exists (c :: cs). simpl. rewrite Hr, Hcs, Hp, Hall. now split.
Qed.

Lemma in_run_Star_Sym p st st' :
  In st' (run (Star (Sym p)) st) ->
  exists cs, m_rest st = (cs ++ m_rest st')%list /\ forallb p cs = true.
Proof. apply in_iter_star_Sym. Qed.

Lemma somewhere_suffix (f : list ascii -> bool) (pre suf : list ascii) :
  f suf = true -> somewhere f (pre ++ suf)%list = true.
Proof.
  intros H. induction pre as [|c pre IH]; simpl.
  - destruct suf; simpl; now rewrite H.
  - rewrite IH. apply orb_true_r.
Qed.

Lemma run_Star_nonempty a st : exists st', In st' (run (Star a) st).
Proof. exists st. apply in_iter_star_self. Qed.

Lemma accepts_ads_at_start pos rest :
  accepts ads_at_start pos rest = Nat.eqb pos 0 && prefix_ci (chars "ads") rest.
Proof.
  apply eq_true_iff_eq. rewrite accepts_true_iff, andb_true_iff. unfold ads_at_start.
  cbn [seqs]. split.
  - intros (st & H). apply in_run_Seq in H. destruct H as (s1 & H1 & H).
    apply in_run_Seq in H. destruct H as (s2 & H2 & _).
    simpl in H1. destruct (Nat.eqb pos 0) eqn:E; [|destruct H1].
    destruct H1 as [<-|[]]. rewrite run_lit_i in H2. cbn [m_rest] in H2.
    destruct (prefix_ci (chars "ads") rest); [now split | destruct H2].
  - intros [Hpos Hads].
    destruct (run_Star_nonempty dot
                (MState (pos + 3) (skipn 3 rest) [])) as (st & Hst).
    exists st. apply in_run_Seq. exists (MState pos rest []). split.
    + simpl. rewrite Hpos. now left.
    + apply in_run_Seq. eexists. split.
      * rewrite run_lit_i. cbn [m_rest]. rewrite Hads. now left.
      * apply in_run_Seq. exists st. split; [exact Hst | now left].
Qed.

Lemma space_run_last (c : ascii) (ws : list ascii) :
  is_space c = true -> forallb is_space ws = true ->
  exists pre z, (c :: ws = pre ++ [z])%list /\ is_space z = true.
Proof.
  revert c. induction ws as [|w ws IH]; intros c Hc Hws.
  - now exists [], c.
  - simpl in Hws. apply andb_true_iff in Hws. destruct Hws as [Hw Hws].
    destruct (IH w Hw Hws) as (pre & z & E & Hz).
    exists (c :: pre), z. simpl. now rewrite E.
Qed.

Lemma accepts_ads_after_space_sound pos rest :
  accepts ads_after_space pos rest = true -> somewhere space_then_ads rest = true.
Proof.
  rewrite accepts_true_iff. unfold ads_after_space. cbn [seqs].
  intros (st & H).
  apply in_run_Seq in H. destruct H as (s1 & H1 & H).
  apply in_run_Seq in H. destruct H as (s2 & H2 & H).
  apply in_run_Seq in H. destruct H as (s3 & H3 & _).
  apply in_run_Star_Sym in H1. destruct H1 as (d & Hd & _). cbn [m_rest] in Hd.
  unfold plus in H2. apply in_run_Seq in H2. destruct H2 as (s1' & Hsp & Hws).
  apply in_run_Sym in Hsp. destruct Hsp as (c & t & Hr & Hc & ->).
  apply in_run_Star_Sym in Hws. destruct Hws as (ws & Hws & Hall). cbn [m_rest advance] in Hws.
  rewrite run_lit_i in H3.
  destruct (prefix_ci (chars "ads") (m_rest s2)) eqn:Hads; [|destruct H3].
  destruct (space_run_last c ws Hc Hall) as (pre & z & E & Hz).
  assert (Hrest : rest = ((d ++ pre) ++ z :: m_rest s2)%list).
  { rewrite Hd, Hr, Hws, <- app_assoc.
    change (c :: ws ++ m_rest s2)%list with ((c :: ws) ++ m_rest s2)%list.
    rewrite E, <- app_assoc. reflexivity. }
  rewrite Hrest. apply somewhere_suffix. unfold space_then_ads. now rewrite Hz, Hads.
Qed.

Lemma accepts_ads_after_space_complete pos rest :
  space_then_ads rest = true -> accepts ads_after_space pos rest = true.
Proof.
  intros H. destruct rest as [|c t]; [discriminate|]. unfold space_then_ads in H.
  apply andb_true_iff in H. destruct H as [Hc Hads].
  rewrite accepts_true_iff. unfold ads_after_space. cbn [seqs].
  destruct (run_Star_nonempty dot (MState (S pos + 3) (skipn 3 t) [])) as (st & Hst).
  exists st. apply in_run_Seq. exists (MState pos (c :: t) []). split.
  { apply in_iter_star_self. }
  apply in_run_Seq. exists (MState (S pos) t []). split.
  { unfold plus. apply in_run_Seq. exists (MState (S pos) t []). split.
    - apply in_run_Sym. exists c, t. now repeat split.
    - apply in_iter_star_self. }
  apply in_run_Seq. eexists. split.
  { rewrite run_lit_i. cbn [m_rest]. rewrite Hads. now left. }
  apply in_run_Seq. exists st. split; [exact Hst | now left].
Qed.

(** [advertise_pattern] finds a match exactly in the names that hold the
    word "ads" at the start or after white space, or an advertising keyword. *)
Lemma search_advertise (name : string) :
  is_match (re_search OneTrust.advertise_pattern name) = names_advertising name.
Proof.
  apply eq_true_iff_eq. unfold re_search, names_advertising, has_ads_word.
  rewrite is_match_search_from, !orb_true_iff.
  unfold OneTrust.advertise_pattern.
  fold ads_at_start. fold ads_after_space.
  split.
  - intros (j & Hj & H).
    rewrite accepts_Group, !accepts_Alt, accepts_ads_at_start,
      accepts_alts_lit_i, !orb_true_iff, andb_true_iff in H.
    destruct H as [[Hz Hads]|[H|H]].
    + left; left. apply Nat.eqb_eq in Hz. subst j. exact Hads.
    + left; right. apply accepts_ads_after_space_sound in H.
      apply somewhere_skipn in H. destruct H as (i & Hi & H).
      apply somewhere_skipn. exists (j + i). rewrite length_skipn in Hi.
      split; [lia|]. now rewrite Nat.add_comm, <- skipn_skipn.
    + right. unfold contains_any_ci, contains_ci.
      rewrite <- somewhere_existsb. apply somewhere_skipn. exists j. split; [lia|exact H].
  - intros [[H|H]|H].
    + exists 0. split; [lia|].
      rewrite accepts_Group, !accepts_Alt, accepts_ads_at_start. simpl skipn.
      unfold starts_with_ads in H. now rewrite H.
    + apply somewhere_skipn in H. destruct H as (j & Hj & H).
      exists j. split; [lia|].
      rewrite accepts_Group, !accepts_Alt.
      rewrite (accepts_ads_after_space_complete j _ H). now rewrite orb_true_r.
    + unfold contains_any_ci, contains_ci in H. rewrite <- somewhere_existsb in H.
      apply somewhere_skipn in H. destruct H as (j & Hj & H).
      exists j. split; [lia|].
      rewrite accepts_Group, !accepts_Alt, accepts_alts_lit_i, H.
      now rewrite !orb_true_r.
Qed.

End MatcherStar.

Section MatcherUncategorized.

Lemma prefix_ci_app (a b l : list ascii) :
  prefix_ci (a ++ b) l = prefix_ci a l && prefix_ci b (skipn (length a) l).
Proof.
  revert l. induction a as [|x a IH]; intros l; simpl.
  - reflexivity.
  - destruct l as [|c t]; simpl.
    + reflexivity.
    + now rewrite IH, andb_assoc.
Qed.

Lemma accepts_lit_sym_lit (a b : string) (p : ascii -> bool) pos rest :
  accepts (seqs [lit_i a; Sym p; lit_i b]) pos rest =
  prefix_ci (chars a) rest &&
  match skipn (length (chars a)) rest with
  | c :: t => p c && prefix_ci (chars b) t
  | [] => false
  end.
Proof.
  unfold accepts. cbn [seqs run]. rewrite run_lit_i. cbn [m_rest m_pos m_groups].
  destruct (prefix_ci (chars a) rest); [|reflexivity].
  rewrite flat_map_single.
  cbn [run m_rest]. destruct (skipn (length (chars a)) rest) as [|c t]; [reflexivity|].
  destruct (p c); [|reflexivity].
  rewrite flat_map_single. cbn [run]. rewrite run_lit_i. cbn [advance m_rest].
  destruct (prefix_ci (chars b) t); reflexivity.
Qed.

Lemma search_uncat (name : string) :
  is_match (re_search OneTrust.uncat_pattern name) = names_uncategorized name.
Proof.
  unfold names_uncategorized, contains_any_ci, contains_ci.
  rewrite <- somewhere_existsb.
  apply is_match_search_somewhere. intros pos rest.
  unfold OneTrust.uncat_pattern.
  rewrite accepts_Group, accepts_Alt, accepts_lit_sym_lit, accepts_lit_i.
  cbn [existsb]. rewrite orb_false_r, orb_assoc. f_equal.
  change (chars "uncategorize") with (chars "uncategori" ++ chars "z" ++ chars "e")%list.
  change (chars "uncategorise") with (chars "uncategori" ++ chars "s" ++ chars "e")%list.
  rewrite !prefix_ci_app.
  destruct (prefix_ci (chars "uncategori") rest); [|reflexivity].
  destruct (skipn (length (chars "uncategori")) rest) as [|c t]; [reflexivity|].
  cbn [chars list_ascii_of_string prefix_ci length skipn andb].
  unfold ci_eqb.
  change (lower "z") with "z"%char. change (lower "s") with "s"%char.
  rewrite !andb_true_r.
  destruct (Ascii.eqb (lower c) "z"), (Ascii.eqb (lower c) "s"); cbn [orb andb];
    try reflexivity; now rewrite ?orb_diag, ?orb_false_r.
Qed.

(** With the five searches characterized, [category_lookup_en] is the
    decision list on keyword containment. *)
Lemma category_lookup_en_by_keywords (name : string) :
  OneTrust.category_lookup_en name = category_by_keywords name.
Proof.
  unfold OneTrust.category_lookup_en, category_by_keywords.
  rewrite search_advertise, search_uncat.
  unfold OneTrust.necessary_pattern, OneTrust.analytical_pattern,
    OneTrust.functional_pattern.
  now rewrite !search_keywords.
Qed.

End MatcherUncategorized.

(** ** C1: category resolution *)

Section CategoryLookup.

Lemma chars_app (a b : string) : chars (a ++ b) = (chars a ++ chars b)%list.
Proof. induction a as [|c a IH]; simpl; [reflexivity | now rewrite <- IH]. Qed.

Lemma prefix_ci_self (w r : list ascii) : prefix_ci w (w ++ r) = true.
Proof.
  induction w as [|c w IH]; simpl; [reflexivity|].
  unfold ci_eqb. now rewrite Ascii.eqb_refl, IH.
Qed.

Lemma contains_ci_embedded (kw pre post : string) :
  contains_ci kw (pre ++ kw ++ post) = true.
Proof.
  unfold contains_ci. rewrite !chars_app.
  apply somewhere_suffix, prefix_ci_self.
Qed.

Lemma contains_any_ci_embedded (kws : list string) (kw pre post : string) :
  In kw kws -> contains_any_ci kws (pre ++ kw ++ post) = true.
Proof.
  intros Hin. unfold contains_any_ci. apply existsb_exists. exists kw.
  split; [exact Hin | apply contains_ci_embedded].
Qed.

Lemma has_ads_word_start (post : string) : has_ads_word ("ads" ++ post) = true.
Proof.
  unfold has_ads_word, starts_with_ads. rewrite chars_app, prefix_ci_self. reflexivity.
Qed.

Lemma has_ads_word_after_space (pre post : string) (sp : ascii) :
  is_space sp = true -> has_ads_word (pre ++ String sp ("ads" ++ post)) = true.
Proof.
  intros Hsp. unfold has_ads_word. apply orb_true_iff. right.
  rewrite chars_app. apply somewhere_suffix.
  change (chars (String sp ("ads" ++ post))) with (sp :: chars ("ads" ++ post)).
  cbn [space_then_ads]. now rewrite Hsp, chars_app, prefix_ci_self.
Qed.

(** The patterns of lines 65-71 decide as the table of the keyword groups
    does: the proof compares the lists of the code with the words of the
    table. *)
Lemma category_lookup_en_by_priority (name : string) :
  OneTrust.category_lookup_en name = category_by_priority name.
Proof. rewrite category_lookup_en_by_keywords. reflexivity. Qed.

(** *** Names of code points of any size *)

Lemma N_of_lower (c : ascii) : N_of_ascii (lower c) = fold_case (N_of_ascii c).
Proof.
  destruct c as [b0 b1 b2 b3 b4 b5 b6 b7].
  destruct b0, b1, b2, b3, b4, b5, b6, b7; reflexivity.
Qed.

Lemma is_space_white (c : ascii) : is_space c = is_white (N_of_ascii c).
Proof.
  destruct c as [b0 b1 b2 b3 b4 b5 b6 b7].
  destruct b0, b1, b2, b3, b4, b5, b6, b7; reflexivity.
Qed.

Lemma ascii_eqb_N (a b : ascii) : Ascii.eqb a b = (N_of_ascii a =? N_of_ascii b)%N.
Proof.
  destruct (Ascii.eqb_spec a b) as [->|Hne].
  - now rewrite N.eqb_refl.
  - symmetry. apply N.eqb_neq. intros H. apply Hne.
    now rewrite <- (ascii_N_embedding a), <- (ascii_N_embedding b), H.
Qed.

Lemma plain_fold (c : ascii) :
  plain c = true ->
  (fold_case (N_of_ascii c) = 32 \/ 97 <= fold_case (N_of_ascii c) <= 122)%N.
Proof.
  destruct c as [b0 b1 b2 b3 b4 b5 b6 b7].
  destruct b0, b1, b2, b3, b4, b5, b6, b7; cbv; intros H;
    first [discriminate H | left; reflexivity
          | right; split; intros E; discriminate E].
Qed.

Lemma fold_as_latin1 (x : N) (c : ascii) :
  plain c = true ->
  (fold_case (N_of_ascii (as_latin1 x)) =? fold_case (N_of_ascii c))%N
  = (fold_case x =? fold_case (N_of_ascii c))%N.
Proof.
  intros Hc. apply plain_fold in Hc.
  set (k := fold_case (N_of_ascii c)) in *. clearbody k. unfold as_latin1.
  destruct (x <? 256)%N eqn:Elt.
  { apply N.ltb_lt in Elt. now rewrite N_ascii_embedding. }
  apply N.ltb_ge in Elt.
  assert (Hup : ((65 <=? x) && (x <=? 90))%N = false).
  { apply andb_false_iff. right. apply N.leb_gt. lia. }
  assert (Hfx : fold_case x =
                if ((x =? 0x130) || (x =? 0x131))%N then 105%N
                else if (x =? 0x17F)%N then 115%N
                else if (x =? 0x212A)%N then 107%N
                else x)
    by (unfold fold_case; now rewrite Hup).
  rewrite Hfx.
  destruct ((x =? 0x130) || (x =? 0x131))%N; [reflexivity|].
  destruct (x =? 0x17F)%N; [reflexivity|].
  destruct (x =? 0x212A)%N; [reflexivity|].
  assert (Hx : (x =? k)%N = false) by (apply N.eqb_neq; lia).
  rewrite Hx.
  destruct (is_white x).
  - change (fold_case (N_of_ascii "009"%char)) with 9%N. apply N.eqb_neq. lia.
  - change (fold_case (N_of_ascii "000"%char)) with 0%N. apply N.eqb_neq. lia.
Qed.

Lemma ci_eqb_as_latin1 (x : N) (c : ascii) :
  plain c = true -> ci_eqb (as_latin1 x) c = same_letter c x.
Proof.
  intros Hc. unfold ci_eqb, same_letter.
  now rewrite ascii_eqb_N, !N_of_lower, fold_as_latin1.
Qed.

Lemma is_space_as_latin1 (x : N) : is_space (as_latin1 x) = is_white x.
Proof.
  unfold as_latin1.
  destruct (x <? 256)%N eqn:Elt.
  { apply N.ltb_lt in Elt. now rewrite is_space_white, N_ascii_embedding. }
  apply N.ltb_ge in Elt.
  destruct ((x =? 0x130) || (x =? 0x131))%N eqn:E1.
  { apply orb_true_iff in E1. destruct E1 as [E|E]; apply N.eqb_eq in E; now subst x. }
  destruct (x =? 0x17F)%N eqn:E2; [apply N.eqb_eq in E2; now subst x|].
  destruct (x =? 0x212A)%N eqn:E3; [apply N.eqb_eq in E3; now subst x|].
  destruct (is_white x); reflexivity.
Qed.

Lemma prefix_ci_as_latin1 (w : list ascii) :
  forallb plain w = true ->
  forall l, prefix_ci w (map as_latin1 l) = starts_with w l.
Proof.
  induction w as [|c w IH]; intros Hw l; [reflexivity|].
  cbn [forallb] in Hw. apply andb_true_iff in Hw. destruct Hw as [Hc Hw].
  destruct l as [|x l]; [reflexivity|].
  cbn [map prefix_ci starts_with]. now rewrite ci_eqb_as_latin1, IH.
Qed.

Lemma somewhere_as_latin1 (f : list ascii -> bool) (g : list N -> bool) :
  (forall l, f (map as_latin1 l) = g l) ->
  forall l, somewhere f (map as_latin1 l) = anywhere g l.
Proof.
  intros Hfg. induction l as [|x l IH]; cbn [map somewhere anywhere].
  - now rewrite <- Hfg.
  - now rewrite <- IH, <- Hfg.
Qed.

Lemma chars_of_str (l : list ascii) : chars (str l) = l.
Proof. apply list_ascii_of_string_of_list_ascii. Qed.

Lemma contains_any_ci_as_latin1 (kws : list string) (name : list N) :
  forallb (fun kw => forallb plain (chars kw)) kws = true ->
  contains_any_ci kws (str (map as_latin1 name)) = holds_any kws name.
Proof.
  unfold contains_any_ci, holds_any, contains_ci, holds_word. rewrite chars_of_str.
  induction kws as [|kw kws IH]; intros H; [reflexivity|].
  cbn [forallb] in H. apply andb_true_iff in H. destruct H as [Hkw H].
  cbn [existsb]. rewrite (IH H). f_equal.
  apply somewhere_as_latin1. now apply prefix_ci_as_latin1.
Qed.

Lemma has_ads_word_as_latin1 (name : list N) :
  has_ads_word (str (map as_latin1 name)) = holds_ads name.
Proof.
  unfold has_ads_word, holds_ads, starts_with_ads. rewrite chars_of_str.
  rewrite prefix_ci_as_latin1 by reflexivity. f_equal.
  apply somewhere_as_latin1. intros [|x l]; [reflexivity|].
  cbn [map space_then_ads white_then_ads].
  now rewrite is_space_as_latin1, prefix_ci_as_latin1.
Qed.

Lemma category_lookup_en_unicode_by_priority (name : list N) :
  OneTrust.category_lookup_en_unicode name =
  if holds_ads name || holds_any advertising_words name then ADVERTISING
  else if holds_any essential_words name then ESSENTIAL
  else if holds_any analytical_words name then ANALYTICAL
  else if holds_any functional_words name then FUNCTIONAL
  else if holds_any unclassified_words name then UNCLASSIFIED
  else CAT_UNKNOWN.
Proof.
  unfold OneTrust.category_lookup_en_unicode. rewrite category_lookup_en_by_priority.
  unfold category_by_priority, priority_table. cbn [first_match_wins].
  unfold mentions_advertising.
  rewrite has_ads_word_as_latin1.
  now rewrite !contains_any_ci_as_latin1 by reflexivity.
Qed.

Lemma as_latin1_code_points (name : string) :
  str (map as_latin1 (code_points name)) = name.
Proof.
  unfold code_points. rewrite map_map.
  rewrite (map_ext _ (fun c => c)), map_id.
  - apply string_of_list_ascii_of_string.
  - intros c. unfold as_latin1.
    pose proof (N_ascii_bounded c) as Hb. apply N.ltb_lt in Hb.
    now rewrite Hb, ascii_N_embedding.
Qed.

(** C1.  [category_lookup_en] is a total function into the six categories;
    called on a string it returns and does not raise.  The category is the
    one of the first keyword group, in the order advertising, necessary,
    analytical, functional, uncategorized, of which the name contains a word,
    letter case ignored, and [UNKNOWN], with a warning in the log, when it
    contains none.  The groups are written out in the statement: a name that
    contains "Ad Selection", "advertising", "advertise", "targeting", "sale
    of personal data", "marketing", "tracking", "tracker" or "fingerprint",
    or the word "ads" at its start or after white space, resolves to
    [ADVERTISING] whatever else it contains; one that mentions no advertising
    and contains "necessary", "essential" or "required" resolves to
    [ESSENTIAL]; and so on down the order.  Each word that the specification
    names resolves, alone, to its category; "Advertising and Security
    Cookies" and "Analytics & Advertising" resolve to [ADVERTISING].  The
    statements on [string] cover the names of code points below 256; the
    last four cover the names of code points of any size, on which letter
    case and white space are those of Python's [re] on [str]. *)
Theorem category_lookup_en_total_ordered :
  (forall name : string,
      In (OneTrust.category_lookup_en name)
         [ADVERTISING; ESSENTIAL; ANALYTICAL; FUNCTIONAL; UNCLASSIFIED; CAT_UNKNOWN])
  /\ (forall (name : string) (s : Scraper),
         fst (OneTrust.cat_lookup (PStr name) s) = Val (OneTrust.category_lookup_en name))
  /\ (forall name : string,
         OneTrust.category_lookup_en name =
         if mentions_advertising name then ADVERTISING
         else if contains_any_ci ["necessary"; "essential"; "required"] name
              then ESSENTIAL
         else if contains_any_ci
                   ["measurement"; "analytic"; "anonym"; "research"; "performance"] name
              then ANALYTICAL
         else if contains_any_ci ["functional"; "preference"; "security"; "secure"] name
              then FUNCTIONAL
         else if contains_any_ci ["uncategorize"; "uncategorise"; "unknown"] name
              then UNCLASSIFIED
         else CAT_UNKNOWN)
  /\ Forall (fun kw => forall pre post : string,
                 OneTrust.category_lookup_en (pre ++ kw ++ post) = ADVERTISING)
            ["Ad Selection"; "advertising"; "advertise"; "targeting";
             "sale of personal data"; "marketing"; "tracking"; "tracker"; "fingerprint"]
  /\ (forall post : string, OneTrust.category_lookup_en ("ads" ++ post) = ADVERTISING)
  /\ (forall (pre post : string) (sp : ascii),
         is_space sp = true ->
         OneTrust.category_lookup_en (pre ++ String sp ("ads" ++ post)) = ADVERTISING)
  /\ Forall (fun kw => forall pre post : string,
                 mentions_advertising (pre ++ kw ++ post) = false ->
                 OneTrust.category_lookup_en (pre ++ kw ++ post) = ESSENTIAL)
            ["necessary"; "essential"; "required"]
  /\ Forall (fun kw => forall pre post : string,
                 mentions_advertising (pre ++ kw ++ post) = false ->
                 contains_any_ci essential_words (pre ++ kw ++ post) = false ->
                 OneTrust.category_lookup_en (pre ++ kw ++ post) = ANALYTICAL)
            ["measurement"; "analytic"; "anonym"; "research"; "performance"]
  /\ Forall (fun kw => forall pre post : string,
                 mentions_advertising (pre ++ kw ++ post) = false ->
                 contains_any_ci essential_words (pre ++ kw ++ post) = false ->
                 contains_any_ci analytical_words (pre ++ kw ++ post) = false ->
                 OneTrust.category_lookup_en (pre ++ kw ++ post) = FUNCTIONAL)
            ["functional"; "preference"; "security"; "secure"]
  /\ Forall (fun kw => forall pre post : string,
                 mentions_advertising (pre ++ kw ++ post) = false ->
                 contains_any_ci essential_words (pre ++ kw ++ post) = false ->
                 contains_any_ci analytical_words (pre ++ kw ++ post) = false ->
                 contains_any_ci functional_words (pre ++ kw ++ post) = false ->
                 OneTrust.category_lookup_en (pre ++ kw ++ post) = UNCLASSIFIED)
            ["uncategorize"; "uncategorise"; "unknown"]
  /\ (forall (name : string) (s : Scraper),
         mentions_advertising name = false ->
         contains_any_ci essential_words name = false ->
         contains_any_ci analytical_words name = false ->
         contains_any_ci functional_words name = false ->
         contains_any_ci unclassified_words name = false ->
         OneTrust.category_lookup_en name = CAT_UNKNOWN
         /\ logged (snd (OneTrust.cat_lookup (PStr name) s))
            = (logged s ++ [(WARNING, ("Unrecognized category name: " ++ name)%string)])%list)
  /\ map OneTrust.category_lookup_en
         ["advertising"; "marketing"; "tracking"; "targeting"; "sale of personal data";
          "necessary"; "essential"; "required";
          "analytics"; "performance"; "anonymized";
          "functional"; "preference"; "security";
          "uncategorized"; "unknown"; "cookies"]
     = [ADVERTISING; ADVERTISING; ADVERTISING; ADVERTISING; ADVERTISING;
        ESSENTIAL; ESSENTIAL; ESSENTIAL;
        ANALYTICAL; ANALYTICAL; ANALYTICAL;
        FUNCTIONAL; FUNCTIONAL; FUNCTIONAL;
        UNCLASSIFIED; UNCLASSIFIED; CAT_UNKNOWN]
  /\ contains_any_ci functional_words "Advertising and Security Cookies" = true
  /\ OneTrust.category_lookup_en "Advertising and Security Cookies" = ADVERTISING
  /\ contains_any_ci analytical_words "Analytics & Advertising" = true
  /\ OneTrust.category_lookup_en "Analytics & Advertising" = ADVERTISING
  /\ (forall name : list N,
         In (OneTrust.category_lookup_en_unicode name)
            [ADVERTISING; ESSENTIAL; ANALYTICAL; FUNCTIONAL; UNCLASSIFIED; CAT_UNKNOWN])
  /\ (forall name : list N,
         OneTrust.category_lookup_en_unicode name =
         if holds_ads name
            || holds_any ["Ad Selection"; "advertising"; "advertise"; "targeting";
                          "sale of personal data"; "marketing"; "tracking"; "tracker";
                          "fingerprint"] name
         then ADVERTISING
         else if holds_any ["necessary"; "essential"; "required"] name then ESSENTIAL
         else if holds_any
                   ["measurement"; "analytic"; "anonym"; "research"; "performance"] name
              then ANALYTICAL
         else if holds_any ["functional"; "preference"; "security"; "secure"] name
              then FUNCTIONAL
         else if holds_any ["uncategorize"; "uncategorise"; "unknown"] name
              then UNCLASSIFIED
         else CAT_UNKNOWN)
  /\ (forall name : string,
         OneTrust.category_lookup_en_unicode (code_points name)
         = OneTrust.category_lookup_en name)
  /\ OneTrust.category_lookup_en_unicode
       (code_points "Mar" ++ [0x212A%N] ++ code_points "eting and " ++ [0x17F%N]
        ++ code_points "ecurity")%list = ADVERTISING
     /\ OneTrust.category_lookup_en_unicode
          ([0x3000%N] ++ code_points "Strictly" ++ [0x2003%N] ++ code_points "requ"
           ++ [0x131%N] ++ code_points "red")%list = ESSENTIAL.
Proof.
  assert (Hlist : forall name, OneTrust.category_lookup_en name =
         if mentions_advertising name then ADVERTISING
         else if contains_any_ci essential_words name then ESSENTIAL
         else if contains_any_ci analytical_words name then ANALYTICAL
         else if contains_any_ci functional_words name then FUNCTIONAL
         else if contains_any_ci unclassified_words name then UNCLASSIFIED
         else CAT_UNKNOWN)
    by (intros name; now rewrite category_lookup_en_by_priority).
  assert (Hsix : forall name : string,
      In (OneTrust.category_lookup_en name)
         [ADVERTISING; ESSENTIAL; ANALYTICAL; FUNCTIONAL; UNCLASSIFIED; CAT_UNKNOWN]).
  { intros name. unfold OneTrust.category_lookup_en.
    repeat match goal with |- context [if ?b then _ else _] => destruct b end;
      simpl; tauto. }
  repeat match goal with |- _ /\ _ => split end.
  - exact Hsix.
  - intros name s. unfold OneTrust.cat_lookup, bind.
    destruct (OneTrust.category_lookup_en name); reflexivity.
  - exact Hlist.
  - apply Forall_forall. intros kw Hin pre post. rewrite Hlist.
    unfold mentions_advertising.
    rewrite (contains_any_ci_embedded advertising_words kw pre post Hin).
    now rewrite orb_true_r.
  - intros post. rewrite Hlist. unfold mentions_advertising.
    now rewrite has_ads_word_start.
  - intros pre post sp Hsp. rewrite Hlist. unfold mentions_advertising.
    now rewrite has_ads_word_after_space.
  - apply Forall_forall. intros kw Hin pre post Ha. rewrite Hlist, Ha.
    now rewrite (contains_any_ci_embedded essential_words kw pre post Hin).
  - apply Forall_forall. intros kw Hin pre post Ha He. rewrite Hlist, Ha, He.
    now rewrite (contains_any_ci_embedded analytical_words kw pre post Hin).
  - apply Forall_forall. intros kw Hin pre post Ha He Hn. rewrite Hlist, Ha, He, Hn.
    now rewrite (contains_any_ci_embedded functional_words kw pre post Hin).
  - apply Forall_forall. intros kw Hin pre post Ha He Hn Hf.
    rewrite Hlist, Ha, He, Hn, Hf.
    now rewrite (contains_any_ci_embedded unclassified_words kw pre post Hin).
  - intros name s Ha He Hn Hf Hu.
    assert (E : OneTrust.category_lookup_en name = CAT_UNKNOWN)
      by (now rewrite Hlist, Ha, He, Hn, Hf, Hu).
    split; [exact E|]. unfold OneTrust.cat_lookup, bind. rewrite E. reflexivity.
  - vm_compute. reflexivity.
  - vm_compute. reflexivity.
  - vm_compute. reflexivity.
  - vm_compute. reflexivity.
  - vm_compute. reflexivity.
  - intros name. apply Hsix.
  - exact category_lookup_en_unicode_by_priority.
  - intros name. unfold OneTrust.category_lookup_en_unicode.
    now rewrite as_latin1_code_points.
  - vm_compute. reflexivity.
  - vm_compute. reflexivity.
Qed.

End CategoryLookup.

(** ** C9: the script links that Variant B recognizes *)

Section ScriptLinks.

Lemma front_app (ps qs : list (ascii -> bool)) (l : list ascii) :
  front (ps ++ qs) l = front ps l && front qs (skipn (length ps) l).
Proof.
  revert l. induction ps as [|p ps IH]; intros l; simpl.
  - reflexivity.
  - destruct l as [|c t]; simpl.
    + reflexivity.
    + now rewrite IH, andb_assoc.
Qed.

Lemma linear_Eps : linear Eps [].
Proof. intros [pos rest gs]; simpl. now rewrite Nat.add_0_r. Qed.

Lemma linear_Sym p : linear (Sym p) [p].
Proof.
  intros [pos rest gs]; simpl. destruct rest as [|c t]; simpl; [reflexivity|].
  rewrite andb_true_r. destruct (p c); [|reflexivity]. unfold advance; simpl.
  now rewrite Nat.add_1_r.
Qed.

Lemma run_Seq_linear a ps b st :
  linear a ps ->
  run (Seq a b) st =
  if front ps (m_rest st)
  then run b (MState (m_pos st + length ps) (skipn (length ps) (m_rest st)) (m_groups st))
  else [].
Proof.
  intros Ha. simpl. rewrite Ha. destruct (front ps (m_rest st)); [|reflexivity].
  apply flat_map_single.
Qed.

Lemma linear_Seq a b ps qs : linear a ps -> linear b qs -> linear (Seq a b) (ps ++ qs).
Proof.
  intros Ha Hb st. rewrite (run_Seq_linear b st Ha), front_app.
  destruct (front ps (m_rest st)); [|reflexivity].
  rewrite Hb. cbn [m_rest m_pos m_groups andb].
  destruct (front qs (skipn (length ps) (m_rest st))); [|reflexivity].
  now rewrite length_app, Nat.add_assoc, skipn_skipn, (Nat.add_comm (length qs)).
Qed.

Lemma linear_rep n p : linear (rep n (Sym p)) (repeat p n).
Proof.
  induction n as [|n IH]; simpl.
  - apply linear_Eps.
  - apply (linear_Seq (linear_Sym p) IH).
Qed.

Lemma linear_lit (w : string) : linear (lit w) (map Ascii.eqb (chars w)).
Proof. intros st. now rewrite run_lit, front_chr, length_map. Qed.

Lemma linear_uuid : linear uuid_pattern uuid_tests.
Proof.
  unfold uuid_pattern, uuid_tests, hex, chr. cbn [seqs].
  repeat (apply linear_Seq;
          [first [apply linear_rep | apply linear_Sym]|]).
  rewrite <- (app_nil_r (repeat is_hex 12)).
  apply linear_Seq; [apply linear_rep | apply linear_Eps].
Qed.

Lemma front_combine (ps : list (ascii -> bool)) :
  forall l, length ps <= length l ->
            front ps l = forallb (fun pc => fst pc (snd pc)) (combine ps l).
Proof.
  induction ps as [|p ps IH]; intros [|c t] Hlen; simpl in *; try reflexivity; try lia.
  rewrite IH by lia. reflexivity.
Qed.

Lemma front_exact (ps : list (ascii -> bool)) :
  forall l r, length ps = length l -> front ps (l ++ r) = front ps l.
Proof.
  induction ps as [|p ps IH]; intros [|c t] r Hl; simpl in *; try reflexivity;
    try discriminate.
  rewrite IH by lia. reflexivity.
Qed.

Lemma is_uuid_front (u : string) (r : list ascii) :
  is_uuid u = true ->
  front uuid_tests (chars u ++ r) = true /\ length (chars u) = 36.
Proof.
  unfold is_uuid. rewrite andb_true_iff, Nat.eqb_eq. intros [Hall Hlen].
  split; [|exact Hlen].
  assert (Hl : length uuid_tests = length (chars u)) by (rewrite Hlen; reflexivity).
  rewrite front_exact by exact Hl.
  rewrite front_combine by (rewrite Hl; apply Nat.le_refl). exact Hall.
Qed.

Lemma run_Seq_eq a b st : run (Seq a b) st = flat_map (run b) (run a st).
Proof. reflexivity. Qed.

Lemma run_Star_Sym_stop p pos c t gs :
  p c = false -> run (Star (Sym p)) (MState pos (c :: t) gs) = [MState pos (c :: t) gs].
Proof. intros Hp. simpl. now rewrite Hp. Qed.

Lemma str_chars (s : string) : str (chars s) = s.
Proof. apply string_of_list_ascii_of_string. Qed.

Lemma is_prefix_self (w r : list ascii) : is_prefix w (w ++ r) = true.
Proof.
  induction w as [|c w IH]; simpl; [reflexivity|].
  now rewrite Ascii.eqb_refl, IH.
Qed.

Lemma skipn_exact {A} (l r : list A) n : n = length l -> skipn n (l ++ r) = r.
Proof.
  intros ->. rewrite skipn_app, skipn_all, Nat.sub_diag. reflexivity.
Qed.

Lemma run_consent_js (prefix u : string) :
  is_uuid u = true ->
  run (OneTrust.consent_js prefix)
      (MState 0 (chars prefix ++ chars u ++ ["."; "j"; "s"]%char) [])
  = [MState (length (chars prefix) + 36 + 3) [] []].
Proof.
  intros Hu. unfold OneTrust.consent_js. cbn [seqs].
  destruct (is_uuid_front u ["."; "j"; "s"]%char Hu) as [Hfront Hlen].
  rewrite (run_Seq_linear _ _ (linear_lit prefix)). cbn [m_rest m_pos m_groups].
  rewrite front_chr, length_map, is_prefix_self, skipn_exact by reflexivity.
  rewrite (run_Seq_linear _ _ linear_uuid). cbn [m_rest m_pos m_groups].
  rewrite Hfront, skipn_exact by (rewrite Hlen; reflexivity).
  change (length uuid_tests) with 36.
  rewrite run_Seq_eq, run_Star_Sym_stop by reflexivity.
  rewrite flat_map_single, (run_Seq_linear _ _ (linear_lit ".js")).
  simpl. reflexivity.
Qed.

(** On a link of the canonical form the pattern of the host matches, and
    the match is the whole link. *)
Lemma consent_js_matches (prefix u : string) :
  is_uuid u = true ->
  option_map (fun m => group m 0)
             (re_match_ (OneTrust.consent_js prefix) (prefix ++ u ++ ".js"))
  = Some (Some (prefix ++ u ++ ".js")).
Proof.
  intros Hu. unfold re_match_, match_at. cbn [skipn].
  rewrite !chars_app. change (chars ".js") with ["."; "j"; "s"]%char.
  rewrite (run_consent_js prefix u Hu). cbn [option_map group mt_subject mt_start mt_end m_pos].
  unfold slice. cbn [skipn]. rewrite Nat.sub_0_r.
  destruct (is_uuid_front u [] Hu) as [_ Hlen].
  replace (length (chars prefix) + 36 + 3)
    with (length (chars prefix ++ chars u ++ ["."; "j"; "s"]%char))
    by (rewrite !length_app, Hlen; simpl; lia).
  rewrite firstn_all.
  change ["."; "j"; "s"]%char with (chars ".js").
  now rewrite <- !chars_app, str_chars.
Qed.

End ScriptLinks.

(** ** Running a computation step by step *)

Section Running.

Lemma bind_val {A B} (c : M A) (f : A -> M B) s a s' :
  c s = (Val a, s') -> bind c f s = f a s'.
Proof. intros H. unfold bind. now rewrite H. Qed.

Lemma bind_exc {A B} (c : M A) (f : A -> M B) s e s' :
  c s = (Exc e, s') -> bind c f s = (Exc e, s').
Proof. intros H. unfold bind. now rewrite H. Qed.

Lemma try_val {A} (c : M A) h s a s' :
  c s = (Val a, s') -> try_except c h s = (Val a, s').
Proof. intros H. unfold try_except. now rewrite H. Qed.

Lemma try_exc_caught {A} (c : M A) h s e s' k :
  c s = (Exc e, s') -> h e = Some k -> try_except c h s = k s'.
Proof. intros H Hh. unfold try_except. now rewrite H, Hh. Qed.

Lemma try_exc_passed {A} (c : M A) h s e s' :
  c s = (Exc e, s') -> h e = None -> try_except c h s = (Exc e, s').
Proof. intros H Hh. unfold try_except. now rewrite H, Hh. Qed.

Lemma external_eq (A : Type) (f : nat -> outcome A) s :
  external f s = (f (clock s), set_clock (S (clock s)) s).
Proof. unfold external, bind, tick, lift. reflexivity. Qed.

Lemma log_eq lvl msg s : log lvl msg s = (Val tt, set_logged (logged s ++ [(lvl, msg)]) s).
Proof. reflexivity. Qed.

End Running.

(** ** C9, continued *)

Section ScriptLinksPage.

Variable W : World.

Lemma consent_js_other_prefix (prefix src : string) :
  is_prefix (chars prefix) (chars src) = false ->
  re_match_ (OneTrust.consent_js prefix) src = None.
Proof.
  intros H. unfold re_match_, match_at, OneTrust.consent_js. cbn [seqs skipn].
  rewrite (run_Seq_linear _ _ (linear_lit prefix)). cbn [m_rest].
  now rewrite front_chr, H.
Qed.

Lemma blob_link_not_recognized (rest : string) :
  OneTrust.first_match OneTrust.variantB_patterns
    (cookiepro_blob_host ++ "/consent/" ++ rest) = None.
Proof.
  unfold OneTrust.variantB_patterns, OneTrust.first_match.
  unfold OneTrust.v2_cookielaw_pattern, OneTrust.v2_optanon_pattern,
    OneTrust.v2_cookiepro_cdn_pattern.
  rewrite !consent_js_other_prefix; reflexivity.
Qed.

Lemma first_match_sublist (src : string) :
  OneTrust.first_match onetrust_link_patterns src = None ->
  OneTrust.first_match OneTrust.variantB_patterns src = None.
Proof.
  unfold onetrust_link_patterns, OneTrust.variantB_patterns. cbn [OneTrust.first_match].
  destruct (re_match_ OneTrust.v2_cookielaw_pattern src); [discriminate|].
  destruct (re_match_ OneTrust.v2_optanon_pattern src); [discriminate|].
  destruct (re_match_ OneTrust.v2_cookiepro_cdn_pattern src); [discriminate|].
  reflexivity.
Qed.

Lemma check_element_none (e : Element) s :
  blob_or_foreign_script e ->
  exists s1, OneTrust.variantB_check_element e s = (Val None, s1).
Proof.
  intros He. eexists. unfold OneTrust.variantB_check_element.
  apply try_val. unfold OneTrust.get_attribute.
  destruct (He (clock s)) as [Hsrc|(src & Hsrc & Hkind)].
  - erewrite bind_val by (rewrite external_eq, Hsrc; reflexivity). reflexivity.
  - erewrite bind_val by (rewrite external_eq, Hsrc; reflexivity).
    cbn beta iota.
    assert (Hnone : OneTrust.first_match OneTrust.variantB_patterns src = None).
    { destruct Hkind as [(u & _ & ->)|Hforeign].
      - apply blob_link_not_recognized.
      - now apply first_match_sublist. }
    rewrite Hnone. destruct (Nat.eqb (length (chars src)) 0); reflexivity.
Qed.

(** The loop over the script elements of such a page finds nothing. *)
Lemma no_link_found (elems : list Element) :
  Forall blob_or_foreign_script elems ->
  forall s, exists s',
    for_return elems OneTrust.variantB_check_element s = (Val None, s').
Proof.
  induction 1 as [|e elems He _ IH]; intros s.
  - exists s. reflexivity.
  - cbn [for_return].
    destruct (check_element_none s He) as (s1 & Hbody).
    destruct (IH s1) as (s' & Hrest). exists s'.
    erewrite bind_val by exact Hbody. exact Hrest.
Qed.

Lemma check_element_found (e : Element) (src : string) s :
  (forall t, e t "src" = Val (Some src)) ->
  Nat.eqb (length (chars src)) 0 = false ->
  option_map (fun m => group m 0)
    (OneTrust.first_match OneTrust.variantB_patterns src) = Some (Some src) ->
  exists s1,
    OneTrust.variantB_check_element e s
    = (Val (Some (src, SUCCESS, Some "Found OneTrust consent javascript link")), s1).
Proof.
  intros Hsrc Hlen Hfound. eexists. unfold OneTrust.variantB_check_element.
  apply try_val. unfold OneTrust.get_attribute.
  erewrite bind_val by (rewrite external_eq, Hsrc; reflexivity).
  cbn beta iota. rewrite Hlen.
  destruct (OneTrust.first_match OneTrust.variantB_patterns src) as [m|];
    [|discriminate Hfound].
  assert (Hg : group m 0 = Some src) by (cbn [option_map] in Hfound; congruence).
  rewrite Hg. reflexivity.
Qed.

(** The loop leaves with the first element that carries a recognized link. *)
Lemma link_found (before after : list Element) (e : Element)
      (r : string * CrawlState * option string) :
  Forall blob_or_foreign_script before ->
  (forall s, exists s1, OneTrust.variantB_check_element e s = (Val (Some r), s1)) ->
  forall s, exists s',
    for_return (before ++ e :: after) OneTrust.variantB_check_element s
    = (Val (Some r), s').
Proof.
  intros Hbefore He. induction Hbefore as [|e0 before He0 _ IH]; intros s.
  - cbn [app for_return]. destruct (He s) as (s1 & Hbody). exists s1.
    erewrite bind_val by exact Hbody. reflexivity.
  - cbn [app for_return].
    destruct (check_element_none s He0) as (s1 & Hbody).
    destruct (IH s1) as (s' & Hrest). exists s'.
    erewrite bind_val by exact Hbody. exact Hrest.
Qed.

End ScriptLinksPage.

Section ScriptLinksTheorem.

Lemma append_assoc (a b c : string) : (a ++ b) ++ c = a ++ b ++ c.
Proof. induction a as [|x a IH]; simpl; [reflexivity | now rewrite IH]. Qed.

Lemma recognized_link (prefix u src : string) (pats : list regex) :
  is_uuid u = true ->
  src = prefix ++ u ++ ".js" ->
  option_map (fun m => group m 0)
    (OneTrust.first_match (OneTrust.consent_js prefix :: pats) src)
  = Some (Some src).
Proof.
  intros Hu ->. cbn [OneTrust.first_match].
  pose proof (consent_js_matches prefix u Hu) as H.
  destruct (re_match_ (OneTrust.consent_js prefix) (prefix ++ u ++ ".js"));
    [exact H|discriminate].
Qed.

Lemma first_match_skip (p : regex) (pats : list regex) (src : string) :
  re_match_ p src = None ->
  OneTrust.first_match (p :: pats) src = OneTrust.first_match pats src.
Proof. intros H. cbn [OneTrust.first_match]. now rewrite H. Qed.

Lemma link_cookielaw (u : string) :
  consent_script_url cookielaw_host u = "https://cdn.cookielaw.org/consent/" ++ u ++ ".js".
Proof. reflexivity. Qed.
Lemma link_optanon (u : string) :
  consent_script_url optanon_host u
  = "https://optanon.blob.core.windows.net/consent/" ++ u ++ ".js".
Proof. reflexivity. Qed.
Lemma link_cookiepro_cdn (u : string) :
  consent_script_url cookiepro_cdn_host u
  = "https://cookie-cdn.cookiepro.com/consent/" ++ u ++ ".js".
Proof. reflexivity. Qed.
Lemma link_cookiepro_blob (u : string) :
  consent_script_url cookiepro_blob_host u
  = "https://cookiepro.blob.core.windows.net/consent/" ++ u ++ ".js".
Proof. reflexivity. Qed.

(** C9.  For a UUID [u], the pattern list of Variant B recognizes the
    consent script of [u] on cdn.cookielaw.org, on
    optanon.blob.core.windows.net and on cookie-cdn.cookiepro.com, and does
    not recognize it on cookiepro.blob.core.windows.net, although the pattern
    defined for that host matches it: the list holds the cookie-cdn pattern
    twice.  On a page that loads and whose script elements carry either no
    [src], or the blob-hosted consent script of some UUID, or a [src] that
    is no OneTrust consent script, step 1 of Variant B returns
    [PARSE_ERROR].  On a page that loads and on which such elements are
    followed by one whose [src] is the consent script of [u] on one of the
    three recognized hosts, step 1 returns that link with [SUCCESS]. *)
Theorem variantB_misses_cookiepro_blob
    (W : World) (url : string) (s : Scraper) (report : option string)
    (elems : list Element) (u : string)
    (Hu : is_uuid u = true)
    (Hnav : fst (driver_get W url s) = Val (SUCCESS, report))
    (Hwait : wd_implicitly_wait W (clock (snd (driver_get W url s))) = Val tt)
    (Hfind : wd_find_scripts W (S (clock (snd (driver_get W url s)))) = Val elems)
    (Hpage : Forall blob_or_foreign_script elems) :
  let found host :=
    option_map (fun m => group m 0)
      (OneTrust.first_match OneTrust.variantB_patterns (consent_script_url host u)) in
  found cookielaw_host = Some (Some (consent_script_url cookielaw_host u))
  /\ found optanon_host = Some (Some (consent_script_url optanon_host u))
  /\ found cookiepro_cdn_host = Some (Some (consent_script_url cookiepro_cdn_host u))
  /\ found cookiepro_blob_host = None
  /\ is_match (re_match_ OneTrust.v2_cookiepro_blob_pattern
                         (consent_script_url cookiepro_blob_host u)) = true
  /\ OneTrust.variantB_patterns =
     [OneTrust.v2_cookielaw_pattern; OneTrust.v2_optanon_pattern;
      OneTrust.v2_cookiepro_cdn_pattern; OneTrust.v2_cookiepro_cdn_pattern]
  /\ fst (OneTrust.variantB_retrieve_script_path W url s) =
     Val ("", PARSE_ERROR,
          Some "Variant B: Could not find OneTrust javascript url in any tag.")
  /\ (forall (W' : World) (url' : string) (s' : Scraper) (report' : option string)
             (before after : list Element) (e : Element) (host : string),
         In host [cookielaw_host; optanon_host; cookiepro_cdn_host] ->
         fst (driver_get W' url' s') = Val (SUCCESS, report') ->
         wd_implicitly_wait W' (clock (snd (driver_get W' url' s'))) = Val tt ->
         wd_find_scripts W' (S (clock (snd (driver_get W' url' s'))))
         = Val (before ++ e :: after)%list ->
         Forall blob_or_foreign_script before ->
         (forall t, e t "src" = Val (Some (consent_script_url host u))) ->
         fst (OneTrust.variantB_retrieve_script_path W' url' s')
         = Val (consent_script_url host u, SUCCESS,
                Some "Found OneTrust consent javascript link")).
Proof.
  intros found. subst found. cbv beta.
  assert (H1 : option_map (fun m => group m 0)
                 (OneTrust.first_match OneTrust.variantB_patterns
                    (consent_script_url cookielaw_host u))
               = Some (Some (consent_script_url cookielaw_host u))).
  { unfold OneTrust.variantB_patterns, OneTrust.v2_cookielaw_pattern.
    apply recognized_link with (u := u); [exact Hu | apply link_cookielaw]. }
  assert (H2 : option_map (fun m => group m 0)
                 (OneTrust.first_match OneTrust.variantB_patterns
                    (consent_script_url optanon_host u))
               = Some (Some (consent_script_url optanon_host u))).
  { unfold OneTrust.variantB_patterns.
    rewrite first_match_skip
      by (apply consent_js_other_prefix; rewrite link_optanon; reflexivity).
    unfold OneTrust.v2_optanon_pattern.
    apply recognized_link with (u := u); [exact Hu | apply link_optanon]. }
  assert (H3 : option_map (fun m => group m 0)
                 (OneTrust.first_match OneTrust.variantB_patterns
                    (consent_script_url cookiepro_cdn_host u))
               = Some (Some (consent_script_url cookiepro_cdn_host u))).
  { unfold OneTrust.variantB_patterns.
    rewrite !first_match_skip
      by (apply consent_js_other_prefix; rewrite link_cookiepro_cdn; reflexivity).
    unfold OneTrust.v2_cookiepro_cdn_pattern.
    apply recognized_link with (u := u); [exact Hu | apply link_cookiepro_cdn]. }
  split; [exact H1|]. split; [exact H2|]. split; [exact H3|].
  split; [|split; [|split; [|split]]].
  - unfold consent_script_url. now rewrite blob_link_not_recognized.
  - pose proof (consent_js_matches "https://cookiepro.blob.core.windows.net/consent/" u Hu) as H.
    rewrite link_cookiepro_blob. unfold OneTrust.v2_cookiepro_blob_pattern.
    destruct (re_match_ _ _); [reflexivity|discriminate].
  - reflexivity.
  - unfold OneTrust.variantB_retrieve_script_path.
    destruct (driver_get W url s) as [o s1] eqn:E. simpl in Hnav, Hwait, Hfind. subst o.
    unfold bind at 1. rewrite E. cbn beta iota.
    change (negb (CrawlState_eqb SUCCESS SUCCESS)) with false. cbn iota.
    destruct (no_link_found Hpage (set_clock (S (S (clock s1))) s1)) as (s2 & Hloop).
    erewrite try_val; [reflexivity|].
    erewrite bind_val by (rewrite external_eq, Hwait; reflexivity).
    erewrite bind_val by (rewrite external_eq; cbn [clock set_clock]; rewrite Hfind; reflexivity).
    erewrite bind_val.
    2:{ cbn [set_clock clock]. exact Hloop. }
    reflexivity.
  - intros W' url' s' report' before after e host Hhost Hnav' Hwait' Hfind' Hbefore Hsrc.
    assert (Hrec : option_map (fun m => group m 0)
                     (OneTrust.first_match OneTrust.variantB_patterns
                        (consent_script_url host u))
                   = Some (Some (consent_script_url host u))
                   /\ Nat.eqb (length (chars (consent_script_url host u))) 0 = false).
    { cbn [In] in Hhost.
      destruct Hhost as [<-|[<-|[<-|[]]]]; (split; [assumption | reflexivity]). }
    destruct Hrec as [Hrec Hlen].
    unfold OneTrust.variantB_retrieve_script_path.
    destruct (driver_get W' url' s') as [o s1] eqn:E.
    simpl in Hnav', Hwait', Hfind'. subst o.
    unfold bind at 1. rewrite E. cbn beta iota.
    change (negb (CrawlState_eqb SUCCESS SUCCESS)) with false. cbn iota.
    destruct (@link_found before after e
                (consent_script_url host u, SUCCESS,
                 Some "Found OneTrust consent javascript link")
                Hbefore
                (fun s0 => @check_element_found e _ s0 Hsrc Hlen Hrec)
                (set_clock (S (S (clock s1))) s1)) as (s2 & Hloop).
    erewrite try_val; [reflexivity|].
    erewrite bind_val by (rewrite external_eq, Hwait'; reflexivity).
    erewrite bind_val
      by (rewrite external_eq; cbn [clock set_clock]; rewrite Hfind'; reflexivity).
    erewrite bind_val.
    2:{ cbn [set_clock clock]. exact Hloop. }
    reflexivity.
Qed.

(** The theorem applied to the page of [blob_site_world], on which step 1
    finds no link, and to the page of [empty_groups_world], whose script is
    hosted on cdn.cookielaw.org and is found. *)
Lemma variantB_misses_cookiepro_blob_witness :
  fst (OneTrust.variantB_retrieve_script_path blob_site_world "https://shop.example"
         started_scraper)
  = Val ("", PARSE_ERROR,
         Some "Variant B: Could not find OneTrust javascript url in any tag.")
  /\ fst (OneTrust.variantB_retrieve_script_path empty_groups_world shop_url
            started_scraper)
     = Val ("https://cdn.cookielaw.org/consent/0123abcd-4567-89ab-cdef-0123456789ab.js",
            SUCCESS, Some "Found OneTrust consent javascript link").
Proof.
  destruct (@variantB_misses_cookiepro_blob blob_site_world "https://shop.example"
       started_scraper None
       [script [("src", "https://example.com/app.js")];
        script [("type", "text/javascript")];
        script [("src", consent_script_url cookiepro_blob_host blob_uuid)]]
       blob_uuid) as (_ & _ & _ & _ & _ & _ & Hmiss & Hfound).
  - vm_compute. reflexivity.
  - vm_compute. reflexivity.
  - vm_compute. reflexivity.
  - vm_compute. reflexivity.
  - apply Forall_cons; [|apply Forall_cons; [|apply Forall_cons; [|apply Forall_nil]]];
      intros t.
    + right. eexists. split; [vm_compute; reflexivity|]. right. vm_compute. reflexivity.
    + left. vm_compute. reflexivity.
    + right. eexists. split; [vm_compute; reflexivity|]. left.
      exists blob_uuid. split; vm_compute; reflexivity.
  - split; [exact Hmiss|].
    apply (Hfound empty_groups_world shop_url started_scraper None
             [] [] (script [("src", empty_groups_src)]) cookielaw_host).
    + left. reflexivity.
    + vm_compute. reflexivity.
    + vm_compute. reflexivity.
    + vm_compute. reflexivity.
    + apply Forall_nil.
    + intros t. reflexivity.
Defined.

End ScriptLinksTheorem.

(** ** Frames: what a step leaves alone *)

Section KeepsGeneric.

Variable R : Scraper -> Scraper -> Prop.
Hypothesis R_refl : forall s, R s s.
Hypothesis R_trans : forall a b c, R a b -> R b c -> R a c.

Lemma keeps_ret {A} (a : A) : keeps R (ret a).
Proof. intros s. apply R_refl. Qed.

Lemma keeps_raise {A} (e : exn) : keeps R (@raise A e).
Proof. intros s. apply R_refl. Qed.

Lemma keeps_lift {A} (o : outcome A) : keeps R (lift o).
Proof. intros s. apply R_refl. Qed.

Lemma keeps_get : keeps R get.
Proof. intros s. apply R_refl. Qed.

Lemma keeps_get_count : keeps R get_count.
Proof. intros s. apply R_refl. Qed.

Lemma keeps_bind {A B} (c : M A) (f : A -> M B) :
  keeps R c -> (forall a, keeps R (f a)) -> keeps R (bind c f).
Proof.
  intros Hc Hf s. unfold bind. specialize (Hc s).
  destruct (c s) as [[a|e] s1]; simpl in *.
  - eapply R_trans; [exact Hc | apply Hf].
  - exact Hc.
Qed.

Lemma keeps_try {A} (c : M A) h :
  keeps R c -> handled R h -> keeps R (try_except c h).
Proof.
  intros Hc Hh s. unfold try_except. specialize (Hc s).
  destruct (c s) as [[a|e] s1]; simpl in *; [exact Hc|].
  destruct (h e) as [k|] eqn:E; simpl; [|exact Hc].
  eapply R_trans; [exact Hc | apply (Hh e k E)].
Qed.

Lemma handled_except {A} classes (k : exn -> M A) :
  (forall ex, keeps R (k ex)) -> handled R (except_ classes k).
Proof.
  intros Hk e k'. unfold except_.
  destruct (existsb (isinstance e) classes); [|discriminate].
  intros [= <-]. apply Hk.
Qed.

Lemma handled_nil {A} : handled R (@clauses A []).
Proof. intros e k. discriminate. Qed.

Lemma handled_cons {A} (h : exn -> option (M A)) hs :
  handled R h -> handled R (clauses hs) -> handled R (clauses (h :: hs)).
Proof.
  intros Hh Hhs e k. cbn [clauses].
  destruct (h e) as [k'|] eqn:E.
  - intros [= <-]. apply (Hh e k' E).
  - apply Hhs.
Qed.

Lemma keeps_for_each {A} (l : list A) (body : A -> M unit) :
  (forall x, keeps R (body x)) -> keeps R (for_each l body).
Proof.
  intros Hb. induction l as [|x l IH]; cbn [for_each].
  - apply keeps_ret.
  - apply keeps_bind; [apply Hb | intros _; exact IH].
Qed.

Lemma keeps_for_return {A B} (l : list A) (body : A -> M (option B)) :
  (forall x, keeps R (body x)) -> keeps R (for_return l body).
Proof.
  intros Hb. induction l as [|x l IH]; cbn [for_return].
  - apply keeps_ret.
  - apply keeps_bind; [apply Hb|]. intros [v|]; [apply keeps_ret | exact IH].
Qed.

Lemma keeps_poll_until {A} (method : M (option A)) :
  keeps R method -> forall more, keeps R (poll_until method more).
Proof.
  intros Hm. induction more as [|k IH]; cbn [poll_until];
    (apply keeps_bind; [exact Hm|]); intros [v|];
    first [apply keeps_ret | apply keeps_raise | exact IH].
Qed.

Lemma keeps_when (b : bool) (c : M unit) : keeps R c -> keeps R (when b c).
Proof. intros Hc. destruct b; simpl; [exact Hc | apply keeps_ret]. Qed.

End KeepsGeneric.

Lemma keeps_weaken (R R' : Scraper -> Scraper -> Prop) {A} (c : M A) :
  (forall s s', R s s' -> R' s s') -> keeps R c -> keeps R' c.
Proof. intros H Hc s. apply H, Hc. Qed.

Section Preorders.

Lemma log_extends_refl s : log_extends s s.
Proof. exists []. now rewrite app_nil_r. Qed.

Lemma log_extends_trans a b c : log_extends a b -> log_extends b c -> log_extends a c.
Proof.
  intros (m1 & H1) (m2 & H2). exists (m1 ++ m2)%list.
  now rewrite H2, H1, app_assoc.
Qed.

Lemma still_refl s : still s s.
Proof. constructor; try reflexivity. apply log_extends_refl. Qed.

Lemma still_trans a b c : still a b -> still b c -> still a c.
Proof.
  intros [] []. constructor; try congruence.
  eapply log_extends_trans; eassumption.
Qed.

Lemma grown_by_nil s : grown_by [] s s.
Proof. split; [now rewrite app_nil_r | reflexivity]. Qed.

Lemma grown_by_trans n1 n2 a b c :
  grown_by n1 a b -> grown_by n2 b c -> grown_by (n1 ++ n2) a c.
Proof.
  intros [H1 L1] [H2 L2]. split.
  - now rewrite H2, H1, app_assoc.
  - intros E. apply app_eq_nil in E. destruct E as [-> ->].
    now rewrite L2, L1.
Qed.

Lemma gathers_refl s : gathers s s.
Proof.
  constructor; try reflexivity; [apply log_extends_refl|].
  exists []. apply grown_by_nil.
Qed.

Lemma gathers_trans a b c : gathers a b -> gathers b c -> gathers a c.
Proof.
  intros [? ? ? ? ? ? L1 (n1 & G1)] [? ? ? ? ? ? L2 (n2 & G2)].
  constructor; try congruence.
  - eapply log_extends_trans; eassumption.
  - exists (n1 ++ n2)%list. eapply grown_by_trans; eassumption.
Qed.

Lemma tracks_refl s : tracks s s.
Proof.
  constructor; try reflexivity; [apply log_extends_refl|].
  exists []. split; [apply grown_by_nil | simpl; lia].
Qed.

Lemma tracks_trans a b c : tracks a b -> tracks b c -> tracks a c.
Proof.
  intros [? ? ? ? ? ? L1 (n1 & G1 & C1)] [? ? ? ? ? ? L2 (n2 & G2 & C2)].
  constructor; try congruence.
  - eapply log_extends_trans; eassumption.
  - exists (n1 ++ n2)%list. split; [eapply grown_by_trans; eassumption|].
    rewrite C2, C1, length_app. lia.
Qed.

Lemma still_tracks s s' : still s s' -> tracks s s'.
Proof.
  intros []. constructor; try assumption.
  exists []. split; [split; [now rewrite app_nil_r | now intros _] | simpl; lia].
Qed.

Lemma tracks_gathers s s' : tracks s s' -> gathers s s'.
Proof.
  intros [? ? ? ? ? ? ? (n & G & _)]. constructor; try assumption. now exists n.
Qed.

Lemma still_gathers s s' : still s s' -> gathers s s'.
Proof. intros H. now apply tracks_gathers, still_tracks. Qed.

End Preorders.

(** One step of a frame proof, for a preorder given by its two laws; steps
    already known are looked up in the hint database [db]. *)
Ltac frame_step refl trans :=
  match goal with
  | |- keeps _ (ret _) => apply (@keeps_ret _ refl)
  | |- keeps _ (raise _) => apply (@keeps_raise _ refl)
  | |- keeps _ (lift _) => apply (@keeps_lift _ refl)
  | |- keeps _ get => apply (@keeps_get _ refl)
  | |- keeps _ get_count => apply (@keeps_get_count _ refl)
  | |- keeps _ (bind _ _) => apply (@keeps_bind _ trans); [|intros]
  | |- keeps _ (try_except _ _) => apply (@keeps_try _ trans)
  | |- handled _ (clauses []) => apply handled_nil
  | |- handled _ (clauses (_ :: _)) => apply handled_cons
  | |- handled _ (except_ _ _) => apply handled_except; intros
  | |- keeps _ (for_each _ _) => apply (@keeps_for_each _ refl trans); intros
  | |- keeps _ (for_return _ _) => apply (@keeps_for_return _ refl trans); intros
  | |- keeps _ (poll_until _ _) => apply (@keeps_poll_until _ refl trans)
  | |- keeps _ (when _ _) => apply (@keeps_when _ refl)
  | |- keeps _ (match ?x with _ => _ end) => destruct x
  end.

Create HintDb still_db.
Create HintDb gathers_db.
Create HintDb tracks_db.

Ltac still_frame :=
  repeat first [solve [auto with still_db nocore] | frame_step still_refl still_trans].
Ltac gathers_frame :=
  repeat first [solve [auto with gathers_db nocore] | frame_step gathers_refl gathers_trans].
Ltac tracks_frame :=
  repeat first [solve [auto with tracks_db nocore] | frame_step tracks_refl tracks_trans].

Section StillSteps.

Lemma log_extends_same s s' : logged s' = logged s -> log_extends s s'.
Proof. intros H. exists []. now rewrite app_nil_r. Qed.

Lemma still_log lvl msg : keeps still (log lvl msg).
Proof.
  intros s. unfold log; simpl. constructor; try reflexivity.
  now exists [(lvl, msg)].
Qed.

Lemma still_tick : keeps still tick.
Proof.
  intros s. unfold tick; simpl. constructor; try reflexivity.
  now apply log_extends_same.
Qed.

Lemma still_write_file path content : keeps still (write_file path content).
Proof.
  intros s. unfold write_file; simpl. constructor; try reflexivity.
  now apply log_extends_same.
Qed.

Lemma still_set_weird b : keeps still (set_weird b).
Proof.
  intros s. unfold set_weird; simpl. constructor; try reflexivity.
  now apply log_extends_same.
Qed.

Lemma still_external {A} (f : nat -> outcome A) : keeps still (external f).
Proof.
  unfold external. apply (@keeps_bind _ still_trans); [apply still_tick|].
  intros t. apply (@keeps_lift _ still_refl).
Qed.

#[local] Hint Resolve still_log still_tick still_write_file still_set_weird
  still_external : still_db.

Variable W : World.

Lemma still_static_get_request url headers : keeps still (static_get_request W url headers).
Proof. unfold static_get_request. still_frame. Qed.

Lemma still_driver_get url : keeps still (driver_get W url).
Proof. unfold driver_get. still_frame. Qed.

Lemma still_driver_get_current_pagesource : keeps still (driver_get_current_pagesource W).
Proof. unfold driver_get_current_pagesource. still_frame. Qed.

Lemma still_optional_field c key : keeps still (optional_field c key).
Proof. unfold optional_field. still_frame. Qed.

Lemma still_wait_until {A} (method : M (option A)) :
  keeps still method -> keeps still (wait_until W method).
Proof. intros H. unfold wait_until. still_frame. Qed.

End StillSteps.

#[export] Hint Resolve still_log still_tick still_write_file still_set_weird
  still_external still_static_get_request still_driver_get
  still_driver_get_current_pagesource still_optional_field : still_db.

Section OneTrustStill.

Variable W : World.

Lemma still_ot_get_attribute e name : keeps still (OneTrust.get_attribute e name).
Proof. unfold OneTrust.get_attribute. still_frame. Qed.

#[local] Hint Resolve still_ot_get_attribute : still_db.

Lemma still_try_base_patterns pats source_stub dd_id :
  keeps still (OneTrust.try_base_patterns pats source_stub dd_id).
Proof.
  induction pats as [|[src pat] rest IH]; cbn [OneTrust.try_base_patterns]; still_frame.
Qed.

#[local] Hint Resolve still_try_base_patterns : still_db.

Lemma still_variantA_check_element e : keeps still (OneTrust.variantA_check_element e).
Proof. unfold OneTrust.variantA_check_element. still_frame. Qed.

#[local] Hint Resolve still_variantA_check_element : still_db.

Lemma still_variantA_try_retrieve_uuid url :
  keeps still (OneTrust.variantA_try_retrieve_uuid W url).
Proof. unfold OneTrust.variantA_try_retrieve_uuid. still_frame. Qed.

Lemma still_collect_ruleset_ids rulesets : keeps still (OneTrust.collect_ruleset_ids rulesets).
Proof.
  unfold OneTrust.collect_ruleset_ids.
  assert (H : forall acc : M (list pyval), keeps still acc ->
    keeps still
      (fold_left
         (fun (acc : M (list pyval)) (r : pyval) =>
            ids <- acc ;;
            languageset <- lift (getitem r "LanguageSwitcherPlaceholder") ;;
            if is_None languageset then ret ids
            else
              vals <- lift (py_values languageset) ;;
              if existsb (fun v => py_eq_str v "en") vals then
                id <- lift (getitem r "Id") ;;
                ret (ids ++ [id])%list
              else ret ids)
         rulesets acc)).
  { induction rulesets as [|r rest IH]; intros acc Hacc; cbn [fold_left].
    - exact Hacc.
    - apply IH. still_frame. }
  apply H. still_frame.
Qed.

#[local] Hint Resolve still_collect_ruleset_ids : still_db.

Lemma still_variantA_try_retrieve_ruleset_id domain_url dd_id :
  keeps still (OneTrust.variantA_try_retrieve_ruleset_id W domain_url dd_id).
Proof. unfold OneTrust.variantA_try_retrieve_ruleset_id. still_frame. Qed.

Lemma still_variantB_check_element e : keeps still (OneTrust.variantB_check_element e).
Proof. unfold OneTrust.variantB_check_element. still_frame. Qed.

#[local] Hint Resolve still_variantB_check_element : still_db.

Lemma still_variantB_retrieve_script_path url :
  keeps still (OneTrust.variantB_retrieve_script_path W url).
Proof. unfold OneTrust.variantB_retrieve_script_path. still_frame. Qed.

Lemma still_variantB_parse_script_for_object script_url :
  keeps still (OneTrust.variantB_parse_script_for_object W script_url).
Proof. unfold OneTrust.variantB_parse_script_for_object. still_frame. Qed.

Lemma still_cat_lookup cat_name : keeps still (OneTrust.cat_lookup cat_name).
Proof. unfold OneTrust.cat_lookup. still_frame. Qed.

End OneTrustStill.

#[export] Hint Resolve still_ot_get_attribute still_try_base_patterns
  still_variantA_check_element still_variantA_try_retrieve_uuid
  still_collect_ruleset_ids still_variantA_try_retrieve_ruleset_id
  still_variantB_check_element still_variantB_retrieve_script_path
  still_variantB_parse_script_for_object still_cat_lookup : still_db.

Section CookiebotTermlyStill.

Variable W : World.

Lemma still_cb_get_attribute e name : keeps still (Cookiebot.get_attribute e name).
Proof. unfold Cookiebot.get_attribute. still_frame. Qed.

#[local] Hint Resolve still_cb_get_attribute : still_db.

Lemma still_exists_script_tag_with_cbid : keeps still (Cookiebot.exists_script_tag_with_cbid W).
Proof. unfold Cookiebot.exists_script_tag_with_cbid. still_frame. Qed.

#[local] Hint Resolve still_exists_script_tag_with_cbid still_wait_until : still_db.

Lemma still_try_selenium_approach url : keeps still (Cookiebot.try_selenium_approach W url).
Proof. unfold Cookiebot.try_selenium_approach. still_frame. Qed.

Lemma still_try_retrieve_cbid res url : keeps still (Cookiebot.try_retrieve_cbid W res url).
Proof. unfold Cookiebot.try_retrieve_cbid. apply still_try_selenium_approach. Qed.

Lemma still_try_find_correct_referrer cbid fallback :
  keeps still (Cookiebot.try_find_correct_referrer W cbid fallback).
Proof. unfold Cookiebot.try_find_correct_referrer. still_frame. Qed.

Lemma still_tm_get_attribute e name : keeps still (Termly.get_attribute e name).
Proof. unfold Termly.get_attribute. still_frame. Qed.

#[local] Hint Resolve still_tm_get_attribute : still_db.

Lemma still_exists_script_tag_with_termly_embed :
  keeps still (Termly.exists_script_tag_with_termly_embed W).
Proof. unfold Termly.exists_script_tag_with_termly_embed. still_frame. Qed.

#[local] Hint Resolve still_exists_script_tag_with_termly_embed : still_db.

Lemma still_find_cookie_policy docs : keeps still (Termly.find_cookie_policy docs).
Proof.
  induction docs as [|doc rest IH]; cbn [Termly.find_cookie_policy]; still_frame.
Qed.

#[local] Hint Resolve still_find_cookie_policy : still_db.

Lemma still_retrieve_termly_json url : keeps still (Termly.retrieve_termly_json W url).
Proof. unfold Termly.retrieve_termly_json. still_frame. Qed.

End CookiebotTermlyStill.

#[export] Hint Resolve still_try_selenium_approach still_try_retrieve_cbid
  still_try_find_correct_referrer still_find_cookie_policy
  still_retrieve_termly_json still_wait_until : still_db.

(** ** Collecting steps *)

Section Collecting.

(** What [collect_cookie_dat] does to the scraper. *)
Lemma collect_cookie_dat_run site_url name domain path cat_name cat_id purpose type s :
  collect_cookie_dat site_url name domain path cat_name cat_id purpose type s =
  if negb (ident_hashable (name, domain, path))
  then (Exc (PyExc TypeError "unhashable type"), s)
  else
    (Val tt,
     set_database_cookie_data
       (database_cookie_data s ++
        [MkCookie site_url name domain path cat_id cat_name purpose type])
       (set_cookie_labels
          match labels_get (name, domain, path) (cookie_labels s) with
          | Some existing_categories =>
              if negb (in_strings cat_name existing_categories)
              then labels_append (name, domain, path) cat_name (cookie_labels s)
              else cookie_labels s
          | None => (cookie_labels s ++ [((name, domain, path), [cat_name])])%list
          end s)).
Proof.
  unfold collect_cookie_dat.
  destruct (negb (ident_hashable (name, domain, path))); reflexivity.
Qed.

Lemma owes_collect site_url name domain path cat_name cat_id purpose type :
  satd (-1) (collect_cookie_dat site_url name domain path cat_name cat_id purpose type).
Proof.
  intros s. rewrite collect_cookie_dat_run.
  destruct (negb (ident_hashable (name, domain, path))).
  - apply gathers_refl.
  - constructor; try reflexivity; [now apply log_extends_same|].
    eexists. split; [split; [reflexivity | discriminate]|].
    simpl. lia.
Qed.

Lemma gathers_collect site_url name domain path cat_name cat_id purpose type :
  keeps gathers (collect_cookie_dat site_url name domain path cat_name cat_id purpose type).
Proof.
  intros s. rewrite collect_cookie_dat_run.
  destruct (negb (ident_hashable (name, domain, path))); simpl.
  - apply gathers_refl.
  - constructor; try reflexivity; [now apply log_extends_same|].
    eexists. split; [reflexivity | discriminate].
Qed.

Lemma tracks_collect_count site_url name domain path cat_name cat_id purpose type :
  keeps tracks
    (collect_cookie_dat site_url name domain path cat_name cat_id purpose type ;;
     add_count 1).
Proof.
  intros s. unfold bind. rewrite collect_cookie_dat_run.
  destruct (negb (ident_hashable (name, domain, path))); simpl.
  - apply tracks_refl.
  - constructor; try reflexivity; [now apply log_extends_same|].
    eexists. split; [split; [reflexivity | discriminate]|]. reflexivity.
Qed.

Lemma gathers_set_count n : keeps gathers (set_count n).
Proof.
  intros s. simpl. constructor; try reflexivity; [now apply log_extends_same|].
  exists []. split; [simpl; now rewrite app_nil_r | reflexivity].
Qed.

Lemma gathers_add_count n : keeps gathers (add_count n).
Proof.
  intros s. simpl. constructor; try reflexivity; [now apply log_extends_same|].
  exists []. split; [simpl; now rewrite app_nil_r | reflexivity].
Qed.

Lemma owes_refl s : owes 0 s s.
Proof.
  constructor; try reflexivity; [apply log_extends_refl|].
  exists []. split; [apply grown_by_nil | simpl; lia].
Qed.

Lemma owes_trans d1 d2 a b c : owes d1 a b -> owes d2 b c -> owes (d1 + d2) a c.
Proof.
  intros [? ? ? ? ? ? L1 (n1 & G1 & C1)] [? ? ? ? ? ? L2 (n2 & G2 & C2)].
  constructor; try congruence.
  - eapply log_extends_trans; eassumption.
  - exists (n1 ++ n2)%list. split; [eapply grown_by_trans; eassumption|].
    rewrite length_app, Nat2Z.inj_add. lia.
Qed.

Lemma owes_gathers d s s' : owes d s s' -> gathers s s'.
Proof.
  intros [? ? ? ? ? ? ? (n & G & _)]. constructor; try assumption. now exists n.
Qed.

Lemma owes_tracks s s' : owes 0 s s' -> tracks s s'.
Proof.
  intros [? ? ? ? ? ? ? (n & G & C)]. constructor; try assumption.
  exists n. split; [exact G | lia].
Qed.

Lemma still_owes s s' : still s s' -> owes 0 s s'.
Proof.
  intros []. constructor; try assumption.
  exists []. split; [split; [now rewrite app_nil_r | now intros _]|].
  simpl. lia.
Qed.

Lemma satd_eq {A} (c : M A) d d' : satd d c -> d = d' -> satd d' c.
Proof. now intros H <-. Qed.

Lemma satd_still {A} (c : M A) : keeps still c -> satd 0 c.
Proof.
  intros H s. specialize (H s). destruct (c s) as [[a|e] s']; simpl in H.
  - now apply still_owes.
  - now apply still_gathers.
Qed.

Lemma satd_bind {A B} (c : M A) (f : A -> M B) d1 d2 :
  satd d1 c -> (forall a, satd d2 (f a)) -> satd (d1 + d2) (bind c f).
Proof.
  intros Hc Hf s. unfold bind. specialize (Hc s).
  destruct (c s) as [[a|e] s1]; [|exact Hc].
  specialize (Hf a s1). destruct (f a s1) as [[b|e] s2].
  - eapply owes_trans; eassumption.
  - eapply gathers_trans; [eapply owes_gathers; exact Hc | exact Hf].
Qed.

Lemma satd_bind_still {A B} (c : M A) (f : A -> M B) d :
  keeps still c -> (forall a, satd d (f a)) -> satd d (bind c f).
Proof.
  intros Hc Hf. apply satd_eq with (d := (0 + d)%Z); [|reflexivity].
  apply satd_bind; [now apply satd_still | exact Hf].
Qed.

Lemma satd_bind_lift {A B} (o : outcome A) (f : A -> M B) d :
  (forall a, o = Val a -> satd d (f a)) -> satd d (bind (lift o) f).
Proof.
  intros Hf s. unfold bind, lift. destruct o as [a|e].
  - apply (Hf a eq_refl).
  - apply gathers_refl.
Qed.

Lemma satd_add_count {B} n (f : unit -> M B) d :
  satd (d - Z.of_nat n) (f tt) -> satd d (bind (add_count n) f).
Proof.
  intros Hf. apply satd_eq with (d := (Z.of_nat n + (d - Z.of_nat n))%Z); [|lia].
  apply satd_bind; [|intros []; exact Hf].
  intros s. simpl. constructor; try reflexivity; [now apply log_extends_same|].
  exists []. split; [split; [simpl; now rewrite app_nil_r | reflexivity]|].
  simpl. rewrite Nat2Z.inj_add. lia.
Qed.

Lemma satd_for_each {A} (l : list A) (body : A -> M unit) d :
  (forall x, satd d (body x)) -> satd (d * Z.of_nat (length l)) (for_each l body).
Proof.
  intros Hb. induction l as [|x l IH]; cbn [for_each length].
  - rewrite Z.mul_0_r. intros s. apply owes_refl.
  - apply satd_eq with (d := (d + d * Z.of_nat (length l))%Z); [|lia].
    apply satd_bind; [apply Hb | intros _; exact IH].
Qed.

Lemma satd_ret {A} (a : A) : satd 0 (ret a).
Proof. intros s. apply owes_refl. Qed.

End Collecting.

#[export] Hint Resolve tracks_collect_count : tracks_db.
#[export] Hint Resolve gathers_collect gathers_set_count gathers_add_count : gathers_db.
#[export] Hint Extern 5 (keeps tracks _) =>
  (apply (@keeps_weaken still tracks _ _ still_tracks); solve [still_frame]) : tracks_db.
#[export] Hint Extern 5 (keeps gathers _) =>
  (apply (@keeps_weaken still gathers _ _ still_gathers); solve [still_frame]) : gathers_db.

Section OneTrustCollecting.

Variable W : World.

Lemma tracks_variantA_collect_cookie website_url cat_name cat_id c :
  keeps tracks (OneTrust.variantA_collect_cookie website_url cat_name cat_id c).
Proof. unfold OneTrust.variantA_collect_cookie. tracks_frame. Qed.

#[local] Hint Resolve tracks_variantA_collect_cookie : tracks_db.

Lemma tracks_variantA_parse_ruleset website_url body :
  keeps tracks (OneTrust.variantA_parse_ruleset W website_url body).
Proof. unfold OneTrust.variantA_parse_ruleset. tracks_frame. Qed.

#[local] Hint Resolve tracks_variantA_parse_ruleset : tracks_db.

Lemma tracks_variantA_fetch_ruleset website_url domain_url dd_id i :
  keeps tracks (OneTrust.variantA_fetch_ruleset W website_url domain_url dd_id i).
Proof. unfold OneTrust.variantA_fetch_ruleset. tracks_frame. Qed.

Lemma tracks_variantB_walk_groups website_url consent_data :
  keeps tracks (OneTrust.variantB_walk_groups website_url consent_data).
Proof. unfold OneTrust.variantB_walk_groups. tracks_frame. Qed.

End OneTrustCollecting.

#[export] Hint Resolve tracks_variantA_fetch_ruleset tracks_variantB_walk_groups
  : tracks_db.

Section ParseLoops.

Variable W : World.

Lemma py_len_iterate (v : pyval) n cs :
  py_len v = Val n -> iterate v = Val cs -> length cs = n.
Proof.
  destruct v; simpl; intros H1 H2; try discriminate;
    injection H1 as <-; injection H2 as <-; now rewrite ?length_map.
Qed.

Lemma satd_parse_cookie url catname cat_id cookie :
  satd 0 (Termly.parse_cookie url catname cat_id cookie).
Proof.
  unfold Termly.parse_cookie.
  apply satd_bind_still; [still_frame | intros keys].
  apply satd_bind_still; [still_frame | intros _].
  apply satd_add_count.
  repeat (apply satd_bind_still; [still_frame | intros]).
  apply owes_collect.
Qed.

Lemma satd_walk_buckets url cookie_dict : satd 0 (Termly.walk_buckets url cookie_dict).
Proof.
  unfold Termly.walk_buckets.
  apply satd_bind_still; [still_frame | intros cookies].
  apply satd_bind_still; [still_frame | intros items].
  apply satd_eq with (d := (0 * Z.of_nat (length items))%Z); [|reflexivity].
  apply satd_for_each. intros [catname entry].
  destruct (Termly.name_to_cat catname) as [cat_id|].
  - apply satd_bind_still; [still_frame | intros entries].
    apply satd_eq with (d := (0 * Z.of_nat (length entries))%Z); [|reflexivity].
    apply satd_for_each. intros cookie. apply satd_parse_cookie.
  - apply satd_still. still_frame.
Qed.

Lemma satd_parse_bucket url js_contents catname :
  satd 0 (Cookiebot.parse_bucket W url js_contents catname).
Proof.
  unfold Cookiebot.parse_bucket.
  apply satd_bind_still; [still_frame | intros cat_id].
  apply satd_bind_still; [still_frame | intros pattern].
  destruct (re_search pattern js_contents) as [matchobj|].
  2:{ apply satd_still. still_frame. }
  apply satd_bind_still; [still_frame | intros cookies].
  apply satd_bind_lift. intros n Hn.
  apply satd_add_count.
  apply satd_bind_lift. intros cs Hcs.
  apply satd_eq with (d := (-1 * Z.of_nat (length cs))%Z).
  2:{ rewrite (py_len_iterate _ Hn Hcs). lia. }
  apply satd_for_each. intros c.
  repeat (apply satd_bind_still; [still_frame | intros]).
  apply owes_collect.
Qed.

Lemma satd_walk_tables url js_contents : satd 0 (Cookiebot.walk_tables W url js_contents).
Proof.
  unfold Cookiebot.walk_tables.
  apply satd_eq with (d := (0 * Z.of_nat (length Cookiebot.cookiebot_catnames))%Z);
    [|reflexivity].
  apply satd_for_each. intros catname. apply satd_parse_bucket.
Qed.

End ParseLoops.

(** ** Recording an outcome *)

Section Recording.

Lemma CrawlState_eqb_eq a b : CrawlState_eqb a b = true <-> a = b.
Proof.
  split.
  - destruct a, b; intros H; try reflexivity; discriminate H.
  - intros ->. destruct b; reflexivity.
Qed.

Lemma CrawlState_eqb_refl a : CrawlState_eqb a a = true.
Proof. now apply CrawlState_eqb_eq. Qed.

Lemma CrawlState_eqb_neq a b : CrawlState_eqb a b = false <-> a <> b.
Proof.
  split.
  - intros H ->. now rewrite CrawlState_eqb_refl in H.
  - intros H. destruct (CrawlState_eqb a b) eqn:E; [|reflexivity].
    now apply CrawlState_eqb_eq in E.
Qed.

Lemma records_functional a b s s' : records a s s' -> records b s s' -> a = b.
Proof.
  intros Ha Hb. specialize (Ha a). specialize (Hb a).
  rewrite CrawlState_eqb_refl in Ha. rewrite Ha in Hb.
  destruct (CrawlState_eqb a b) eqn:E.
  - now apply CrawlState_eqb_eq.
  - exfalso. lia.
Qed.

Lemma records_not_nothing a s s' : records a s s' -> records_nothing s s' -> False.
Proof.
  intros Ha Hn. specialize (Ha a). specialize (Hn a).
  rewrite CrawlState_eqb_refl in Ha. lia.
Qed.

Lemma records_nothing_of_status s s' :
  status_counts s' = status_counts s -> records_nothing s s'.
Proof. intros H e. now rewrite H. Qed.

(** What [update_crawl_stats] leaves behind. *)
Lemma update_crawl_stats_run url st report s :
  let s' := snd (update_crawl_stats url st report s) in
  fst (update_crawl_stats url st report s) = Val tt
  /\ records st s s'
  /\ database_cookie_data s' = database_cookie_data s
  /\ cookie_labels s' = cookie_labels s
  /\ cookie_count s' = cookie_count s
  /\ crawl_log s' = match report with
                    | Some r => dict_set url (st, r) (crawl_log s)
                    | None => crawl_log s
                    end
  /\ failed_urls s' = (if CrawlState_eqb st SUCCESS then failed_urls s
                       else (failed_urls s ++ [url])%list)
  /\ log_extends s s'.
Proof.
  unfold update_crawl_stats. cbn zeta.
  destruct report as [r|]; destruct (CrawlState_eqb st SUCCESS) eqn:E; cbn;
    repeat split; try reflexivity; try (intros e; reflexivity);
    eexists; rewrite <- app_assoc; reflexivity.
Qed.

Lemma update_records s0 s url st report new :
  status_counts s = status_counts s0 ->
  grown_by new s0 s ->
  records st s0 (snd (update_crawl_stats url st report s)) /\
  grown_by new s0 (snd (update_crawl_stats url st report s)).
Proof.
  intros Hst [Hdb Hlab].
  destruct (update_crawl_stats_run url st report s) as (_ & Hrec & Hd & Hl & _).
  split.
  - intros e. rewrite (Hrec e), Hst. reflexivity.
  - split; [now rewrite Hd | intros E; rewrite Hl; now apply Hlab].
Qed.

End Recording.

(** ** Running with a postcondition *)

Section Post.

Lemma post_bind {A B} (c : M A) (f : A -> M B) s Q :
  post c s (fun o s1 => match o with
                        | Val a => post (f a) s1 Q
                        | Exc e => Q (Exc e) s1
                        end) ->
  post (bind c f) s Q.
Proof.
  unfold post, bind. destruct (c s) as [[a|e] s1]; simpl; auto.
Qed.

Lemma post_try {A} (c : M A) h s Q :
  post c s (fun o s1 => match o with
                        | Val a => Q (Val a) s1
                        | Exc e => match h e with
                                   | Some k => post k s1 Q
                                   | None => Q (Exc e) s1
                                   end
                        end) ->
  post (try_except c h) s Q.
Proof.
  unfold post, try_except. destruct (c s) as [[a|e] s1]; simpl; auto.
  destruct (h e); auto.
Qed.

Lemma post_keeps (R : Scraper -> Scraper -> Prop) {A} (c : M A) s
      (Q : outcome A -> Scraper -> Prop) :
  keeps R c -> (forall o s1, R s s1 -> Q o s1) -> post c s Q.
Proof. intros Hc HQ. unfold post. apply HQ, Hc. Qed.

Lemma post_ret {A} (a : A) s (Q : outcome A -> Scraper -> Prop) :
  Q (Val a) s -> post (ret a) s Q.
Proof. auto. Qed.

Lemma post_raise {A} e s (Q : outcome A -> Scraper -> Prop) :
  Q (Exc e) s -> post (raise e) s Q.
Proof. auto. Qed.

Lemma post_weaken {A} (c : M A) s (Q Q' : outcome A -> Scraper -> Prop) :
  post c s Q -> (forall o s1, Q o s1 -> Q' o s1) -> post c s Q'.
Proof. unfold post. auto. Qed.

Lemma post_eq {A} (c : M A) s o s1 (Q : outcome A -> Scraper -> Prop) :
  c s = (o, s1) -> Q o s1 -> post c s Q.
Proof. unfold post. now intros ->. Qed.

Lemma post_run {A} (c : M A) s (Q : outcome A -> Scraper -> Prop) :
  post c s Q -> forall o s1, c s = (o, s1) -> Q o s1.
Proof. unfold post. intros H o s1 E. now rewrite E in H. Qed.

(** A logging step in front of the rest. *)
Lemma post_log {B} lvl msg (f : unit -> M B) s Q :
  (forall s1, still s s1 -> post (f tt) s1 Q) -> post (bind (log lvl msg) f) s Q.
Proof.
  intros H. unfold post, bind. rewrite log_eq. cbn beta iota.
  apply H. apply (still_log lvl msg s).
Qed.

End Post.

(** ** What a step can return *)

Section Yields.

Lemma yields_ret {A} (a : A) (Q : A -> Prop) : Q a -> yields (ret a) Q.
Proof. intros H s a' s' E. injection E as <- _. exact H. Qed.

Lemma yields_raise {A} e (Q : A -> Prop) : yields (raise e) Q.
Proof. intros s a s' E. discriminate E. Qed.

Lemma yields_bind {A B} (c : M A) (f : A -> M B) (P : A -> Prop) (Q : B -> Prop) :
  yields c P -> (forall a, P a -> yields (f a) Q) -> yields (bind c f) Q.
Proof.
  intros Hc Hf s b s'. unfold bind.
  destruct (c s) as [[a|e] s1] eqn:E; [|discriminate].
  apply (Hf a (Hc s a s1 E)).
Qed.

Lemma yields_bind_any {A B} (c : M A) (f : A -> M B) (Q : B -> Prop) :
  (forall a, yields (f a) Q) -> yields (bind c f) Q.
Proof.
  intros Hf. apply yields_bind with (P := fun _ => True); [|auto].
  intros s a s' _. exact I.
Qed.

Lemma yields_try {A} (c : M A) h (Q : A -> Prop) :
  yields c Q -> handled_yields h Q -> yields (try_except c h) Q.
Proof.
  intros Hc Hh s a s'. unfold try_except.
  destruct (c s) as [[a'|e] s1] eqn:E.
  - intros [= <- <-]. apply (Hc s a' s1 E).
  - destruct (h e) as [k|] eqn:Ek; [|discriminate]. apply (Hh e k Ek).
Qed.

Lemma handled_yields_except {A} classes (k : exn -> M A) (Q : A -> Prop) :
  (forall ex, yields (k ex) Q) -> handled_yields (except_ classes k) Q.
Proof.
  intros Hk e k'. unfold except_.
  destruct (existsb (isinstance e) classes); [|discriminate].
  intros [= <-]. apply Hk.
Qed.

Lemma handled_yields_nil {A} (Q : A -> Prop) : handled_yields (@clauses A []) Q.
Proof. intros e k. discriminate. Qed.

Lemma handled_yields_cons {A} (h : exn -> option (M A)) hs (Q : A -> Prop) :
  handled_yields h Q -> handled_yields (clauses hs) Q ->
  handled_yields (clauses (h :: hs)) Q.
Proof.
  intros Hh Hhs e k. cbn [clauses].
  destruct (h e) as [k'|] eqn:E.
  - intros [= <-]. apply (Hh e k' E).
  - apply Hhs.
Qed.

Lemma yields_for_return {A B} (l : list A) (body : A -> M (option B)) (Q : B -> Prop) :
  (forall x, yields (body x) (fun r => forall v, r = Some v -> Q v)) ->
  yields (for_return l body) (fun r => forall v, r = Some v -> Q v).
Proof.
  intros Hb. induction l as [|x l IH]; cbn [for_return].
  - apply yields_ret. discriminate.
  - apply yields_bind with (P := fun r => forall v, r = Some v -> Q v); [apply Hb|].
    intros [v|] Hv; [|exact IH]. apply yields_ret. exact Hv.
Qed.

End Yields.

Ltac yields_step :=
  match goal with
  | |- yields (ret _) _ => apply yields_ret
  | |- yields (raise _) _ => apply yields_raise
  | |- yields (bind _ _) _ => apply yields_bind_any; intros
  | |- yields (try_except _ _) _ => apply yields_try
  | |- handled_yields (clauses []) _ => apply handled_yields_nil
  | |- handled_yields (clauses (_ :: _)) _ => apply handled_yields_cons
  | |- handled_yields (except_ _ _) _ => apply handled_yields_except; intros
  | |- yields (match ?x with _ => _ end) _ => destruct x
  end.

(** The outcome of a step is never [NO_COOKIES]. *)
Section NeverNoCookies.

Variable W : World.

Lemma static_get_request_not_NO_COOKIES url headers :
  yields (static_get_request W url headers)
         (fun r => snd (fst r) <> NO_COOKIES).
Proof.
  unfold static_get_request. repeat yields_step; simpl; discriminate.
Qed.

Lemma driver_get_not_NO_COOKIES url :
  yields (driver_get W url) (fun r => fst r <> NO_COOKIES).
Proof.
  unfold driver_get. repeat yields_step; simpl; discriminate.
Qed.

Lemma variantB_check_element_not_NO_COOKIES e :
  yields (OneTrust.variantB_check_element e)
         (fun r => forall v, r = Some v -> snd (fst v) <> NO_COOKIES).
Proof.
  unfold OneTrust.variantB_check_element.
  repeat yields_step; intros v [= <-] || discriminate; simpl; discriminate.
Qed.

Lemma variantB_retrieve_script_path_not_NO_COOKIES url :
  yields (OneTrust.variantB_retrieve_script_path W url)
         (fun r => snd (fst r) <> NO_COOKIES).
Proof.
  unfold OneTrust.variantB_retrieve_script_path.
  apply yields_bind with (P := fun r => fst r <> NO_COOKIES);
    [apply driver_get_not_NO_COOKIES|].
  intros [state report] Hst. simpl in Hst.
  destruct (negb (CrawlState_eqb state SUCCESS)).
  - apply yields_ret. exact Hst.
  - apply yields_try.
    + apply yields_bind_any; intros _. apply yields_bind_any; intros elems.
      apply yields_bind
        with (P := fun r => forall v, r = Some v -> snd (fst v) <> NO_COOKIES).
      * apply yields_for_return. intros e.
        apply variantB_check_element_not_NO_COOKIES.
      * intros [v|] Hv; apply yields_ret; [now apply Hv | simpl; discriminate].
    + repeat yields_step. simpl. discriminate.
Qed.

Lemma variantB_parse_script_for_object_not_NO_COOKIES script_url :
  yields (OneTrust.variantB_parse_script_for_object W script_url)
         (fun r => snd (fst r) <> NO_COOKIES).
Proof.
  unfold OneTrust.variantB_parse_script_for_object.
  repeat yields_step; simpl; discriminate.
Qed.

Lemma variantB_extract_not_NO_COOKIES website_url consent_data :
  yields (OneTrust.variantB_extract_cookies_from_dict website_url consent_data)
         (fun r => snd (fst r) <> NO_COOKIES).
Proof.
  unfold OneTrust.variantB_extract_cookies_from_dict.
  apply yields_bind_any; intros _.
  apply yields_bind with (P := fun r => forall v, r = Some v -> snd (fst v) <> NO_COOKIES).
  - repeat yields_step; intros v [= <-] || discriminate; simpl; discriminate.
  - intros [v|] Hv; [apply yields_ret; now apply Hv|].
    repeat yields_step; simpl; discriminate.
Qed.

End NeverNoCookies.

(** ** The extraction steps, case by case *)

Section ExtractionCases.

Lemma tracks_count a b :
  tracks a b ->
  cookie_count b = cookie_count a + new_records a b /\
  (new_records a b = 0 -> same_data a b).
Proof.
  intros [_ _ _ _ _ _ _ (new & [Hdb Hlab] & Hc)]. unfold new_records, same_data.
  rewrite Hdb, length_app.
  replace (length (database_cookie_data a) + length new - length (database_cookie_data a))
    with (length new) by lia.
  split; [exact Hc|]. intros Hz. apply length_zero_iff_nil in Hz. subst new.
  split; [now rewrite app_nil_r | now apply Hlab].
Qed.

Lemma gathers_new_records a b c :
  gathers a b -> gathers b c -> new_records a c = new_records a b + new_records b c.
Proof.
  intros [_ _ _ _ _ _ _ (n1 & [H1 _])] [_ _ _ _ _ _ _ (n2 & [H2 _])].
  unfold new_records. rewrite H2, H1, !length_app. lia.
Qed.

Lemma same_data_refl s : same_data s s.
Proof. now split. Qed.

Lemma same_data_trans a b c : same_data a b -> same_data b c -> same_data a c.
Proof. intros [] []. split; congruence. Qed.

Lemma still_same_data a b : still a b -> same_data a b.
Proof. intros []. now split. Qed.

Lemma same_data_new_records a b : same_data a b -> new_records a b = 0.
Proof. intros [H _]. unfold new_records. rewrite H. lia. Qed.

Lemma same_data_new_records_l a b c :
  same_data a b -> new_records a c = new_records b c.
Proof. intros [H _]. unfold new_records. now rewrite H. Qed.

Lemma same_data_new_records_r a b c :
  same_data b c -> new_records a c = new_records a b.
Proof. intros [H _]. unfold new_records. now rewrite H. Qed.

Lemma set_count_run n s : set_count n s = (Val tt, set_cookie_count n s).
Proof. reflexivity. Qed.

Lemma still_but_count n s :
  gathers s (set_cookie_count n s) /\ same_data s (set_cookie_count n s).
Proof.
  split; [apply (gathers_set_count n s) | now split].
Qed.

(** [variantB_extract_cookies_from_dict]: [SUCCESS] when the walk over the
    groups completes with rows, [MALFORM_RESP] when it completes without,
    [PARSE_ERROR] when it is cut short by a key or attribute error. *)
Lemma variantB_extract_cases website_url consent_data s :
  let walk := OneTrust.variantB_walk_groups website_url consent_data in
  let s0 := set_cookie_count 0 s in
  post (OneTrust.variantB_extract_cookies_from_dict website_url consent_data) s
    (fun o s' =>
       gathers s s' /\
       match o with
       | Val (n, st, _) =>
           (st = SUCCESS /\ completes walk s0 /\ 0 < new_records s s'
            /\ n = new_records s s')
           \/ (st = MALFORM_RESP /\ completes walk s0 /\ same_data s s')
           \/ (st = PARSE_ERROR /\ ~ completes walk s0)
       | Exc _ => ~ completes walk s0
       end).
Proof.
  intros walk s0. unfold OneTrust.variantB_extract_cookies_from_dict.
  destruct (still_but_count 0 s) as [Hg0 Hd0]. fold s0 in Hg0, Hd0.
  apply post_bind. apply post_eq with (o := Val tt) (s1 := s0); [reflexivity|].
  apply post_bind. apply post_try. apply post_bind. fold walk.
  pose proof (tracks_variantB_walk_groups website_url consent_data s0) as Ht.
  fold walk in Ht. unfold post.
  destruct (walk s0) as [[[]|e] s1] eqn:E; cbn [fst snd] in *.
  - (* the walk completed *)
    destruct (tracks_count Ht) as [Hc Hz]. cbn in Hc.
    assert (Hcomp : completes walk s0) by (now exists s1).
    assert (Hg : gathers s s1)
      by (eapply gathers_trans; [exact Hg0 | now apply tracks_gathers]).
    cbv beta iota delta [ret bind get_count fst snd].
    destruct (Nat.eqb (cookie_count s1) 0) eqn:Ez.
    + apply Nat.eqb_eq in Ez. split; [exact Hg|]. right; left.
      split; [reflexivity | split; [exact Hcomp|]].
      eapply same_data_trans; [exact Hd0 | apply Hz; lia].
    + apply Nat.eqb_neq in Ez. split; [exact Hg|]. left.
      rewrite (same_data_new_records_l s1 Hd0).
      split; [reflexivity | split; [exact Hcomp | split; lia]].
  - (* the walk raised *)
    assert (Hcomp : ~ completes walk s0).
    { intros (s2 & E2). rewrite E in E2. discriminate. }
    assert (Hg : gathers s s1)
      by (eapply gathers_trans; [exact Hg0 | now apply tracks_gathers]).
    cbn [clauses]. unfold except_ at 1.
    destruct (existsb (isinstance e) [AttributeError; KeyError]).
    2:{ cbv beta iota delta [fst snd]. now split. }
    unfold bind at 1. rewrite log_eq.
    cbv beta iota delta [ret bind get_count fst snd].
    + split; [|right; right; now split].
      eapply gathers_trans; [exact Hg|]. apply still_gathers.
      apply (still_log ERROR "Could not retrieve an expected attribute from consent data dict." s1).
Qed.

End ExtractionCases.

Section ExtractionCasesMore.

Variable W : World.

(** [variantA_get_and_parse_json]: [SUCCESS] exactly when rows were
    collected, [PARSE_ERROR] when none was. *)
Lemma variantA_get_and_parse_json_cases website_url domain_url dd_id ruleset_ids s :
  post (OneTrust.variantA_get_and_parse_json W website_url domain_url dd_id ruleset_ids) s
    (fun o s' =>
       gathers s s' /\
       match o with
       | Val (n, st, _) =>
           (st = SUCCESS /\ 0 < new_records s s' /\ n = new_records s s')
           \/ (st = PARSE_ERROR /\ same_data s s')
       | Exc _ => True
       end).
Proof.
  unfold OneTrust.variantA_get_and_parse_json.
  destruct (still_but_count 0 s) as [Hg0 Hd0].
  set (s0 := set_cookie_count 0 s) in *.
  apply post_bind. apply post_eq with (o := Val tt) (s1 := s0); [reflexivity|].
  apply post_bind.
  assert (Hloop : keeps tracks
            (for_each ruleset_ids
               (OneTrust.variantA_fetch_ruleset W website_url domain_url dd_id)))
    by tracks_frame.
  specialize (Hloop s0). unfold post.
  destruct (for_each ruleset_ids
              (OneTrust.variantA_fetch_ruleset W website_url domain_url dd_id) s0)
    as [[[]|e] s1] eqn:E; cbn [fst snd] in *.
  2:{ split; [|exact I]. eapply gathers_trans; [exact Hg0 | now apply tracks_gathers]. }
  destruct (tracks_count Hloop) as [Hc Hz]. cbn in Hc.
  assert (Hg : gathers s s1)
    by (eapply gathers_trans; [exact Hg0 | now apply tracks_gathers]).
  cbv beta iota delta [ret bind get_count fst snd].
  destruct (Nat.eqb (cookie_count s1) 0) eqn:Ez.
  - apply Nat.eqb_eq in Ez. rewrite log_eq. cbv beta iota.
    split.
    + eapply gathers_trans; [exact Hg|]. apply still_gathers.
      apply (still_log ERROR
               ("Could not extract any cookies for ddid: " ++ dd_id ++ " and rulesets "
                ++ py_str (PList ruleset_ids)) s1).
    + right. split; [reflexivity|].
      eapply same_data_trans; [exact Hd0|].
      eapply same_data_trans; [apply Hz; lia | now split].
  - apply Nat.eqb_neq in Ez. split; [exact Hg|]. left.
    rewrite (same_data_new_records_l s1 Hd0). split; [reflexivity | split; lia].
Qed.

Lemma still_dump_debug_js cbid js_contents : keeps still (Cookiebot.dump_debug_js cbid js_contents).
Proof. unfold Cookiebot.dump_debug_js. still_frame. Qed.

Lemma gathers_debug_dump_dict outname cookies_dict :
  keeps gathers (Termly.debug_dump_dict outname cookies_dict).
Proof.
  unfold Termly.debug_dump_dict.
  apply (@keeps_bind _ gathers_trans); [gathers_frame|]. intros s0.
  apply (@keeps_when _ gathers_refl).
  apply (@keeps_bind _ gathers_trans); [|intros; gathers_frame].
  intros s. simpl. constructor; try reflexivity; [now apply log_extends_same|].
  exists []. split; [simpl; now rewrite app_nil_r | reflexivity].
Qed.

Lemma same_data_debug_dump_dict outname cookies_dict s :
  same_data s (snd (Termly.debug_dump_dict outname cookies_dict s)).
Proof.
  unfold Termly.debug_dump_dict, bind, get, when.
  destruct (debug_mode s); cbn; now split.
Qed.

End ExtractionCasesMore.

Section ParseCases.

Variable W : World.

Lemma isinstance_Exception e : isinstance e Exception_ = true.
Proof. destruct e as [c msg|st msg]; [destruct c|]; reflexivity. Qed.

Lemma except_Exception {A} (k : exn -> M A) e :
  clauses [except_ [Exception_] k] e = Some (k e).
Proof. cbn [clauses]. unfold except_. cbn [existsb]. now rewrite isinstance_Exception. Qed.

(** Recording after a collecting stretch. *)
Lemma update_after s0 s url st report :
  gathers s0 s ->
  let s' := snd (update_crawl_stats url st report s) in
  records st s0 s'
  /\ new_records s0 s' = new_records s0 s
  /\ (same_data s0 s -> same_data s0 s').
Proof.
  intros Hg s'.
  destruct (update_crawl_stats_run url st report s) as (_ & Hrec & Hd & Hl & _).
  fold s' in Hrec, Hd, Hl. split; [|split].
  - intros e. rewrite (Hrec e), (gathers_status Hg). reflexivity.
  - unfold new_records. now rewrite Hd.
  - intros [H1 H2]. split; congruence.
Qed.

Lemma update_val url st report s :
  update_crawl_stats url st report s = (Val tt, snd (update_crawl_stats url st report s)).
Proof.
  destruct (update_crawl_stats_run url st report s) as (H & _).
  destruct (update_crawl_stats url st report s) as [o s']. simpl in *. now subst o.
Qed.

(** [parse_cc_js]: one outcome is recorded; it is [SUCCESS] when the walk
    over the tables completes with rows, [NO_COOKIES] when it completes
    without, [MALFORM_RESP] when it is cut short by an exception. *)
Lemma parse_cc_js_cases url cbid cc_url js_contents s :
  let walk := Cookiebot.walk_tables W url js_contents in
  let s0 := set_cookie_count 0 s in
  post (Cookiebot.parse_cc_js W url cbid cc_url js_contents) s
    (fun o s' =>
       exists st,
         o = Val (CrawlState_eqb st SUCCESS) /\ records st s s' /\
         ((st = SUCCESS /\ completes walk s0 /\ 0 < new_records s s')
          \/ (st = NO_COOKIES /\ completes walk s0 /\ same_data s s')
          \/ (st = MALFORM_RESP /\ ~ completes walk s0))).
Proof.
  intros walk s0. unfold Cookiebot.parse_cc_js.
  destruct (still_but_count 0 s) as [Hg0 Hd0]. fold s0 in Hg0, Hd0.
  apply post_bind. apply post_eq with (o := Val tt) (s1 := s0); [reflexivity|].
  apply post_bind. apply post_try. apply post_bind. fold walk.
  pose proof (satd_walk_tables W url js_contents s0) as Ht. fold walk in Ht.
  unfold post.
  destruct (walk s0) as [[[]|e] s1] eqn:E; cbn [fst snd] in *.
  - apply owes_tracks in Ht. destruct (tracks_count Ht) as [Hc Hz]. cbn in Hc.
    assert (Hcomp : completes walk s0) by (now exists s1).
    assert (Hg : gathers s s1)
      by (eapply gathers_trans; [exact Hg0 | now apply tracks_gathers]).
    cbv beta iota delta [ret bind get_count fst snd].
    destruct (Nat.eqb (cookie_count s1) 0) eqn:Ez.
    + apply Nat.eqb_eq in Ez.
      pose proof (still_dump_debug_js cbid js_contents s1) as Hdump.
      destruct (Cookiebot.dump_debug_js cbid js_contents s1) as [[[]|e] s2] eqn:Ed;
        cbn [snd] in Hdump.
      2:{ exfalso. unfold Cookiebot.dump_debug_js, bind, get, when, write_file in Ed.
          destruct (debug_mode s1); discriminate. }
      rewrite update_val.
      assert (Hg2 : gathers s s2)
        by (eapply gathers_trans; [exact Hg | now apply still_gathers]).
      destruct (update_after url NO_COOKIES
                  (Some ("No cookies found in " ++ cc_url ++ " ")) Hg2)
        as (Hrec & Hn & Hsd).
      exists NO_COOKIES. split; [reflexivity|]. split; [exact Hrec|].
      right; left. split; [reflexivity | split; [exact Hcomp|]].
      apply Hsd. eapply same_data_trans; [exact Hd0|].
      eapply same_data_trans; [apply Hz; lia | now apply still_same_data].
    + apply Nat.eqb_neq in Ez. rewrite log_eq. cbv beta iota.
      set (s2 := set_logged _ s1).
      assert (Hs2 : still s1 s2)
        by (apply (still_log INFO
                     ("Extracted " ++ str_of_nat (cookie_count s1) ++ " cookie entries.") s1)).
      rewrite update_val.
      assert (Hg2 : gathers s s2)
        by (eapply gathers_trans; [exact Hg | now apply still_gathers]).
      destruct (update_after url SUCCESS (Some "OK") Hg2) as (Hrec & Hn & Hsd).
      exists SUCCESS. split; [reflexivity|]. split; [exact Hrec|].
      left. split; [reflexivity | split; [exact Hcomp|]].
      rewrite Hn, (same_data_new_records_r s (still_same_data Hs2)),
        (same_data_new_records_l s1 Hd0). lia.
  - assert (Hcomp : ~ completes walk s0).
    { intros (s2 & E2). rewrite E in E2. discriminate. }
    assert (Hg : gathers s s1) by (eapply gathers_trans; eassumption).
    rewrite except_Exception.
    cbv beta iota delta [bind fst snd].
    pose proof (still_dump_debug_js cbid js_contents s1) as Hdump.
    destruct (Cookiebot.dump_debug_js cbid js_contents s1) as [[[]|e'] s2] eqn:Ed;
      cbn [snd] in Hdump.
    2:{ exfalso. unfold Cookiebot.dump_debug_js, bind, get, when, write_file in Ed.
        destruct (debug_mode s1); discriminate. }
    rewrite update_val. cbv beta iota delta [ret fst snd].
    assert (Hg2 : gathers s s2)
      by (eapply gathers_trans; [exact Hg | now apply still_gathers]).
    destruct (update_after url MALFORM_RESP
                (Some ("Failed to extract cookie data from " ++ cc_url ++ ": "
                       ++ type_ex e ++ " " ++ str_ex e)) Hg2) as (Hrec & _ & _).
    exists MALFORM_RESP. split; [reflexivity|]. split; [exact Hrec|].
    right; right. now split.
Qed.

End ParseCases.

Section TermlyParseCases.

Lemma debug_dump_dict_val outname cookies_dict s :
  Termly.debug_dump_dict outname cookies_dict s
  = (Val tt, snd (Termly.debug_dump_dict outname cookies_dict s)).
Proof.
  unfold Termly.debug_dump_dict, bind, get, when. destruct (debug_mode s); reflexivity.
Qed.

Lemma debug_dump_dict_count outname cookies_dict s :
  cookie_count (snd (Termly.debug_dump_dict outname cookies_dict s)) = cookie_count s.
Proof.
  unfold Termly.debug_dump_dict, bind, get, when. destruct (debug_mode s); reflexivity.
Qed.

(** [parse_termly_cookie_json]: without a ["cookies"] entry the result is
    [MALFORM_RESP]; with one it is [SUCCESS] when the walk over the buckets
    completes with rows, [NO_COOKIES] when it completes without, and
    [PARSE_ERROR] when it is cut short by an exception. *)
Lemma parse_termly_cookie_json_cases url cookie_dict s :
  let walk := Termly.walk_buckets url cookie_dict in
  let s0 := set_weird_stuff_occurred false (set_cookie_count 0 s) in
  post (Termly.parse_termly_cookie_json url cookie_dict) s
    (fun o s' =>
       gathers s s' /\
       match o with
       | Val (st, _) =>
           (contains_key "cookies" cookie_dict = Val true /\
            ((st = SUCCESS /\ completes walk s0 /\ 0 < new_records s s')
             \/ (st = NO_COOKIES /\ completes walk s0 /\ same_data s s')
             \/ (st = PARSE_ERROR /\ ~ completes walk s0)))
           \/ (contains_key "cookies" cookie_dict = Val false /\
               st = MALFORM_RESP /\ same_data s s')
       | Exc _ => same_data s s'
       end).
Proof.
  intros walk s0. unfold Termly.parse_termly_cookie_json. cbv zeta.
  assert (Hg0 : gathers s s0).
  { constructor; try reflexivity; [now apply log_extends_same|].
    exists []. split; [simpl; now rewrite app_nil_r | reflexivity]. }
  assert (Hd0 : same_data s s0) by (now split).
  apply post_bind. apply post_eq with (o := Val tt) (s1 := set_cookie_count 0 s);
    [reflexivity|].
  apply post_bind. apply post_eq with (o := Val tt) (s1 := s0); [reflexivity|].
  apply post_bind. unfold post at 1, lift. cbn [fst snd].
  destruct (contains_key "cookies" cookie_dict) as [[|]|e] eqn:Ehas.
  3:{ split; assumption. }
  2:{ apply post_bind. unfold post. rewrite debug_dump_dict_val. cbn [fst snd].
      cbv beta iota delta [ret fst snd].
      assert (Hg : gathers s (snd (Termly.debug_dump_dict "termly_malf_resp.pkl" cookie_dict s0)))
        by (eapply gathers_trans; [exact Hg0 | apply gathers_debug_dump_dict]).
      split; [exact Hg|]. right. split; [reflexivity | split; [reflexivity|]].
      eapply same_data_trans; [exact Hd0 | apply same_data_debug_dump_dict]. }
  apply post_bind. apply post_try. apply post_bind. fold walk.
  pose proof (satd_walk_buckets url cookie_dict s0) as Ht. fold walk in Ht.
  unfold post.
  destruct (walk s0) as [[[]|e] s1] eqn:E; cbn [fst snd] in *.
  - apply owes_tracks in Ht. destruct (tracks_count Ht) as [Hc Hz]. cbn in Hc.
    assert (Hcomp : completes walk s0) by (now exists s1).
    assert (Hg : gathers s s1)
      by (eapply gathers_trans; [exact Hg0 | now apply tracks_gathers]).
    cbv beta iota delta [ret bind get fst snd].
    set (dump := when (weird_stuff_occurred s1)
                      (Termly.debug_dump_dict "termly_malf_resp.pkl" cookie_dict)).
    assert (Hdv : dump s1 = (Val tt, snd (dump s1))).
    { unfold dump, when. destruct (weird_stuff_occurred s1); [|reflexivity].
      apply debug_dump_dict_val. }
    assert (Hdg : gathers s1 (snd (dump s1))).
    { unfold dump, when. destruct (weird_stuff_occurred s1); [|apply gathers_refl].
      apply gathers_debug_dump_dict. }
    assert (Hdd : same_data s1 (snd (dump s1))).
    { unfold dump, when. destruct (weird_stuff_occurred s1); [|apply same_data_refl].
      apply same_data_debug_dump_dict. }
    assert (Hdc : cookie_count (snd (dump s1)) = cookie_count s1).
    { unfold dump, when. destruct (weird_stuff_occurred s1); [|reflexivity].
      apply debug_dump_dict_count. }
    set (s2 := snd (dump s1)) in *. rewrite Hdv.
    cbv beta iota delta [get_count ret]. cbn [fst snd]. rewrite Hdc.
    assert (Hg2 : gathers s s2) by (eapply gathers_trans; eassumption).
    destruct (Nat.eqb (cookie_count s1) 0) eqn:Ez; cbn [fst snd].
    + apply Nat.eqb_eq in Ez. split; [exact Hg2|]. left. split; [reflexivity|].
      right; left. split; [reflexivity | split; [exact Hcomp|]].
      eapply same_data_trans; [exact Hd0|].
      eapply same_data_trans; [apply Hz; lia | exact Hdd].
    + apply Nat.eqb_neq in Ez. split; [exact Hg2|]. left. split; [reflexivity|].
      left. split; [reflexivity | split; [exact Hcomp|]].
      rewrite (same_data_new_records_r s Hdd), (same_data_new_records_l s1 Hd0). lia.
  - assert (Hcomp : ~ completes walk s0).
    { intros (s2 & E2). rewrite E in E2. discriminate. }
    rewrite except_Exception.
    cbv beta iota delta [bind fst snd]. rewrite debug_dump_dict_val.
    cbv beta iota delta [ret fst snd].
    split.
    + eapply gathers_trans; [exact Hg0|]. eapply gathers_trans; [exact Ht|].
      apply gathers_debug_dump_dict.
    + left. split; [reflexivity|]. right; right. now split.
Qed.

End TermlyParseCases.

(** ** Whole crawls, case by case *)

(** Run a step that is [still], name its result and the state it leaves,
    and extend the chain [still s0 _] that the context holds. *)
Ltac still_step lem :=
  apply post_bind; eapply post_keeps; [exact lem|];
  let o := fresh "o" in
  let s1 := fresh "s" in
  let H := fresh "Hstep" in
  intros o s1 H;
  match goal with
  | Hc : still ?s0 ?s |- _ =>
      match type of H with
      | still s s1 => apply (still_trans Hc) in H; clear Hc; rename H into Hchain
      end
  end.

Ltac log_step :=
  apply post_log;
  let s1 := fresh "s" in
  let H := fresh "Hstep" in
  intros s1 H;
  match goal with
  | Hc : still ?s0 ?s |- _ =>
      match type of H with
      | still s s1 => apply (still_trans Hc) in H; clear Hc; rename H into Hchain
      end
  end.

Section CrawlCases.

Variable W : World.

Lemma records_still st s0 s s' : still s0 s -> records st s s' -> records st s0 s'.
Proof. intros Hs Hr e. rewrite (Hr e), (still_status Hs). reflexivity. Qed.

(** A crawl that ends by recording a failure found before any parsing. *)
Lemma post_early_failure url st report s0 s (Q : outcome bool -> Scraper -> Prop) :
  still s0 s ->
  (forall s', records st s0 s' -> same_data s0 s' -> Q (Val false) s') ->
  post (update_crawl_stats url st report ;; ret false) s Q.
Proof.
  intros Hs HQ. unfold post, bind. rewrite update_val. cbn [ret fst snd].
  destruct (update_after url st report (still_gathers Hs)) as (Hrec & _ & Hsd).
  apply HQ; [exact Hrec | apply Hsd, still_same_data, Hs].
Qed.

Lemma negb_eqb_SUCCESS st :
  negb (CrawlState_eqb st SUCCESS) = true -> st <> SUCCESS /\ CrawlState_eqb st SUCCESS = false.
Proof.
  intros H. apply negb_true_iff in H. split; [now apply CrawlState_eqb_neq | exact H].
Qed.

Lemma negb_eqb_SUCCESS_false st :
  negb (CrawlState_eqb st SUCCESS) = false -> st = SUCCESS.
Proof. intros H. apply negb_false_iff in H. now apply CrawlState_eqb_eq. Qed.

(** What a Cookiebot crawl leaves behind. *)
Lemma cookiebot_crawl_cases url s :
  post (Cookiebot.scrape_website W url) s
    (fun o s' =>
       match o with
       | Exc _ => records_nothing s s' /\ same_data s s'
       | Val b =>
           exists st,
             b = CrawlState_eqb st SUCCESS /\ records st s s' /\
             ((st = SUCCESS /\ 0 < new_records s s')
              \/ st = MALFORM_RESP
              \/ (st <> SUCCESS /\ same_data s s'))
       end).
Proof.
  pose proof (still_refl s) as Hchain. unfold Cookiebot.scrape_website.
  assert (Hexc : forall s1, still s s1 -> records_nothing s s1 /\ same_data s s1).
  { intros s1 H. split; [apply records_nothing_of_status, (still_status H)
                        | now apply still_same_data]. }
  assert (Hfail : forall st report s1,
             still s s1 -> negb (CrawlState_eqb st SUCCESS) = true ->
             post (update_crawl_stats url st report ;; ret false) s1
               (fun o s' =>
                  match o with
                  | Exc _ => records_nothing s s' /\ same_data s s'
                  | Val b =>
                      exists st0,
                        b = CrawlState_eqb st0 SUCCESS /\ records st0 s s' /\
                        ((st0 = SUCCESS /\ 0 < new_records s s')
                         \/ st0 = MALFORM_RESP
                         \/ (st0 <> SUCCESS /\ same_data s s'))
                  end)).
  { intros st report s1 Hs Hneg. apply negb_eqb_SUCCESS in Hneg. destruct Hneg as [Hne Heq].
    apply (post_early_failure _ _ _ Hs). intros s' Hrec Hsd.
    exists st. split; [now rewrite Heq | split; [exact Hrec|]]. right; right. now split. }
  still_step (still_static_get_request W url []).
  destruct o as [[[r state] report]|e]; [|now apply Hexc].
  destruct (negb (CrawlState_eqb state SUCCESS)) eqn:E1; [now apply Hfail|].
  log_step.
  still_step (still_try_retrieve_cbid W r url).
  destruct o as [[[cbid state2] report2]|e]; [|now apply Hexc].
  destruct (negb (CrawlState_eqb state2 SUCCESS)) eqn:E2; [now apply Hfail|].
  log_step.
  still_step (still_try_find_correct_referrer W cbid url).
  destruct o as [referer|e]; [|now apply Hexc].
  cbv zeta.
  still_step (still_static_get_request W
                ("https://consent.cookiebot.com/" ++ cbid ++ "/cc.js?referer=" ++ referer)
                [("Referer", url)]).
  destruct o as [[[cc_resp state3] report3]|e]; [|now apply Hexc].
  destruct (negb (CrawlState_eqb state3 SUCCESS)) eqn:E3.
  { apply (post_early_failure _ _ _ Hchain). intros s' Hrec Hsd.
    exists LIBRARY_ERROR. split; [reflexivity | split; [exact Hrec|]].
    right; right. split; [discriminate | exact Hsd]. }
  destruct (str_contains "CookieConsent.setOutOfRegion" _).
  { apply (post_early_failure _ _ _ Hchain). intros s' Hrec Hsd.
    exists REGION_BLOCK. split; [reflexivity | split; [exact Hrec|]].
    right; right. split; [discriminate | exact Hsd]. }
  destruct (is_match (re_search Cookiebot.domain_warning_pattern _)).
  { apply (post_early_failure _ _ _ Hchain). intros s' Hrec Hsd.
    exists LIBRARY_ERROR. split; [reflexivity | split; [exact Hrec|]].
    right; right. split; [discriminate | exact Hsd]. }
  destruct (Nat.eqb _ 0).
  { apply (post_early_failure _ _ _ Hchain). intros s' Hrec Hsd.
    exists LIBRARY_ERROR. split; [reflexivity | split; [exact Hrec|]].
    right; right. split; [discriminate | exact Hsd]. }
  log_step.
  eapply post_weaken; [apply parse_cc_js_cases|].
  intros o s' (st & -> & Hrec & Hcases).
  exists st. split; [reflexivity | split; [now apply (records_still Hchain)|]].
  pose proof (still_same_data Hchain) as Hsd.
  destruct Hcases as [(-> & _ & Hnew)|[(-> & _ & Hsame)|(-> & _)]].
  - left. split; [reflexivity|]. now rewrite (same_data_new_records_l s' Hsd).
  - right; right. split; [discriminate|]. eapply same_data_trans; eassumption.
  - right; left. reflexivity.
Qed.

End CrawlCases.

(** ** C10: a failed fetch of cc.js *)

Section CookiebotFetchFailure.

Lemma assoc_dict_set {A} (k : string) (v : A) d : assoc_str k (dict_set k v d) = Some v.
Proof.
  induction d as [|[k' v'] d IH]; simpl.
  - now rewrite String.eqb_refl.
  - destruct (String.eqb k' k) eqn:E; simpl; rewrite E; [reflexivity | exact IH].
Qed.

Lemma log_val lvl msg s : log lvl msg s = (Val tt, snd (log lvl msg s)).
Proof. reflexivity. Qed.

(** C10.  In the Cookiebot extractor, when the site is reachable, the id
    and the referer are found, and the request for [cc.js] returns any state
    other than [SUCCESS], the crawl returns [False] and the one outcome
    recorded for the site is [LIBRARY_ERROR], with the report of the
    request; the state that the request returned is not recorded, and the
    collected data is untouched. *)
Theorem cookiebot_failed_fetch_is_LIBRARY_ERROR
    (W : World) (url : string) (s s1 s2 s3 s4 : Scraper)
    (r cc_resp : option Response) (rep1 : string) (cbid : string)
    (rep2 : option string) (referer : string) (state : CrawlState) (report : string)
    (Hsite : static_get_request W url [] s = (Val (r, SUCCESS, rep1), s1))
    (Hcbid : Cookiebot.try_retrieve_cbid W r url
               (snd (log DEBUG "Connection successful." s1))
             = (Val (cbid, SUCCESS, rep2), s2))
    (Href : Cookiebot.try_find_correct_referrer W cbid url
              (snd (log DEBUG ("Cookiebot UUID = " ++ cbid) s2))
            = (Val referer, s3))
    (Hcc : static_get_request W
             ("https://consent.cookiebot.com/" ++ cbid ++ "/cc.js?referer=" ++ referer)
             [("Referer", url)] s3
           = (Val (cc_resp, state, report), s4))
    (Hfailed : state <> SUCCESS) :
  let s' := snd (Cookiebot.scrape_website W url s) in
  fst (Cookiebot.scrape_website W url s) = Val false
  /\ records LIBRARY_ERROR s s'
  /\ assoc_str url (crawl_log s') = Some (LIBRARY_ERROR, report)
  /\ same_data s s'.
Proof.
  assert (Hrun : Cookiebot.scrape_website W url s
                 = (Val false, snd (update_crawl_stats url LIBRARY_ERROR (Some report) s4))).
  { unfold Cookiebot.scrape_website.
    erewrite bind_val by exact Hsite. cbn beta iota.
    change (negb (CrawlState_eqb SUCCESS SUCCESS)) with false. cbn iota.
    erewrite bind_val by apply log_val.
    erewrite bind_val by exact Hcbid. cbn beta iota.
    change (negb (CrawlState_eqb SUCCESS SUCCESS)) with false. cbn iota.
    erewrite bind_val by apply log_val.
    erewrite bind_val by exact Href. cbv zeta.
    erewrite bind_val by exact Hcc. cbn beta iota.
    apply CrawlState_eqb_neq in Hfailed. rewrite Hfailed. cbn [negb].
    erewrite bind_val by apply update_val. reflexivity. }
  cbv zeta. rewrite Hrun. cbn [fst snd].
  assert (Hstill : still s s4).
  { pose proof (still_static_get_request W url [] s) as H1. rewrite Hsite in H1.
    pose proof (still_log DEBUG "Connection successful." s1) as H2.
    pose proof (still_try_retrieve_cbid W r url
                  (snd (log DEBUG "Connection successful." s1))) as H3.
    rewrite Hcbid in H3.
    pose proof (still_log DEBUG ("Cookiebot UUID = " ++ cbid) s2) as H4.
    pose proof (still_try_find_correct_referrer W cbid url
                  (snd (log DEBUG ("Cookiebot UUID = " ++ cbid) s2))) as H5.
    rewrite Href in H5.
    pose proof (still_static_get_request W
                  ("https://consent.cookiebot.com/" ++ cbid ++ "/cc.js?referer=" ++ referer)
                  [("Referer", url)] s3) as H6.
    rewrite Hcc in H6. cbn [snd] in *.
    repeat (eapply still_trans; [eassumption|]). apply still_refl. }
  destruct (update_after url LIBRARY_ERROR (Some report) (still_gathers Hstill))
    as (Hrec & _ & Hsd).
  split; [reflexivity | split; [exact Hrec | split]].
  - destruct (update_crawl_stats_run url LIBRARY_ERROR (Some report) s4)
      as (_ & _ & _ & _ & _ & Hlog & _).
    rewrite Hlog. apply assoc_dict_set.
  - apply Hsd, still_same_data, Hstill.
Qed.

(** The theorem on a site whose [cc.js] request is answered with 404. *)
Lemma cookiebot_failed_fetch_is_LIBRARY_ERROR_witness :
  let W := cookiebot_world (Val (MkResponse 404 "Not Found")) in
  let s' := snd (Cookiebot.scrape_website W cookiebot_site started_scraper) in
  fst (Cookiebot.scrape_website W cookiebot_site started_scraper) = Val false
  /\ records LIBRARY_ERROR started_scraper s'
  /\ assoc_str cookiebot_site (crawl_log s') = Some (LIBRARY_ERROR, "Error Status Code: 404")
  /\ same_data started_scraper s'.
Proof.
  intros W.
  set (s1 := snd (static_get_request W cookiebot_site [] started_scraper)).
  set (s2 := snd (Cookiebot.try_retrieve_cbid W (Some (MkResponse 200 "<html></html>"))
                    cookiebot_site (snd (log DEBUG "Connection successful." s1)))).
  set (s3 := snd (Cookiebot.try_find_correct_referrer W cookiebot_cbid cookiebot_site
                    (snd (log DEBUG ("Cookiebot UUID = " ++ cookiebot_cbid) s2)))).
  set (s4 := snd (static_get_request W
                    ("https://consent.cookiebot.com/" ++ cookiebot_cbid
                     ++ "/cc.js?referer=" ++ cookiebot_site)
                    [("Referer", cookiebot_site)] s3)).
  apply (@cookiebot_failed_fetch_is_LIBRARY_ERROR W cookiebot_site started_scraper
           s1 s2 s3 s4 (Some (MkResponse 200 "<html></html>"))
           (Some (MkResponse 404 "Not Found")) "200" cookiebot_cbid (Some "OK")
           cookiebot_site HTTP_ERROR "Error Status Code: 404").
  - vm_compute. reflexivity.
  - vm_compute. reflexivity.
  - vm_compute. reflexivity.
  - vm_compute. reflexivity.
  - discriminate.
Defined.

End CookiebotFetchFailure.

(** ** C8: the Cookiebot scenario *)

Section CookiebotScenario.

Lemma necessary_only_body_checks :
  str_contains "CookieConsent.setOutOfRegion" necessary_only_body = false
  /\ is_match (re_search Cookiebot.domain_warning_pattern necessary_only_body) = false
  /\ Nat.eqb (length (chars (strip necessary_only_body))) 0 = false.
Proof. vm_compute. repeat split. Qed.

Lemma necessary_only_body_tables :
  option_map (fun m => group m 1)
    (re_search (Cookiebot.table_pattern "Necessary") necessary_only_body)
  = Some (Some necessary_table_text)
  /\ re_search (Cookiebot.table_pattern "Preference") necessary_only_body = None
  /\ re_search (Cookiebot.table_pattern "Statistics") necessary_only_body = None
  /\ re_search (Cookiebot.table_pattern "Advertising") necessary_only_body = None
  /\ re_search (Cookiebot.table_pattern "Unclassified") necessary_only_body = None.
Proof. vm_compute. repeat split. Qed.

Lemma literal_reader_on_table :
  Literal.literal_eval necessary_table_text = Val necessary_table_value.
Proof. vm_compute. reflexivity. Qed.

End CookiebotScenario.

Section CookiebotScenarioParse.

(** The parse step on the body of the scenario, from any state. *)
Lemma parse_necessary_only (W : World) (url cbid cc_url : string) (s : Scraper) :
  literal_eval W necessary_table_text = Val necessary_table_value ->
  post (Cookiebot.parse_cc_js W url cbid cc_url necessary_only_body) s
    (fun o s' =>
       o = Val true
       /\ database_cookie_data s' = (database_cookie_data s ++ [cookieA_row url])%list
       /\ records SUCCESS s s'
       /\ assoc_str url (crawl_log s') = Some (SUCCESS, "OK")).
Proof.
  intros Hle. unfold post.
  assert (Hwalk : Cookiebot.walk_tables W url necessary_only_body (set_cookie_count 0 s)
                  = (Val tt,
                     snd (Cookiebot.walk_tables W url necessary_only_body
                            (set_cookie_count 0 s)))
                  /\ database_cookie_data
                       (snd (Cookiebot.walk_tables W url necessary_only_body
                               (set_cookie_count 0 s)))
                     = (database_cookie_data s ++ [cookieA_row url])%list
                  /\ cookie_count
                       (snd (Cookiebot.walk_tables W url necessary_only_body
                               (set_cookie_count 0 s))) = 1).
  { vm_compute in Hle. vm_compute. rewrite Hle. vm_compute. repeat split. }
  destruct Hwalk as (Hval & Hdb & Hcount).
  set (s1 := snd (Cookiebot.walk_tables W url necessary_only_body (set_cookie_count 0 s)))
    in *.
  pose proof (satd_walk_tables W url necessary_only_body (set_cookie_count 0 s)) as Ht.
  rewrite Hval in Ht. apply owes_gathers in Ht.
  assert (Hrun : Cookiebot.parse_cc_js W url cbid cc_url necessary_only_body s
                 = (Val true,
                    snd (update_crawl_stats url SUCCESS (Some "OK")
                           (snd (log INFO "Extracted 1 cookie entries." s1))))).
  { unfold Cookiebot.parse_cc_js.
    erewrite bind_val by apply set_count_run.
    erewrite bind_val.
    2:{ eapply try_val. erewrite bind_val by exact Hval. reflexivity. }
    cbn iota.
    erewrite bind_val by reflexivity.
    rewrite Hcount. cbn [Nat.eqb].
    change (str_of_nat 1) with "1".
    erewrite bind_val by apply log_val.
    erewrite bind_val by apply update_val. reflexivity. }
  rewrite Hrun. cbn [fst snd].
  destruct (update_crawl_stats_run url SUCCESS (Some "OK")
              (snd (log INFO "Extracted 1 cookie entries." s1)))
    as (_ & Hrec & Hd & _ & _ & Hlog & _).
  split; [reflexivity | split; [|split]].
  - rewrite Hd. exact Hdb.
  - intros e. rewrite (Hrec e). cbn [log snd set_logged status_counts].
    now rewrite (gathers_status Ht).
  - rewrite Hlog. apply assoc_dict_set.
Qed.

End CookiebotScenarioParse.

Section CookiebotScenarioCrawl.

(** C8.  When the consent server answers the request for [cc.js] with the
    body [CookieConsentDialog.cookieTableNecessary = [[...cookieA...]];],
    in which the patterns of the other four buckets find nothing, the crawl
    appends exactly one row to the collected data, with category
    [ESSENTIAL], name "cookieA" and domain "example.com", returns [True] and
    records [SUCCESS]. *)
Theorem cookiebot_necessary_scenario
    (W : World) (url : string) (s s1 s2 s3 s4 : Scraper)
    (r : option Response) (rep1 : string) (cbid : string)
    (rep2 : option string) (referer : string) (status : Z) (report : string)
    (Hsite : static_get_request W url [] s = (Val (r, SUCCESS, rep1), s1))
    (Hcbid : Cookiebot.try_retrieve_cbid W r url
               (snd (log DEBUG "Connection successful." s1))
             = (Val (cbid, SUCCESS, rep2), s2))
    (Href : Cookiebot.try_find_correct_referrer W cbid url
              (snd (log DEBUG ("Cookiebot UUID = " ++ cbid) s2))
            = (Val referer, s3))
    (Hcc : static_get_request W
             ("https://consent.cookiebot.com/" ++ cbid ++ "/cc.js?referer=" ++ referer)
             [("Referer", url)] s3
           = (Val (Some (MkResponse status necessary_only_body), SUCCESS, report), s4))
    (Hliteral : literal_eval W necessary_table_text = Val necessary_table_value) :
  let s' := snd (Cookiebot.scrape_website W url s) in
  Forall (fun bucket =>
            re_search (Cookiebot.table_pattern bucket) necessary_only_body = None)
         ["Preference"; "Statistics"; "Advertising"; "Unclassified"]
  /\ fst (Cookiebot.scrape_website W url s) = Val true
  /\ database_cookie_data s' = (database_cookie_data s ++ [cookieA_row url])%list
  /\ ct_cat_id (cookieA_row url) = ESSENTIAL
  /\ ct_name (cookieA_row url) = PStr "cookieA"
  /\ ct_domain (cookieA_row url) = PStr "example.com"
  /\ records SUCCESS s s'
  /\ assoc_str url (crawl_log s') = Some (SUCCESS, "OK").
Proof.
  cbv zeta.
  destruct necessary_only_body_tables as (_ & Hp & Hs & Ha & Hu).
  destruct necessary_only_body_checks as (Hc1 & Hc2 & Hc3).
  set (s5 := snd (log DEBUG
                    ("Successfully accessed " ++ dq ++ "https://consent.cookiebot.com/"
                     ++ cbid ++ "/cc.js" ++ dq) s4)).
  assert (Hrun : Cookiebot.scrape_website W url s
                 = Cookiebot.parse_cc_js W url cbid
                     ("https://consent.cookiebot.com/" ++ cbid ++ "/cc.js?referer=" ++ referer)
                     necessary_only_body s5).
  { unfold Cookiebot.scrape_website.
    erewrite bind_val by exact Hsite. cbn beta iota.
    change (negb (CrawlState_eqb SUCCESS SUCCESS)) with false. cbn iota.
    erewrite bind_val by apply log_val.
    erewrite bind_val by exact Hcbid. cbn beta iota.
    change (negb (CrawlState_eqb SUCCESS SUCCESS)) with false. cbn iota.
    erewrite bind_val by apply log_val.
    erewrite bind_val by exact Href. cbv zeta.
    erewrite bind_val by exact Hcc. cbn beta iota.
    change (negb (CrawlState_eqb SUCCESS SUCCESS)) with false. cbn iota.
    cbn [text]. rewrite Hc1, Hc2, Hc3.
    erewrite bind_val by apply log_val. reflexivity. }
  assert (Hstill : still s s5).
  { pose proof (still_static_get_request W url [] s) as H1. rewrite Hsite in H1.
    pose proof (still_log DEBUG "Connection successful." s1) as H2.
    pose proof (still_try_retrieve_cbid W r url
                  (snd (log DEBUG "Connection successful." s1))) as H3.
    rewrite Hcbid in H3.
    pose proof (still_log DEBUG ("Cookiebot UUID = " ++ cbid) s2) as H4.
    pose proof (still_try_find_correct_referrer W cbid url
                  (snd (log DEBUG ("Cookiebot UUID = " ++ cbid) s2))) as H5.
    rewrite Href in H5.
    pose proof (still_static_get_request W
                  ("https://consent.cookiebot.com/" ++ cbid ++ "/cc.js?referer=" ++ referer)
                  [("Referer", url)] s3) as H6.
    rewrite Hcc in H6.
    pose proof (still_log DEBUG
                  ("Successfully accessed " ++ dq ++ "https://consent.cookiebot.com/"
                   ++ cbid ++ "/cc.js" ++ dq) s4) as H7.
    fold s5 in H7. cbn [snd] in *.
    repeat (eapply still_trans; [eassumption|]). apply still_refl. }
  rewrite Hrun.
  pose proof (parse_necessary_only W url cbid
                ("https://consent.cookiebot.com/" ++ cbid ++ "/cc.js?referer=" ++ referer)
                s5 Hliteral) as Hparse.
  unfold post in Hparse. destruct Hparse as (Hres & Hdb & Hrec & Hlog).
  split; [repeat constructor; assumption|].
  split; [exact Hres|].
  split; [now rewrite Hdb, (still_data Hstill)|].
  split; [reflexivity | split; [reflexivity | split; [reflexivity|]]].
  split; [now apply (records_still Hstill) | exact Hlog].
Qed.

(** The theorem on a site whose consent server answers with that body. *)
Lemma cookiebot_necessary_scenario_witness :
  let W := cookiebot_world (Val (MkResponse 200 necessary_only_body)) in
  let s' := snd (Cookiebot.scrape_website W cookiebot_site started_scraper) in
  fst (Cookiebot.scrape_website W cookiebot_site started_scraper) = Val true
  /\ database_cookie_data s' = [cookieA_row cookiebot_site]
  /\ records SUCCESS started_scraper s'.
Proof.
  intros W.
  set (s1 := snd (static_get_request W cookiebot_site [] started_scraper)).
  set (s2 := snd (Cookiebot.try_retrieve_cbid W (Some (MkResponse 200 "<html></html>"))
                    cookiebot_site (snd (log DEBUG "Connection successful." s1)))).
  set (s3 := snd (Cookiebot.try_find_correct_referrer W cookiebot_cbid cookiebot_site
                    (snd (log DEBUG ("Cookiebot UUID = " ++ cookiebot_cbid) s2)))).
  set (s4 := snd (static_get_request W
                    ("https://consent.cookiebot.com/" ++ cookiebot_cbid
                     ++ "/cc.js?referer=" ++ cookiebot_site)
                    [("Referer", cookiebot_site)] s3)).
  destruct (@cookiebot_necessary_scenario W cookiebot_site started_scraper
              s1 s2 s3 s4 (Some (MkResponse 200 "<html></html>"))
              "200" cookiebot_cbid (Some "OK") cookiebot_site 200%Z "200")
    as (_ & Hres & Hdb & _ & _ & _ & Hrec & _).
  - vm_compute. reflexivity.
  - vm_compute. reflexivity.
  - vm_compute. reflexivity.
  - vm_compute. reflexivity.
  - vm_compute. reflexivity.
  - split; [exact Hres | split; [exact Hdb | exact Hrec]].
Defined.

End CookiebotScenarioCrawl.

(** ** C6: the outcome of a fetch *)

Section FetchOutcome.

(** The classification of C6 as stated fails on a fetch that ends in an
    exception of none of the named kinds: as stated the outcome would be
    [SUCCESS], the code returns [UNKNOWN] and no response. *)
Lemma broken_transfer_is_UNKNOWN :
  outcome_as_stated broken_transfer = SUCCESS
  /\ fst (static_get_request broken_transfer_world "https://shop.example" [] started_scraper)
     = Val (None, UNKNOWN,
            "Unknown Error: <class 'requests.exceptions.ChunkedEncodingError'> Connection broken: IncompleteRead(0 bytes read)")
  /\ UNKNOWN <> outcome_as_stated broken_transfer.
Proof. vm_compute. repeat split. discriminate. Qed.

(** C6, amended.  [static_get_request] never raises.  A response with
    status 525 yields [SSL_ERROR], with any other status of 400 or more
    [HTTP_ERROR], and otherwise [SUCCESS]; in all three cases the response
    is returned.  A failed attempt yields no response and: [SSL_ERROR] for
    an SSLError; [CONN_FAILED] for a ConnectionError, ProxyError, Timeout
    (connect or read) or TooManyRedirects; [MALFORMED_URL] for a
    MissingSchema or URLRequired; [HTTP_ERROR] for an HTTPError; and
    [UNKNOWN] for every other exception. *)
Theorem static_get_request_classifies
    (W : World) (url : string) (headers : list (string * string)) (s : Scraper) :
  exists report,
    fst (static_get_request W url headers s)
    = Val (fst (classified (requests_get W (clock s) url headers)),
           snd (classified (requests_get W (clock s) url headers)),
           report).
Proof.
  unfold static_get_request, try_except, bind. rewrite external_eq.
  destruct (requests_get W (clock s) url headers) as [r|e]; cbn [classified fst snd].
  - unfold state_of_status.
    destruct (status_code r =? 525)%Z; [eexists; reflexivity|].
    rewrite Z.geb_leb.
    destruct (400 <=? status_code r)%Z; eexists; reflexivity.
  - destruct e as [c msg|st msg]; [destruct c|]; eexists; reflexivity.
Qed.

End FetchOutcome.

(** ** C5: merging by identity *)

Section LabelDictionary.

Lemma key_eqb_refl : forall v, hashable v = true -> key_eqb v v = true.
Proof.
  fix IH 1. intros [| b | z | t | l | l | d]; simpl; intros H; try reflexivity;
    try discriminate.
  - apply Bool.eqb_reflx.
  - apply Z.eqb_refl.
  - apply String.eqb_refl.
  - induction l as [|x l IHl]; [reflexivity|].
    apply andb_true_iff in H. destruct H as [Hx Hl].
    rewrite (IH x Hx). simpl. exact (IHl Hl).
Qed.

Lemma ident_eqb_refl k : ident_hashable k = true -> ident_eqb k k = true.
Proof.
  destruct k as [[name domain] path]. unfold ident_hashable, ident_eqb.
  intros H. apply andb_true_iff in H. destruct H as [Hn Hd].
  now rewrite (key_eqb_refl _ Hn), (key_eqb_refl _ Hd), String.eqb_refl.
Qed.

Lemma labels_get_none k d :
  labels_get k d = None <-> Forall (fun k' => ident_eqb k' k = false) (map fst d).
Proof.
  induction d as [|[k' v] d IH]; simpl.
  - split; [constructor | reflexivity].
  - destruct (ident_eqb k' k) eqn:E.
    + split; [discriminate|]. intros H. inversion H; subst. congruence.
    + rewrite IH. split.
      * intros H. now constructor.
      * intros H. now inversion H.
Qed.

Lemma labels_get_app_new k d v :
  labels_get k d = None -> ident_hashable k = true ->
  labels_get k (d ++ [(k, v)]) = Some v.
Proof.
  intros Hn Hh. induction d as [|[k' v'] d IH]; simpl in *.
  - now rewrite (ident_eqb_refl _ Hh).
  - destruct (ident_eqb k' k); [discriminate | now apply IH].
Qed.

Lemma labels_get_append k c d old :
  labels_get k d = Some old -> labels_get k (labels_append k c d) = Some (old ++ [c])%list.
Proof.
  induction d as [|[k' v'] d IH]; simpl; [discriminate|].
  destruct (ident_eqb k' k) eqn:E; simpl; rewrite E.
  - now intros [= ->].
  - exact IH.
Qed.

Lemma keys_labels_append k c d : map fst (labels_append k c d) = map fst d.
Proof.
  induction d as [|[k' v'] d IH]; simpl; [reflexivity|].
  destruct (ident_eqb k' k); simpl; [reflexivity | now rewrite IH].
Qed.

Lemma distinct_app_new keys k :
  distinct keys -> Forall (fun k' => ident_eqb k' k = false) keys ->
  distinct (keys ++ [k]).
Proof.
  induction keys as [|k1 keys IH]; simpl.
  - intros _ _. split; [constructor | exact I].
  - intros [Hk1 Hd] Hall. inversion Hall; subst. split.
    + apply Forall_app. split; [exact Hk1 | now constructor].
    + now apply IH.
Qed.

(** [collect_cookie_dat] keeps the keys of the label dictionary unique. *)
Lemma collect_unique_keys site_url name domain path cat_name cat_id purpose type s :
  unique_keys (cookie_labels s) ->
  unique_keys (cookie_labels
                 (snd (collect_cookie_dat site_url name domain path cat_name cat_id
                                          purpose type s))).
Proof.
  intros Hu. rewrite collect_cookie_dat_run.
  destruct (negb (ident_hashable (name, domain, path))); [exact Hu|].
  cbn [snd set_database_cookie_data set_cookie_labels cookie_labels].
  destruct (labels_get (name, domain, path) (cookie_labels s)) as [old|] eqn:E.
  - destruct (negb (in_strings cat_name old)); [|exact Hu].
    unfold unique_keys. now rewrite keys_labels_append.
  - unfold unique_keys. rewrite map_app. apply distinct_app_new; [exact Hu|].
    now apply labels_get_none.
Qed.

Lemma in_strings_In x l : in_strings x l = true <-> In x l.
Proof.
  unfold in_strings. rewrite existsb_exists. split.
  - intros (y & Hy & E). apply String.eqb_eq in E. now subst.
  - intros H. exists x. split; [exact H | apply String.eqb_refl].
Qed.

(** After collecting a row with a hashable identity, the names recorded
    for that identity are the ones before plus the category of the row. *)
Lemma collect_labels site_url name domain path cat_name cat_id purpose type s :
  ident_hashable (name, domain, path) = true ->
  forall x,
    In x (labels_of (name, domain, path)
            (snd (collect_cookie_dat site_url name domain path cat_name cat_id
                                     purpose type s)))
    <-> In x (labels_of (name, domain, path) s) \/ x = cat_name.
Proof.
  intros Hh x. rewrite collect_cookie_dat_run, Hh. cbn [negb snd]. unfold labels_of.
  cbn [set_database_cookie_data set_cookie_labels cookie_labels].
  destruct (labels_get (name, domain, path) (cookie_labels s)) as [old|] eqn:E.
  - destruct (negb (in_strings cat_name old)) eqn:Ein.
    + rewrite (@labels_get_append _ _ _ _ E), in_app_iff. simpl. intuition.
    + rewrite E. apply negb_false_iff, in_strings_In in Ein.
      split; [now left | intros [H| ->]; assumption].
  - rewrite (@labels_get_app_new _ _ _ E Hh). simpl. intuition.
Qed.

End LabelDictionary.

Section MergingByIdentity.

(** C5, as the specification states it, fails on two rows for the cookie
    [("sid", "a.example", "/")] that disagree on the purpose: both rows stay
    in [database_cookie_data], so the identity occurs twice in the collected
    rows, and nothing is reported: no log record is written and no file
    either.  Only [cookie_labels] merges the two, into one entry. *)
Lemma conflicting_rows_pass_unreported :
  let s2 := snd (collect_row sid_second (snd (collect_row sid_first started_scraper))) in
  ident_eqb (ct_name sid_first, ct_domain sid_first, ct_path sid_first)
            (ct_name sid_second, ct_domain sid_second, ct_path sid_second) = true
  /\ ct_purpose sid_first <> ct_purpose sid_second
  /\ database_cookie_data s2 = [sid_first; sid_second]
  /\ cookie_labels s2
     = [((PStr "sid", PStr "a.example", "/"), ["Necessary"; "Advertising"])]
  /\ logged s2 = logged started_scraper
  /\ files s2 = files started_scraper
  /\ weird_stuff_occurred s2 = weird_stuff_occurred started_scraper.
Proof.
  cbv zeta. repeat split; try reflexivity. discriminate.
Qed.

(** C5, amended: collecting two rows with the same hashable identity keeps
    the keys of [cookie_labels] unique, leaves for that identity the names
    it had before together with the category names of both rows, appends
    both rows unchanged to [database_cookie_data], and reports nothing: the
    log and the written files are as before. *)
Theorem collect_cookie_dat_merges_labels
    (site1 site2 : string) (name domain : pyval) (path : string)
    (cat1 cat2 : string) (id1 id2 : CookieCategory)
    (purpose1 purpose2 type1 type2 : pyval) (s : Scraper) :
  ident_hashable (name, domain, path) = true ->
  unique_keys (cookie_labels s) ->
  let r1 := collect_cookie_dat site1 name domain path cat1 id1 purpose1 type1 s in
  let r2 := collect_cookie_dat site2 name domain path cat2 id2 purpose2 type2 (snd r1) in
  fst r1 = Val tt /\ fst r2 = Val tt
  /\ unique_keys (cookie_labels (snd r2))
  /\ (forall x, In x (labels_of (name, domain, path) (snd r2))
                <-> In x (labels_of (name, domain, path) s) \/ x = cat1 \/ x = cat2)
  /\ database_cookie_data (snd r2)
     = (database_cookie_data s
        ++ [MkCookie site1 name domain path id1 cat1 purpose1 type1;
            MkCookie site2 name domain path id2 cat2 purpose2 type2])%list
  /\ logged (snd r2) = logged s
  /\ files (snd r2) = files s.
Proof.
  intros Hh Hu r1 r2.
  assert (E1 : fst r1 = Val tt /\ logged (snd r1) = logged s /\ files (snd r1) = files s
               /\ database_cookie_data (snd r1)
                  = (database_cookie_data s
                     ++ [MkCookie site1 name domain path id1 cat1 purpose1 type1])%list).
  { unfold r1. rewrite collect_cookie_dat_run, Hh. cbn. repeat split. }
  assert (E2 : fst r2 = Val tt /\ logged (snd r2) = logged (snd r1)
               /\ files (snd r2) = files (snd r1)
               /\ database_cookie_data (snd r2)
                  = (database_cookie_data (snd r1)
                     ++ [MkCookie site2 name domain path id2 cat2 purpose2 type2])%list).
  { unfold r2. rewrite collect_cookie_dat_run, Hh. cbn. repeat split. }
  destruct E1 as (V1 & L1 & F1 & D1). destruct E2 as (V2 & L2 & F2 & D2).
  split; [exact V1|]. split; [exact V2|]. split.
  { unfold r2, r1. now apply collect_unique_keys, collect_unique_keys. }
  split.
  { intros x. unfold r2.
    rewrite (@collect_labels site2 name domain path cat2 id2 purpose2 type2 (snd r1) Hh).
    unfold r1.
    rewrite (@collect_labels site1 name domain path cat1 id1 purpose1 type1 s Hh).
    tauto. }
  split.
  { rewrite D2, D1, <- app_assoc. reflexivity. }
  split; congruence.
Qed.

Lemma collect_cookie_dat_merges_labels_witness :
  ident_hashable (PStr "sid", PStr "a.example", "/") = true
  /\ unique_keys (cookie_labels started_scraper)
  /\ database_cookie_data
       (snd (collect_row sid_second (snd (collect_row sid_first started_scraper))))
     = [sid_first; sid_second].
Proof.
  split; [reflexivity|]. split; [exact I|].
  exact (proj1 (proj2 (proj2 (proj2 (proj2
    (@collect_cookie_dat_merges_labels
       "https://a.example" "https://a.example" (PStr "sid") (PStr "a.example") "/"
       "Necessary" "Advertising" ESSENTIAL ADVERTISING
       (PStr "keeps the session") (PStr "tracks the visitor") PNone PNone
       started_scraper eq_refl I)))))).
Defined.

End MergingByIdentity.

(** ** C7: an exception that leaves [scrape_website] *)

Section RulesetDecoding.

(** C7 fails on the shop whose rule set address answers with a page:
    [json.loads] raises [JSONDecodeError] before the [try] block of
    [variantA_try_retrieve_ruleset_id] is entered, [scrape_website] only
    catches [VariantFailedException], and so the exception leaves
    [scrape_website] with no outcome recorded for the site.  In a run over
    the shop and a second site the loop is left at the shop: the driver is
    stopped, the second site is never crawled, and the run ends with the
    exception. *)
Theorem ruleset_json_error_leaves_scrape_website :
  fst after_shop
  = Exc (PyExc JSONDecodeError "Expecting value: line 1 column 1 (char 0)")
  /\ crawl_log (snd after_shop) = []
  /\ failed_urls (snd after_shop) = []
  /\ status_counts (snd after_shop) UNKNOWN = 0
  /\ fst after_run
     = Exc (PyExc JSONDecodeError "Expecting value: line 1 column 1 (char 0)")
  /\ logged (snd after_run)
     = [(INFO, "Crawling: https://shop.example");
        (DEBUG, "Connection to https://shop.example successful.");
        (DEBUG, "Onetrust data domain url = https://cdn.cookielaw.org/0123abcd-4567-89ab-cdef-0123456789ab");
        (INFO, "Webdriver stopped")]
  /\ crawl_log (snd after_run) = [].
Proof.
  repeat split; vm_compute; reflexivity.
Qed.

End RulesetDecoding.

(** ** C4: Variant B after Variant A *)

Section VariantOrder.

Variable W : World.

Lemma check_state_fails st report s :
  st <> SUCCESS -> OneTrust.check_state st report s = (Exc (VariantFailed st report), s).
Proof.
  intros H. unfold OneTrust.check_state.
  destruct (CrawlState_eqb st SUCCESS) eqn:E; [|reflexivity].
  apply CrawlState_eqb_eq in E. contradiction.
Qed.

Lemma keeps_run {R : Scraper -> Scraper -> Prop} {A} {c : M A} {s o s'} :
  keeps R c -> c s = (o, s') -> R s s'.
Proof. intros H E. specialize (H s). now rewrite E in H. Qed.

Lemma check_state_ok {A} report (k : unit -> M A) s :
  bind (OneTrust.check_state SUCCESS report) k s = k tt s.
Proof. reflexivity. Qed.

Lemma bind_log {A} lvl msg (k : unit -> M A) s :
  bind (log lvl msg) k s = k tt (snd (log lvl msg s)).
Proof. reflexivity. Qed.

Lemma variantA_fails_block url s st msg s' :
  variantA_fails W url s st msg s' ->
  OneTrust.variantA_block W url s = (Exc (VariantFailed st msg), s') /\ gathers s s'.
Proof.
  intros [d i st0 rep s1 E1 Hst
         | d i rep1 s1 ids st0 rep s2 E1 E2 Hst
         | d i rep1 s1 ids rep2 s2 n st0 rep s3 E1 E2 E3 Hst];
    unfold OneTrust.variantA_block.
  - split.
    + rewrite (bind_val _ _ _ E1). cbn beta iota.
      now rewrite (bind_exc _ _ _ (check_state_fails rep s1 Hst)).
    + apply still_gathers.
      exact (keeps_run (still_variantA_try_retrieve_uuid W url) E1).
  - pose proof (keeps_run (still_variantA_try_retrieve_uuid W url) E1) as H1.
    pose proof (still_log DEBUG ("Onetrust data domain url = " ++ d ++ "/" ++ i) s1) as HL.
    pose proof (keeps_run (still_variantA_try_retrieve_ruleset_id W d i) E2) as H2.
    split.
    + rewrite (bind_val _ _ _ E1). cbn beta iota.
      rewrite check_state_ok, bind_log, (bind_val _ _ _ E2). cbn beta iota.
      now rewrite (bind_exc _ _ _ (check_state_fails rep s2 Hst)).
    + apply still_gathers.
      exact (still_trans (still_trans H1 HL) H2).
  - pose proof (keeps_run (still_variantA_try_retrieve_uuid W url) E1) as H1.
    pose proof (still_log DEBUG ("Onetrust data domain url = " ++ d ++ "/" ++ i) s1) as HL.
    pose proof (keeps_run (still_variantA_try_retrieve_ruleset_id W d i) E2) as H2.
    pose proof (still_log INFO ("Found " ++ str_of_nat (length ids) ++ " ruleset ids") s2)
      as HL2.
    pose proof (still_log DEBUG (py_str (PList ids))
                  (snd (log INFO ("Found " ++ str_of_nat (length ids) ++ " ruleset ids") s2)))
      as HL3.
    pose proof (variantA_get_and_parse_json_cases W url d i ids
                  (snd (log DEBUG (py_str (PList ids))
                     (snd (log INFO ("Found " ++ str_of_nat (length ids) ++ " ruleset ids")
                             s2))))) as H3.
    unfold post in H3. rewrite E3 in H3. cbn [fst snd] in H3. destruct H3 as [H3 _].
    split.
    + rewrite (bind_val _ _ _ E1). cbn beta iota.
      rewrite check_state_ok, bind_log, (bind_val _ _ _ E2). cbn beta iota.
      rewrite check_state_ok, bind_log, bind_log, (bind_val _ _ _ E3). cbn beta iota.
      now rewrite (bind_exc _ _ _ (check_state_fails rep s3 Hst)).
    + eapply gathers_trans; [|exact H3].
      apply still_gathers.
      exact (still_trans (still_trans (still_trans (still_trans H1 HL) H2) HL2) HL3).
Qed.

Lemma variantB_fails_block url s st msg s' :
  variantB_fails W url s st msg s' ->
  OneTrust.variantB_block W url s = (Exc (VariantFailed st msg), s')
  /\ gathers (snd (log INFO "Attempting Variant B" s)) s'.
Proof.
  intros [u st0 rep s1 E1 Hst
         | u rep1 s1 dd st0 rep s2 E1 E2 Hst
         | u rep1 s1 dd rep2 s2 n st0 rep s3 E1 E2 E3 Hst];
    unfold OneTrust.variantB_block; rewrite bind_log;
    pose proof (keeps_run (still_variantB_retrieve_script_path W url) E1) as H1.
  - split.
    + rewrite (bind_val _ _ _ E1). cbn beta iota.
      now rewrite (bind_exc _ _ _ (check_state_fails rep s1 Hst)).
    + apply still_gathers. exact H1.
  - pose proof (still_log DEBUG ("Onetrust javascript url = " ++ u) s1) as HL.
    pose proof (keeps_run (still_variantB_parse_script_for_object W u) E2) as H2.
    split.
    + rewrite (bind_val _ _ _ E1). cbn beta iota.
      rewrite check_state_ok, bind_log, (bind_val _ _ _ E2). cbn beta iota.
      now rewrite (bind_exc _ _ _ (check_state_fails rep s2 Hst)).
    + apply still_gathers.
      exact (still_trans (still_trans H1 HL) H2).
  - pose proof (still_log DEBUG ("Onetrust javascript url = " ++ u) s1) as HL.
    pose proof (keeps_run (still_variantB_parse_script_for_object W u) E2) as H2.
    pose proof (still_log DEBUG
                  "Successfully retrieved OneTrust Consent javascript object data." s2)
      as HL2.
    pose proof (variantB_extract_cases url
                  (match dd with Some d => d | None => PNone end)
                  (snd (log DEBUG
                     "Successfully retrieved OneTrust Consent javascript object data." s2)))
      as H3.
    cbv zeta in H3. unfold post in H3. rewrite E3 in H3. cbn [fst snd] in H3.
    destruct H3 as [H3 _].
    split.
    + rewrite (bind_val _ _ _ E1). cbn beta iota.
      rewrite check_state_ok, bind_log, (bind_val _ _ _ E2). cbn beta iota.
      rewrite check_state_ok, bind_log, (bind_val _ _ _ E3). cbn beta iota.
      now rewrite (bind_exc _ _ _ (check_state_fails rep s3 Hst)).
    + eapply gathers_trans; [|exact H3].
      apply still_gathers.
      exact (still_trans (still_trans (still_trans H1 HL) H2) HL2).
Qed.





End VariantOrder.

Section VariantOrderOnASite.



End VariantOrderOnASite.

(** ** What a crawl leaves behind *)

Section TermlyCrawlCases.

Variable W : World.

Lemma crawl_cases_early partial url st report s0 s :
  still s0 s -> negb (CrawlState_eqb st SUCCESS) = true ->
  post (update_crawl_stats url st report ;; ret false) s (crawl_cases partial s0).
Proof.
  intros Hs Hneg. apply negb_eqb_SUCCESS in Hneg. destruct Hneg as [Hne Heq].
  apply (post_early_failure _ _ _ Hs). intros s' Hrec Hsd.
  exists st. split; [now rewrite Heq | split; [exact Hrec|]]. right; right. now split.
Qed.

Lemma crawl_cases_exc partial s s1 e :
  still s s1 -> crawl_cases partial s (Exc e) s1.
Proof. intros H. apply records_nothing_of_status, (still_status H). Qed.

Lemma cookiebot_crawl_outcome url s :
  post (Cookiebot.scrape_website W url) s (crawl_cases MALFORM_RESP s).
Proof.
  eapply post_weaken; [apply cookiebot_crawl_cases|].
  intros [b|e] s'; cbn; [auto | now intros [H _]].
Qed.

Lemma termly_crawl_outcome url s :
  post (Termly.scrape_website W url) s (crawl_cases PARSE_ERROR s).
Proof.
  pose proof (still_refl s) as Hchain. unfold Termly.scrape_website.
  still_step (still_retrieve_termly_json W url).
  destruct o as [[[cookies_dict state] report]|e]; [|now apply crawl_cases_exc].
  destruct (negb (CrawlState_eqb state SUCCESS)) eqn:E1; [now apply crawl_cases_early|].
  log_step.
  apply post_bind. eapply post_weaken; [apply parse_termly_cookie_json_cases|].
  cbv zeta. intros o sp [Hg Hcases].
  pose proof (still_same_data Hchain) as Hsd.
  pose proof (gathers_trans (still_gathers Hchain) Hg) as Hg1.
  destruct o as [[st rep]|e].
  2:{ apply records_nothing_of_status. exact (gathers_status Hg1). }
  unfold post, bind. rewrite update_val. cbn [ret fst snd].
  destruct (update_after url st rep Hg1) as (Hrec & Hnew & Hsame).
  exists st. split; [reflexivity | split; [exact Hrec|]].
  destruct Hcases as [(_ & [(-> & _ & Hpos)|[(-> & _ & Hd)|(-> & _)]])|(_ & -> & Hd)].
  - left. split; [reflexivity|].
    rewrite Hnew, (same_data_new_records_l sp Hsd). exact Hpos.
  - right; right. split; [discriminate|].
    apply Hsame. eapply same_data_trans; eassumption.
  - right; left. reflexivity.
  - right; right. split; [discriminate|].
    apply Hsame. eapply same_data_trans; eassumption.
Qed.

End TermlyCrawlCases.

(** ** Which exceptions a step can raise *)

Section QuietGeneric.

Lemma quiet_ret {A} (a : A) : quiet (ret a).
Proof. intros s e s' E. discriminate E. Qed.

Lemma quiet_raise {A} (e : exn) : library_error e -> quiet (@raise A e).
Proof. intros H s e' s' E. injection E as <- _. exact H. Qed.

Lemma quiet_lift {A} (o : outcome A) : from_library o -> quiet (lift o).
Proof. intros H s e s' E. unfold lift in E. injection E as -> _. exact H. Qed.

Lemma quiet_bind {A B} (c : M A) (f : A -> M B) :
  quiet c -> (forall a, quiet (f a)) -> quiet (bind c f).
Proof.
  intros Hc Hf s e s'. unfold bind.
  destruct (c s) as [[a|e1] s1] eqn:E.
  - apply Hf.
  - intros [= <- _]. exact (Hc _ _ _ E).
Qed.

Lemma quiet_try {A} (c : M A) h :
  quiet c -> handled_quiet h -> quiet (try_except c h).
Proof.
  intros Hc Hh s e s'. unfold try_except.
  destruct (c s) as [[a|e1] s1] eqn:E; [discriminate|].
  destruct (h e1) as [k|] eqn:Eh.
  - apply (Hh e1 k Eh).
  - intros [= <- _]. exact (Hc _ _ _ E).
Qed.

Lemma quiet_try_all {A} (c : M A) h :
  catches_all h -> handled_quiet h -> quiet (try_except c h).
Proof.
  intros Hall Hh s e s'. unfold try_except.
  destruct (c s) as [[a|e1] s1] eqn:E; [discriminate|].
  destruct (h e1) as [k|] eqn:Eh.
  - apply (Hh e1 k Eh).
  - now destruct (Hall e1).
Qed.

Lemma handled_quiet_except {A} classes (k : exn -> M A) :
  (forall ex, quiet (k ex)) -> handled_quiet (except_ classes k).
Proof.
  intros Hk e k'. unfold except_.
  destruct (existsb (isinstance e) classes); [|discriminate].
  intros [= <-]. apply Hk.
Qed.

Lemma handled_quiet_nil {A} : handled_quiet (@clauses A []).
Proof. intros e k. discriminate. Qed.

Lemma handled_quiet_cons {A} (h : exn -> option (M A)) hs :
  handled_quiet h -> handled_quiet (clauses hs) -> handled_quiet (clauses (h :: hs)).
Proof.
  intros Hh Hhs e k. cbn [clauses].
  destruct (h e) as [k'|] eqn:E.
  - intros [= <-]. apply (Hh e k' E).
  - apply Hhs.
Qed.

Lemma catches_all_here {A} (k : exn -> M A) hs :
  catches_all (clauses (except_ [Exception_] k :: hs)).
Proof.
  intros e. cbn [clauses]. unfold except_. cbn [existsb].
  now rewrite isinstance_Exception.
Qed.

Lemma catches_all_later {A} (h : exn -> option (M A)) hs :
  catches_all (clauses hs) -> catches_all (clauses (h :: hs)).
Proof.
  intros H e. cbn [clauses]. destruct (h e); [discriminate | apply H].
Qed.

Lemma quiet_for_each {A} (l : list A) (body : A -> M unit) :
  (forall x, quiet (body x)) -> quiet (for_each l body).
Proof.
  intros Hb. induction l as [|x l IH]; cbn [for_each].
  - apply quiet_ret.
  - apply quiet_bind; [apply Hb | intros _; exact IH].
Qed.

Lemma quiet_for_return {A B} (l : list A) (body : A -> M (option B)) :
  (forall x, quiet (body x)) -> quiet (for_return l body).
Proof.
  intros Hb. induction l as [|x l IH]; cbn [for_return].
  - apply quiet_ret.
  - apply quiet_bind; [apply Hb|]. intros [v|]; [apply quiet_ret | exact IH].
Qed.

Lemma quiet_log lvl msg : quiet (log lvl msg).
Proof. intros s e s' E. discriminate E. Qed.

Lemma quiet_get : quiet get.
Proof. intros s e s' E. discriminate E. Qed.

Lemma quiet_get_count : quiet get_count.
Proof. intros s e s' E. discriminate E. Qed.

Lemma quiet_set_count n : quiet (set_count n).
Proof. intros s e s' E. discriminate E. Qed.

Lemma quiet_add_count n : quiet (add_count n).
Proof. intros s e s' E. discriminate E. Qed.

Lemma quiet_external {A} (f : nat -> outcome A) :
  (forall t, from_library (f t)) -> quiet (external f).
Proof.
  intros H s e s' E. rewrite external_eq in E. injection E as E _.
  specialize (H (clock s)). now rewrite E in H.
Qed.

Lemma quiet_update_crawl_stats url st report : quiet (update_crawl_stats url st report).
Proof. intros s e s' E. rewrite update_val in E. discriminate E. Qed.

Lemma quiet_collect_cookie_dat site_url name domain path cat_name cat_id purpose type :
  quiet (collect_cookie_dat site_url name domain path cat_name cat_id purpose type).
Proof.
  intros s e s' E. rewrite collect_cookie_dat_run in E.
  destruct (negb (ident_hashable (name, domain, path))); [|discriminate].
  injection E as <- _. exact I.
Qed.

Lemma from_library_getitem v key : from_library (getitem v key).
Proof. destruct v; simpl; try exact I. now destruct (assoc_str key _). Qed.

Lemma from_library_getindex v i : from_library (getindex v i).
Proof.
  destruct v; simpl; try exact I; now destruct (nth_error _ i).
Qed.

Lemma from_library_contains_key key v : from_library (contains_key key v).
Proof. destruct v; simpl; exact I. Qed.

Lemma from_library_iterate v : from_library (iterate v).
Proof. destruct v; simpl; exact I. Qed.

Lemma from_library_py_values v : from_library (py_values v).
Proof. destruct v; simpl; exact I. Qed.

End QuietGeneric.

Create HintDb quiet_db.

#[export] Hint Resolve quiet_ret quiet_log quiet_get quiet_get_count quiet_set_count
  quiet_add_count quiet_update_crawl_stats quiet_collect_cookie_dat
  from_library_getitem from_library_getindex from_library_contains_key
  from_library_iterate from_library_py_values : quiet_db.

Ltac quiet_step :=
  match goal with
  | |- quiet (raise _) => apply quiet_raise; exact I
  | |- quiet (lift _) => apply quiet_lift
  | |- quiet (bind _ _) => apply quiet_bind; [|intros]
  | |- quiet (try_except _ (clauses [except_ [Exception_] _])) =>
      apply quiet_try_all; [apply catches_all_here|]
  | |- quiet (try_except _ (clauses [_; except_ [Exception_] _])) =>
      apply quiet_try_all; [apply catches_all_later, catches_all_here|]
  | |- quiet (try_except _ _) => apply quiet_try
  | |- handled_quiet (clauses []) => apply handled_quiet_nil
  | |- handled_quiet (clauses (_ :: _)) => apply handled_quiet_cons
  | |- handled_quiet (except_ _ _) => apply handled_quiet_except; intros
  | |- quiet (for_each _ _) => apply quiet_for_each; intros
  | |- quiet (for_return _ _) => apply quiet_for_return; intros
  | |- quiet (external _) => apply quiet_external; intros
  | |- quiet (match ?x with _ => _ end) => destruct x
  end.

Ltac quiet_frame :=
  repeat first [solve [auto with quiet_db nocore] | quiet_step].

Ltac from_world HW :=
  first [ apply (le_requests_get HW) | apply (le_wd_get HW)
        | apply (le_wd_switch_to_alert HW) | apply (le_wd_alert_dismiss HW)
        | apply (le_wd_default_content HW) | apply (le_wd_implicitly_wait HW)
        | apply (le_wd_find_scripts HW) | apply (le_wd_page_source HW)
        | apply (le_json_loads HW) | apply (le_literal_eval HW)
        | apply (le_eval_js_call HW) | apply (le_referer_search HW) ].

Ltac quiet_world HW :=
  repeat first [solve [auto with quiet_db nocore] | quiet_step | from_world HW].

Section OneTrustQuiet.

Variable W : World.
Hypothesis HW : library_errors_only W.

Lemma quiet_static_get_request url headers : quiet (static_get_request W url headers).
Proof. unfold static_get_request. quiet_world HW. Qed.

Lemma quiet_driver_get url : quiet (driver_get W url).
Proof. unfold driver_get. quiet_world HW. Qed.

Lemma quiet_optional_field c key : quiet (optional_field c key).
Proof. unfold optional_field. quiet_world HW. Qed.

Lemma quiet_cat_lookup cat_name : quiet (OneTrust.cat_lookup cat_name).
Proof. unfold OneTrust.cat_lookup. quiet_world HW. Qed.

Lemma quiet_try_base_patterns pats source_stub dd_id :
  quiet (OneTrust.try_base_patterns pats source_stub dd_id).
Proof.
  induction pats as [|[src pat] rest IH]; cbn [OneTrust.try_base_patterns];
    quiet_world HW.
Qed.

Lemma quiet_variantA_check_element e : quiet (OneTrust.variantA_check_element e).
Proof. unfold OneTrust.variantA_check_element. quiet_world HW. Qed.

Lemma quiet_variantB_check_element e : quiet (OneTrust.variantB_check_element e).
Proof. unfold OneTrust.variantB_check_element. quiet_world HW. Qed.

#[local] Hint Resolve quiet_static_get_request quiet_driver_get quiet_optional_field
  quiet_cat_lookup quiet_try_base_patterns quiet_variantA_check_element
  quiet_variantB_check_element : quiet_db.

Lemma quiet_variantA_try_retrieve_uuid url :
  quiet (OneTrust.variantA_try_retrieve_uuid W url).
Proof. unfold OneTrust.variantA_try_retrieve_uuid. quiet_world HW. Qed.

Lemma quiet_collect_ruleset_ids rulesets : quiet (OneTrust.collect_ruleset_ids rulesets).
Proof.
  unfold OneTrust.collect_ruleset_ids.
  assert (H : forall acc : M (list pyval), quiet acc ->
    quiet
      (fold_left
         (fun (acc : M (list pyval)) (r : pyval) =>
            ids <- acc ;;
            languageset <- lift (getitem r "LanguageSwitcherPlaceholder") ;;
            if is_None languageset then ret ids
            else
              vals <- lift (py_values languageset) ;;
              if existsb (fun v => py_eq_str v "en") vals then
                id <- lift (getitem r "Id") ;;
                ret (ids ++ [id])%list
              else ret ids)
         rulesets acc)).
  { induction rulesets as [|r rest IH]; intros acc Hacc; cbn [fold_left].
    - exact Hacc.
    - apply IH. quiet_world HW. }
  apply H. quiet_world HW.
Qed.

#[local] Hint Resolve quiet_collect_ruleset_ids : quiet_db.

Lemma quiet_variantA_try_retrieve_ruleset_id domain_url dd_id :
  quiet (OneTrust.variantA_try_retrieve_ruleset_id W domain_url dd_id).
Proof. unfold OneTrust.variantA_try_retrieve_ruleset_id. quiet_world HW. Qed.

Lemma quiet_variantA_collect_cookie website_url cat_name cat_id c :
  quiet (OneTrust.variantA_collect_cookie website_url cat_name cat_id c).
Proof. unfold OneTrust.variantA_collect_cookie. quiet_world HW. Qed.

#[local] Hint Resolve quiet_variantA_collect_cookie : quiet_db.

Lemma quiet_variantA_parse_ruleset website_url body :
  quiet (OneTrust.variantA_parse_ruleset W website_url body).
Proof. unfold OneTrust.variantA_parse_ruleset. quiet_world HW. Qed.

#[local] Hint Resolve quiet_variantA_parse_ruleset : quiet_db.

Lemma quiet_variantA_fetch_ruleset website_url domain_url dd_id i :
  quiet (OneTrust.variantA_fetch_ruleset W website_url domain_url dd_id i).
Proof. unfold OneTrust.variantA_fetch_ruleset. quiet_world HW. Qed.

#[local] Hint Resolve quiet_variantA_fetch_ruleset : quiet_db.

Lemma quiet_variantA_get_and_parse_json website_url domain_url dd_id ruleset_ids :
  quiet (OneTrust.variantA_get_and_parse_json W website_url domain_url dd_id ruleset_ids).
Proof. unfold OneTrust.variantA_get_and_parse_json. quiet_world HW. Qed.

Lemma quiet_variantB_retrieve_script_path url :
  quiet (OneTrust.variantB_retrieve_script_path W url).
Proof. unfold OneTrust.variantB_retrieve_script_path. quiet_world HW. Qed.

Lemma quiet_variantB_parse_script_for_object script_url :
  quiet (OneTrust.variantB_parse_script_for_object W script_url).
Proof. unfold OneTrust.variantB_parse_script_for_object. quiet_world HW. Qed.

Lemma quiet_variantB_walk_groups website_url consent_data :
  quiet (OneTrust.variantB_walk_groups website_url consent_data).
Proof. unfold OneTrust.variantB_walk_groups. quiet_world HW. Qed.

#[local] Hint Resolve quiet_variantB_walk_groups : quiet_db.

Lemma quiet_variantB_extract_cookies_from_dict website_url consent_data :
  quiet (OneTrust.variantB_extract_cookies_from_dict website_url consent_data).
Proof. unfold OneTrust.variantB_extract_cookies_from_dict. quiet_world HW. Qed.

End OneTrustQuiet.

Section OneTrustCrawlCases.

Variable W : World.
Hypothesis HW : library_errors_only W.

Lemma not_library_error st msg : library_error (VariantFailed st msg) -> False.
Proof. exact (fun H => H). Qed.

Lemma check_state_cases {A} st report (k : unit -> M A) s :
  (st <> SUCCESS /\ bind (OneTrust.check_state st report) k s
                    = (Exc (VariantFailed st report), s))
  \/ (st = SUCCESS /\ bind (OneTrust.check_state st report) k s = k tt s).
Proof.
  unfold bind, OneTrust.check_state.
  destruct (CrawlState_eqb st SUCCESS) eqn:E.
  - right. apply CrawlState_eqb_eq in E. now split.
  - left. apply CrawlState_eqb_neq in E. now split.
Qed.

(** Variant A either records [SUCCESS] with new rows and returns, or fails
    with the collected data as it was, or is left by another exception. *)
Lemma variantA_block_cases url s :
  post (OneTrust.variantA_block W url) s
    (fun o s' =>
       match o with
       | Val a => a = Some true /\ records SUCCESS s s' /\ 0 < new_records s s'
       | Exc (VariantFailed _ _) => gathers s s' /\ same_data s s'
       | Exc (PyExc _ _) => records_nothing s s'
       end).
Proof.
  unfold OneTrust.variantA_block, post.
  destruct (OneTrust.variantA_try_retrieve_uuid W url s)
    as [[[[[d i] st1] rep1]|e] s1] eqn:E1.
  2:{ rewrite (bind_exc _ _ _ E1). cbn [fst snd].
      pose proof (quiet_variantA_try_retrieve_uuid HW url _ E1) as Hq.
      destruct e; [|contradiction].
      apply records_nothing_of_status.
      exact (still_status (keeps_run (still_variantA_try_retrieve_uuid W url) E1)). }
  pose proof (keeps_run (still_variantA_try_retrieve_uuid W url) E1) as H1.
  rewrite (bind_val _ _ _ E1). cbn beta iota.
  destruct (check_state_cases st1 rep1
              (fun _ => log DEBUG ("Onetrust data domain url = " ++ d ++ "/" ++ i) ;;
                 '(rs_ids, state, report) <-
                    OneTrust.variantA_try_retrieve_ruleset_id W d i ;;
                 OneTrust.check_state state report ;;
                 log INFO ("Found " ++ str_of_nat (length rs_ids) ++ " ruleset ids") ;;
                 log DEBUG (py_str (PList rs_ids)) ;;
                 '(cookie_count, state, report) <-
                    OneTrust.variantA_get_and_parse_json W url d i rs_ids ;;
                 OneTrust.check_state state report ;;
                 update_crawl_stats url state report ;;
                 log INFO ("VARIANT A SUCCESS -- retrieved " ++ str_of_nat cookie_count
                           ++ " cookies") ;;
                 ret (Some true)) s1) as [[Hne ->]|[-> ->]].
  { cbn [fst snd]. split; [now apply still_gathers | now apply still_same_data]. }
  rewrite bind_log.
  pose proof (still_log DEBUG ("Onetrust data domain url = " ++ d ++ "/" ++ i) s1) as HL1.
  set (s1a := snd (log DEBUG ("Onetrust data domain url = " ++ d ++ "/" ++ i) s1)) in *.
  pose proof (still_trans H1 HL1) as H1a.
  destruct (OneTrust.variantA_try_retrieve_ruleset_id W d i s1a)
    as [[[[ids st2] rep2]|e] s2] eqn:E2.
  2:{ rewrite (bind_exc _ _ _ E2). cbn [fst snd].
      pose proof (quiet_variantA_try_retrieve_ruleset_id HW d i _ E2) as Hq.
      destruct e; [|contradiction].
      apply records_nothing_of_status.
      exact (still_status
               (still_trans H1a
                  (keeps_run (still_variantA_try_retrieve_ruleset_id W d i) E2))). }
  pose proof (still_trans H1a
                (keeps_run (still_variantA_try_retrieve_ruleset_id W d i) E2)) as H2.
  rewrite (bind_val _ _ _ E2). cbn beta iota.
  destruct (check_state_cases st2 rep2
              (fun _ => log INFO ("Found " ++ str_of_nat (length ids) ++ " ruleset ids") ;;
                 log DEBUG (py_str (PList ids)) ;;
                 '(cookie_count, state, report) <-
                    OneTrust.variantA_get_and_parse_json W url d i ids ;;
                 OneTrust.check_state state report ;;
                 update_crawl_stats url state report ;;
                 log INFO ("VARIANT A SUCCESS -- retrieved " ++ str_of_nat cookie_count
                           ++ " cookies") ;;
                 ret (Some true)) s2) as [[Hne ->]|[-> ->]].
  { cbn [fst snd]. split; [now apply still_gathers | now apply still_same_data]. }
  rewrite bind_log, bind_log.
  pose proof (still_log INFO ("Found " ++ str_of_nat (length ids) ++ " ruleset ids") s2)
    as HL2.
  set (s2a := snd (log INFO ("Found " ++ str_of_nat (length ids) ++ " ruleset ids") s2))
    in *.
  pose proof (still_log DEBUG (py_str (PList ids)) s2a) as HL3.
  set (s2b := snd (log DEBUG (py_str (PList ids)) s2a)) in *.
  pose proof (still_trans (still_trans H2 HL2) HL3) as H2b.
  pose proof (variantA_get_and_parse_json_cases W url d i ids s2b) as H3.
  unfold post in H3.
  destruct (OneTrust.variantA_get_and_parse_json W url d i ids s2b)
    as [[[[n st3] rep3]|e] s3] eqn:E3; cbn [fst snd] in H3; destruct H3 as [G3 H3].
  2:{ rewrite (bind_exc _ _ _ E3). cbn [fst snd].
      pose proof (quiet_variantA_get_and_parse_json HW url d i ids _ E3) as Hq.
      destruct e; [|contradiction].
      apply records_nothing_of_status.
      rewrite (gathers_status G3). exact (still_status H2b). }
  rewrite (bind_val _ _ _ E3). cbn beta iota.
  pose proof (gathers_trans (still_gathers H2b) G3) as G.
  pose proof (still_same_data H2b) as Hsd.
  destruct H3 as [(-> & Hpos & _)|(-> & Hd)].
  - rewrite check_state_ok.
    assert (Erun : forall msg,
               (update_crawl_stats url SUCCESS rep3 ;; log INFO msg ;; ret (Some true)) s3
               = (Val (Some true),
                  snd (log INFO msg (snd (update_crawl_stats url SUCCESS rep3 s3))))).
    { intros msg. unfold bind at 1. rewrite update_val. reflexivity. }
    rewrite Erun. cbn [fst snd].
    destruct (update_after url SUCCESS rep3 G) as (Hrec & Hnew & _).
    split; [reflexivity|]. split.
    + intros e. exact (Hrec e).
    + change (0 < new_records s (snd (update_crawl_stats url SUCCESS rep3 s3))).
      rewrite Hnew, (same_data_new_records_l s3 Hsd). exact Hpos.
  - destruct (check_state_cases PARSE_ERROR rep3
                (fun _ => update_crawl_stats url PARSE_ERROR rep3 ;;
                   log INFO ("VARIANT A SUCCESS -- retrieved " ++ str_of_nat n
                             ++ " cookies") ;;
                   ret (Some true)) s3) as [[_ ->]|[Hx _]]; [|discriminate Hx].
    cbn [fst snd]. split; [exact G | eapply same_data_trans; eassumption].
Qed.

(** Variant B either records [SUCCESS] with new rows and returns, or fails
    with a state that is neither [SUCCESS] nor [NO_COOKIES], the collected
    data being as it was unless the state is [PARSE_ERROR], or is left by
    another exception. *)
Lemma variantB_block_cases url s :
  post (OneTrust.variantB_block W url) s
    (fun o s' =>
       match o with
       | Val b => b = true /\ records SUCCESS s s' /\ 0 < new_records s s'
       | Exc (VariantFailed st _) =>
           gathers s s' /\ st <> SUCCESS /\ st <> NO_COOKIES
           /\ (st = PARSE_ERROR \/ same_data s s')
       | Exc (PyExc _ _) => records_nothing s s'
       end).
Proof.
  unfold OneTrust.variantB_block, post. rewrite bind_log.
  pose proof (still_log INFO "Attempting Variant B" s) as HL0.
  set (s0 := snd (log INFO "Attempting Variant B" s)) in *.
  destruct (OneTrust.variantB_retrieve_script_path W url s0)
    as [[[[u st1] rep1]|e] s1] eqn:E1.
  2:{ rewrite (bind_exc _ _ _ E1). cbn [fst snd].
      pose proof (quiet_variantB_retrieve_script_path HW url _ E1) as Hq.
      destruct e; [|contradiction].
      apply records_nothing_of_status.
      exact (still_status
               (still_trans HL0
                  (keeps_run (still_variantB_retrieve_script_path W url) E1))). }
  pose proof (still_trans HL0
                (keeps_run (still_variantB_retrieve_script_path W url) E1)) as H1.
  pose proof (variantB_retrieve_script_path_not_NO_COOKIES W url _ E1) as N1.
  cbn [fst snd] in N1.
  rewrite (bind_val _ _ _ E1). cbn beta iota.
  destruct (check_state_cases st1 rep1
              (fun _ => log DEBUG ("Onetrust javascript url = " ++ u) ;;
                 '(data_dict, state, report) <-
                    OneTrust.variantB_parse_script_for_object W u ;;
                 OneTrust.check_state state report ;;
                 log DEBUG "Successfully retrieved OneTrust Consent javascript object data." ;;
                 '(cookie_count, state, report) <-
                    OneTrust.variantB_extract_cookies_from_dict url
                      (match data_dict with Some d => d | None => PNone end) ;;
                 OneTrust.check_state state report ;;
                 update_crawl_stats url state report ;;
                 log INFO ("VARIANT B SUCCESS -- retrieved " ++ str_of_nat cookie_count
                           ++ " cookies") ;;
                 ret true) s1) as [[Hne ->]|[-> ->]].
  { cbn [fst snd]. split; [now apply still_gathers|]. split; [exact Hne|].
    split; [exact N1|]. right. now apply still_same_data. }
  rewrite bind_log.
  pose proof (still_log DEBUG ("Onetrust javascript url = " ++ u) s1) as HL1.
  set (s1a := snd (log DEBUG ("Onetrust javascript url = " ++ u) s1)) in *.
  pose proof (still_trans H1 HL1) as H1a.
  destruct (OneTrust.variantB_parse_script_for_object W u s1a)
    as [[[[dd st2] rep2]|e] s2] eqn:E2.
  2:{ rewrite (bind_exc _ _ _ E2). cbn [fst snd].
      pose proof (quiet_variantB_parse_script_for_object HW u _ E2) as Hq.
      destruct e; [|contradiction].
      apply records_nothing_of_status.
      exact (still_status
               (still_trans H1a
                  (keeps_run (still_variantB_parse_script_for_object W u) E2))). }
  pose proof (still_trans H1a
                (keeps_run (still_variantB_parse_script_for_object W u) E2)) as H2.
  pose proof (variantB_parse_script_for_object_not_NO_COOKIES W u _ E2) as N2.
  cbn [fst snd] in N2.
  rewrite (bind_val _ _ _ E2). cbn beta iota.
  destruct (check_state_cases st2 rep2
              (fun _ =>
                 log DEBUG "Successfully retrieved OneTrust Consent javascript object data." ;;
                 '(cookie_count, state, report) <-
                    OneTrust.variantB_extract_cookies_from_dict url
                      (match dd with Some d => d | None => PNone end) ;;
                 OneTrust.check_state state report ;;
                 update_crawl_stats url state report ;;
                 log INFO ("VARIANT B SUCCESS -- retrieved " ++ str_of_nat cookie_count
                           ++ " cookies") ;;
                 ret true) s2) as [[Hne ->]|[-> ->]].
  { cbn [fst snd]. split; [now apply still_gathers|]. split; [exact Hne|].
    split; [exact N2|]. right. now apply still_same_data. }
  rewrite bind_log.
  pose proof (still_log DEBUG
                "Successfully retrieved OneTrust Consent javascript object data." s2) as HL2.
  set (s2a := snd (log DEBUG
                     "Successfully retrieved OneTrust Consent javascript object data." s2))
    in *.
  pose proof (still_trans H2 HL2) as H2a.
  pose proof (variantB_extract_cases url
                (match dd with Some d => d | None => PNone end) s2a) as H3.
  cbv zeta in H3. unfold post in H3.
  destruct (OneTrust.variantB_extract_cookies_from_dict url
              (match dd with Some d => d | None => PNone end) s2a)
    as [[[[n st3] rep3]|e] s3] eqn:E3; cbn [fst snd] in H3; destruct H3 as [G3 H3].
  2:{ rewrite (bind_exc _ _ _ E3). cbn [fst snd].
      pose proof (@quiet_variantB_extract_cookies_from_dict url _ _ _ _ E3) as Hq.
      destruct e; [|contradiction].
      apply records_nothing_of_status.
      rewrite (gathers_status G3). exact (still_status H2a). }
  rewrite (bind_val _ _ _ E3). cbn beta iota.
  pose proof (gathers_trans (still_gathers H2a) G3) as G.
  pose proof (still_same_data H2a) as Hsd.
  destruct H3 as [(-> & _ & Hpos & _)|[(-> & _ & Hd)|(-> & _)]].
  - rewrite check_state_ok.
    assert (Erun : forall msg,
               (update_crawl_stats url SUCCESS rep3 ;; log INFO msg ;; ret true) s3
               = (Val true,
                  snd (log INFO msg (snd (update_crawl_stats url SUCCESS rep3 s3))))).
    { intros msg. unfold bind at 1. rewrite update_val. reflexivity. }
    rewrite Erun. cbn [fst snd].
    destruct (update_after url SUCCESS rep3 G) as (Hrec & Hnew & _).
    split; [reflexivity|]. split.
    + intros e. exact (Hrec e).
    + change (0 < new_records s (snd (update_crawl_stats url SUCCESS rep3 s3))).
      rewrite Hnew, (same_data_new_records_l s3 Hsd). exact Hpos.
  - destruct (check_state_cases MALFORM_RESP rep3
                (fun _ => update_crawl_stats url MALFORM_RESP rep3 ;;
                   log INFO ("VARIANT B SUCCESS -- retrieved " ++ str_of_nat n
                             ++ " cookies") ;;
                   ret true) s3) as [[_ ->]|[Hx _]]; [|discriminate Hx].
    cbn [fst snd]. split; [exact G|]. split; [discriminate|]. split; [discriminate|].
    right. eapply same_data_trans; eassumption.
  - destruct (check_state_cases PARSE_ERROR rep3
                (fun _ => update_crawl_stats url PARSE_ERROR rep3 ;;
                   log INFO ("VARIANT B SUCCESS -- retrieved " ++ str_of_nat n
                             ++ " cookies") ;;
                   ret true) s3) as [[_ ->]|[Hx _]]; [|discriminate Hx].
    cbn [fst snd]. split; [exact G|]. split; [discriminate|]. split; [discriminate|].
    now left.
Qed.

(** What a OneTrust crawl leaves behind; it never records [NO_COOKIES]. *)
Lemma onetrust_crawl_outcome url s :
  post (OneTrust.scrape_website W url) s
    (fun o s' => crawl_cases PARSE_ERROR s o s' /\ ~ records NO_COOKIES s s').
Proof.
  assert (Hnone : forall s', records_nothing s s' -> ~ records NO_COOKIES s s').
  { intros s' Hn Hr. exact (records_not_nothing Hr Hn). }
  assert (Hother : forall st s', records st s s' -> st <> NO_COOKIES ->
                                 ~ records NO_COOKIES s s').
  { intros st s' Hr Hne Hr'. apply Hne. exact (records_functional Hr Hr'). }
  unfold OneTrust.scrape_website, post.
  destruct (static_get_request W url [] s) as [[[[r status] report]|e] s0] eqn:E0.
  2:{ rewrite (bind_exc _ _ _ E0). cbn [fst snd].
      assert (Hn : records_nothing s s0).
      { apply records_nothing_of_status.
        exact (still_status (keeps_run (still_static_get_request W url []) E0)). }
      split; [exact Hn | now apply Hnone]. }
  pose proof (keeps_run (still_static_get_request W url []) E0) as H0.
  pose proof (static_get_request_not_NO_COOKIES W url [] _ E0) as N0. cbn [fst snd] in N0.
  rewrite (bind_val _ _ _ E0). cbn beta iota.
  destruct (negb (CrawlState_eqb status SUCCESS)) eqn:Eok.
  { pose proof (@crawl_cases_early PARSE_ERROR url status (Some report) s s0 H0 Eok) as Hc.
    unfold post in Hc. split; [exact Hc|].
    destruct Hc as (st & _ & Hrec & _).
    assert (Hst : records status s
                    (snd ((update_crawl_stats url status (Some report) ;; ret false) s0))).
    { unfold bind. rewrite update_val. cbn [ret snd].
      exact (proj1 (update_after url status (Some report) (still_gathers H0))). }
    exact (Hother _ _ Hst N0). }
  rewrite bind_log.
  pose proof (still_log DEBUG ("Connection to " ++ url ++ " successful.") s0) as HL0.
  set (sL := snd (log DEBUG ("Connection to " ++ url ++ " successful.") s0)) in *.
  pose proof (still_trans H0 HL0) as HsL.
  pose proof (variantA_block_cases url sL) as HA. unfold post in HA.
  destruct (OneTrust.variantA_block W url sL) as [[a|[c m|stA msgA]] sA] eqn:EA;
    cbn [fst snd] in HA.
  - (* Variant A returned *)
    erewrite bind_val by (apply try_val; exact EA).
    destruct HA as (-> & Hrec & Hpos). cbn [ret fst snd].
    assert (Hrec' : records SUCCESS s sA) by (exact (records_still HsL Hrec)).
    split; [|exact (Hother _ _ Hrec' ltac:(discriminate))].
    exists SUCCESS. split; [reflexivity|]. split; [exact Hrec'|]. left.
    split; [reflexivity|].
    now rewrite (same_data_new_records_l sA (still_same_data HsL)).
  - (* another exception left Variant A *)
    erewrite bind_exc by (apply try_exc_passed; [exact EA | reflexivity]).
    cbn [fst snd].
    assert (Hn : records_nothing s sA).
    { intros e. rewrite (HA e). now rewrite (still_status HsL). }
    split; [exact Hn | now apply Hnone].
  - (* Variant A failed *)
    destruct HA as [GA DA].
    pose proof (still_log WARNING ("Variant A failed. Reason: " ++ fmt_state stA
                                   ++ " -- " ++ fmt_report msgA) sA) as HLW.
    set (sB := snd (log WARNING ("Variant A failed. Reason: " ++ fmt_state stA
                                 ++ " -- " ++ fmt_report msgA) sA)) in *.
    match goal with
    | |- context [try_except (OneTrust.variantA_block W url) ?h] =>
        assert (ET : try_except (OneTrust.variantA_block W url) h sL = (Val None, sB))
          by (unfold try_except; rewrite EA; reflexivity)
    end.
    rewrite (bind_val _ _ _ ET). cbn beta iota.
    assert (GB : gathers s sB).
    { eapply gathers_trans; [apply still_gathers; exact HsL|].
      eapply gathers_trans; [exact GA | now apply still_gathers]. }
    assert (DB : same_data s sB).
    { eapply same_data_trans; [apply still_same_data; exact HsL|].
      eapply same_data_trans; [exact DA | now apply still_same_data]. }
    pose proof (variantB_block_cases url sB) as HB. unfold post in HB.
    destruct (OneTrust.variantB_block W url sB) as [[b|[c m|stB msgB]] sB'] eqn:EB;
      cbn [fst snd] in HB.
    + erewrite try_val by (exact EB). cbn [fst snd].
      destruct HB as (-> & Hrec & Hpos).
      assert (Hrec' : records SUCCESS s sB').
      { intros e. rewrite (Hrec e), (gathers_status GB). reflexivity. }
      split; [|exact (Hother _ _ Hrec' ltac:(discriminate))].
      exists SUCCESS. split; [reflexivity|]. split; [exact Hrec'|]. left.
      split; [reflexivity|]. now rewrite (same_data_new_records_l sB' DB).
    + erewrite try_exc_passed by (first [exact EB | reflexivity]). cbn [fst snd].
      assert (Hn : records_nothing s sB').
      { intros e. rewrite (HB e). now rewrite (gathers_status GB). }
      split; [exact Hn | now apply Hnone].
    + destruct HB as (GB' & Hne & Hnc & Hcase).
      assert (EF : try_except (OneTrust.variantB_block W url)
                     (OneTrust.except_variant_failed
                        (fun crawlstate message =>
                           update_crawl_stats url crawlstate message ;; ret false)) sB
                   = (Val false, snd (update_crawl_stats url stB msgB sB'))).
      { unfold try_except. rewrite EB. cbn [OneTrust.except_variant_failed].
        unfold bind. now rewrite update_val. }
      rewrite EF. cbn [fst snd].
      pose proof (gathers_trans GB GB') as G.
      destruct (update_after url stB msgB G) as (Hrec & _ & Hsame).
      split; [|exact (Hother _ _ Hrec Hnc)].
      exists stB. split.
      { symmetry. now apply CrawlState_eqb_neq. }
      split; [exact Hrec|].
      destruct Hcase as [->|Hd]; [right; left; reflexivity|].
      right; right. split; [exact Hne|].
      apply Hsame. eapply same_data_trans; eassumption.
Qed.

End OneTrustCrawlCases.

(** ** C2: the recorded outcome and the collected rows *)

Section RecordedOutcome.

Lemma crawl_cases_SUCCESS {partial s o s'} :
  crawl_cases partial s o s' -> partial <> SUCCESS ->
  records SUCCESS s s' -> 0 < new_records s s'.
Proof.
  intros Hc Hp Hr. destruct o as [b|e]; cbn in Hc.
  - destruct Hc as (st & _ & Hrec & Hcase).
    pose proof (records_functional Hrec Hr) as ->.
    destruct Hcase as [[_ H]|[H|[H _]]]; [exact H | now symmetry in H | now destruct H].
  - destruct (records_not_nothing Hr Hc).
Qed.

Lemma crawl_cases_other {partial s o s' st} :
  crawl_cases partial s o s' -> records st s s' ->
  st <> SUCCESS -> st <> partial -> same_data s s'.
Proof.
  intros Hc Hr Hs Hp. destruct o as [b|e]; cbn in Hc.
  - destruct Hc as (st0 & _ & Hrec & Hcase).
    pose proof (records_functional Hrec Hr) as ->.
    destruct Hcase as [[H _]|[H|[_ H]]]; [contradiction | contradiction | exact H].
  - destruct (records_not_nothing Hr Hc).
Qed.

Lemma from_library_literal_eval source : from_library (Literal.literal_eval source).
Proof.
  unfold Literal.literal_eval.
  destruct (Literal.read_value _ _) as [[v r]|]; [|exact I].
  destruct (Literal.skip_blank r); exact I.
Qed.

Lemma simple_world_library_errors get scripts page json js :
  (forall url, from_library (get url)) ->
  (forall body, from_library (json body)) ->
  (forall source, from_library (js source)) ->
  library_errors_only (simple_world get scripts page json js).
Proof.
  intros Hget Hjson Hjs. constructor; cbn; intros; auto;
    first [exact I | apply from_library_literal_eval].
Qed.

Lemma cookiebot_world_library_errors r :
  library_errors_only (cookiebot_world (Val r)).
Proof.
  apply simple_world_library_errors; intros; try exact I.
  now destruct (is_prefix _ _).
Qed.

Lemma empty_groups_world_library_errors : library_errors_only empty_groups_world.
Proof.
  apply simple_world_library_errors; intros; try exact I.
  - now destruct (String.eqb _ _).
  - unfold empty_groups_js. now destruct (String.eqb _ _).
Qed.

Lemma positive_not_zero {n} : 0 < n -> n = 0 -> False.
Proof. lia. Qed.

Lemma cookiebot_parse_rule (W : World) url cbid cc_url js_contents s :
  let s' := snd (Cookiebot.parse_cc_js W url cbid cc_url js_contents s) in
  let done := completes (Cookiebot.walk_tables W url js_contents) (set_cookie_count 0 s) in
  (records SUCCESS s s' <-> done /\ 0 < new_records s s')
  /\ (records NO_COOKIES s s' <-> done /\ new_records s s' = 0).
Proof.
  intros s' done.
  pose proof (parse_cc_js_cases W url cbid cc_url js_contents s) as H.
  cbv zeta in H. unfold post in H. fold s' in H. fold done in H.
  destruct H as (st & _ & Hrec & Hcase).
  destruct Hcase as [(-> & Hd & Hpos)|[(-> & Hd & Hsd)|(-> & Hnd)]].
  - split; split.
    + intros _. now split.
    + intros _. exact Hrec.
    + intros Hr. discriminate (records_functional Hrec Hr).
    + intros [_ Hz]. destruct (positive_not_zero Hpos Hz).
  - pose proof (same_data_new_records Hsd) as Hz. split; split.
    + intros Hr. discriminate (records_functional Hrec Hr).
    + intros [_ Hpos]. destruct (positive_not_zero Hpos Hz).
    + intros _. now split.
    + intros _. exact Hrec.
  - split; split.
    + intros Hr. discriminate (records_functional Hrec Hr).
    + intros [Hd _]. contradiction.
    + intros Hr. discriminate (records_functional Hrec Hr).
    + intros [Hd _]. contradiction.
Qed.

Lemma termly_parse_rule {url cookie_dict s st report s'} :
  Termly.parse_termly_cookie_json url cookie_dict s = (Val (st, report), s') ->
  let done := contains_key "cookies" cookie_dict = Val true
              /\ completes (Termly.walk_buckets url cookie_dict)
                           (set_weird_stuff_occurred false (set_cookie_count 0 s)) in
  (st = SUCCESS <-> done /\ 0 < new_records s s')
  /\ (st = NO_COOKIES <-> done /\ new_records s s' = 0).
Proof.
  intros E done.
  pose proof (parse_termly_cookie_json_cases url cookie_dict s) as H.
  cbv zeta in H. unfold post in H. rewrite E in H. cbn [fst snd] in H.
  destruct H as [_ [(Hk & Hcase)|(Hk & -> & Hsd)]].
  - destruct Hcase as [(-> & Hd & Hpos)|[(-> & Hd & Hsd)|(-> & Hnd)]].
    + split; split; try discriminate.
      * intros _. split; [now split | exact Hpos].
      * reflexivity.
      * intros [_ Hz]. destruct (positive_not_zero Hpos Hz).
    + pose proof (same_data_new_records Hsd) as Hz. split; split; try discriminate.
      * intros [_ Hpos]. destruct (positive_not_zero Hpos Hz).
      * intros _. split; [now split | exact Hz].
      * reflexivity.
    + split; split; try discriminate; intros [[_ Hd] _]; contradiction.
  - split; split; try discriminate; intros [[Hk' _] _]; congruence.
Qed.

Lemma variantB_extract_rule {url consent_data s n st report s'} :
  OneTrust.variantB_extract_cookies_from_dict url consent_data s
  = (Val (n, st, report), s') ->
  let done := completes (OneTrust.variantB_walk_groups url consent_data)
                        (set_cookie_count 0 s) in
  (st = SUCCESS <-> done /\ 0 < new_records s s')
  /\ (st = MALFORM_RESP <-> done /\ new_records s s' = 0).
Proof.
  intros E done.
  pose proof (variantB_extract_cases url consent_data s) as H.
  cbv zeta in H. unfold post in H. rewrite E in H. cbn [fst snd] in H.
  destruct H as [_ [(-> & Hd & Hpos & _)|[(-> & Hd & Hsd)|(-> & Hnd)]]].
  - split; split; try discriminate.
    + intros _. now split.
    + reflexivity.
    + intros [_ Hz]. destruct (positive_not_zero Hpos Hz).
  - pose proof (same_data_new_records Hsd) as Hz. split; split; try discriminate.
    + intros [_ Hpos]. destruct (positive_not_zero Hpos Hz).
    + intros _. now split.
    + reflexivity.
  - split; split; try discriminate; intros [Hd _]; contradiction.
Qed.

Lemma variantA_parse_rule {W : World} {url domain_url dd_id rs_ids s n st report s'} :
  OneTrust.variantA_get_and_parse_json W url domain_url dd_id rs_ids s
  = (Val (n, st, report), s') ->
  (st = SUCCESS <-> 0 < new_records s s')
  /\ (st = PARSE_ERROR <-> new_records s s' = 0).
Proof.
  intros E.
  pose proof (variantA_get_and_parse_json_cases W url domain_url dd_id rs_ids s) as H.
  unfold post in H. rewrite E in H. cbn [fst snd] in H.
  destruct H as [_ [(-> & Hpos & _)|(-> & Hsd)]].
  - split; split; try discriminate.
    + intros _. exact Hpos.
    + reflexivity.
    + intros Hz. destruct (positive_not_zero Hpos Hz).
  - pose proof (same_data_new_records Hsd) as Hz. split; split; try discriminate.
    + intros Hpos. destruct (positive_not_zero Hpos Hz).
    + intros _. exact Hz.
    + reflexivity.
Qed.

End RecordedOutcome.

Section CookieCountRule.

(** C2, as the specification states it, fails on a OneTrust shop whose
    consent script lists no group: the walk over the groups runs to its
    end, no row is collected, and the outcome recorded for the shop is
    [MALFORM_RESP], not [NO_COOKIES]. *)
Lemma onetrust_zero_cookies_is_MALFORM_RESP :
  fst after_empty_groups = Val false
  /\ (forall s, completes (OneTrust.variantB_walk_groups shop_url empty_groups) s)
  /\ database_cookie_data (snd after_empty_groups) = []
  /\ crawl_log (snd after_empty_groups)
     = [(shop_url, (MALFORM_RESP, "Consent Platform Script contained zero cookies!"))]
  /\ records MALFORM_RESP started_scraper (snd after_empty_groups)
  /\ ~ records NO_COOKIES started_scraper (snd after_empty_groups).
Proof.
  assert (Hrec : records MALFORM_RESP started_scraper (snd after_empty_groups))
    by (intros e; destruct e; vm_compute; reflexivity).
  split; [vm_compute; reflexivity|].
  split; [intros s; eexists; reflexivity|].
  split; [vm_compute; reflexivity|].
  split; [vm_compute; reflexivity|].
  split; [exact Hrec|].
  intros Hr. discriminate (records_functional Hrec Hr).
Qed.

(** C2, amended.  In a world that raises only exceptions of the libraries:
    a crawl by any of the three extractors that records [SUCCESS] has
    collected at least one row; a Cookiebot or Termly crawl that records
    [NO_COOKIES] has collected none, and a OneTrust crawl never records
    [NO_COOKIES].  For the parse steps: Cookiebot records [SUCCESS] exactly
    when the walk over the tables completes with rows and [NO_COOKIES]
    exactly when it completes without; Termly returns [SUCCESS] and
    [NO_COOKIES] in the same two cases of its walk over the buckets (given
    that the document has a ["cookies"] entry); Variant B of OneTrust
    returns [SUCCESS] when its walk completes with rows and [MALFORM_RESP]
    when it completes without; Variant A returns [SUCCESS] with rows and
    [PARSE_ERROR] without. *)
Theorem recorded_outcome_and_cookie_count (W : World) (url : string) (s : Scraper) :
  library_errors_only W ->
  (records SUCCESS s (snd (Cookiebot.scrape_website W url s)) ->
   0 < new_records s (snd (Cookiebot.scrape_website W url s)))
  /\ (records SUCCESS s (snd (Termly.scrape_website W url s)) ->
      0 < new_records s (snd (Termly.scrape_website W url s)))
  /\ (records SUCCESS s (snd (OneTrust.scrape_website W url s)) ->
      0 < new_records s (snd (OneTrust.scrape_website W url s)))
  /\ (records NO_COOKIES s (snd (Cookiebot.scrape_website W url s)) ->
      new_records s (snd (Cookiebot.scrape_website W url s)) = 0)
  /\ (records NO_COOKIES s (snd (Termly.scrape_website W url s)) ->
      new_records s (snd (Termly.scrape_website W url s)) = 0)
  /\ ~ records NO_COOKIES s (snd (OneTrust.scrape_website W url s))
  /\ (forall cbid cc_url js_contents,
        let s' := snd (Cookiebot.parse_cc_js W url cbid cc_url js_contents s) in
        let done := completes (Cookiebot.walk_tables W url js_contents)
                              (set_cookie_count 0 s) in
        (records SUCCESS s s' <-> done /\ 0 < new_records s s')
        /\ (records NO_COOKIES s s' <-> done /\ new_records s s' = 0))
  /\ (forall cookie_dict st report s',
        Termly.parse_termly_cookie_json url cookie_dict s = (Val (st, report), s') ->
        let done := contains_key "cookies" cookie_dict = Val true
                    /\ completes (Termly.walk_buckets url cookie_dict)
                                 (set_weird_stuff_occurred false (set_cookie_count 0 s)) in
        (st = SUCCESS <-> done /\ 0 < new_records s s')
        /\ (st = NO_COOKIES <-> done /\ new_records s s' = 0))
  /\ (forall consent_data n st report s',
        OneTrust.variantB_extract_cookies_from_dict url consent_data s
        = (Val (n, st, report), s') ->
        let done := completes (OneTrust.variantB_walk_groups url consent_data)
                              (set_cookie_count 0 s) in
        (st = SUCCESS <-> done /\ 0 < new_records s s')
        /\ (st = MALFORM_RESP <-> done /\ new_records s s' = 0))
  /\ (forall domain_url dd_id rs_ids n st report s',
        OneTrust.variantA_get_and_parse_json W url domain_url dd_id rs_ids s
        = (Val (n, st, report), s') ->
        (st = SUCCESS <-> 0 < new_records s s')
        /\ (st = PARSE_ERROR <-> new_records s s' = 0)).
Proof.
  intros HW.
  pose proof (cookiebot_crawl_outcome W url s) as Hcb.
  pose proof (termly_crawl_outcome W url s) as Htm.
  pose proof (onetrust_crawl_outcome HW url s) as Hot.
  unfold post in Hcb, Htm, Hot. destruct Hot as [Hot Hnone].
  split; [apply (crawl_cases_SUCCESS Hcb); discriminate|].
  split; [apply (crawl_cases_SUCCESS Htm); discriminate|].
  split; [apply (crawl_cases_SUCCESS Hot); discriminate|].
  split.
  { intros Hr. apply same_data_new_records.
    apply (crawl_cases_other Hcb Hr); discriminate. }
  split.
  { intros Hr. apply same_data_new_records.
    apply (crawl_cases_other Htm Hr); discriminate. }
  split; [exact Hnone|].
  split; [intros; apply cookiebot_parse_rule|].
  split; [intros cookie_dict st report s' E; exact (termly_parse_rule E)|].
  split; [intros consent_data n st report s' E; exact (variantB_extract_rule E)|].
  intros domain_url dd_id rs_ids n st report s' E. exact (variantA_parse_rule E).
Qed.

Lemma recorded_outcome_and_cookie_count_witness :
  library_errors_only empty_groups_world
  /\ ~ records NO_COOKIES started_scraper (snd after_empty_groups).
Proof.
  split; [exact empty_groups_world_library_errors|].
  exact (proj1 (proj2 (proj2 (proj2 (proj2 (proj2
    (@recorded_outcome_and_cookie_count empty_groups_world shop_url started_scraper
       empty_groups_world_library_errors))))))).
Defined.

End CookieCountRule.

(* ===================================================================== *)
(** * Further properties of the scrapers                                  *)
(* ===================================================================== *)

(** ** The crawl log and the counters *)

Section CrawlLog.

Lemma assoc_dict_set_other {A} (k other : string) (v : A) d :
  other <> k -> assoc_str other (dict_set k v d) = assoc_str other d.
Proof.
  intros Hne. induction d as [|[k' v'] d IH]; simpl.
  - destruct (String.eqb k other) eqn:E; [|reflexivity].
    apply String.eqb_eq in E. congruence.
  - destruct (String.eqb k' k) eqn:E; simpl.
    + apply String.eqb_eq in E. subst k'.
      destruct (String.eqb k other) eqn:E2; [|reflexivity].
      apply String.eqb_eq in E2. congruence.
    + now rewrite IH.
Qed.

Lemma keys_dict_set {A} (k : string) (v : A) d :
  map fst (dict_set k v d)
  = match assoc_str k d with
    | Some _ => map fst d
    | None => (map fst d ++ [k])%list
    end.
Proof.
  induction d as [|[k' v'] d IH]; simpl; [reflexivity|].
  destruct (String.eqb k' k) eqn:E; simpl; [reflexivity|].
  rewrite IH. now destruct (assoc_str k d).
Qed.

(** [update_crawl_stats] with a report stores [(state, report)] under the
    URL, replacing what was stored for it; the entries of all other URLs
    and the order of the keys stay, a new URL going to the end.  Without a
    report the log is left as it is. *)
Theorem update_crawl_stats_lookup
    (url other : string) (st : CrawlState) (report : string) (s : Scraper) :
  let s' := snd (update_crawl_stats url st (Some report) s) in
  assoc_str url (crawl_log s') = Some (st, report)
  /\ (other <> url -> assoc_str other (crawl_log s') = assoc_str other (crawl_log s))
  /\ map fst (crawl_log s')
     = match assoc_str url (crawl_log s) with
       | Some _ => map fst (crawl_log s)
       | None => (map fst (crawl_log s) ++ [url])%list
       end
  /\ crawl_log (snd (update_crawl_stats url st None s)) = crawl_log s.
Proof.
  intros s'.
  destruct (update_crawl_stats_run url st (Some report) s) as (_ & _ & _ & _ & _ & Hlog & _).
  destruct (update_crawl_stats_run url st None s) as (_ & _ & _ & _ & _ & Hnone & _).
  cbv zeta in Hlog, Hnone. fold s' in Hlog.
  split; [rewrite Hlog; apply assoc_dict_set|].
  split; [intros Hne; rewrite Hlog; now apply assoc_dict_set_other|].
  split; [rewrite Hlog; apply keys_dict_set | exact Hnone].
Qed.

Lemma total_count_update url st report s :
  total_count (snd (update_crawl_stats url st report s)) = S (total_count s).
Proof.
  destruct (update_crawl_stats_run url st report s) as (_ & Hrec & _).
  cbv zeta in Hrec. unfold total_count, all_states. cbn [fold_right].
  rewrite !Hrec. destruct st; cbn; lia.
Qed.

(** After a sequence of calls of [update_crawl_stats], the counter of every
    state has grown by the number of outcomes with that state, the sum of
    all counters by the number of calls, and [failed_urls] by the URLs of
    the outcomes other than [SUCCESS], in the order of the calls, a URL
    that failed twice being listed twice. *)
Theorem update_crawl_stats_tally
    (l : list (string * CrawlState * option string)) (s : Scraper) :
  let s' := snd (record_outcomes l s) in
  fst (record_outcomes l s) = Val tt
  /\ (forall e, status_counts s' e = status_counts s e + count_state e l)
  /\ total_count s' = total_count s + length l
  /\ failed_urls s' = (failed_urls s ++ failures l)%list.
Proof.
  revert s. induction l as [|[[url st] report] l IH]; intros s; cbn zeta.
  - cbn. repeat split; try lia. now rewrite app_nil_r.
  - unfold record_outcomes. cbn [for_each fst snd].
    rewrite (bind_val _ _ _ (update_val url st report s)).
    fold (record_outcomes l).
    specialize (IH (snd (update_crawl_stats url st report s))). cbv zeta in IH.
    destruct IH as (Hv & Hc & Ht & Hf).
    destruct (update_crawl_stats_run url st report s)
      as (_ & Hrec & _ & _ & _ & _ & Hfail & _).
    cbv zeta in Hrec, Hfail.
    split; [exact Hv|]. split; [|split].
    + intros e. rewrite (Hc e), (Hrec e). unfold count_state. cbn [filter fst snd].
      destruct (CrawlState_eqb e st); cbn [length]; lia.
    + rewrite Ht, total_count_update. cbn [length]. lia.
    + rewrite Hf, Hfail. unfold failures. cbn [filter fst snd].
      destruct (CrawlState_eqb st SUCCESS); cbn [negb map fst];
        [reflexivity | now rewrite <- app_assoc].
Qed.

End CrawlLog.

(** ** The end of the array of groups *)

Section Brackets.

(** The loop that looks for the end of the array: it stops at an index
    between its start and the end of the text; at every index before the
    one where it stops, some bracket is still open; and when it stops
    before the end of the text, it stops right behind the bracket that
    closes the last open one. *)
Theorem scan_brackets_finds_closing (l : list ascii) (i open_brackets : nat) :
  let r := OneTrust.scan_brackets l i open_brackets in
  i <= r <= i + length l
  /\ (forall k, k < r - i ->
                (0 < Z.of_nat open_brackets + net_brackets (firstn k l))%Z)
  /\ (r < i + length l ->
      (Z.of_nat open_brackets + net_brackets (firstn (r - i) l) = 0)%Z).
Proof.
  revert i open_brackets. induction l as [|c t IH]; intros i n; cbn zeta.
  - cbn [OneTrust.scan_brackets length]. split; [lia|]. split; intros; lia.
  - cbn [OneTrust.scan_brackets]. destruct (Nat.eqb n 0) eqn:En.
    + apply Nat.eqb_eq in En. subst n. rewrite Nat.sub_diag. cbn [firstn net_brackets].
      split; [cbn [length]; lia|]. split; intros; lia.
    + apply Nat.eqb_neq in En.
      assert (Hstep : exists n',
                 (if Ascii.eqb c "[" then OneTrust.scan_brackets t (S i) (S n)
                  else if Ascii.eqb c "]" then OneTrust.scan_brackets t (S i) (n - 1)
                  else OneTrust.scan_brackets t (S i) n) = OneTrust.scan_brackets t (S i) n'
                 /\ Z.of_nat n' = (Z.of_nat n + bracket_step c)%Z).
      { unfold bracket_step.
        destruct (Ascii.eqb c "["); [exists (S n); split; [reflexivity | lia]|].
        destruct (Ascii.eqb c "]"); [exists (n - 1); split; [reflexivity | lia]|].
        exists n; split; [reflexivity | lia]. }
      destruct Hstep as (n' & -> & Hn').
      specialize (IH (S i) n'). cbv zeta in IH.
      destruct IH as (Hb & Hopen & Hclose).
      set (r := OneTrust.scan_brackets t (S i) n') in *.
      split; [cbn [length]; lia|]. split.
      * intros [|k] Hk; cbn [firstn net_brackets]; [lia|].
        specialize (Hopen k ltac:(lia)). lia.
      * intros Hr. cbn [length] in Hr.
        replace (r - i) with (S (r - S i)) by lia. cbn [firstn net_brackets].
        specialize (Hclose ltac:(lia)). lia.
Qed.

End Brackets.

(** ** Letter case in category names *)

Section LetterCase.

Lemma is_space_lower (c : ascii) : is_space (lower c) = is_space c.
Proof.
  destruct c as [b0 b1 b2 b3 b4 b5 b6 b7].
  destruct b0, b1, b2, b3, b4, b5, b6, b7; reflexivity.
Qed.

Lemma lower_lower (c : ascii) : lower (lower c) = lower c.
Proof.
  destruct c as [b0 b1 b2 b3 b4 b5 b6 b7].
  destruct b0, b1, b2, b3, b4, b5, b6, b7; reflexivity.
Qed.

Lemma prefix_ci_same_lower (w l l' : list ascii) :
  map lower l = map lower l' -> prefix_ci w l = prefix_ci w l'.
Proof.
  revert l l'. induction w as [|c w IH]; intros [|x l] [|x' l'] H; simpl in *;
    try reflexivity; try discriminate.
  injection H as Hx Hl. unfold ci_eqb. now rewrite Hx, (IH l l' Hl).
Qed.

Lemma somewhere_same_lower (f : list ascii -> bool) :
  (forall l l', map lower l = map lower l' -> f l = f l') ->
  forall l l', map lower l = map lower l' -> somewhere f l = somewhere f l'.
Proof.
  intros Hf. induction l as [|x l IH]; intros [|x' l'] H; simpl in *;
    try discriminate.
  - reflexivity.
  - injection H as Hx Hl.
    rewrite (Hf (x :: l) (x' :: l')) by (simpl; now rewrite Hx, Hl).
    now rewrite (IH l' Hl).
Qed.

Lemma space_then_ads_same_lower (l l' : list ascii) :
  map lower l = map lower l' -> space_then_ads l = space_then_ads l'.
Proof.
  destruct l as [|x l], l' as [|x' l']; cbn [map space_then_ads]; intros H;
    try discriminate; [reflexivity|].
  injection H as Hx Hl.
  rewrite <- (is_space_lower x), Hx, is_space_lower.
  now rewrite (@prefix_ci_same_lower (chars "ads") l l' Hl).
Qed.

Lemma contains_any_ci_same_lower kws (a b : string) :
  map lower (chars a) = map lower (chars b) ->
  contains_any_ci kws a = contains_any_ci kws b.
Proof.
  intros H. unfold contains_any_ci, contains_ci.
  induction kws as [|kw kws IH]; simpl; [reflexivity|].
  rewrite IH. f_equal.
  apply somewhere_same_lower; [|exact H].
  intros l l'. apply (@prefix_ci_same_lower (chars kw)).
Qed.

(** [category_lookup_en] ignores letter case: two names that are equal
    once their letters A-Z are lowered resolve to the same category. *)
Theorem category_lookup_en_ignores_case (a b : string) :
  map lower (chars a) = map lower (chars b) ->
  OneTrust.category_lookup_en a = OneTrust.category_lookup_en b.
Proof.
  intros H. rewrite !category_lookup_en_by_keywords. unfold category_by_keywords.
  unfold names_advertising, names_necessary, names_analytical, names_functional,
    names_uncategorized, has_ads_word, starts_with_ads.
  rewrite (@prefix_ci_same_lower (chars "ads") _ _ H).
  rewrite (@somewhere_same_lower space_then_ads space_then_ads_same_lower _ _ H).
  now rewrite !(fun kws => @contains_any_ci_same_lower kws a b H).
Qed.

Lemma category_lookup_en_ignores_case_witness :
  map lower (chars "TARGETING Cookies") = map lower (chars "targeting cookies")
  /\ OneTrust.category_lookup_en "TARGETING Cookies"
     = OneTrust.category_lookup_en "targeting cookies".
Proof.
  split; [reflexivity|].
  exact (category_lookup_en_ignores_case "TARGETING Cookies" "targeting cookies" eq_refl).
Defined.

End LetterCase.

(** ** The hosts that Variant A accepts *)

Section VariantAHosts.

Lemma base_pattern_match (w src : string) :
  re_match_ (Group 1 (lit w)) src
  = if is_prefix (chars w) (chars src)
    then Some (ReMatch (chars src) 0 (length (chars w)) [(1, (0, length (chars w)))])
    else None.
Proof.
  unfold re_match_, match_at. cbn [run skipn m_pos]. rewrite run_lit. cbn [m_rest].
  destruct (is_prefix (chars w) (chars src)); reflexivity.
Qed.

Lemma firstn_exact {A} (l r : list A) : firstn (length l) (l ++ r) = l.
Proof.
  rewrite firstn_app, Nat.sub_diag, firstn_all. cbn [firstn]. apply app_nil_r.
Qed.

Lemma base_pattern_group (w rest : string) :
  option_map (fun m => OneTrust.str_attr (group m 1))
             (re_match_ (Group 1 (lit w)) (w ++ rest))
  = Some w.
Proof.
  rewrite base_pattern_match, chars_app, is_prefix_self.
  cbn [option_map group assoc_nat Nat.eqb mt_groups mt_subject slice skipn].
  unfold slice. cbn [skipn]. rewrite Nat.sub_0_r, firstn_exact, str_chars. reflexivity.
Qed.

Lemma try_base_patterns_host (host rest dd_id : string) (s : Scraper) :
  In host [cookielaw_host; optanon_host; cookiepro_cdn_host; cookiepro_blob_host] ->
  fst (OneTrust.try_base_patterns OneTrust.base_patterns (host ++ rest) dd_id s)
  = Val (Some (host, dd_id, SUCCESS, Some "Found data-domain-script id")).
Proof.
  intros Hin.
  assert (Hhit : forall w pats s0,
             fst (OneTrust.try_base_patterns
                    ((w, Group 1 (lit host)) :: pats) (host ++ rest) dd_id s0)
             = Val (Some (host, dd_id, SUCCESS, Some "Found data-domain-script id"))).
  { intros w pats s0. cbn [OneTrust.try_base_patterns].
    pose proof (base_pattern_group host rest) as Hg.
    destruct (re_match_ (Group 1 (lit host)) (host ++ rest)) as [m|];
      [|discriminate Hg].
    cbn [option_map] in Hg.
    assert (Hs : OneTrust.str_attr (group m 1) = host) by congruence.
    cbn [ret fst]. now rewrite Hs. }
  assert (Hmiss : forall src (w : string) pats s0,
             is_prefix (chars w) (chars (host ++ rest)) = false ->
             fst (OneTrust.try_base_patterns
                    ((src, Group 1 (lit w)) :: pats) (host ++ rest) dd_id s0)
             = fst (OneTrust.try_base_patterns pats (host ++ rest) dd_id
                      (snd (log DEBUG ("no match for pattern " ++ src ++ " on "
                                       ++ host ++ rest) s0)))).
  { intros src w pats s0 Hw. cbn [OneTrust.try_base_patterns].
    rewrite base_pattern_match, Hw. now rewrite bind_log. }
  unfold OneTrust.base_patterns, OneTrust.cookielaw_base_pattern,
    OneTrust.optanon_base_pattern, OneTrust.cookiecdn_base_pattern,
    OneTrust.cookiepro_base_pattern.
  destruct Hin as [<-|[<-|[<-|[<-|[]]]]].
  - apply Hhit.
  - rewrite Hmiss by (rewrite chars_app; reflexivity). apply Hhit.
  - rewrite Hmiss by (rewrite chars_app; reflexivity).
    rewrite Hmiss by (rewrite chars_app; reflexivity). apply Hhit.
  - rewrite Hmiss by (rewrite chars_app; reflexivity).
    rewrite Hmiss by (rewrite chars_app; reflexivity).
    rewrite Hmiss by (rewrite chars_app; reflexivity). apply Hhit.
Qed.

Lemma uuid_match_front (u : string) :
  is_match (re_match_ uuid_pattern u) = front uuid_tests (chars u).
Proof.
  unfold re_match_, match_at. cbn [skipn]. rewrite linear_uuid. cbn [m_rest].
  now destruct (front uuid_tests (chars u)).
Qed.

(** Variant A accepts a script element whose [data-domain-script] starts
    with a UUID and whose [src] starts with any of the four OneTrust hosts,
    the cookiepro blob host included: the element yields that host, the
    id as it stands, and [SUCCESS]. *)
Theorem variantA_accepts_four_hosts
    (e : Element) (host rest dd_id : string) (s : Scraper) :
  In host [cookielaw_host; optanon_host; cookiepro_cdn_host; cookiepro_blob_host] ->
  front uuid_tests (chars dd_id) = true ->
  e (clock s) "data-domain-script" = Val (Some dd_id) ->
  e (S (clock s)) "src" = Val (Some (host ++ rest)) ->
  fst (OneTrust.variantA_check_element e s)
  = Val (Some (host, dd_id, SUCCESS, Some "Found data-domain-script id")).
Proof.
  intros Hin Hu Hdd Hsrc.
  unfold OneTrust.variantA_check_element, try_except.
  unfold bind at 1, OneTrust.get_attribute at 1. rewrite external_eq, Hdd.
  cbn [OneTrust.str_attr]. rewrite uuid_match_front, Hu.
  unfold bind at 1, OneTrust.get_attribute at 1. rewrite external_eq.
  cbn [clock set_clock]. rewrite Hsrc.
  pose proof (try_base_patterns_host rest dd_id
                (set_clock (S (S (clock s))) (set_clock (S (clock s)) s)) Hin) as H.
  destruct (OneTrust.try_base_patterns _ _ _ _) as [o s3].
  cbn [fst] in H. subst o. reflexivity.
Qed.

Lemma variantA_accepts_four_hosts_witness :
  In cookiepro_blob_host
     [cookielaw_host; optanon_host; cookiepro_cdn_host; cookiepro_blob_host]
  /\ front uuid_tests (chars blob_uuid) = true
  /\ fst (OneTrust.variantA_check_element blob_stub started_scraper)
     = Val (Some (cookiepro_blob_host, blob_uuid, SUCCESS,
                  Some "Found data-domain-script id")).
Proof.
  assert (Hin : In cookiepro_blob_host
                   [cookielaw_host; optanon_host; cookiepro_cdn_host;
                    cookiepro_blob_host])
    by (right; right; right; left; reflexivity).
  assert (Hu : front uuid_tests (chars blob_uuid) = true) by reflexivity.
  split; [exact Hin|]. split; [exact Hu|].
  exact (@variantA_accepts_four_hosts blob_stub cookiepro_blob_host
           "/scripttemplates/otSDKStub.js" blob_uuid started_scraper
           Hin Hu eq_refl eq_refl).
Defined.

End VariantAHosts.

(** ** The rule sets of Variant A *)

Section RuleSets.

Lemma collect_ruleset_ids_from (descs : list ruleset_desc) (rulesets : list pyval)
      (acc : M (list pyval)) (ids0 : list pyval) (s : Scraper) :
  Forall2 describes descs rulesets ->
  acc s = (Val ids0, s) ->
  fold_left
    (fun (acc : M (list pyval)) (r : pyval) =>
       ids <- acc ;;
       languageset <- lift (getitem r "LanguageSwitcherPlaceholder") ;;
       if is_None languageset then ret ids
       else
         vals <- lift (py_values languageset) ;;
         if existsb (fun v => py_eq_str v "en") vals then
           id <- lift (getitem r "Id") ;;
           ret (ids ++ [id])%list
         else ret ids)
    rulesets acc s
  = (Val (ids0 ++ map fst (filter english descs))%list, s).
Proof.
  intros H. revert acc ids0. induction H as [|d r descs rulesets Hd _ IH];
    intros acc ids0 Hacc; cbn [fold_left filter map].
  - now rewrite app_nil_r.
  - destruct Hd as [Hlang Hid]. destruct d as [id [vals|]]; cbn [snd fst] in *.
    + destruct Hlang as (ls & Hls & Hnone & Hvals).
      unfold english at 1. cbn [snd].
      destruct (existsb (fun v => py_eq_str v "en") vals) eqn:Een.
      * rewrite (IH _ (ids0 ++ [id])%list).
        -- cbn [map fst]. now rewrite <- app_assoc.
        -- unfold bind, lift. rewrite Hacc, Hls, Hnone, Hvals, Een.
           rewrite (Hid Een). reflexivity.
      * apply IH. unfold bind, lift. now rewrite Hacc, Hls, Hnone, Hvals, Een.
    + unfold english at 1. cbn [snd]. apply IH.
      unfold bind, lift. now rewrite Hacc, Hlang.
Qed.

(** When the list of rule sets is fetched and decoded, and every rule set
    has a language table (or [None] in its place) and, if the table holds
    the value ["en"], an id: the step returns the ids of the rule sets whose
    table holds ["en"], in the order of the list, with [SUCCESS]; when there
    is no such rule set it returns [PARSE_ERROR]. *)
Theorem variantA_ruleset_ids_are_the_english_ones
    (W : World) (domain_url dd_id : string) (s s1 : Scraper)
    (resp : Response) (rep : string) (doc : pyval)
    (rulesets : list pyval) (descs : list ruleset_desc) :
  let target_url := domain_url ++ "/consent/" ++ dd_id ++ "/" ++ dd_id ++ ".json" in
  let ids := map fst (filter english descs) in
  static_get_request W target_url [] s = (Val (Some resp, SUCCESS, rep), s1) ->
  json_loads W (text resp) = Val doc ->
  getitem doc "RuleSet" = Val (PList rulesets) ->
  Forall2 describes descs rulesets ->
  OneTrust.variantA_try_retrieve_ruleset_id W domain_url dd_id s
  = (Val (if Nat.eqb (length ids) 0
          then ([], PARSE_ERROR,
                Some ("No valid language ruleset found on " ++ target_url))
          else (ids, SUCCESS,
                Some ("Found " ++ str_of_nat (length ids) ++ " ruleset ids"))),
     s1).
Proof.
  intros target_url ids Hget Hjson Hrs Hdesc.
  unfold OneTrust.variantA_try_retrieve_ruleset_id. fold target_url.
  rewrite (bind_val _ _ _ Hget). cbn beta iota.
  change (negb (CrawlState_eqb SUCCESS SUCCESS)) with false. cbn iota.
  unfold bind at 1, lift at 1. rewrite Hjson.
  apply try_val.
  unfold bind at 1, lift at 1. rewrite Hrs. cbn [is_None].
  unfold bind at 1, lift at 1. cbn [iterate].
  assert (Hids : OneTrust.collect_ruleset_ids rulesets s1 = (Val ids, s1)).
  { unfold OneTrust.collect_ruleset_ids.
    rewrite (@collect_ruleset_ids_from descs rulesets (ret []) [] s1 Hdesc eq_refl).
    reflexivity. }
  rewrite (bind_val _ _ _ Hids).
  destruct (Nat.eqb (length ids) 0); reflexivity.
Qed.

Lemma variantA_ruleset_ids_are_the_english_ones_witness :
  Forall2 describes
    [(PStr "r-de", Some [PStr "de"]); (PStr "r-uk", Some [PStr "en"; PStr "fr"]);
     (PStr "r-global", None)]
    three_rulesets
  /\ fst (OneTrust.variantA_try_retrieve_ruleset_id three_rulesets_world
            "https://cdn.cookielaw.org" blob_uuid started_scraper)
     = Val ([PStr "r-uk"], SUCCESS, Some "Found 1 ruleset ids").
Proof.
  assert (Hd : Forall2 describes
                 [(PStr "r-de", Some [PStr "de"]);
                  (PStr "r-uk", Some [PStr "en"; PStr "fr"]);
                  (PStr "r-global", None)]
                 three_rulesets).
  { unfold three_rulesets. repeat apply Forall2_cons; try apply Forall2_nil.
    - split; [|discriminate]. eexists. repeat split.
    - split; [|reflexivity]. eexists. repeat split.
    - split; [reflexivity | discriminate]. }
  split; [exact Hd|].
  rewrite (@variantA_ruleset_ids_are_the_english_ones three_rulesets_world
             "https://cdn.cookielaw.org" blob_uuid started_scraper
             (set_clock 1 started_scraper)
             (MkResponse 200 "<html></html>") "200"
             (PDict [("RuleSet", PList three_rulesets)]) three_rulesets _
             eq_refl eq_refl eq_refl Hd).
  reflexivity.
Defined.

End RuleSets.

(** ** The reported number of cookies *)

Section ReportedCount.

Lemma termly_success_report {url cookie_dict s report s'} :
  Termly.parse_termly_cookie_json url cookie_dict s = (Val (SUCCESS, report), s') ->
  report = Some ("Number of Cookies extracted: " ++ str_of_nat (new_records s s')).
Proof.
  unfold Termly.parse_termly_cookie_json. cbv zeta.
  set (s0 := set_weird_stuff_occurred false (set_cookie_count 0 s)).
  assert (Hd0 : same_data s s0) by (now split).
  unfold bind at 1. cbn [set_count]. unfold bind at 1. cbn [set_weird]. fold s0.
  unfold bind at 1, lift at 1.
  destruct (contains_key "cookies" cookie_dict) as [[|]|e]; [| |discriminate].
  2:{ unfold bind. rewrite debug_dump_dict_val. cbn [ret]. discriminate. }
  unfold bind at 1, try_except at 1, bind at 1.
  pose proof (satd_walk_buckets url cookie_dict s0) as Ht.
  destruct (Termly.walk_buckets url cookie_dict s0) as [[[]|e] s1] eqn:E.
  2:{ rewrite except_Exception. unfold bind. rewrite debug_dump_dict_val.
      cbn [ret]. discriminate. }
  apply owes_tracks in Ht. destruct (tracks_count Ht) as [Hc _]. cbn in Hc.
  cbv beta iota delta [ret bind get fst snd].
  set (dump := when (weird_stuff_occurred s1)
                    (Termly.debug_dump_dict "termly_malf_resp.pkl" cookie_dict)).
  assert (Hdv : dump s1 = (Val tt, snd (dump s1))).
  { unfold dump, when. destruct (weird_stuff_occurred s1); [|reflexivity].
    apply debug_dump_dict_val. }
  assert (Hdd : same_data s1 (snd (dump s1))).
  { unfold dump, when. destruct (weird_stuff_occurred s1); [|apply same_data_refl].
    apply same_data_debug_dump_dict. }
  assert (Hdc : cookie_count (snd (dump s1)) = cookie_count s1).
  { unfold dump, when. destruct (weird_stuff_occurred s1); [|reflexivity].
    apply debug_dump_dict_count. }
  rewrite Hdv. cbv beta iota delta [get_count ret]. cbn [fst snd]. rewrite Hdc.
  destruct (Nat.eqb (cookie_count s1) 0); [discriminate|].
  intros [= <- <-].
  now rewrite (same_data_new_records_r s Hdd), (same_data_new_records_l s1 Hd0), Hc.
Qed.

(** The number of cookies that an extractor reports with [SUCCESS] is the
    number of rows that it appended to the collected data: the count that
    Variant A and Variant B of OneTrust return, and the count in the report
    of Termly. *)
Theorem reported_cookie_count_is_exact (W : World) (url : string) (s : Scraper) :
  (forall domain_url dd_id rs_ids n report s',
      OneTrust.variantA_get_and_parse_json W url domain_url dd_id rs_ids s
      = (Val (n, SUCCESS, report), s') ->
      n = new_records s s')
  /\ (forall consent_data n report s',
        OneTrust.variantB_extract_cookies_from_dict url consent_data s
        = (Val (n, SUCCESS, report), s') ->
        n = new_records s s')
  /\ (forall cookie_dict report s',
        Termly.parse_termly_cookie_json url cookie_dict s = (Val (SUCCESS, report), s') ->
        report = Some ("Number of Cookies extracted: " ++ str_of_nat (new_records s s'))).
Proof.
  split; [|split].
  - intros domain_url dd_id rs_ids n report s' E.
    pose proof (variantA_get_and_parse_json_cases W url domain_url dd_id rs_ids s) as H.
    unfold post in H. rewrite E in H. cbn [fst snd] in H.
    destruct H as [_ [(_ & _ & Hn)|(Hx & _)]]; [exact Hn | discriminate Hx].
  - intros consent_data n report s' E.
    pose proof (variantB_extract_cases url consent_data s) as H.
    cbv zeta in H. unfold post in H. rewrite E in H. cbn [fst snd] in H.
    destruct H as [_ [(_ & _ & _ & Hn)|[(Hx & _)|(Hx & _)]]];
      [exact Hn | discriminate Hx | discriminate Hx].
  - intros cookie_dict report s' E. exact (termly_success_report E).
Qed.

End ReportedCount.

(** ** The rows that a crawl appends *)

Section AddsGeneric.

Variable P : CookieTuple -> Prop.

Lemma adds_refl s : adds P s s.
Proof. exists []. split; [now rewrite app_nil_r | constructor]. Qed.

Lemma adds_trans a b c : adds P a b -> adds P b c -> adds P a c.
Proof.
  intros (n1 & H1 & F1) (n2 & H2 & F2). exists (n1 ++ n2)%list. split.
  - now rewrite H2, H1, app_assoc.
  - apply Forall_app. now split.
Qed.

Lemma adds_unchanged s s' :
  database_cookie_data s' = database_cookie_data s -> adds P s s'.
Proof. intros H. exists []. split; [now rewrite app_nil_r | constructor]. Qed.

Lemma adds_of_still {A} (c : M A) : keeps still c -> keeps (adds P) c.
Proof. intros H s. apply adds_unchanged, (still_data (H s)). Qed.

Lemma adds_same_data {A} (c : M A) :
  (forall s, database_cookie_data (snd (c s)) = database_cookie_data s) ->
  keeps (adds P) c.
Proof. intros H s. apply adds_unchanged, H. Qed.

Lemma adds_collect site_url name domain path cat_name cat_id purpose type :
  P (MkCookie site_url name domain path cat_id cat_name purpose type) ->
  keeps (adds P) (collect_cookie_dat site_url name domain path cat_name cat_id
                                     purpose type).
Proof.
  intros HP s. rewrite collect_cookie_dat_run.
  destruct (negb (ident_hashable (name, domain, path))); cbn [snd].
  - apply adds_refl.
  - eexists. split; [reflexivity|]. now constructor.
Qed.

Lemma keeps_bind_lift (R : Scraper -> Scraper -> Prop) {A B}
      (o : outcome A) (f : A -> M B) :
  (forall s, R s s) ->
  (forall a, o = Val a -> keeps R (f a)) -> keeps R (bind (lift o) f).
Proof.
  intros Hrefl Hf s. unfold bind, lift. destruct o as [a|e]; cbn [snd].
  - exact (Hf a eq_refl s).
  - apply Hrefl.
Qed.

Lemma keeps_bind_yields (R : Scraper -> Scraper -> Prop) {A B}
      (c : M A) (f : A -> M B) (Q : A -> Prop) :
  (forall a b c, R a b -> R b c -> R a c) ->
  yields c Q -> keeps R c -> (forall a, Q a -> keeps R (f a)) -> keeps R (bind c f).
Proof.
  intros Htrans Hy Hc Hf s. unfold bind. specialize (Hc s).
  destruct (c s) as [[a|e] s1] eqn:E; cbn [snd] in *.
  - eapply Htrans; [exact Hc|]. exact (Hf a (Hy _ _ _ E) s1).
  - exact Hc.
Qed.

End AddsGeneric.

Lemma cat_lookup_yields v :
  yields (OneTrust.cat_lookup v)
         (fun a => exists name, v = PStr name /\ a = OneTrust.category_lookup_en name).
Proof.
  intros s a s' E. destruct v as [| | |name| | |]; try discriminate E.
  exists name. split; [reflexivity|].
  unfold OneTrust.cat_lookup, bind in E.
  destruct (OneTrust.category_lookup_en name); cbn in E; now injection E as <- _.
Qed.

Create HintDb adds_db.

Ltac adds_leaf :=
  first [ solve [apply adds_of_still; auto with still_db nocore]
        | solve [auto with adds_db nocore] ].

Ltac adds_step :=
  lazymatch goal with
  | |- keeps (adds ?P) (bind (lift ?o) _) =>
      apply (@keeps_bind_lift (adds P) _ _ o _ (@adds_refl P)); intros ? ?
  | |- keeps (adds ?P) (bind (OneTrust.cat_lookup ?v) _) =>
      apply (@keeps_bind_yields (adds P) _ _ _ _ _ (@adds_trans P)
               (cat_lookup_yields v));
      [adds_leaf | intros ? (? & ? & ?)]
  | |- keeps (adds ?P) (match ?x with _ => _ end) => destruct x eqn:?
  | |- keeps (adds ?P) (collect_cookie_dat _ _ _ _ _ _ _ _) => apply adds_collect
  | |- keeps (adds ?P) (set_count _) => apply adds_same_data; intros; reflexivity
  | |- keeps (adds ?P) (add_count _) => apply adds_same_data; intros; reflexivity
  | |- keeps (adds ?P) _ =>
      first [adds_leaf | frame_step (@adds_refl P) (@adds_trans P)]
  | |- handled (adds ?P) _ => frame_step (@adds_refl P) (@adds_trans P)
  end.

Section RowsOfACrawl.

Variable W : World.

Lemma adds_update P url st report : keeps (adds P) (update_crawl_stats url st report).
Proof.
  intros s. apply adds_unchanged.
  now destruct (update_crawl_stats_run url st report s) as (_ & _ & H & _).
Qed.

Lemma adds_dump_debug_js P cbid js : keeps (adds P) (Cookiebot.dump_debug_js cbid js).
Proof. apply adds_of_still, still_dump_debug_js. Qed.

Lemma adds_debug_dump_dict P outname d : keeps (adds P) (Termly.debug_dump_dict outname d).
Proof. intros s. apply adds_unchanged, same_data_debug_dump_dict. Qed.

#[local] Hint Resolve adds_update adds_dump_debug_js adds_debug_dump_dict : adds_db.

Lemma adds_parse_bucket url js catname :
  keeps (adds (cookiebot_row url)) (Cookiebot.parse_bucket W url js catname).
Proof.
  unfold Cookiebot.parse_bucket. repeat adds_step.
  repeat split; assumption.
Qed.

#[local] Hint Resolve adds_parse_bucket : adds_db.

Lemma adds_cookiebot url :
  keeps (adds (cookiebot_row url)) (Cookiebot.scrape_website W url).
Proof.
  unfold Cookiebot.scrape_website, Cookiebot.parse_cc_js, Cookiebot.walk_tables.
  repeat adds_step.
Qed.

Lemma adds_parse_cookie url catname cat_id cookie :
  Termly.name_to_cat catname = Some cat_id ->
  keeps (adds (termly_row url)) (Termly.parse_cookie url catname cat_id cookie).
Proof.
  intros Hcat. unfold Termly.parse_cookie. repeat adds_step.
  all: repeat split; assumption.
Qed.

Lemma adds_termly url :
  keeps (adds (termly_row url)) (Termly.scrape_website W url).
Proof.
  unfold Termly.scrape_website, Termly.parse_termly_cookie_json, Termly.walk_buckets.
  repeat adds_step.
  all: now apply adds_parse_cookie.
Qed.

Lemma adds_variantA_collect_cookie url name cat_id c :
  cat_id = OneTrust.category_lookup_en name ->
  keeps (adds (onetrust_row url))
        (OneTrust.variantA_collect_cookie url name cat_id c).
Proof.
  intros Hcat. unfold OneTrust.variantA_collect_cookie. repeat adds_step.
  repeat split; assumption.
Qed.

Lemma adds_variantA_get_and_parse_json url domain_url dd_id rs_ids :
  keeps (adds (onetrust_row url))
        (OneTrust.variantA_get_and_parse_json W url domain_url dd_id rs_ids).
Proof.
  unfold OneTrust.variantA_get_and_parse_json, OneTrust.variantA_fetch_ruleset,
    OneTrust.variantA_parse_ruleset.
  repeat adds_step.
  all: subst; now apply adds_variantA_collect_cookie.
Qed.

Lemma adds_variantB_extract url consent_data :
  keeps (adds (onetrust_row url))
        (OneTrust.variantB_extract_cookies_from_dict url consent_data).
Proof.
  unfold OneTrust.variantB_extract_cookies_from_dict, OneTrust.variantB_walk_groups.
  repeat adds_step.
  all: subst; repeat split; reflexivity.
Qed.

#[local] Hint Resolve adds_variantA_get_and_parse_json adds_variantB_extract : adds_db.

Lemma handled_variant_failed (R : Scraper -> Scraper -> Prop) {A}
      (k : CrawlState -> option string -> M A) :
  (forall st m, keeps R (k st m)) -> handled R (OneTrust.except_variant_failed k).
Proof.
  intros Hk e k'. destruct e as [c msg|st m]; cbn; [discriminate|].
  intros [= <-]. apply Hk.
Qed.

Lemma adds_onetrust url :
  keeps (adds (onetrust_row url)) (OneTrust.scrape_website W url).
Proof.
  unfold OneTrust.scrape_website, OneTrust.variantA_block, OneTrust.variantB_block,
    OneTrust.check_state.
  repeat adds_step.
  all: apply handled_variant_failed; intros; repeat adds_step.
Qed.

(** A crawl only appends to the collected data: the rows that were there
    stay as they are, in place, whether the crawl returns or raises.  Every
    row that a crawl of [url] appends carries [url] as its site and ["/"]
    as its path, and its category id is the one that the extractor assigns
    to its category name: by the table [name_to_cat] for Cookiebot and for
    Termly, by [category_lookup_en] for OneTrust, whose rows have no type. *)
Theorem crawl_appends_rows_of_its_url (url : string) (s : Scraper) :
  adds (cookiebot_row url) s (snd (Cookiebot.scrape_website W url s))
  /\ adds (termly_row url) s (snd (Termly.scrape_website W url s))
  /\ adds (onetrust_row url) s (snd (OneTrust.scrape_website W url s)).
Proof.
  split.
  - exact (adds_cookiebot url s).
  - split.
    + exact (adds_termly url s).
    + exact (adds_onetrust url s).
Qed.

End RowsOfACrawl.

(** ** C3: the collected data of a failed crawl *)

(** The statement builds on the lemmas above, by which a crawl only appends
    rows of its own site, and on the case analyses of the parse loops. *)

Lemma not_completes_cut_short (body : M unit) s : ~ completes body s -> cut_short body s.
Proof.
  intros H. destruct (body s) as [[[]|e] s'] eqn:E.
  - exfalso. apply H. now exists s'.
  - now exists e, s'.
Qed.

Section TermlyFailedCrawl.
Variable W : World.

Lemma termly_early_failure url s d st rep s1 :
  Termly.retrieve_termly_json W url s = (Val (d, st, rep), s1) ->
  st <> SUCCESS ->
  records st s (snd (Termly.scrape_website W url s))
  /\ same_data s (snd (Termly.scrape_website W url s)).
Proof.
  intros E1 Hne.
  pose proof (keeps_run (still_retrieve_termly_json W url) E1) as H1.
  unfold Termly.scrape_website. rewrite (bind_val _ _ _ E1). cbn beta iota.
  apply CrawlState_eqb_neq in Hne. rewrite Hne. cbn [negb].
  unfold bind. rewrite update_val. cbn [ret fst snd].
  destruct (update_after url st rep (still_gathers H1)) as (Hrec & _ & Hsd).
  split; [exact Hrec | apply Hsd, still_same_data, H1].
Qed.

Lemma termly_failed_crawl url s st :
  records st s (snd (Termly.scrape_website W url s)) -> st <> SUCCESS ->
  same_data s (snd (Termly.scrape_website W url s))
  \/ (st = PARSE_ERROR /\ termly_cut_short W url s).
Proof.
  intros Hrec Hst.
  destruct (Termly.retrieve_termly_json W url s) as [[[[d st0] rep]|e] s1] eqn:E1.
  2:{ exfalso. revert Hrec. unfold Termly.scrape_website.
      rewrite (bind_exc _ _ _ E1). cbn [snd]. intros Hrec.
      apply (records_not_nothing Hrec). apply records_nothing_of_status.
      exact (still_status (keeps_run (still_retrieve_termly_json W url) E1)). }
  destruct (CrawlState_eqb st0 SUCCESS) eqn:E0.
  2:{ apply CrawlState_eqb_neq in E0.
      destruct (termly_early_failure url s E1 E0) as [_ Hsd]. now left. }
  apply CrawlState_eqb_eq in E0. subst st0.
  pose proof (keeps_run (still_retrieve_termly_json W url) E1) as H1.
  pose proof (still_log INFO "Found cookie json dict" s1) as HL.
  set (sL := snd (log INFO "Found cookie json dict" s1)) in *.
  pose proof (still_trans H1 HL) as HsL.
  pose proof (parse_termly_cookie_json_cases url d sL) as Hp.
  cbv zeta in Hp. unfold post in Hp.
  assert (Erun : Termly.scrape_website W url s
                 = ('(state, report) <- Termly.parse_termly_cookie_json url d ;;
                    update_crawl_stats url state report ;;
                    ret (CrawlState_eqb state SUCCESS))%py sL).
  { unfold Termly.scrape_website. rewrite (bind_val _ _ _ E1). cbn beta iota.
    change (negb (CrawlState_eqb SUCCESS SUCCESS)) with false. cbn iota.
    now rewrite bind_log. }
  rewrite Erun in Hrec |- *.
  destruct (Termly.parse_termly_cookie_json url d sL) as [[[st1 rep1]|e] sp] eqn:Ep;
    cbn [fst snd] in Hp; destruct Hp as [Hg Hcases].
  2:{ exfalso. revert Hrec. rewrite (bind_exc _ _ _ Ep). cbn [snd]. intros Hrec.
      apply (records_not_nothing Hrec). apply records_nothing_of_status.
      rewrite (gathers_status Hg). exact (still_status HsL). }
  revert Hrec. rewrite (bind_val _ _ _ Ep). cbn beta iota.
  unfold bind. rewrite update_val. cbn [ret fst snd]. intros Hrec.
  pose proof (gathers_trans (still_gathers HsL) Hg) as Hg1.
  destruct (update_after url st1 rep1 Hg1) as (Hrec1 & _ & Hsame).
  pose proof (records_functional Hrec Hrec1) as ->.
  pose proof (still_same_data HsL) as Hsd.
  destruct Hcases as [(_ & [(-> & _)|[(-> & _ & Hd)|(-> & Hcut)]])|(_ & -> & Hd)].
  - now exfalso.
  - left. apply Hsame. eapply same_data_trans; eassumption.
  - right. split; [reflexivity|].
    exists d, rep, s1. split; [exact E1|].
    apply not_completes_cut_short. exact Hcut.
  - left. apply Hsame. eapply same_data_trans; eassumption.
Qed.

End TermlyFailedCrawl.

Section OneTrustFailedCrawl.
Variable W : World.
Hypothesis HW : library_errors_only W.

Ltac by_check_state E H :=
  match type of E with
  | context [bind (OneTrust.check_state ?st ?rep) ?k ?x] =>
      destruct (check_state_cases st rep k x) as [[H Ec]|[H Ec]];
      rewrite Ec in E; clear Ec
  end.

Lemma variantA_block_failed url s st msg s' :
  OneTrust.variantA_block W url s = (Exc (VariantFailed st msg), s') ->
  variantA_fails W url s st msg s'.
Proof.
  intros E. unfold OneTrust.variantA_block in E.
  destruct (OneTrust.variantA_try_retrieve_uuid W url s)
    as [[[[[d i] st1] rep1]|e] s1] eqn:E1.
  2:{ rewrite (bind_exc _ _ _ E1) in E.
      pose proof (quiet_variantA_try_retrieve_uuid HW url _ E1) as Hq.
      injection E as Ee Es. subst e. destruct Hq. }
  rewrite (bind_val _ _ _ E1) in E. cbn beta iota in E.
  by_check_state E Hst1.
  { injection E as <- <- <-. now apply variantA_fails_uuid with d i. }
  subst st1. rewrite bind_log in E.
  destruct (OneTrust.variantA_try_retrieve_ruleset_id W d i
              (snd (log DEBUG ("Onetrust data domain url = " ++ d ++ "/" ++ i) s1)))
    as [[[[ids st2] rep2]|e] s2] eqn:E2.
  2:{ rewrite (bind_exc _ _ _ E2) in E.
      pose proof (quiet_variantA_try_retrieve_ruleset_id HW d i _ E2) as Hq.
      injection E as Ee Es. subst e. destruct Hq. }
  rewrite (bind_val _ _ _ E2) in E. cbn beta iota in E.
  by_check_state E Hst2.
  { injection E as <- <- <-. now apply variantA_fails_ruleset with d i rep1 s1 ids. }
  subst st2. rewrite bind_log, bind_log in E.
  destruct (OneTrust.variantA_get_and_parse_json W url d i ids
              (snd (log DEBUG (py_str (PList ids))
                 (snd (log INFO ("Found " ++ str_of_nat (length ids) ++ " ruleset ids")
                         s2)))))
    as [[[[n st3] rep3]|e] s3] eqn:E3.
  2:{ rewrite (bind_exc _ _ _ E3) in E.
      pose proof (quiet_variantA_get_and_parse_json HW url d i ids _ E3) as Hq.
      injection E as Ee Es. subst e. destruct Hq. }
  rewrite (bind_val _ _ _ E3) in E. cbn beta iota in E.
  by_check_state E Hst3.
  { injection E as <- <- <-.
    now apply variantA_fails_json with d i rep1 s1 ids rep2 s2 n. }
  exfalso. unfold bind at 1 in E. rewrite update_val in E. discriminate E.
Qed.

Lemma variantB_block_failed url s st msg s' :
  OneTrust.variantB_block W url s = (Exc (VariantFailed st msg), s') ->
  variantB_fails W url s st msg s'.
Proof.
  intros E. unfold OneTrust.variantB_block in E. rewrite bind_log in E.
  destruct (OneTrust.variantB_retrieve_script_path W url
              (snd (log INFO "Attempting Variant B" s)))
    as [[[[u st1] rep1]|e] s1] eqn:E1.
  2:{ rewrite (bind_exc _ _ _ E1) in E.
      pose proof (quiet_variantB_retrieve_script_path HW url _ E1) as Hq.
      injection E as Ee Es. subst e. destruct Hq. }
  rewrite (bind_val _ _ _ E1) in E. cbn beta iota in E.
  by_check_state E Hst1.
  { injection E as <- <- <-. now apply variantB_fails_path with u. }
  subst st1. rewrite bind_log in E.
  destruct (OneTrust.variantB_parse_script_for_object W u
              (snd (log DEBUG ("Onetrust javascript url = " ++ u) s1)))
    as [[[[dd st2] rep2]|e] s2] eqn:E2.
  2:{ rewrite (bind_exc _ _ _ E2) in E.
      pose proof (quiet_variantB_parse_script_for_object HW u _ E2) as Hq.
      injection E as Ee Es. subst e. destruct Hq. }
  rewrite (bind_val _ _ _ E2) in E. cbn beta iota in E.
  by_check_state E Hst2.
  { injection E as <- <- <-. now apply variantB_fails_object with u rep1 s1 dd. }
  subst st2. rewrite bind_log in E.
  destruct (OneTrust.variantB_extract_cookies_from_dict url
              (match dd with Some d => d | None => PNone end)
              (snd (log DEBUG
                      "Successfully retrieved OneTrust Consent javascript object data." s2)))
    as [[[[n st3] rep3]|e] s3] eqn:E3.
  2:{ rewrite (bind_exc _ _ _ E3) in E.
      pose proof (@quiet_variantB_extract_cookies_from_dict url _ _ _ _ E3) as Hq.
      injection E as Ee Es. subst e. destruct Hq. }
  rewrite (bind_val _ _ _ E3) in E. cbn beta iota in E.
  by_check_state E Hst3.
  { injection E as <- <- <-.
    now apply variantB_fails_extract with u rep1 s1 dd rep2 s2 n. }
  exfalso. unfold bind at 1 in E. rewrite update_val in E. discriminate E.
Qed.

(** A failure of Variant B leaves the collected data as it was, unless the
    walk over the groups was cut short. *)
Lemma variantB_fails_data url s st msg s' :
  variantB_fails W url s st msg s' ->
  same_data s s' \/ (st = PARSE_ERROR /\ variantB_cut_short W url s).
Proof.
  pose proof (still_log INFO "Attempting Variant B" s) as HL0.
  intros [u st0 rep s1 E1 Hst
         | u rep1 s1 dd st0 rep s2 E1 E2 Hst
         | u rep1 s1 dd rep2 s2 n st0 rep s3 E1 E2 E3 Hst];
    pose proof (keeps_run (still_variantB_retrieve_script_path W url) E1) as H1.
  - left. apply still_same_data. exact (still_trans HL0 H1).
  - pose proof (still_log DEBUG ("Onetrust javascript url = " ++ u) s1) as HL.
    pose proof (keeps_run (still_variantB_parse_script_for_object W u) E2) as H2.
    left. apply still_same_data.
    exact (still_trans (still_trans (still_trans HL0 H1) HL) H2).
  - pose proof (still_log DEBUG ("Onetrust javascript url = " ++ u) s1) as HL.
    pose proof (keeps_run (still_variantB_parse_script_for_object W u) E2) as H2.
    pose proof (still_log DEBUG
                  "Successfully retrieved OneTrust Consent javascript object data." s2)
      as HL2.
    pose proof (still_trans (still_trans (still_trans (still_trans HL0 H1) HL) H2) HL2)
      as Hs.
    pose proof (variantB_extract_cases url
                  (match dd with Some d => d | None => PNone end)
                  (snd (log DEBUG
                     "Successfully retrieved OneTrust Consent javascript object data." s2)))
      as H3.
    cbv zeta in H3. unfold post in H3. rewrite E3 in H3. cbn [fst snd] in H3.
    destruct H3 as [_ [(-> & _)|[(-> & _ & Hd)|(-> & Hcut)]]].
    + now exfalso.
    + left. eapply same_data_trans; [apply still_same_data; exact Hs | exact Hd].
    + right. split; [reflexivity|].
      exists u, rep1, s1, dd, rep2, s2. split; [exact E1|]. split; [exact E2|].
      apply not_completes_cut_short. exact Hcut.
Qed.

Lemma variantB_fails_early_fails url s st msg s' :
  variantB_fails_early W url s st msg s' ->
  variantB_fails W url s st msg s' /\ still s s'.
Proof.
  pose proof (still_log INFO "Attempting Variant B" s) as HL0.
  intros [u st0 rep s1 E1 Hst | u rep1 s1 dd st0 rep s2 E1 E2 Hst];
    pose proof (keeps_run (still_variantB_retrieve_script_path W url) E1) as H1.
  - split; [now apply variantB_fails_path with u | exact (still_trans HL0 H1)].
  - pose proof (still_log DEBUG ("Onetrust javascript url = " ++ u) s1) as HL.
    pose proof (keeps_run (still_variantB_parse_script_for_object W u) E2) as H2.
    split; [now apply variantB_fails_object with u rep1 s1 dd|].
    exact (still_trans (still_trans (still_trans HL0 H1) HL) H2).
Qed.

(** The crawl after the site answered and Variant A failed: the outcome of
    a failure of Variant B is recorded. *)
Lemma onetrust_after_variantA url s r report s0 stA msgA sA :
  static_get_request W url [] s = (Val (r, SUCCESS, report), s0) ->
  variantA_fails W url (snd (log DEBUG ("Connection to " ++ url ++ " successful.") s0))
                 stA msgA sA ->
  let sB := snd (log WARNING ("Variant A failed. Reason: " ++ fmt_state stA
                              ++ " -- " ++ fmt_report msgA) sA) in
  OneTrust.scrape_website W url s
  = try_except (OneTrust.variantB_block W url) (variantB_failed url) sB
  /\ gathers s sB /\ same_data s sB
  /\ (forall stB msgB sB',
        variantB_fails W url sB stB msgB sB' ->
        let s' := snd (OneTrust.scrape_website W url s) in
        records stB s s' /\ (same_data sB sB' -> same_data s s')).
Proof.
  intros Hget HA sB.
  destruct (variantA_fails_block HA) as [EA GA].
  pose proof (keeps_run (still_static_get_request W url []) Hget) as H0.
  pose proof (still_log DEBUG ("Connection to " ++ url ++ " successful.") s0) as HL0.
  pose proof (still_log WARNING ("Variant A failed. Reason: " ++ fmt_state stA
                                 ++ " -- " ++ fmt_report msgA) sA) as HLW.
  fold sB in HLW.
  pose proof (variantA_block_cases HW url
                (snd (log DEBUG ("Connection to " ++ url ++ " successful.") s0))) as HAc.
  unfold post in HAc. rewrite EA in HAc. cbn [fst snd] in HAc. destruct HAc as [_ DA].
  assert (G : gathers s sB).
  { eapply gathers_trans; [|apply still_gathers; exact HLW].
    eapply gathers_trans; [|exact GA].
    apply still_gathers. exact (still_trans H0 HL0). }
  assert (D : same_data s sB).
  { eapply same_data_trans; [apply still_same_data; exact (still_trans H0 HL0)|].
    eapply same_data_trans; [exact DA | now apply still_same_data]. }
  assert (Erun : OneTrust.scrape_website W url s
                 = try_except (OneTrust.variantB_block W url) (variantB_failed url) sB).
  { unfold OneTrust.scrape_website. rewrite (bind_val _ _ _ Hget). cbn beta iota.
    change (negb (CrawlState_eqb SUCCESS SUCCESS)) with false. cbn iota.
    rewrite bind_log. unfold bind at 1, try_except at 1. rewrite EA.
    reflexivity. }
  split; [exact Erun|]. split; [exact G|]. split; [exact D|].
  intros stB msgB sB' HB s'.
  destruct (variantB_fails_block HB) as [EB GB].
  assert (Efin : OneTrust.scrape_website W url s
                 = (Val false, snd (update_crawl_stats url stB msgB sB'))).
  { rewrite Erun. erewrite try_exc_caught; [|exact EB|reflexivity].
    unfold bind. now rewrite update_val. }
  subst s'. rewrite Efin. cbn [snd].
  pose proof (still_log INFO "Attempting Variant B" sB) as HLB.
  assert (G' : gathers s sB').
  { eapply gathers_trans; [exact G|].
    eapply gathers_trans; [apply still_gathers; exact HLB | exact GB]. }
  destruct (update_after url stB msgB G') as (Hrec & _ & Hsame).
  split; [exact Hrec|].
  intros Hd. apply Hsame. eapply same_data_trans; eassumption.
Qed.

Lemma onetrust_early_failure url s r report s0 stA msgA sA stB msgB sB' :
  static_get_request W url [] s = (Val (r, SUCCESS, report), s0) ->
  variantA_fails W url (snd (log DEBUG ("Connection to " ++ url ++ " successful.") s0))
                 stA msgA sA ->
  variantB_fails_early W url
    (snd (log WARNING ("Variant A failed. Reason: " ++ fmt_state stA
                       ++ " -- " ++ fmt_report msgA) sA)) stB msgB sB' ->
  records stB s (snd (OneTrust.scrape_website W url s))
  /\ same_data s (snd (OneTrust.scrape_website W url s)).
Proof.
  intros Hget HA HB.
  destruct (@onetrust_after_variantA url s _ _ _ _ _ _ Hget HA) as (_ & _ & _ & Hfail).
  destruct (variantB_fails_early_fails HB) as [HB' Hstill].
  destruct (Hfail _ _ _ HB') as [Hrec Hsd].
  split; [exact Hrec | apply Hsd, still_same_data, Hstill].
Qed.

Lemma onetrust_failed_crawl url s st :
  records st s (snd (OneTrust.scrape_website W url s)) -> st <> SUCCESS ->
  same_data s (snd (OneTrust.scrape_website W url s))
  \/ (st = PARSE_ERROR /\ onetrust_cut_short W url s).
Proof.
  intros Hrec Hst.
  destruct (static_get_request W url [] s) as [[[[r status] report]|e] s0] eqn:E0.
  2:{ exfalso. revert Hrec. unfold OneTrust.scrape_website.
      rewrite (bind_exc _ _ _ E0). cbn [snd]. intros Hrec.
      apply (records_not_nothing Hrec). apply records_nothing_of_status.
      exact (still_status (keeps_run (still_static_get_request W url []) E0)). }
  pose proof (keeps_run (still_static_get_request W url []) E0) as H0.
  destruct (CrawlState_eqb status SUCCESS) eqn:Eok.
  2:{ left. unfold OneTrust.scrape_website. rewrite (bind_val _ _ _ E0). cbn beta iota.
      rewrite Eok. cbn [negb]. unfold bind. rewrite update_val. cbn [ret fst snd].
      destruct (update_after url status (Some report) (still_gathers H0)) as (_ & _ & Hsd).
      apply Hsd, still_same_data, H0. }
  apply CrawlState_eqb_eq in Eok. subst status.
  pose proof (still_log DEBUG ("Connection to " ++ url ++ " successful.") s0) as HL0.
  set (sL := snd (log DEBUG ("Connection to " ++ url ++ " successful.") s0)) in *.
  pose proof (still_trans H0 HL0) as HsL.
  assert (Hin : OneTrust.scrape_website W url s
                = (a <- try_except (OneTrust.variantA_block W url)
                          (OneTrust.except_variant_failed (fun crawlstate message =>
                             log WARNING ("Variant A failed. Reason: " ++ fmt_state crawlstate
                                          ++ " -- " ++ fmt_report message) ;;
                             ret None)) ;;
                   match a with
                   | Some b => ret b
                   | None =>
                       try_except (OneTrust.variantB_block W url) (variantB_failed url)
                   end)%py sL).
  { unfold OneTrust.scrape_website. rewrite (bind_val _ _ _ E0). cbn beta iota.
    change (negb (CrawlState_eqb SUCCESS SUCCESS)) with false. cbn iota.
    rewrite bind_log. reflexivity. }
  pose proof (variantA_block_cases HW url sL) as HA. unfold post in HA.
  destruct (OneTrust.variantA_block W url sL) as [[a|[c m|stA msgA]] sA] eqn:EA;
    cbn [fst snd] in HA.
  - (* Variant A returned *)
    exfalso. revert Hrec. rewrite Hin.
    erewrite bind_val by (apply try_val; exact EA).
    destruct HA as (-> & HrecA & _). cbn [ret fst snd]. intros Hrec.
    apply Hst. apply (records_functional Hrec). exact (records_still HsL HrecA).
  - (* another exception left Variant A *)
    exfalso. revert Hrec. rewrite Hin.
    erewrite bind_exc by (apply try_exc_passed; [exact EA | reflexivity]).
    cbn [snd]. intros Hrec. apply (records_not_nothing Hrec).
    intros e. rewrite (HA e). now rewrite (still_status HsL).
  - (* Variant A failed *)
    pose proof (@variantA_block_failed url sL _ _ _ EA) as HfA.
    destruct (@onetrust_after_variantA url s _ _ _ _ _ _ E0 HfA) as (Erun & G & D & Hfail).
    set (sB := snd (log WARNING ("Variant A failed. Reason: " ++ fmt_state stA
                                 ++ " -- " ++ fmt_report msgA) sA)) in *.
    pose proof (variantB_block_cases HW url sB) as HB. unfold post in HB.
    destruct (OneTrust.variantB_block W url sB) as [[b|[c m|stB msgB]] sB'] eqn:EB;
      cbn [fst snd] in HB.
    + exfalso. revert Hrec. rewrite Erun. erewrite try_val by (exact EB).
      cbn [snd]. intros Hrec. destruct HB as (_ & HrecB & _).
      apply Hst. apply (records_functional Hrec).
      intros e. rewrite (HrecB e), (gathers_status G). reflexivity.
    + exfalso. revert Hrec. rewrite Erun.
      erewrite try_exc_passed by (first [exact EB | reflexivity]). cbn [snd].
      intros Hrec. apply (records_not_nothing Hrec).
      intros e. rewrite (HB e). now rewrite (gathers_status G).
    + pose proof (@variantB_block_failed url sB _ _ _ EB) as HfB.
      destruct (Hfail _ _ _ HfB) as [HrecB Hsd].
      pose proof (records_functional Hrec HrecB) as ->.
      destruct (variantB_fails_data HfB) as [Hd|[-> Hcut]].
      * left. now apply Hsd.
      * right. split; [reflexivity|].
        exists r, report, s0, stA, msgA, sA. split; [exact E0|].
        split; [exact HfA | exact Hcut].
Qed.

End OneTrustFailedCrawl.

Section FailedCrawlData.

Lemma blob_site_world_library_errors : library_errors_only blob_site_world.
Proof. apply simple_world_library_errors; intros; exact I. Qed.

(** C3, as the specification states it, fails on three sites, one for each
    extractor, on which an exception cuts the parse loop short after a row
    was collected.  On the Cookiebot site the second table is malformed:
    the row of the first table is collected, the second table raises
    [IndexError], the crawl returns [False] and records [MALFORM_RESP], and
    the collected row stays.  On the Termly site the second entry of the
    bucket is the number 7: the first cookie is collected, [cookie.keys()]
    raises [AttributeError], the crawl records [PARSE_ERROR], and the row
    stays.  On the OneTrust shop the second group has no [Cookies]: the
    cookie of the first group is collected by Variant B, the second group
    raises [KeyError], the crawl records [PARSE_ERROR], and the row stays. *)
Lemma cut_short_parse_keeps_rows :
  (fst after_broken_preference = Val false
   /\ records MALFORM_RESP started_scraper (snd after_broken_preference)
   /\ MALFORM_RESP <> SUCCESS
   /\ database_cookie_data started_scraper = []
   /\ database_cookie_data (snd after_broken_preference) = [cookieA_row cookiebot_site]
   /\ ~ same_data started_scraper (snd after_broken_preference))
  /\ (fst after_broken_bucket = Val false
      /\ records PARSE_ERROR started_scraper (snd after_broken_bucket)
      /\ termly_cut_short broken_bucket_world termly_site started_scraper
      /\ database_cookie_data (snd after_broken_bucket)
         = [MkCookie termly_site (PStr "session") (PStr "shop.example") "/" ESSENTIAL
                     "essential" PNone PNone]
      /\ ~ same_data started_scraper (snd after_broken_bucket))
  /\ (fst after_broken_group = Val false
      /\ records PARSE_ERROR started_scraper (snd after_broken_group)
      /\ onetrust_cut_short broken_group_world shop_url started_scraper
      /\ database_cookie_data (snd after_broken_group)
         = [MkCookie shop_url (PStr "sid") (PStr "shop.example") "/" ESSENTIAL
                     "Strictly Necessary Cookies" PNone PNone]
      /\ ~ same_data started_scraper (snd after_broken_group)).
Proof.
  split; [|split].
  - split; [vm_compute; reflexivity|].
    split; [intros e; destruct e; vm_compute; reflexivity|].
    split; [discriminate|].
    split; [reflexivity|].
    split; [vm_compute; reflexivity|].
    intros [H _]. vm_compute in H. discriminate H.
  - split; [vm_compute; reflexivity|].
    split; [intros e; destruct e; vm_compute; reflexivity|].
    split.
    { eexists _, _, _. split; [vm_compute; reflexivity|].
      eexists _, _. vm_compute. reflexivity. }
    split; [vm_compute; reflexivity|].
    intros [H _]. vm_compute in H. discriminate H.
  - split; [vm_compute; reflexivity|].
    split; [intros e; destruct e; vm_compute; reflexivity|].
    split.
    { eexists _, _, _, PARSE_ERROR, _, _. split; [vm_compute; reflexivity|].
      split.
      { eapply variantA_fails_uuid with (domain_url := "") (dd_id := "");
          [vm_compute; reflexivity | discriminate]. }
      eexists _, _, _, _, _, _. split; [vm_compute; reflexivity|].
      split; [vm_compute; reflexivity|].
      eexists _, _. vm_compute. reflexivity. }
    split; [vm_compute; reflexivity|].
    intros [H _]. vm_compute in H. discriminate H.
Qed.

(** C3, amended.  In a world that raises only exceptions of the
    libraries, a crawl never removes or changes a collected row: it appends
    rows of its own site, if any.  A crawl that records an outcome other than
    [SUCCESS] leaves the collected data as it was, unless an exception cut
    its parse loop short: for Cookiebot the outcome is then [MALFORM_RESP];
    for Termly it is [PARSE_ERROR], recorded after the document was
    retrieved and the walk over its buckets raised; for OneTrust it is
    [PARSE_ERROR], recorded after Variant A failed, Variant B found the
    script and read the object, and the walk over its groups raised.  In
    these cases the rows collected before the exception stay.  An outcome
    recorded before the parse loop leaves the data as it was, [PARSE_ERROR]
    included: the state with which [retrieve_termly_json] fails (line 131
    among others), and the state with which the first or the second step of
    Variant B fails (lines 279 and 317). *)
Theorem failed_crawl_keeps_collected_data
    (W : World) (url : string) (s : Scraper) (st : CrawlState) :
  library_errors_only W ->
  st <> SUCCESS ->
  let cb := snd (Cookiebot.scrape_website W url s) in
  let tm := snd (Termly.scrape_website W url s) in
  let ot := snd (OneTrust.scrape_website W url s) in
  (records st s cb ->
   adds (cookiebot_row url) s cb /\ (same_data s cb \/ st = MALFORM_RESP))
  /\ (records st s tm ->
      adds (termly_row url) s tm
      /\ (same_data s tm \/ (st = PARSE_ERROR /\ termly_cut_short W url s)))
  /\ (records st s ot ->
      adds (onetrust_row url) s ot
      /\ (same_data s ot \/ (st = PARSE_ERROR /\ onetrust_cut_short W url s)))
  /\ (forall cookies_dict report s1,
        Termly.retrieve_termly_json W url s = (Val (cookies_dict, st, report), s1) ->
        records st s tm /\ same_data s tm)
  /\ (forall r report s0 stA msgA sA msgB sB',
        static_get_request W url [] s = (Val (r, SUCCESS, report), s0) ->
        variantA_fails W url
          (snd (log DEBUG ("Connection to " ++ url ++ " successful.") s0)) stA msgA sA ->
        variantB_fails_early W url
          (snd (log WARNING ("Variant A failed. Reason: " ++ fmt_state stA
                             ++ " -- " ++ fmt_report msgA) sA)) st msgB sB' ->
        records st s ot /\ same_data s ot).
Proof.
  intros HW Hst cb tm ot.
  split; [|split; [|split; [|split]]].
  - intros Hr. split; [exact (adds_cookiebot W url s)|].
    pose proof (cookiebot_crawl_outcome W url s) as Hcb. unfold post in Hcb.
    destruct (CrawlState_eqb st MALFORM_RESP) eqn:E.
    + right. now apply CrawlState_eqb_eq.
    + left. apply CrawlState_eqb_neq in E. exact (crawl_cases_other Hcb Hr Hst E).
  - intros Hr. split; [exact (adds_termly W url s)|].
    exact (@termly_failed_crawl W url s st Hr Hst).
  - intros Hr. split; [exact (adds_onetrust W url s)|].
    exact (@onetrust_failed_crawl W HW url s st Hr Hst).
  - intros d rep s1 E1. exact (@termly_early_failure W url s _ _ _ _ E1 Hst).
  - intros r report s0 stA msgA sA msgB sB' Hget HA HB.
    exact (@onetrust_early_failure W HW url s _ _ _ _ _ _ _ _ _ Hget HA HB).
Qed.

(** The theorem on the site of [blob_site_world], on which Variant B
    finds no script link and records [PARSE_ERROR] before any row. *)
Lemma failed_crawl_keeps_collected_data_witness :
  library_errors_only blob_site_world
  /\ PARSE_ERROR <> SUCCESS
  /\ variantB_fails_early blob_site_world blob_site_url blob_entering_B
       PARSE_ERROR (Some blob_no_link) blob_after_B
  /\ records PARSE_ERROR started_scraper
       (snd (OneTrust.scrape_website blob_site_world blob_site_url started_scraper))
  /\ same_data started_scraper
       (snd (OneTrust.scrape_website blob_site_world blob_site_url started_scraper)).
Proof.
  assert (HW : library_errors_only blob_site_world)
    by (apply blob_site_world_library_errors).
  assert (Hne : PARSE_ERROR <> SUCCESS) by discriminate.
  assert (Hget : static_get_request blob_site_world blob_site_url [] started_scraper
                 = (Val (Some (MkResponse 200 "<html></html>"), SUCCESS, "200"),
                    blob_after_get))
    by (vm_compute; reflexivity).
  assert (HA : variantA_fails blob_site_world blob_site_url blob_entering_A
                              PARSE_ERROR (Some blob_no_id) blob_after_A)
    by (apply variantA_fails_uuid with (domain_url := "") (dd_id := "");
        [vm_compute; reflexivity | discriminate]).
  assert (HB : variantB_fails_early blob_site_world blob_site_url blob_entering_B
                 PARSE_ERROR (Some blob_no_link) blob_after_B)
    by (apply variantB_fails_early_path with (script_url := "");
        [vm_compute; reflexivity | discriminate]).
  split; [exact HW|]. split; [exact Hne|]. split; [exact HB|].
  destruct (@failed_crawl_keeps_collected_data blob_site_world blob_site_url
              started_scraper PARSE_ERROR HW Hne) as (_ & _ & _ & _ & T).
  exact (T _ _ _ _ _ _ _ _ Hget HA HB).
Defined.

End FailedCrawlData.

(** ** The loop over the sites *)

Section DriverKept.

Lemma driver_kept_refl s : driver_kept s s.
Proof. reflexivity. Qed.

Lemma driver_kept_trans a b c : driver_kept a b -> driver_kept b c -> driver_kept a c.
Proof. unfold driver_kept. congruence. Qed.

Lemma kept_of_still {A} (c : M A) : keeps still c -> keeps driver_kept c.
Proof. intros H s. exact (still_webdriver (H s)). Qed.

Lemma kept_of_gathers {A} (c : M A) : keeps gathers c -> keeps driver_kept c.
Proof. intros H s. exact (gathers_webdriver (H s)). Qed.

Lemma kept_same {A} (c : M A) :
  (forall s, webdriver (snd (c s)) = webdriver s) -> keeps driver_kept c.
Proof. intros H s. apply H. Qed.

Lemma kept_collect site_url name domain path cat_name cat_id purpose type :
  keeps driver_kept (collect_cookie_dat site_url name domain path cat_name cat_id
                                        purpose type).
Proof.
  intros s. unfold driver_kept. rewrite collect_cookie_dat_run.
  now destruct (negb (ident_hashable (name, domain, path))).
Qed.

Lemma kept_update url st report : keeps driver_kept (update_crawl_stats url st report).
Proof.
  intros s. unfold driver_kept, update_crawl_stats. cbn zeta.
  destruct report; destruct (negb (CrawlState_eqb st SUCCESS)); reflexivity.
Qed.

Lemma kept_debug_dump_dict outname d : keeps driver_kept (Termly.debug_dump_dict outname d).
Proof. apply kept_of_gathers. intros s. apply gathers_debug_dump_dict. Qed.

End DriverKept.

Create HintDb kept_db.

#[export] Hint Resolve kept_collect kept_update kept_debug_dump_dict : kept_db.

Ltac kept_step :=
  lazymatch goal with
  | |- keeps driver_kept (set_count _) => apply kept_same; intros; reflexivity
  | |- keeps driver_kept (add_count _) => apply kept_same; intros; reflexivity
  | |- keeps driver_kept _ =>
      first [ solve [apply kept_of_still; auto with still_db nocore]
            | solve [auto with kept_db nocore]
            | frame_step driver_kept_refl driver_kept_trans ]
  | |- handled driver_kept _ =>
      first [ apply handled_variant_failed; intros
            | frame_step driver_kept_refl driver_kept_trans ]
  end.

Section DriverKeptCrawl.

Variable W : World.

Lemma kept_cookiebot url : keeps driver_kept (Cookiebot.scrape_website W url).
Proof.
  unfold Cookiebot.scrape_website, Cookiebot.parse_cc_js, Cookiebot.walk_tables,
    Cookiebot.parse_bucket.
  repeat kept_step. apply kept_of_still, still_dump_debug_js.
  apply kept_of_still, still_dump_debug_js.
Qed.

Lemma kept_termly url : keeps driver_kept (Termly.scrape_website W url).
Proof.
  unfold Termly.scrape_website, Termly.parse_termly_cookie_json, Termly.walk_buckets,
    Termly.parse_cookie.
  repeat kept_step.
Qed.

Lemma kept_onetrust url : keeps driver_kept (OneTrust.scrape_website W url).
Proof.
  unfold OneTrust.scrape_website, OneTrust.variantA_block, OneTrust.variantB_block,
    OneTrust.check_state, OneTrust.variantA_get_and_parse_json,
    OneTrust.variantA_fetch_ruleset, OneTrust.variantA_parse_ruleset,
    OneTrust.variantA_collect_cookie, OneTrust.variantB_extract_cookies_from_dict,
    OneTrust.variantB_walk_groups.
  repeat kept_step.
  all: repeat kept_step.
Qed.

End DriverKeptCrawl.

Section MainLoop.

Lemma records_total st s s' : records st s s' -> total_count s' = S (total_count s).
Proof.
  intros Hrec. unfold total_count, all_states. cbn [fold_right].
  rewrite !Hrec. destruct st; cbn; lia.
Qed.

Lemma tallies_of_cases partial (scrape : string -> M bool) :
  (forall u s, post (scrape u) s (crawl_cases partial s)) -> tallies scrape.
Proof.
  intros H u s. specialize (H u s). unfold post in H.
  destruct (fst (scrape u s)) as [b|e]; [|exact H].
  destruct H as (st & Hb & Hrec & _). now exists st.
Qed.

Lemma tallies_scrape_website W p : library_errors_only W -> tallies (scrape_website W p).
Proof.
  intros HW. destruct p; cbn [scrape_website].
  - apply (@tallies_of_cases MALFORM_RESP). intros u s. apply cookiebot_crawl_outcome.
  - apply (@tallies_of_cases PARSE_ERROR). intros u s.
    pose proof (@onetrust_crawl_outcome W HW u s) as H. unfold post in *. tauto.
  - apply (@tallies_of_cases PARSE_ERROR). intros u s. apply termly_crawl_outcome.
Qed.

Lemma kept_scrape_website W p u : keeps driver_kept (scrape_website W p u).
Proof.
  destruct p; cbn [scrape_website];
    [apply kept_cookiebot | apply kept_onetrust | apply kept_termly].
Qed.

Lemma log_counts lvl msg s :
  webdriver (snd (log lvl msg s)) = webdriver s
  /\ status_counts (snd (log lvl msg s)) = status_counts s.
Proof. split; reflexivity. Qed.

Lemma total_count_ext s s' :
  status_counts s' = status_counts s -> total_count s' = total_count s.
Proof. intros H. unfold total_count. now rewrite H. Qed.

Lemma crawl_loop_tally (scrape : string -> M bool) (total : nat) :
  (forall u, keeps driver_kept (scrape u)) -> tallies scrape ->
  forall sites a b s,
    let r := crawl_loop scrape total sites a b s in
    webdriver (snd r) = webdriver s
    /\ forall a' b', fst r = Val (a', b') ->
         exists k, a' = a + k /\ a' + b' = a + b + length sites
                   /\ status_counts (snd r) SUCCESS = status_counts s SUCCESS + k
                   /\ total_count (snd r) = total_count s + length sites.
Proof.
  intros Hk Ht sites. induction sites as [|u rest IH]; intros a b s; cbv zeta.
  - cbn. split; [reflexivity|]. intros a' b' [= <- <-]. exists 0. lia.
  - set (s1 := snd (log INFO ("Crawling: " ++ u) s)).
    pose (after := fun (m1 m2 : M unit) (s2 : Scraper) => snd (m2 (snd (m1 s2)))).
    assert (Erun : crawl_loop scrape total (u :: rest) a b s =
              match scrape u s1 with
              | (Val true, s2) =>
                  crawl_loop scrape total rest (S a) b
                    (after (log INFO ("Crawl for site " ++ u ++ " completed successfully."))
                           (log INFO (str_of_nat (S a + b) ++ "/" ++ str_of_nat total
                                      ++ " completed.")) s2)
              | (Val false, s2) =>
                  crawl_loop scrape total rest a (S b)
                    (after (log WARNING ("Crawl for site " ++ u ++ " failed!"))
                           (log INFO (str_of_nat (a + S b) ++ "/" ++ str_of_nat total
                                      ++ " completed.")) s2)
              | (Exc e, s2) => (Exc e, s2)
              end).
    { cbn [crawl_loop]. unfold bind at 1. rewrite log_val. fold s1. unfold bind at 1.
      destruct (scrape u s1) as [[[|]|e] s2]; reflexivity. }
    rewrite Erun. clear Erun.
    pose proof (Hk u s1) as Hw. pose proof (Ht u s1) as Hr. unfold driver_kept in Hw.
    assert (E1 : status_counts s1 = status_counts s) by reflexivity.
    destruct (scrape u s1) as [[success_status|e] s2] eqn:Es; cbn [fst snd] in *.
    2:{ split; [exact Hw | intros a' b' [=]]. }
    destruct Hr as (st & Hb & Hrec).
    destruct success_status.
    + assert (Hst : st = SUCCESS).
      { destruct st; cbn in Hb; first [reflexivity | discriminate]. }
      subst st.
      match goal with |- context [crawl_loop _ _ _ _ _ ?x] => set (s3 := x) end.
      assert (E3 : status_counts s3 = status_counts s2) by reflexivity.
      destruct (IH (S a) b s3) as [IHw IHc].
      split; [rewrite IHw; exact Hw|].
      intros a' b' Hres. destruct (IHc a' b' Hres) as (k & -> & Hsum & Hs & Htot).
      exists (S k). cbn [length].
      rewrite Hs, Htot, (total_count_ext _ _ E3), E3, (records_total Hrec), (Hrec SUCCESS).
      change (CrawlState_eqb SUCCESS SUCCESS) with true. cbn iota.
      rewrite (total_count_ext _ _ E1), E1. lia.
    + assert (Hst : CrawlState_eqb SUCCESS st = false).
      { destruct st; cbn in Hb |- *; first [reflexivity | discriminate]. }
      match goal with |- context [crawl_loop _ _ _ _ _ ?x] => set (s3 := x) end.
      assert (E3 : status_counts s3 = status_counts s2) by reflexivity.
      destruct (IH a (S b) s3) as [IHw IHc].
      split; [rewrite IHw; exact Hw|].
      intros a' b' Hres. destruct (IHc a' b' Hres) as (k & -> & Hsum & Hs & Htot).
      exists k. cbn [length].
      rewrite Hs, Htot, (total_count_ext _ _ E3), E3, (records_total Hrec), (Hrec SUCCESS).
      rewrite Hst.
      rewrite (total_count_ext _ _ E1), E1. lia.
Qed.

(** The loop of [main] over the sites, run with a started browser on any of
    the three extractors: when it is left, by its end or by an exception of
    a crawl, the browser has been stopped.  When it ends, its two counters
    add up to the number of sites, [comp_succ] is the number of [SUCCESS]
    outcomes that the crawls added to the statistics, and the statistics
    have grown by one outcome per site. *)
Theorem crawl_sites_counters_match_statistics
    (W : World) (p : Provider) (sites : list string) (s : Scraper) :
  library_errors_only W -> webdriver s = true ->
  let r := crawl_sites (scrape_website W p) sites s in
  webdriver (snd r) = false
  /\ forall comp_succ comp_fail, fst r = Val (comp_succ, comp_fail) ->
       comp_succ + comp_fail = length sites
       /\ status_counts (snd r) SUCCESS = status_counts s SUCCESS + comp_succ
       /\ total_count (snd r) = total_count s + length sites.
Proof.
  intros HW Hs. cbv zeta. unfold crawl_sites.
  destruct (@crawl_loop_tally (scrape_website W p) (length sites)
              (kept_scrape_website W p) (tallies_scrape_website p HW) sites 0 0 s)
    as [Hw Hc].
  destruct (crawl_loop (scrape_website W p) (length sites) sites 0 0 s) as [[r|e] s1];
    cbn [fst snd] in Hw, Hc.
  - assert (Estop : (stop_webdriver ;; ret r) s1
                    = (Val r, snd (log INFO "Webdriver stopped" (set_webdriver false s1)))).
    { unfold stop_webdriver, bind, get. cbn. rewrite Hw, Hs. reflexivity. }
    rewrite Estop. cbn [fst snd]. split; [reflexivity|].
    intros a b [= ->]. destruct (Hc a b eq_refl) as (k & -> & Hsum & Hsucc & Htot).
    split; [lia|]. split.
    + change (status_counts s1 SUCCESS = status_counts s SUCCESS + (0 + k)).
      rewrite Hsucc. reflexivity.
    + change (total_count s1 = total_count s + length sites). exact Htot.
  - assert (Estop : (stop_webdriver ;; (raise e : M (nat * nat))) s1
                    = (Exc e, snd (log INFO "Webdriver stopped" (set_webdriver false s1)))).
    { unfold stop_webdriver, bind, get. cbn. rewrite Hw, Hs. reflexivity. }
    rewrite Estop. cbn [fst snd]. split; [reflexivity | intros a b [=]].
Qed.

Lemma crawl_sites_counters_match_statistics_witness :
  webdriver (snd (crawl_sites (scrape_website empty_groups_world onetrust)
                              [shop_url; next_url] started_scraper)) = false.
Proof.
  exact (proj1 (@crawl_sites_counters_match_statistics empty_groups_world onetrust
                  [shop_url; next_url] started_scraper
                  empty_groups_world_library_errors eq_refl)).
Defined.

End MainLoop.

(** ** Loading a page in the browser *)

Section DriverGet.

Variable W : World.

Lemma driver_get_handles (c : M (CrawlState * option string)) s e s1 :
  c s = (Exc e, s1) ->
  fst (try_except c
         (clauses
            [except_ [TimeoutException] (fun ex =>
               log WARNING "Timeout reached, but site may have loaded required data anyways, continuing." ;;
               ret (SUCCESS, Some (type_ex ex ++ str_ex ex)));
             except_ [InvalidArgumentException] (fun ex =>
               ret (MALFORMED_URL, Some (str_ex ex)));
             except_ [InsecureCertificateException] (fun ex =>
               ret (SSL_ERROR, Some (str_ex ex)));
             except_ [WebDriverException] (fun ex =>
               if str_contains "Reached error page:" (str_ex ex)
               then ret (CONN_FAILED, Some (str_ex ex))
               else ret (UNKNOWN, Some (type_ex ex ++ str_ex ex)))]) s)
  = driver_handled e.
Proof.
  intros Hc. unfold try_except. rewrite Hc.
  unfold driver_handled, driver_outcome.
  generalize (str_contains "Reached error page:"). intros p.
  destruct e as [c0 msg|st msg]; [|reflexivity].
  destruct c0; cbn; try reflexivity; destruct (p msg); reflexivity.
Qed.

(** [driver_get] raises a RuntimeError, without a call to the browser, when
    the browser is not running.  When it is, an exception of
    [webdriver.get] is answered by its class: a TimeoutException counts as
    [SUCCESS], an InvalidArgumentException gives [MALFORMED_URL], an
    InsecureCertificateException [SSL_ERROR], any other WebDriverException
    [CONN_FAILED] if its message contains "Reached error page:" and
    [UNKNOWN] otherwise; an exception that is no WebDriverException leaves
    [driver_get].  When the page has loaded and there is no alert, the
    result is [SUCCESS] without a report, unless the switch back to the
    page fails; any other exception of the look for an alert is answered
    like one of [webdriver.get]. *)
Theorem driver_get_classifies (url : string) (s : Scraper) :
  (webdriver s = false ->
   driver_get W url s = (Exc (PyExc RuntimeError "Webdriver isn't running!"), s))
  /\ (webdriver s = true -> forall e,
      wd_get W (clock s) url = Exc e ->
      fst (driver_get W url s) = driver_handled e)
  /\ (webdriver s = true -> forall e,
      wd_get W (clock s) url = Val tt ->
      wd_switch_to_alert W (S (clock s)) = Exc e ->
      fst (driver_get W url s)
      = if isinstance e NoAlertPresentException then
          match wd_default_content W (S (S (clock s))) with
          | Val _ => Val (SUCCESS, None)
          | Exc e' => driver_handled e'
          end
        else driver_handled e).
Proof.
  split; [|split].
  - intros Hw. unfold driver_get, bind, get. cbn. now rewrite Hw.
  - intros Hw e Hget. unfold driver_get. unfold bind at 1, get. cbn [fst snd].
    rewrite Hw. cbn [negb].
    apply driver_get_handles with (s1 := set_clock (S (clock s)) s).
    apply bind_exc. rewrite external_eq, Hget. reflexivity.
  - intros Hw e Hget Halert. unfold driver_get. unfold bind at 1, get. cbn [fst snd].
    rewrite Hw. cbn [negb].
    set (s1 := set_clock (S (clock s)) s).
    assert (E1 : external (fun t => wd_get W t url) s = (Val tt, s1)).
    { now rewrite external_eq, Hget. }
    assert (Ea : external (wd_switch_to_alert W) s1 = (Exc e, set_clock (S (S (clock s))) s1)).
    { rewrite external_eq. cbn. now rewrite Halert. }
    destruct (isinstance e NoAlertPresentException) eqn:Ei.
    + set (s2 := set_clock (S (S (clock s))) s1).
      assert (Et : try_except
                     (external (wd_switch_to_alert W) ;; external (wd_alert_dismiss W))
                     (clauses [except_ [NoAlertPresentException] (fun _ => ret tt)]) s1
                   = (Val tt, s2)).
      { unfold try_except. rewrite (bind_exc _ _ _ Ea). cbn [clauses].
        unfold except_. cbn [existsb]. rewrite Ei. reflexivity. }
      destruct (wd_default_content W (S (S (clock s)))) as [[]|e'] eqn:Ed.
      * unfold try_except. rewrite (bind_val _ _ _ E1), (bind_val _ _ _ Et).
        unfold bind. rewrite external_eq. cbn. now rewrite Ed.
      * apply driver_get_handles with (s1 := set_clock (S (S (S (clock s)))) s2).
        rewrite (bind_val _ _ _ E1), (bind_val _ _ _ Et).
        apply bind_exc. rewrite external_eq. cbn. now rewrite Ed.
    + assert (Et : try_except
                     (external (wd_switch_to_alert W) ;; external (wd_alert_dismiss W))
                     (clauses [except_ [NoAlertPresentException] (fun _ => ret tt)]) s1
                   = (Exc e, set_clock (S (S (clock s))) s1)).
      { unfold try_except. rewrite (bind_exc _ _ _ Ea). cbn [clauses].
        unfold except_. cbn [existsb]. rewrite Ei. reflexivity. }
      apply driver_get_handles with (s1 := set_clock (S (S (clock s))) s1).
      rewrite (bind_val _ _ _ E1). apply bind_exc. exact Et.
Qed.

End DriverGet.

(** ** The URLs of a run *)

Section Sets.

Lemma existsb_eqb_In x (l : list string) : existsb (String.eqb x) l = true <-> In x l.
Proof.
  rewrite existsb_exists. split.
  - intros (y & Hy & E). apply String.eqb_eq in E. now subst.
  - intros H. exists x. split; [exact H | apply String.eqb_refl].
Qed.

Lemma set_add_In x y l : In y (set_add x l) <-> y = x \/ In y l.
Proof.
  unfold set_add. destruct (existsb (String.eqb x) l) eqn:E.
  - apply existsb_eqb_In in E. split; [now right | intros [->|H]; assumption].
  - rewrite in_app_iff. cbn. split; [intros [H|[H|[]]] | intros [H|H]]; auto.
Qed.

Lemma set_add_NoDup x l : NoDup l -> NoDup (set_add x l).
Proof.
  intros Hl. unfold set_add. destruct (existsb (String.eqb x) l) eqn:E; [exact Hl|].
  assert (Hx : ~ In x l).
  { intros H. apply existsb_eqb_In in H. congruence. }
  clear E. induction Hl as [|a l Ha Hl IH]; cbn.
  - constructor; [intros []|constructor].
  - constructor.
    + rewrite in_app_iff. cbn. intros [H|[H|[]]]; [now apply Ha|].
      apply Hx. now left.
    + apply IH. intros H. apply Hx. now right.
Qed.

Lemma set_update_In l : forall sites y, In y (set_update l sites) <-> In y l \/ In y sites.
Proof.
  induction l as [|a l IH]; intros sites y; cbn.
  - tauto.
  - unfold set_update in IH. rewrite IH, set_add_In. intuition congruence.
Qed.

Lemma set_update_NoDup l : forall sites, NoDup sites -> NoDup (set_update l sites).
Proof.
  induction l as [|a l IH]; intros sites H; cbn; [exact H|].
  apply IH, set_add_NoDup, H.
Qed.

Lemma set_remove_In x l :
  In x l ->
  exists l', set_remove x l = Val l'
             /\ (NoDup l -> NoDup l') /\ forall y, In y l' <-> In y l /\ y <> x.
Proof.
  intros H. unfold set_remove. apply existsb_eqb_In in H. rewrite H.
  eexists. split; [reflexivity|]. split.
  - apply NoDup_filter.
  - intros y. rewrite filter_In, negb_true_iff. split.
    + intros [Hy E]. split; [exact Hy|]. intros ->. now rewrite String.eqb_refl in E.
    + intros [Hy Hne]. split; [exact Hy|]. apply String.eqb_neq. congruence.
Qed.

End Sets.

Section CheckedUrls.

Lemma lstrip_keeps_last l c : is_space c = false -> lstrip (l ++ [c]) <> [].
Proof.
  intros Hc. induction l as [|a l IH]; cbn.
  - now rewrite Hc.
  - destruct (is_space a); [exact IH | discriminate].
Qed.

Lemma chars_str l : chars (str l) = l.
Proof. apply list_ascii_of_string_of_list_ascii. Qed.

Lemma prefixed_has_scheme u : has_http_scheme ("http://" ++ u) = true.
Proof. reflexivity. Qed.

Lemma prefixed_not_blank u : blank_or_comment ("http://" ++ u) = false.
Proof.
  unfold blank_or_comment.
  change (chars ("http://" ++ u)) with ("h"%char :: chars ("ttp://" ++ u)).
  cbn [length Nat.eqb orb is_prefix chars list_ascii_of_string].
  change (Ascii.eqb "#" "h") with false. cbn [andb orb].
  rewrite orb_false_r. apply Nat.eqb_neq.
  unfold strip. rewrite chars_str.
  change (chars ("http://" ++ u)) with ("h"%char :: chars ("ttp://" ++ u)).
  change (lstrip ("h"%char :: chars ("ttp://" ++ u)))
    with ("h"%char :: chars ("ttp://" ++ u)).
  cbn [rev]. rewrite length_rev.
  pose proof (@lstrip_keeps_last (rev (chars ("ttp://" ++ u))) "h"%char eq_refl) as H.
  destruct (lstrip (rev (chars ("ttp://" ++ u)) ++ ["h"%char])); [congruence|].
  cbn. discriminate.
Qed.

Lemma prefixed_kept u : kept_url ("http://" ++ u) = true.
Proof. unfold kept_url. now rewrite prefixed_not_blank, prefixed_has_scheme. Qed.

Lemma check_urls_inv (assume_http : bool) (sites0 : list string) :
  forall copy sites lg,
    NoDup copy -> NoDup sites ->
    (forall u, In u copy -> In u sites0) ->
    (forall x, In x sites <->
       (In x sites0 /\ (In x copy \/ kept_url x = true))
       \/ (assume_http = true
           /\ exists u, In u sites0 /\ ~ In u copy /\ schemeless_url u = true
                        /\ x = "http://" ++ u)) ->
    exists sites' lg',
      check_urls assume_http copy sites lg = (Val sites', lg')
      /\ NoDup sites'
      /\ forall x, In x sites' <-> checked assume_http (fun u => In u sites0) x.
Proof.
  induction copy as [|url rest IH]; intros sites lg Hcopy Hsites Hsub Hinv.
  - exists sites, lg. split; [reflexivity|]. split; [exact Hsites|].
    intros x. rewrite Hinv. unfold checked. cbn beta. cbn [In]. split.
    + intros [[H0 [[]|Hk]]|(Ha & u & Hu & _ & Hs & ->)]; [left; now split|].
      right. split; [exact Ha|]. now exists u.
    + intros [[H0 Hk]|(Ha & u & Hu & Hs & ->)]; [left; split; [exact H0 | now right]|].
      right. split; [exact Ha|]. exists u. repeat split; auto.
  - inversion Hcopy as [|? ? Hnotin Hrest]; subst.
    assert (Hurl0 : In url sites0) by (apply Hsub; now left).
    assert (Hurl : In url sites).
    { apply Hinv. left. split; [exact Hurl0 | left; now left]. }
    assert (Hsub' : forall u, In u rest -> In u sites0) by (intros u Hu; apply Hsub; now right).
    destruct (@set_remove_In url sites Hurl) as (sites1 & Erem & Hnd1 & Hin1).
    cbn [check_urls].
    destruct (blank_or_comment url) eqn:Eb.
    + rewrite Erem. apply IH; auto.
      intros x. rewrite Hin1, Hinv. cbn [In]. split.
      * intros [[[H0 [[<-|Hr]|Hk]]|(Ha & u & Hu & Hn & Hs & ->)] Hne].
        -- congruence.
        -- left. split; [exact H0 | now left].
        -- left. split; [exact H0 | now right].
        -- right. split; [exact Ha|]. exists u. repeat split; auto.
      * intros [[H0 [Hr|Hk]]|(Ha & u & Hu & Hn & Hs & ->)].
        -- split; [left; split; [exact H0 | left; now right]|]. intros ->. contradiction.
        -- split; [left; split; [exact H0 | now right]|]. intros ->.
           unfold kept_url in Hk. rewrite Eb in Hk. discriminate.
        -- assert (Hne : u <> url).
           { intros ->. unfold schemeless_url in Hs. rewrite Eb in Hs. discriminate. }
           split.
           ++ right. split; [exact Ha|]. exists u. repeat split; auto.
              intros [E|Hr]; [congruence | contradiction].
           ++ intros E. pose proof (prefixed_not_blank u) as Hb. rewrite E in Hb. congruence.
    + destruct (has_http_scheme url) eqn:Es; cbn [negb].
      * apply IH; auto.
        intros x. rewrite Hinv. cbn [In]. split.
        -- intros [[H0 [[<-|Hr]|Hk]]|(Ha & u & Hu & Hn & Hs & ->)].
           ++ left. split; [exact H0|]. right. unfold kept_url. now rewrite Eb, Es.
           ++ left. split; [exact H0 | now left].
           ++ left. split; [exact H0 | now right].
           ++ right. split; [exact Ha|]. exists u. repeat split; auto.
        -- intros [[H0 [Hr|Hk]]|(Ha & u & Hu & Hn & Hs & ->)].
           ++ left. split; [exact H0 | left; now right].
           ++ left. split; [exact H0 | now right].
           ++ right. split; [exact Ha|]. exists u. repeat split; auto.
              intros [E|Hr]; [|contradiction]. subst u.
              unfold schemeless_url in Hs. rewrite Es, andb_false_r in Hs. discriminate.
      * rewrite Erem.
        assert (Hsl : schemeless_url url = true).
        { unfold schemeless_url. now rewrite Eb, Es. }
        assert (Hnk : kept_url url = false).
        { unfold kept_url. now rewrite Es, andb_false_r. }
        assert (Hstep : forall x, In x sites1 <->
                  (In x sites0 /\ (In x rest \/ kept_url x = true))
                  \/ (assume_http = true
                      /\ exists u, In u sites0 /\ ~ In u (url :: rest)
                                   /\ schemeless_url u = true /\ x = "http://" ++ u)).
        { intros x. rewrite Hin1, Hinv. cbn [In]. split.
          - intros [[[H0 [[<-|Hr]|Hk]]|(Ha & u & Hu & Hn & Hs & ->)] Hne].
            + congruence.
            + left. split; [exact H0 | now left].
            + left. split; [exact H0 | now right].
            + right. split; [exact Ha|]. exists u. repeat split; auto.
          - intros [[H0 [Hr|Hk]]|(Ha & u & Hu & Hn & Hs & ->)].
            + split; [left; split; [exact H0 | left; now right]|]. intros ->. contradiction.
            + split; [left; split; [exact H0 | now right]|]. intros ->. congruence.
            + split.
              * right. split; [exact Ha|]. exists u. repeat split; auto.
              * intros E. pose proof (prefixed_kept u) as Hk. rewrite E in Hk. congruence. }
        destruct assume_http.
        -- apply IH; auto using set_add_NoDup.
           intros x. rewrite set_add_In, Hstep. cbn [In]. split.
           ++ intros [->|[H|(Ha & u & Hu & Hn & Hs & ->)]].
              ** right. split; [reflexivity|]. exists url. repeat split; auto.
              ** now left.
              ** right. split; [reflexivity|]. exists u. repeat split; auto.
           ++ intros [H|(Ha & u & Hu & Hn & Hs & ->)]; [right; now left|].
              destruct (String.eqb u url) eqn:E.
              ** apply String.eqb_eq in E. subst u. now left.
              ** apply String.eqb_neq in E. right. right. split; [reflexivity|].
                 exists u. repeat split; auto. intros [E'|Hr]; [congruence | contradiction].
        -- apply IH; auto.
           intros x. rewrite Hstep. split.
           ++ intros [H|(Ha & _)]; [now left | discriminate].
           ++ intros [H|(Ha & _)]; [now left | discriminate].
Qed.

Lemma read_pickles_spec (disk : Disk) (paths : list string) :
  forall sites lg,
    NoDup sites ->
    (forall p e, In p paths -> pickle_load disk p <> Some (Exc e)) ->
    exists sites' lg',
      read_pickles disk paths sites lg = (Val sites', lg')
      /\ NoDup sites'
      /\ forall x, In x sites' <->
           In x sites
           \/ exists p contents,
                In p paths /\ pickle_load disk p = Some (Val contents) /\ In x contents.
Proof.
  induction paths as [|p rest IH]; intros sites lg Hnd Hok.
  - exists sites, lg. split; [reflexivity|]. split; [exact Hnd|].
    intros x. split; [now left | intros [H|(p & c & [] & _)]; exact H].
  - cbn [read_pickles].
    assert (Hok' : forall q e, In q rest -> pickle_load disk q <> Some (Exc e)).
    { intros q e Hq. apply Hok. now right. }
    destruct (pickle_load disk p) as [[contents|e]|] eqn:Ep.
    + destruct (IH (set_update contents sites) lg (set_update_NoDup _ Hnd) Hok')
        as (sites' & lg' & Er & Hnd' & Hin).
      exists sites', lg'. split; [exact Er|]. split; [exact Hnd'|].
      intros x. rewrite Hin, set_update_In. split.
      * intros [[H|H]|(q & c & Hq & Eq & Hx)].
        -- right. exists p, contents. repeat split; auto. now left.
        -- now left.
        -- right. exists q, c. repeat split; auto. now right.
      * intros [H|(q & c & [<-|Hq] & Eq & Hx)].
        -- left. now right.
        -- left. left. congruence.
        -- right. now exists q, c.
    + exfalso. apply (Hok p e); [now left | exact Ep].
    + match goal with
      | |- context [read_pickles disk rest sites ?l] =>
          destruct (IH sites l Hnd Hok') as (sites' & lg' & Er & Hnd' & Hin)
      end.
      exists sites', lg'. split; [exact Er|]. split; [exact Hnd'|].
      intros x. rewrite Hin. split.
      * intros [H|(q & c & Hq & Eq & Hx)]; [now left|].
        right. exists q, c. repeat split; auto. now right.
      * intros [H|(q & c & [<-|Hq] & Eq & Hx)]; [now left | congruence |].
        right. now exists q, c.
Qed.

Lemma read_files_spec (disk : Disk) (paths : list string) :
  forall sites lg,
    NoDup sites ->
    (forall fn e, In fn paths -> read_lines disk fn <> Some (Exc e)) ->
    exists sites' lg',
      read_files disk paths sites lg = (Val sites', lg')
      /\ NoDup sites'
      /\ forall x, In x sites' <->
           In x sites
           \/ exists fn lines line,
                In fn paths /\ read_lines disk fn = Some (Val lines)
                /\ In line lines /\ x = strip line.
Proof.
  induction paths as [|p rest IH]; intros sites lg Hnd Hok.
  - exists sites, lg. split; [reflexivity|]. split; [exact Hnd|].
    intros x. split; [now left | intros [H|(p & c & l & [] & _)]; exact H].
  - cbn [read_files].
    assert (Hok' : forall q e, In q rest -> read_lines disk q <> Some (Exc e)).
    { intros q e Hq. apply Hok. now right. }
    destruct (read_lines disk p) as [[lines|e]|] eqn:Ep.
    + destruct (IH (set_update (map strip lines) sites) lg (set_update_NoDup _ Hnd) Hok')
        as (sites' & lg' & Er & Hnd' & Hin).
      exists sites', lg'. split; [exact Er|]. split; [exact Hnd'|].
      intros x. rewrite Hin, set_update_In, in_map_iff. split.
      * intros [[(l & <- & Hl)|H]|(q & c & l & Hq & Eq & Hl & Hx)].
        -- right. exists p, lines, l. repeat split; auto. now left.
        -- now left.
        -- right. exists q, c, l. repeat split; auto. now right.
      * intros [H|(q & c & l & [<-|Hq] & Eq & Hl & Hx)].
        -- left. now right.
        -- left. left. exists l. split; [now subst|]. congruence.
        -- right. now exists q, c, l.
    + exfalso. apply (Hok p e); [now left | exact Ep].
    + match goal with
      | |- context [read_files disk rest sites ?l] =>
          destruct (IH sites l Hnd Hok') as (sites' & lg' & Er & Hnd' & Hin)
      end.
      exists sites', lg'. split; [exact Er|]. split; [exact Hnd'|].
      intros x. rewrite Hin. split.
      * intros [H|(q & c & l & Hq & Eq & Hl & Hx)]; [now left|].
        right. exists q, c, l. repeat split; auto. now right.
      * intros [H|(q & c & l & [<-|Hq] & Eq & Hl & Hx)]; [now left | congruence |].
        right. now exists q, c, l.
Qed.

Lemma gather_urls_spec (cargs : Cargs) (disk : Disk) :
  loadable cargs disk ->
  exists sites0 lg0,
    gather_urls cargs disk = (Val sites0, lg0)
    /\ NoDup sites0 /\ forall x, In x sites0 <-> listed cargs disk x.
Proof.
  intros [Hpk Hfl]. unfold gather_urls.
  destruct (@read_pickles_spec disk (arg_pkl cargs) (set_update (arg_url cargs) []) []
              (set_update_NoDup _ (NoDup_nil _)) Hpk) as (s1 & lg1 & E1 & Hnd1 & Hin1).
  rewrite E1.
  destruct (@read_files_spec disk (arg_file cargs) s1 lg1 Hnd1 Hfl)
    as (s2 & lg2 & E2 & Hnd2 & Hin2).
  exists s2, lg2. split; [exact E2|]. split; [exact Hnd2|].
  intros x. rewrite Hin2, Hin1, set_update_In. unfold listed. cbn [In]. tauto.
Qed.

Lemma checked_ext assume_http (P Q : string -> Prop) x :
  (forall u, P u <-> Q u) -> checked assume_http P x <-> checked assume_http Q x.
Proof.
  intros H. unfold checked. split.
  - intros [[Hx Hk]|(Ha & u & Hu & Hs & ->)]; [left; split; [now apply H | exact Hk]|].
    right. split; [exact Ha|]. exists u. repeat split; auto. now apply H.
  - intros [[Hx Hk]|(Ha & u & Hu & Hs & ->)]; [left; split; [now apply H | exact Hk]|].
    right. split; [exact Ha|]. exists u. repeat split; auto. now apply H.
Qed.

(** [retrieve_urls], when every file that exists can be loaded, returns a
    set that holds exactly: the URLs named by the arguments (on the command
    line, in a pickled list, or as a stripped line of a text file) that are
    not empty, not blank, no comment line, and start with http:// or
    https:// in any letter case; and, under [--assume_http], each other
    named URL that is not empty, blank or a comment, behind the prefix
    http://.  Without [--assume_http] those URLs are dropped.  In both
    cases every URL returned has a scheme, and the result does not depend
    on the order in which the set is popped. *)
Theorem retrieve_urls_keeps_urls_with_scheme
    (pop_order : list string -> list string) (cargs : Cargs) (disk : Disk) :
  loadable cargs disk -> pops_each_once pop_order ->
  exists sites lg,
    retrieve_urls pop_order cargs disk = (Val sites, lg)
    /\ NoDup sites
    /\ (forall x, In x sites <-> checked (arg_assume_http cargs) (listed cargs disk) x)
    /\ (forall x, In x sites -> has_http_scheme x = true).
Proof.
  intros Hload Hpop. unfold retrieve_urls.
  destruct (gather_urls_spec Hload) as (sites0 & lg0 & Eg & Hnd0 & Hin0).
  rewrite Eg. destruct (Hpop sites0 Hnd0) as [Hndp Hinp].
  destruct (@check_urls_inv (arg_assume_http cargs) sites0 (pop_order sites0) sites0 lg0
              Hndp Hnd0 (fun u Hu => proj1 (Hinp u) Hu)) as (sites & lg & Ec & Hnd & Hin).
  { intros x. split.
    - intros Hx. left. split; [exact Hx|]. left. now apply Hinp.
    - intros [[Hx _]|(_ & u & Hu & Hn & _)]; [exact Hx|].
      exfalso. apply Hn. now apply Hinp. }
  exists sites, lg. split; [exact Ec|]. split; [exact Hnd|].
  assert (Hchar : forall x, In x sites <->
                            checked (arg_assume_http cargs) (listed cargs disk) x).
  { intros x. rewrite Hin. apply checked_ext. exact Hin0. }
  split; [exact Hchar|].
  intros x Hx. apply Hchar in Hx.
  destruct Hx as [[_ Hk]|(_ & u & _ & _ & ->)].
  - unfold kept_url in Hk. now apply andb_true_iff in Hk.
  - apply prefixed_has_scheme.
Qed.

Lemma retrieve_urls_keeps_urls_with_scheme_witness :
  exists sites lg,
    retrieve_urls (@rev string) example_cargs example_disk = (Val sites, lg)
    /\ NoDup sites
    /\ (forall x, In x sites <->
                  checked (arg_assume_http example_cargs) (listed example_cargs example_disk) x)
    /\ (forall x, In x sites -> has_http_scheme x = true).
Proof.
  apply retrieve_urls_keeps_urls_with_scheme.
  - split; cbn; intros p e H.
    + destruct H.
    + destruct H as [<-|[]]. discriminate.
  - intros l Hl. split; [now apply NoDup_rev|].
    intros x. symmetry. apply in_rev.
Defined.

End CheckedUrls.

(** ** The rows of a Termly document *)

Section TermlyRows.

Lemma run_eq {A} (c : M A) s a : fst (c s) = Val a -> c s = (Val a, snd (c s)).
Proof. intros H. rewrite <- H. now destruct (c s). Qed.

Lemma termly_keys_loop (keys : list string) s :
  let r := for_each keys (fun k =>
             when (negb (in_strings k Termly.known_cookie_attributes))
                  (set_weird true ;; log WARNING ("UNKNOWN COOKIE ATTRIBUTE: " ++ k))) s in
  fst r = Val tt
  /\ database_cookie_data (snd r) = database_cookie_data s
  /\ cookie_count (snd r) = cookie_count s.
Proof.
  revert s. induction keys as [|k keys IH]; intros s; cbv zeta.
  - cbn. auto.
  - cbn [for_each].
    destruct (negb (in_strings k Termly.known_cookie_attributes)); cbn [when].
    + set (s1 := snd ((set_weird true ;;
                       log WARNING ("UNKNOWN COOKIE ATTRIBUTE: " ++ k)) s)).
      assert (E : (set_weird true ;; log WARNING ("UNKNOWN COOKIE ATTRIBUTE: " ++ k)) s
                  = (Val tt, s1)) by reflexivity.
      rewrite (bind_val _ _ _ E). exact (IH s1).
    + unfold bind at 1. cbn [ret]. exact (IH s).
Qed.

Lemma termly_parse_cookie_run url catname cat_id d s :
  usable_cookie (PDict d) = true ->
  let r := Termly.parse_cookie url catname cat_id (PDict d) s in
  fst r = Val tt
  /\ database_cookie_data (snd r)
     = (database_cookie_data s ++ [termly_cookie_row url catname cat_id (PDict d)])%list
  /\ cookie_count (snd r) = S (cookie_count s).
Proof.
  intros H. cbv zeta.
  remember (Termly.parse_cookie url catname cat_id (PDict d) s) as r eqn:Er.
  unfold Termly.parse_cookie in Er.
  unfold bind at 1, lift at 1 in Er. cbn [py_keys] in Er.
  destruct (termly_keys_loop (map fst d) s) as (K1 & K2 & K3). cbv zeta in K1, K2, K3.
  rewrite (bind_val _ _ _ (run_eq _ _ K1)) in Er.
  set (s1 := snd (for_each (map fst d) _ s)) in *.
  unfold usable_cookie, field_or_None in H.
  unfold termly_cookie_row, cookie_fields, field_or_None.
  unfold optional_field, contains_key, getitem in Er.
  apply andb_true_iff in H. destruct H as [Hn Hd].
  assert (Hcollect : forall name domain purpose type s2,
            hashable name = true -> hashable domain = true ->
            database_cookie_data s2 = database_cookie_data s1 ->
            cookie_count s2 = S (cookie_count s1) ->
            let r := collect_cookie_dat url name domain "/" catname cat_id purpose type s2 in
            fst r = Val tt
            /\ database_cookie_data (snd r)
               = (database_cookie_data s
                  ++ [MkCookie url name domain "/" cat_id catname purpose type])%list
            /\ cookie_count (snd r) = S (cookie_count s)).
  { intros name domain purpose type s2 Hhn Hhd Hdb Hcc. cbv zeta.
    rewrite collect_cookie_dat_run. unfold ident_hashable. rewrite Hhn, Hhd. cbn [andb negb].
    cbn [fst snd]. repeat split.
    - cbn. now rewrite Hdb, K2.
    - cbn. now rewrite Hcc, K3. }
  clearbody s1. clear K1 K2 K3.
  destruct (assoc_str "name" d) as [name|];
    destruct (assoc_str "domain" d) as [domain|];
    destruct (assoc_str "category" d) as [category|];
    destruct (assoc_str "en_us" d) as [purpose|];
    destruct (assoc_str "tracker_type" d) as [type|];
    unfold bind, lift, add_count, set_weird, get_count, log, when, ret in Er;
    cbn beta iota in Er;
    try destruct (negb (py_eq_str category catname));
    subst r; apply Hcollect; try assumption; try reflexivity; cbn; lia.
Qed.

Lemma termly_bucket_run url catname cat_id cs :
  forallb usable_cookie cs = true ->
  forall s,
    let r := for_each cs (Termly.parse_cookie url catname cat_id) s in
    fst r = Val tt
    /\ database_cookie_data (snd r)
       = (database_cookie_data s ++ map (termly_cookie_row url catname cat_id) cs)%list
    /\ cookie_count (snd r) = cookie_count s + length cs.
Proof.
  induction cs as [|c cs IH]; intros H s; cbv zeta.
  - cbn. rewrite app_nil_r. auto.
  - cbn [forallb] in H. apply andb_true_iff in H. destruct H as [Hc Hcs].
    remember (for_each (c :: cs) (Termly.parse_cookie url catname cat_id) s) as r eqn:Er.
    cbn [for_each] in Er.
    destruct c as [| | | | | |d]; try discriminate Hc.
    destruct (@termly_parse_cookie_run url catname cat_id d s Hc) as (P1 & P2 & P3).
    cbv zeta in P1, P2, P3.
    rewrite (bind_val _ _ _ (run_eq _ _ P1)) in Er. subst r.
    destruct (IH Hcs (snd (Termly.parse_cookie url catname cat_id (PDict d) s)))
      as (Q1 & Q2 & Q3).
    cbv zeta in Q1, Q2, Q3. rewrite Q1, Q2, Q3, P2, P3. cbn [map length].
    rewrite <- app_assoc. cbn [app]. repeat split. lia.
Qed.

Lemma termly_walk_run url (buckets : list (string * pyval)) :
  forallb usable_bucket buckets = true ->
  forall s,
    let r := for_each buckets (fun item =>
               let '(catname, entry) := item in
               match Termly.name_to_cat catname with
               | None => set_weird true ;; log ERROR ("UNKNOWN CATEGORY: " ++ catname)
               | Some cat_id =>
                   entries <- lift (iterate entry) ;;
                   for_each entries (Termly.parse_cookie url catname cat_id)
               end) s in
    fst r = Val tt
    /\ database_cookie_data (snd r) = (database_cookie_data s ++ termly_rows url buckets)%list
    /\ cookie_count (snd r) = cookie_count s + length (termly_rows url buckets).
Proof.
  induction buckets as [|[catname entry] buckets IH]; intros H s; cbv zeta.
  - cbn. rewrite app_nil_r. auto.
  - cbn [forallb] in H. apply andb_true_iff in H. destruct H as [Hb Hbs].
    unfold usable_bucket in Hb. cbn [fst snd] in Hb.
    unfold termly_rows. cbn [flat_map fst snd]. fold (termly_rows url buckets).
    match goal with |- context [for_each _ ?f s] => set (body := f) end.
    remember (for_each ((catname, entry) :: buckets) body s) as r eqn:Er.
    cbn [for_each] in Er.
    destruct (Termly.name_to_cat catname) as [cat_id|] eqn:Ecat.
    + destruct entry as [| | | |cs| |]; try discriminate Hb.
      destruct (@termly_bucket_run url catname cat_id cs Hb s) as (P1 & P2 & P3).
      cbv zeta in P1, P2, P3.
      assert (Eb : body (catname, PList cs) s
                   = (Val tt, snd (for_each cs (Termly.parse_cookie url catname cat_id) s))).
      { unfold body. rewrite Ecat. unfold bind, lift. cbn [iterate].
        exact (run_eq _ _ P1). }
      rewrite (bind_val _ _ _ Eb) in Er. subst r.
      destruct (IH Hbs (snd (for_each cs (Termly.parse_cookie url catname cat_id) s)))
        as (Q1 & Q2 & Q3).
      cbv zeta in Q1, Q2, Q3. fold body in Q1, Q2, Q3.
      rewrite Q1, Q2, Q3, P2, P3. rewrite length_app, length_map, <- app_assoc.
      repeat split. lia.
    + set (s1 := snd ((set_weird true ;; log ERROR ("UNKNOWN CATEGORY: " ++ catname)) s)).
      assert (Eb : body (catname, entry) s = (Val tt, s1)).
      { unfold body. rewrite Ecat. reflexivity. }
      rewrite (bind_val _ _ _ Eb) in Er. subst r.
      destruct (IH Hbs s1) as (Q1 & Q2 & Q3). cbv zeta in Q1, Q2, Q3. fold body in Q1, Q2, Q3.
      rewrite Q1, Q2, Q3. cbn [app]. repeat split.
Qed.

Lemma debug_dump_dict_run outname d s :
  let r := Termly.debug_dump_dict outname d s in
  fst r = Val tt
  /\ database_cookie_data (snd r) = database_cookie_data s
  /\ cookie_count (snd r) = cookie_count s.
Proof.
  cbv zeta. unfold Termly.debug_dump_dict, bind, get. cbn.
  destruct (debug_mode s); cbn; auto.
Qed.

(** [parse_termly_cookie_json] on a document whose ["cookies"] entry is a
    dictionary of buckets, each bucket with a name of [name_to_cat] being a
    list of dictionaries whose name and domain can be hashed: it appends,
    bucket by bucket and cookie by cookie, one row per cookie of the buckets
    that [name_to_cat] knows, a missing name, domain, purpose or type being
    [None]; the cookies of any other bucket are left out.  It returns
    [SUCCESS] with the number of these rows, or [NO_COOKIES] when there is
    none. *)
Theorem termly_rows_are_the_cookies_of_known_buckets
    (url : string) (cookie_dict : pyval) (buckets : list (string * pyval)) (s : Scraper) :
  getitem cookie_dict "cookies" = Val (PDict buckets) ->
  forallb usable_bucket buckets = true ->
  let rows := termly_rows url buckets in
  let r := Termly.parse_termly_cookie_json url cookie_dict s in
  fst r = Val (if Nat.eqb (length rows) 0
               then (NO_COOKIES, Some "No cookies found in Termly JSON!!")
               else (SUCCESS,
                     Some ("Number of Cookies extracted: " ++ str_of_nat (length rows))))
  /\ database_cookie_data (snd r) = (database_cookie_data s ++ rows)%list.
Proof.
  intros Hget Hok rows r. subst r.
  remember (Termly.parse_termly_cookie_json url cookie_dict s) as r eqn:Er.
  unfold Termly.parse_termly_cookie_json in Er. cbv zeta in Er.
  destruct cookie_dict as [| | | | | |d]; try discriminate Hget.
  cbn [getitem] in Hget.
  destruct (assoc_str "cookies" d) as [cookies|] eqn:Ea; [|discriminate Hget].
  injection Hget as ->.
  set (s0 := set_weird_stuff_occurred false (set_cookie_count 0 s)).
  assert (E0 : (set_count 0 ;; set_weird false) s = (Val tt, s0)) by reflexivity.
  destruct (@termly_walk_run url buckets Hok s0) as (P1 & P2 & P3). cbv zeta in P1, P2, P3.
  set (s1 := snd (for_each buckets _ s0)) in *.
  assert (Ew : try_except (Termly.walk_buckets url (PDict d) ;; ret None)
                 (clauses
                    [except_ [Exception_] (fun ex =>
                       Termly.debug_dump_dict "termly_malf_resp.pkl" (PDict d) ;;
                       ret (Some ("Unexpected error while extracting Cookies from Termly Dict: : "
                                  ++ type_ex ex ++ " " ++ str_ex ex)))]) s0
               = (Val None, s1)).
  { apply try_val. unfold Termly.walk_buckets.
    unfold bind at 1. unfold bind at 1, lift at 1. cbn [getitem]. rewrite Ea.
    unfold bind at 1, lift at 1. cbn [py_items].
    rewrite (run_eq _ _ P1). reflexivity. }
  assert (Er' : r = (s2 <- get ;;
                     when (weird_stuff_occurred s2)
                          (Termly.debug_dump_dict "termly_malf_resp.pkl" (PDict d)) ;;
                     cookie_count <- get_count ;;
                     if Nat.eqb cookie_count 0 then
                       ret (NO_COOKIES, Some "No cookies found in Termly JSON!!")
                     else
                       ret (SUCCESS, Some ("Number of Cookies extracted: "
                                           ++ str_of_nat cookie_count))) s1).
  { rewrite Er. unfold bind at 1. unfold bind at 1. cbn [set_count].
    unfold bind at 1. cbn [set_weird]. fold s0.
    unfold bind at 1, lift at 1. cbn [contains_key]. rewrite Ea.
    rewrite Ew. reflexivity. }
  clear Er. unfold bind at 1, get in Er'.
  assert (Hc1 : cookie_count s1 = length rows).
  { rewrite P3. reflexivity. }
  destruct (weird_stuff_occurred s1); cbn [when] in Er'.
  - destruct (debug_dump_dict_run "termly_malf_resp.pkl" (PDict d) s1) as (D1 & D2 & D3).
    cbv zeta in D1, D2, D3.
    rewrite (bind_val _ _ _ (run_eq _ _ D1)) in Er'.
    unfold bind, get_count in Er'. rewrite D3, Hc1 in Er'. subst r.
    destruct (Nat.eqb (length rows) 0); cbn [fst snd ret]; (split; [reflexivity|]);
      rewrite D2; exact P2.
  - unfold bind, get_count, ret in Er'. cbn beta iota in Er'. rewrite Hc1 in Er'. subst r.
    destruct (Nat.eqb (length rows) 0); cbn [fst snd]; (split; [reflexivity|]); exact P2.
Qed.

Lemma termly_rows_are_the_cookies_of_known_buckets_witness :
  database_cookie_data
    (snd (Termly.parse_termly_cookie_json "https://shop.example" termly_example
            started_scraper))
  = (database_cookie_data started_scraper
     ++ termly_rows "https://shop.example" termly_example_buckets)%list.
Proof.
  exact (proj2 (@termly_rows_are_the_cookies_of_known_buckets
                  "https://shop.example" termly_example termly_example_buckets
                  started_scraper eq_refl eq_refl)).
Defined.

End TermlyRows.

(** ** The files written after a run *)

Section DumpFiles.

Lemma chars_concat_empty (l : list string) :
  chars (String.concat "" l) = flat_map chars l.
Proof.
  induction l as [|a l IH]; [reflexivity|].
  destruct l as [|b l].
  - cbn. now rewrite app_nil_r.
  - change (String.concat "" (a :: b :: l)) with (a ++ "" ++ String.concat "" (b :: l)).
    rewrite !chars_app, IH. reflexivity.
Qed.

Lemma universal_newlines_plain (l : list ascii) :
  forallb (fun c => negb (Ascii.eqb c carriage_return)) l = true ->
  universal_newlines l = l.
Proof.
  induction l as [|c t IH]; [reflexivity|]. cbn [forallb universal_newlines].
  intros H. apply andb_true_iff in H. destruct H as [Hc Ht].
  apply negb_true_iff in Hc. rewrite Hc. now rewrite (IH Ht).
Qed.

Lemma split_lines_line (u rest cur : list ascii) :
  forallb (fun c => negb (Ascii.eqb c newline)) u = true ->
  split_lines (u ++ newline :: rest) cur
  = (rev cur ++ u ++ [newline])%list :: split_lines rest [].
Proof.
  revert cur. induction u as [|c u IH]; intros cur H.
  - cbn [app split_lines]. rewrite Ascii.eqb_refl. cbn [rev]. reflexivity.
  - cbn [forallb] in H. apply andb_true_iff in H. destruct H as [Hc Hu].
    apply negb_true_iff in Hc. cbn [app split_lines]. rewrite Hc.
    rewrite (IH (c :: cur) Hu). cbn [rev]. now rewrite <- app_assoc.
Qed.

Lemma single_line_parts (u : string) :
  single_line u = true ->
  forallb (fun c => negb (Ascii.eqb c newline)) (chars u) = true
  /\ forallb (fun c => negb (Ascii.eqb c carriage_return)) (chars u) = true.
Proof.
  unfold single_line. induction (chars u) as [|c t IH]; [now split|].
  cbn [forallb]. intros H. apply andb_true_iff in H. destruct H as [Hc Ht].
  apply andb_true_iff in Hc. destruct Hc as [H1 H2]. destruct (IH Ht) as [I1 I2].
  now rewrite H1, H2, I1, I2.
Qed.

Lemma nl_chars (u : string) : chars (u ++ nl) = (chars u ++ [newline])%list.
Proof. rewrite chars_app. reflexivity. Qed.

Lemma file_lines_of_dump (urls : list string) :
  forallb single_line urls = true ->
  file_lines (failed_urls_text urls) = map (fun u => u ++ nl) urls.
Proof.
  intros H. unfold file_lines, failed_urls_text. rewrite chars_concat_empty.
  rewrite flat_map_concat_map, map_map. rewrite <- flat_map_concat_map.
  assert (Hcr : forallb (fun c => negb (Ascii.eqb c carriage_return))
                        (flat_map (fun u => chars (u ++ nl)) urls) = true).
  { induction urls as [|u urls IH]; [reflexivity|].
    cbn [forallb] in H. apply andb_true_iff in H. destruct H as [Hu Hus].
    cbn [flat_map]. rewrite forallb_app, (IH Hus), nl_chars, forallb_app.
    destruct (single_line_parts _ Hu) as [_ ->]. reflexivity. }
  rewrite (universal_newlines_plain _ Hcr). clear Hcr.
  induction urls as [|u urls IH]; [reflexivity|].
  cbn [forallb] in H. apply andb_true_iff in H. destruct H as [Hu Hus].
  cbn [flat_map map]. rewrite nl_chars, <- app_assoc. cbn [app].
  destruct (single_line_parts _ Hu) as [Hnl _].
  rewrite (split_lines_line _ _ [] Hnl). cbn [map rev app].
  rewrite (IH Hus). f_equal. rewrite <- nl_chars. apply str_chars.
Qed.

Lemma lstrip_app (a b : list ascii) :
  lstrip (a ++ b) = match lstrip a with
                    | [] => lstrip b
                    | _ => (lstrip a ++ b)%list
                    end.
Proof.
  induction a as [|c a IH]; [reflexivity|]. cbn [app lstrip].
  destruct (is_space c); [exact IH | reflexivity].
Qed.

Lemma strip_line (u : string) : strip (u ++ nl) = strip u.
Proof.
  unfold strip. rewrite nl_chars, lstrip_app.
  destruct (lstrip (chars u)) as [|c t] eqn:E.
  - reflexivity.
  - rewrite rev_app_distr. cbn [rev app lstrip].
    change (is_space newline) with true. cbn iota. reflexivity.
Qed.

(** [dump_failed_urls] returns without touching the file system when no
    crawl has failed, whatever the path.  Otherwise it writes to the path,
    or to [logpath] when the path is [None] or empty, one line per failed
    URL in the order of the failures; read back line by line and stripped,
    as [retrieve_urls] reads a file of URLs, these lines give the failed
    URLs, stripped, when no URL holds a line end. *)
Theorem dump_failed_urls_round_trip
    (fs : FileSystem) (outpath : option string) (s : Scraper) :
  let target := path_or outpath (logpath s) in
  let text := failed_urls_text (failed_urls s) in
  (failed_urls s = [] ->
   fst (dump_failed_urls fs outpath s) = Val tt
   /\ files (snd (dump_failed_urls fs outpath s)) = files s)
  /\ (failed_urls s <> [] ->
      forall dirs fn,
        os_path_split (Some target) = Val (dirs, fn) ->
        os_makedirs fs dirs = Val tt ->
        fs_open_w fs target = Val tt ->
        fst (dump_failed_urls fs outpath s) = Val tt
        /\ files (snd (dump_failed_urls fs outpath s)) = (files s ++ [(target, text)])%list)
  /\ (forallb single_line (failed_urls s) = true ->
      map strip (file_lines text) = map strip (failed_urls s)).
Proof.
  cbv zeta. split; [|split].
  - intros H. unfold dump_failed_urls, bind, get. cbn [fst snd]. rewrite H. cbn. auto.
  - intros H dirs fn Hsplit Hmk Hopen.
    assert (Hn : Nat.eqb (length (failed_urls s)) 0 = false).
    { destruct (failed_urls s); [congruence | reflexivity]. }
    unfold dump_failed_urls, bind, get, lift. cbn beta iota.
    rewrite Hn, Hsplit. cbn beta iota. rewrite Hmk, Hopen. cbn beta iota.
    split; reflexivity.
  - intros H. rewrite (file_lines_of_dump _ H), map_map.
    apply map_ext. intros u. apply strip_line.
Qed.

Lemma after_last_slash_none (l : list ascii) :
  contains_chars [slash] l = false -> after_last_slash l = 0.
Proof.
  induction l as [|c t IH]; [reflexivity|].
  cbn [contains_chars is_prefix after_last_slash].
  intros H. apply orb_false_iff in H. destruct H as [Hc Ht].
  rewrite (IH Ht). rewrite andb_true_r in Hc.
  rewrite Ascii.eqb_sym in Hc. now rewrite Hc.
Qed.

Lemma split_without_slash (p : string) :
  str_contains "/" p = false -> os_path_split (Some p) = Val ("", p).
Proof.
  intros H. unfold os_path_split.
  rewrite (after_last_slash_none _ H). cbn. now rewrite str_chars.
Qed.

(** A dump function needs a path with a directory part.  With [None],
    [dump_crawl_statistics] and [dump_full_error_info] raise a TypeError;
    with a path without ["/"], the empty path included, they fail in
    [os.makedirs]; in both cases nothing is written and the file system is
    not asked, so that their fallback to [logpath] is never taken.
    [dump_failed_urls], which takes its fallback first, fails in the same
    way on a file name without ["/"] when there are failed URLs. *)
Theorem dump_needs_a_directory (fs : FileSystem) (outpath : option string) (s : Scraper) :
  (outpath = None ->
   dump_crawl_statistics fs outpath s = (Exc not_a_path, s)
   /\ dump_full_error_info fs outpath s = (Exc not_a_path, s))
  /\ (forall p, outpath = Some p -> str_contains "/" p = false ->
      dump_crawl_statistics fs outpath s = (Exc no_directory, s)
      /\ dump_full_error_info fs outpath s = (Exc no_directory, s)
      /\ (failed_urls s <> [] -> no_path outpath = false ->
          dump_failed_urls fs outpath s = (Exc no_directory, s))).
Proof.
  split.
  - intros ->. split; reflexivity.
  - intros p -> Hp. pose proof (split_without_slash p Hp) as Hsplit.
    split; [|split].
    + unfold dump_crawl_statistics, bind, lift. rewrite Hsplit. reflexivity.
    + unfold dump_full_error_info, bind, lift. rewrite Hsplit. reflexivity.
    + intros Hf Hn.
      assert (Hlen : Nat.eqb (length (failed_urls s)) 0 = false).
      { destruct (failed_urls s); [congruence | reflexivity]. }
      unfold no_path in Hn.
      unfold dump_failed_urls, bind, get, lift. cbn beta iota.
      rewrite Hlen. unfold path_or. rewrite Hn, Hsplit. reflexivity.
Qed.

Lemma statistics_text_ext (s s' : Scraper) :
  (forall r, In r statistics_rows -> status_counts s' (snd r) = status_counts s (snd r)) ->
  statistics_text s' = statistics_text s.
Proof.
  intros H. unfold statistics_text. f_equal. apply map_ext_in.
  intros r Hr. now rewrite (H r Hr).
Qed.

(** [dump_crawl_statistics] writes one line for each of eleven states.
    The outcomes [BOT_DETECTION], [NO_COOKIES] and [JSON_DECODE_ERROR] have
    no line: recording one of them does not change the text, and the
    counters written add up to the number of recorded outcomes less those
    three. *)
Theorem crawl_statistics_omit_three_states
    (fs : FileSystem) (outpath : option string) (s : Scraper) :
  (forall p dirs fn,
      outpath = Some p -> no_path outpath = false ->
      os_path_split (Some p) = Val (dirs, fn) ->
      os_makedirs fs dirs = Val tt -> fs_open_w fs p = Val tt ->
      fst (dump_crawl_statistics fs outpath s) = Val tt
      /\ files (snd (dump_crawl_statistics fs outpath s))
         = (files s ++ [(p, statistics_text s)])%list)
  /\ (forall url st report,
        In st [BOT_DETECTION; NO_COOKIES; JSON_DECODE_ERROR] ->
        statistics_text (snd (update_crawl_stats url st report s)) = statistics_text s)
  /\ listed_count s + status_counts s BOT_DETECTION + status_counts s NO_COOKIES
     + status_counts s JSON_DECODE_ERROR = total_count s.
Proof.
  split; [|split].
  - intros p dirs fn -> Hn Hsplit Hmk Hopen. unfold no_path in Hn.
    unfold dump_crawl_statistics, bind, get, lift. rewrite Hsplit. cbn beta iota.
    rewrite Hmk. cbn beta iota. unfold path_or. rewrite Hn, Hopen. cbn beta iota.
    split; reflexivity.
  - intros url st report Hst. apply statistics_text_ext. intros r Hr.
    destruct (update_crawl_stats_run url st report s) as (_ & Hrec & _).
    cbv zeta in Hrec. rewrite Hrec.
    cbn [In] in Hst. destruct Hst as [<-|[<-|[<-|[]]]];
      unfold statistics_rows in Hr; cbn [In] in Hr;
      repeat (destruct Hr as [<-|Hr]; [reflexivity|]); destruct Hr.
  - unfold listed_count, total_count, statistics_rows, all_states. cbn [fold_right snd]. lia.
Qed.

End DumpFiles.

(** ** The outcomes that an extractor can record *)

Section OnlyGeneric.

Variable P : CrawlState -> bool.

Lemma only_refl s : only P s s.
Proof. intros e _. reflexivity. Qed.

Lemma only_trans a b c : only P a b -> only P b c -> only P a c.
Proof. intros H1 H2 e He. now rewrite (H2 e He), (H1 e He). Qed.

Lemma only_same {A} (c : M A) :
  (forall s, status_counts (snd (c s)) = status_counts s) -> keeps (only P) c.
Proof. intros H s e _. now rewrite H. Qed.

Lemma only_of_still {A} (c : M A) : keeps still c -> keeps (only P) c.
Proof. intros H. apply only_same. intros s. exact (still_status (H s)). Qed.

Lemma only_of_gathers {A} (c : M A) : keeps gathers c -> keeps (only P) c.
Proof. intros H. apply only_same. intros s. exact (gathers_status (H s)). Qed.

Lemma only_update url st report :
  P st = true -> keeps (only P) (update_crawl_stats url st report).
Proof.
  intros Hst s e He.
  destruct (update_crawl_stats_run url st report s) as (_ & Hrec & _).
  cbv zeta in Hrec. rewrite Hrec.
  destruct (CrawlState_eqb e st) eqn:E; [|reflexivity].
  apply CrawlState_eqb_eq in E. congruence.
Qed.

End OnlyGeneric.

Section ReturnedStates.

Variable W : World.

Lemma static_get_request_states url headers :
  yields (static_get_request W url headers) (fun r => fetch_state (snd (fst r)) = true).
Proof. unfold static_get_request. repeat yields_step; reflexivity. Qed.

Lemma driver_get_states url :
  yields (driver_get W url) (fun r => fetch_state (fst r) = true).
Proof. unfold driver_get. repeat yields_step; reflexivity. Qed.

Lemma fetch_cookiebot st : fetch_state st = true -> cookiebot_state st = true.
Proof. intros H. unfold cookiebot_state. now rewrite H. Qed.

Lemma fetch_termly st : fetch_state st = true -> termly_state st = true.
Proof. intros H. unfold termly_state. now rewrite H. Qed.

Lemma try_retrieve_cbid_states res url :
  yields (Cookiebot.try_retrieve_cbid W res url)
         (fun r => cookiebot_state (snd (fst r)) = true).
Proof.
  unfold Cookiebot.try_retrieve_cbid, Cookiebot.try_selenium_approach.
  apply yields_bind with (P := fun r => fetch_state (fst r) = true);
    [apply driver_get_states|].
  intros [state report] Hst. cbn [fst] in Hst.
  destruct (negb (CrawlState_eqb state SUCCESS)).
  - apply yields_ret. now apply fetch_cookiebot.
  - apply yields_try; [|repeat yields_step; reflexivity].
    apply yields_bind
      with (P := fun first => forall r, first = Some r -> cookiebot_state (snd (fst r)) = true).
    + repeat yields_step; first [intros r [= <-]; reflexivity | discriminate].
    + intros [r|] Hr; [apply yields_ret; now apply Hr|].
      repeat yields_step; reflexivity.
Qed.

Lemma retrieve_termly_json_states url :
  yields (Termly.retrieve_termly_json W url)
         (fun r => termly_state (snd (fst r)) = true).
Proof.
  unfold Termly.retrieve_termly_json. cbv zeta.
  apply yields_bind with (P := fun r => fetch_state (fst r) = true);
    [apply driver_get_states|].
  intros [state report] Hst. cbn [fst] in Hst.
  destruct (negb (CrawlState_eqb state SUCCESS)).
  - apply yields_ret. now apply fetch_termly.
  - apply yields_try; [|repeat yields_step; reflexivity].
    apply yields_bind_any. intros [uuid1|]; [|apply yields_ret; reflexivity].
    apply yields_bind_any. intros _.
    apply yields_bind with (P := fun r => fetch_state (snd (fst r)) = true);
      [apply static_get_request_states|].
    intros [[resp st1] err] H1. cbn [fst snd] in H1.
    destruct (negb (CrawlState_eqb st1 SUCCESS)).
    { apply yields_ret. now apply fetch_termly. }
    apply yields_bind_any. intros [policy_dict|msg]; [|apply yields_ret; reflexivity].
    apply yields_bind_any. intros has_docs.
    apply yields_bind_any. intros [uuid2|]; [|apply yields_ret; reflexivity].
    apply yields_bind_any. intros _. cbv zeta.
    apply yields_bind with (P := fun r => fetch_state (snd (fst r)) = true);
      [apply static_get_request_states|].
    intros [[resp2 st2] err2] H2. cbn [fst snd] in H2.
    destruct (negb (CrawlState_eqb st2 SUCCESS)).
    { apply yields_ret. now apply fetch_termly. }
    apply yields_bind_any. intros [cookies_json|msg]; apply yields_ret; reflexivity.
Qed.

Lemma parse_termly_cookie_json_states url cookie_dict :
  yields (Termly.parse_termly_cookie_json url cookie_dict)
         (fun r => termly_state (fst r) = true).
Proof.
  unfold Termly.parse_termly_cookie_json. cbv zeta.
  repeat yields_step; reflexivity.
Qed.

End ReturnedStates.

Ltac only_step :=
  lazymatch goal with
  | |- keeps (only _) (update_crawl_stats _ _ _) =>
      apply only_update; first [reflexivity | assumption]
  | |- keeps (only _) (set_count _) => apply only_same; intros; reflexivity
  | |- keeps (only _) (add_count _) => apply only_same; intros; reflexivity
  | |- keeps (only _) (collect_cookie_dat _ _ _ _ _ _ _ _) =>
      apply only_of_gathers, gathers_collect
  | |- keeps (only _) (Cookiebot.dump_debug_js _ _) =>
      apply only_of_still, still_dump_debug_js
  | |- keeps (only _) (Termly.debug_dump_dict _ _) =>
      apply only_of_gathers; intros ?; apply gathers_debug_dump_dict
  | |- keeps (only ?P) _ =>
      first [ solve [apply only_of_still; auto with still_db nocore]
            | frame_step (@only_refl P) (@only_trans P) ]
  | |- handled (only ?P) _ => frame_step (@only_refl P) (@only_trans P)
  end.

Section RecordedStates.

Variable W : World.

Lemma only_cookiebot url : keeps (only cookiebot_state) (Cookiebot.scrape_website W url).
Proof.
  unfold Cookiebot.scrape_website.
  apply (@keeps_bind_yields (only cookiebot_state) _ _ _ _ _ (@only_trans cookiebot_state)
           (static_get_request_states W url []));
    [apply only_of_still, still_static_get_request|].
  intros [[r state] report] Hst. cbn [fst snd] in Hst. apply fetch_cookiebot in Hst.
  destruct (negb (CrawlState_eqb state SUCCESS)); [repeat only_step|].
  apply (@keeps_bind _ (@only_trans cookiebot_state)); [repeat only_step|]. intros _.
  apply (@keeps_bind_yields (only cookiebot_state) _ _ _ _ _ (@only_trans cookiebot_state)
           (try_retrieve_cbid_states W r url));
    [apply only_of_still, still_try_retrieve_cbid|].
  intros [[cbid state2] report2] Hst2. cbn [fst snd] in Hst2.
  destruct (negb (CrawlState_eqb state2 SUCCESS)); [repeat only_step|].
  unfold Cookiebot.parse_cc_js, Cookiebot.walk_tables, Cookiebot.parse_bucket.
  repeat only_step.
Qed.

Lemma only_termly url : keeps (only termly_state) (Termly.scrape_website W url).
Proof.
  unfold Termly.scrape_website.
  apply (@keeps_bind_yields (only termly_state) _ _ _ _ _ (@only_trans termly_state)
           (retrieve_termly_json_states W url));
    [apply only_of_still, still_retrieve_termly_json|].
  intros [[cookies_dict state] report] Hst. cbn [fst snd] in Hst.
  destruct (negb (CrawlState_eqb state SUCCESS)); [repeat only_step|].
  apply (@keeps_bind _ (@only_trans termly_state)); [repeat only_step|]. intros _.
  apply (@keeps_bind_yields (only termly_state) _ _ _ _ _ (@only_trans termly_state)
           (parse_termly_cookie_json_states url cookies_dict)).
  - unfold Termly.parse_termly_cookie_json, Termly.walk_buckets, Termly.parse_cookie.
    cbv zeta. repeat only_step.
  - intros [state2 report2] Hst2. cbn [fst] in Hst2. repeat only_step.
Qed.

End RecordedStates.

Section FailsWithin.

Variable P : CrawlState -> bool.

Lemma fails_within_quiet {A} (c : M A) : quiet c -> fails_within P c.
Proof.
  intros H s e s' E. specialize (H s e s' E).
  destruct e as [c0 msg|st msg]; [exact I | destruct H].
Qed.

Lemma fails_within_bind {A B} (c : M A) (f : A -> M B) (Q : A -> Prop) :
  fails_within P c -> yields c Q -> (forall a, Q a -> fails_within P (f a)) ->
  fails_within P (bind c f).
Proof.
  intros Hc Hy Hf s e s'. unfold bind.
  destruct (c s) as [[a|e0] s1] eqn:E.
  - intros E2. exact (Hf a (Hy _ _ _ E) s1 e s' E2).
  - intros [= <- <-]. exact (Hc s e0 s1 E).
Qed.

Lemma fails_within_check_state st report :
  (st <> SUCCESS -> P st = true) -> fails_within P (OneTrust.check_state st report).
Proof.
  intros H s e s'. unfold OneTrust.check_state.
  destruct (negb (CrawlState_eqb st SUCCESS)) eqn:E; [|discriminate].
  intros [= <- <-]. apply H. apply negb_true_iff in E. now apply CrawlState_eqb_neq.
Qed.

Lemma check_state_yields st report :
  yields (OneTrust.check_state st report) (fun _ => st = SUCCESS).
Proof.
  intros s a s'. unfold OneTrust.check_state.
  destruct (negb (CrawlState_eqb st SUCCESS)) eqn:E; [discriminate|].
  intros _. apply negb_false_iff in E. now apply CrawlState_eqb_eq.
Qed.

Lemma only_try_variant_failed {A} (c : M A) (k : CrawlState -> option string -> M A) :
  keeps (only P) c -> fails_within P c ->
  (forall st m, P st = true -> keeps (only P) (k st m)) ->
  keeps (only P) (try_except c (OneTrust.except_variant_failed k)).
Proof.
  intros Hc Hf Hk s. unfold try_except. specialize (Hc s). specialize (Hf s).
  destruct (c s) as [[a|e] s1]; cbn [snd] in *; [exact Hc|].
  specialize (Hf e s1 eq_refl).
  destruct e as [c0 msg|st msg]; cbn [OneTrust.except_variant_failed snd]; [exact Hc|].
  eapply only_trans; [exact Hc|]. exact (Hk st msg Hf s1).
Qed.

Lemma yields_true {A} (c : M A) : yields c (fun _ => True).
Proof. intros s a s' _. exact I. Qed.

End FailsWithin.

Ltac only_ot_step :=
  lazymatch goal with
  | |- keeps (only ?P) (bind (OneTrust.check_state ?st ?rep) _) =>
      apply (@keeps_bind_yields (only P) _ _ _ _ _ (@only_trans P)
               (check_state_yields st rep));
      [unfold OneTrust.check_state | intros ? ->]
  | |- _ => only_step
  end.

Section OneTrustRecordedStates.

Variable W : World.
Hypothesis HW : library_errors_only W.

Lemma fetch_onetrust st : fetch_state st = true -> onetrust_state st = true.
Proof. intros H. unfold onetrust_state. now rewrite H. Qed.

Lemma variantB_check_element_states e :
  yields (OneTrust.variantB_check_element e)
         (fun r => forall v, r = Some v -> onetrust_state (snd (fst v)) = true).
Proof.
  unfold OneTrust.variantB_check_element.
  repeat yields_step; intros v [= <-] || discriminate; reflexivity.
Qed.

Lemma variantB_retrieve_script_path_states url :
  yields (OneTrust.variantB_retrieve_script_path W url)
         (fun r => onetrust_state (snd (fst r)) = true).
Proof.
  unfold OneTrust.variantB_retrieve_script_path.
  apply yields_bind with (P := fun r => fetch_state (fst r) = true);
    [apply driver_get_states|].
  intros [state report] Hst. cbn [fst] in Hst.
  destruct (negb (CrawlState_eqb state SUCCESS)).
  - apply yields_ret. now apply fetch_onetrust.
  - apply yields_try.
    + apply yields_bind_any; intros _. apply yields_bind_any; intros elems.
      apply yields_bind
        with (P := fun r => forall v, r = Some v -> onetrust_state (snd (fst v)) = true).
      * apply yields_for_return. intros e. apply variantB_check_element_states.
      * intros [v|] Hv; apply yields_ret; [now apply Hv | reflexivity].
    + repeat yields_step. reflexivity.
Qed.

Lemma variantB_parse_script_for_object_states script_url :
  yields (OneTrust.variantB_parse_script_for_object W script_url)
         (fun r => onetrust_state (snd (fst r)) = true).
Proof.
  unfold OneTrust.variantB_parse_script_for_object.
  repeat yields_step; reflexivity.
Qed.

Lemma variantB_extract_states website_url consent_data :
  yields (OneTrust.variantB_extract_cookies_from_dict website_url consent_data)
         (fun r => onetrust_state (snd (fst r)) = true).
Proof.
  unfold OneTrust.variantB_extract_cookies_from_dict.
  apply yields_bind_any; intros _.
  apply yields_bind
    with (P := fun r => forall v, r = Some v -> onetrust_state (snd (fst v)) = true).
  - repeat yields_step; intros v [= <-] || discriminate; reflexivity.
  - intros [v|] Hv; [apply yields_ret; now apply Hv|].
    repeat yields_step; reflexivity.
Qed.

Lemma only_variantA_block url :
  keeps (only onetrust_state) (OneTrust.variantA_block W url).
Proof.
  unfold OneTrust.variantA_block, OneTrust.variantA_get_and_parse_json,
    OneTrust.variantA_fetch_ruleset, OneTrust.variantA_parse_ruleset,
    OneTrust.variantA_collect_cookie.
  repeat only_ot_step.
Qed.

Lemma only_variantB_block url :
  keeps (only onetrust_state) (OneTrust.variantB_block W url).
Proof.
  unfold OneTrust.variantB_block, OneTrust.variantB_extract_cookies_from_dict,
    OneTrust.variantB_walk_groups.
  repeat only_ot_step.
Qed.

Lemma fails_within_variantB_block url :
  fails_within onetrust_state (OneTrust.variantB_block W url).
Proof.
  unfold OneTrust.variantB_block.
  apply fails_within_bind with (Q := fun _ => True);
    [apply fails_within_quiet, quiet_log | apply yields_true |]. intros _ _.
  apply fails_within_bind with (Q := fun r => onetrust_state (snd (fst r)) = true);
    [apply fails_within_quiet, (quiet_variantB_retrieve_script_path HW)
    | apply variantB_retrieve_script_path_states |].
  intros [[script_url state] report] Hst. cbn [fst snd] in Hst.
  apply fails_within_bind with (Q := fun _ => True);
    [apply fails_within_check_state; intros _; exact Hst | apply yields_true |]. intros _ _.
  apply fails_within_bind with (Q := fun _ => True);
    [apply fails_within_quiet, quiet_log | apply yields_true |]. intros _ _.
  apply fails_within_bind with (Q := fun r => onetrust_state (snd (fst r)) = true);
    [apply fails_within_quiet, (quiet_variantB_parse_script_for_object HW)
    | apply variantB_parse_script_for_object_states |].
  intros [[data_dict state2] report2] Hst2. cbn [fst snd] in Hst2.
  apply fails_within_bind with (Q := fun _ => True);
    [apply fails_within_check_state; intros _; exact Hst2 | apply yields_true |]. intros _ _.
  apply fails_within_bind with (Q := fun _ => True);
    [apply fails_within_quiet, quiet_log | apply yields_true |]. intros _ _.
  apply fails_within_bind with (Q := fun r => onetrust_state (snd (fst r)) = true);
    [apply fails_within_quiet, quiet_variantB_extract_cookies_from_dict
    | apply variantB_extract_states |].
  intros [[cookie_count state3] report3] Hst3. cbn [fst snd] in Hst3.
  apply fails_within_bind with (Q := fun _ => True);
    [apply fails_within_check_state; intros _; exact Hst3 | apply yields_true |]. intros _ _.
  apply fails_within_quiet. quiet_frame.
Qed.

Lemma only_onetrust url : keeps (only onetrust_state) (OneTrust.scrape_website W url).
Proof.
  unfold OneTrust.scrape_website.
  apply (@keeps_bind_yields (only onetrust_state) _ _ _ _ _ (@only_trans onetrust_state)
           (static_get_request_states W url []));
    [apply only_of_still, still_static_get_request|].
  intros [[r state] report] Hst. cbn [fst snd] in Hst. apply fetch_onetrust in Hst.
  destruct (negb (CrawlState_eqb state SUCCESS)); [repeat only_step|].
  apply (@keeps_bind _ (@only_trans onetrust_state)); [repeat only_step|]. intros _.
  apply (@keeps_bind _ (@only_trans onetrust_state)).
  - apply (@keeps_try _ (@only_trans onetrust_state)); [apply only_variantA_block|].
    apply handled_variant_failed. intros st m. repeat only_step.
  - intros [b|]; [repeat only_step|].
    apply only_try_variant_failed;
      [apply only_variantB_block | apply fails_within_variantB_block|].
    intros st m Hm. repeat only_step.
Qed.

End OneTrustRecordedStates.

Section RecordableStates.

(** An extractor moves only the counters of the outcomes that occur in its
    module, whether a crawl returns or raises.  No extractor records
    [BOT_DETECTION]; [CMP_NOT_FOUND] and [JSON_DECODE_ERROR] are recorded
    by Termly alone, [LIBRARY_ERROR] and [REGION_BLOCK] by Cookiebot alone;
    OneTrust records, next to [SUCCESS] and the states of a fetch, only
    [PARSE_ERROR] and [MALFORM_RESP]. *)
Theorem extractor_records_only_its_states
    (W : World) (p : Provider) (url : string) (s : Scraper) (st : CrawlState) :
  library_errors_only W ->
  recordable p st = false ->
  status_counts (snd (scrape_website W p url s)) st = status_counts s st.
Proof.
  intros HW Hst. destruct p; cbn [scrape_website recordable] in *.
  - exact (only_cookiebot W url s st Hst).
  - exact (only_onetrust HW url s st Hst).
  - exact (only_termly W url s st Hst).
Qed.

Lemma extractor_records_only_its_states_witness :
  status_counts (snd (scrape_website empty_groups_world onetrust shop_url started_scraper))
                CMP_NOT_FOUND
  = status_counts started_scraper CMP_NOT_FOUND.
Proof.
  exact (@extractor_records_only_its_states empty_groups_world onetrust shop_url
           started_scraper CMP_NOT_FOUND empty_groups_world_library_errors eq_refl).
Defined.

End RecordableStates.

(** ** The failed URLs of a crawl *)

Section LogsFor.

Variable url : string.

Lemma logs_for_refl s : logs_for url s s.
Proof.
  exists []. split; [intros e; cbn; lia | cbn; now rewrite app_nil_r].
Qed.

Lemma logs_for_trans a b c : logs_for url a b -> logs_for url b c -> logs_for url a c.
Proof.
  intros (l1 & H1 & F1) (l2 & H2 & F2). exists (l1 ++ l2)%list. split.
  - intros e. rewrite H2, H1. unfold tally. rewrite filter_app, length_app. lia.
  - rewrite F2, F1. unfold failures_among.
    rewrite filter_app, length_app, repeat_app, app_assoc. reflexivity.
Qed.

Lemma logs_for_same {A} (c : M A) :
  (forall s, status_counts (snd (c s)) = status_counts s
             /\ failed_urls (snd (c s)) = failed_urls s) ->
  keeps (logs_for url) c.
Proof.
  intros H s. destruct (H s) as [H1 H2]. exists []. split.
  - intros e. rewrite H1. cbn. lia.
  - rewrite H2. cbn. now rewrite app_nil_r.
Qed.

Lemma logs_for_of_still {A} (c : M A) : keeps still c -> keeps (logs_for url) c.
Proof.
  intros H. apply logs_for_same. intros s.
  split; [exact (still_status (H s)) | exact (still_failed (H s))].
Qed.

Lemma logs_for_of_gathers {A} (c : M A) : keeps gathers c -> keeps (logs_for url) c.
Proof.
  intros H. apply logs_for_same. intros s.
  split; [exact (gathers_status (H s)) | exact (gathers_failed (H s))].
Qed.

Lemma logs_for_update st report : keeps (logs_for url) (update_crawl_stats url st report).
Proof.
  intros s. exists [st].
  destruct (update_crawl_stats_run url st report s) as (_ & Hrec & _ & _ & _ & _ & Hf & _).
  cbv zeta in Hrec, Hf. split.
  - intros e. rewrite Hrec. unfold tally. cbn [filter].
    destruct (CrawlState_eqb e st); cbn; lia.
  - rewrite Hf. unfold failures_among. cbn [filter].
    destruct (CrawlState_eqb st SUCCESS); cbn; [now rewrite app_nil_r | reflexivity].
Qed.

End LogsFor.

Ltac logs_step :=
  lazymatch goal with
  | |- keeps (logs_for ?u) (update_crawl_stats ?u _ _) => apply logs_for_update
  | |- keeps (logs_for _) (set_count _) =>
      apply logs_for_same; intros; split; reflexivity
  | |- keeps (logs_for _) (add_count _) =>
      apply logs_for_same; intros; split; reflexivity
  | |- keeps (logs_for _) (collect_cookie_dat _ _ _ _ _ _ _ _) =>
      apply logs_for_of_gathers, gathers_collect
  | |- keeps (logs_for _) (Cookiebot.dump_debug_js _ _) =>
      apply logs_for_of_still, still_dump_debug_js
  | |- keeps (logs_for _) (Termly.debug_dump_dict _ _) =>
      apply logs_for_of_gathers; intros ?; apply gathers_debug_dump_dict
  | |- keeps (logs_for ?u) _ =>
      first [ solve [apply logs_for_of_still; auto with still_db nocore]
            | frame_step (@logs_for_refl u) (@logs_for_trans u) ]
  | |- handled (logs_for ?u) _ =>
      first [ apply handled_variant_failed; intros
            | frame_step (@logs_for_refl u) (@logs_for_trans u) ]
  end.

Section FailedUrls.

Variable W : World.

Lemma logs_for_scrape_website p url : keeps (logs_for url) (scrape_website W p url).
Proof.
  destruct p; cbn [scrape_website].
  - unfold Cookiebot.scrape_website, Cookiebot.parse_cc_js, Cookiebot.walk_tables,
      Cookiebot.parse_bucket.
    repeat logs_step.
  - unfold OneTrust.scrape_website, OneTrust.variantA_block, OneTrust.variantB_block,
      OneTrust.check_state, OneTrust.variantA_get_and_parse_json,
      OneTrust.variantA_fetch_ruleset, OneTrust.variantA_parse_ruleset,
      OneTrust.variantA_collect_cookie, OneTrust.variantB_extract_cookies_from_dict,
      OneTrust.variantB_walk_groups.
    repeat logs_step.
    all: repeat logs_step.
  - unfold Termly.scrape_website, Termly.parse_termly_cookie_json, Termly.walk_buckets,
      Termly.parse_cookie.
    repeat logs_step.
Qed.

Lemma tally_cons e a l :
  tally e (a :: l) = (if CrawlState_eqb e a then 1 else 0) + tally e l.
Proof. unfold tally. cbn [filter]. now destruct (CrawlState_eqb e a). Qed.

Lemma updates_one st l :
  (forall e, tally e l = if CrawlState_eqb e st then 1 else 0) -> l = [st].
Proof.
  intros H. destruct l as [|a l].
  - specialize (H st). rewrite CrawlState_eqb_refl in H. discriminate H.
  - assert (Ha : a = st).
    { pose proof (H a) as Ha. rewrite tally_cons, CrawlState_eqb_refl in Ha.
      destruct (CrawlState_eqb a st) eqn:E; [now apply CrawlState_eqb_eq|]. lia. }
    subst a. destruct l as [|b l]; [reflexivity|]. exfalso.
    pose proof (H b) as Hb. rewrite !tally_cons, CrawlState_eqb_refl in Hb.
    destruct (CrawlState_eqb b st); lia.
Qed.

Lemma updates_none l : (forall e, tally e l = 0) -> l = [].
Proof.
  intros H. destruct l as [|a l]; [reflexivity|].
  specialize (H a). rewrite tally_cons, CrawlState_eqb_refl in H. lia.
Qed.

(** A crawl appends its URL to [failed_urls] exactly when it returns
    [False]; a crawl that returns [True] or that raises leaves the list as
    it is. *)
Theorem failed_urls_are_the_crawls_that_returned_False
    (p : Provider) (url : string) (s : Scraper) :
  library_errors_only W ->
  failed_urls (snd (scrape_website W p url s))
  = (failed_urls s ++ failure_of url (fst (scrape_website W p url s)))%list.
Proof.
  intros HW.
  pose proof (tallies_scrape_website p HW url s) as Ht.
  destruct (logs_for_scrape_website p url s) as (l & Hc & Hf).
  rewrite Hf. f_equal.
  destruct (fst (scrape_website W p url s)) as [b|e].
  - destruct Ht as (st & -> & Hrec).
    assert (Hl : l = [st]).
    { apply updates_one. intros e. pose proof (Hc e) as H1. rewrite (Hrec e) in H1.
      destruct (CrawlState_eqb e st); lia. }
    subst l. unfold failures_among, failure_of. cbn [filter].
    destruct (CrawlState_eqb st SUCCESS); reflexivity.
  - assert (Hl : l = []).
    { apply updates_none. intros e0. pose proof (Hc e0) as H1. rewrite (Ht e0) in H1. lia. }
    subst l. reflexivity.
Qed.

End FailedUrls.

Lemma failed_urls_are_the_crawls_that_returned_False_witness :
  failed_urls (snd (scrape_website empty_groups_world onetrust shop_url started_scraper))
  = (failed_urls started_scraper
     ++ failure_of shop_url
          (fst (scrape_website empty_groups_world onetrust shop_url started_scraper)))%list.
Proof.
  exact (@failed_urls_are_the_crawls_that_returned_False empty_groups_world onetrust
           shop_url started_scraper empty_groups_world_library_errors).
Defined.

(** ** The rows of a OneTrust consent object *)

Section VariantBRows.

Lemma variantB_cookie_run url name c row s :
  variantB_cookie_row url name c = Some row ->
  let r := (cname <- lift (getitem c "Name") ;;
            chost <- lift (getitem c "Host") ;;
            cdesc <- optional_field c "description" ;;
            collect_cookie_dat url cname chost "/" (OneTrust.as_name (PStr name))
                               (OneTrust.category_lookup_en name) cdesc PNone ;;
            add_count 1) s in
  fst r = Val tt
  /\ database_cookie_data (snd r) = (database_cookie_data s ++ [row])%list
  /\ cookie_count (snd r) = S (cookie_count s).
Proof.
  intros H. cbv zeta. unfold variantB_cookie_row in H.
  destruct c as [| | | | | |d]; try discriminate H.
  unfold optional_field. cbn [getitem contains_key] in *.
  destruct (assoc_str "Name" d) as [cname|]; [|discriminate H].
  destruct (assoc_str "Host" d) as [chost|]; [|discriminate H].
  destruct (hashable cname && hashable chost) eqn:Hh; [|discriminate H].
  injection H as <-.
  unfold bind, lift, ret. cbn beta iota.
  destruct (assoc_str "description" d) as [cdesc|]; cbn beta iota;
    rewrite collect_cookie_dat_run; unfold ident_hashable; rewrite Hh; cbn [negb];
    cbn; repeat split; lia.
Qed.

Lemma variantB_cookies_run url name cs :
  forall rows s,
    all_some (map (variantB_cookie_row url name) cs) = Some rows ->
    let r := for_each cs (fun cookie_dat =>
               cname <- lift (getitem cookie_dat "Name") ;;
               chost <- lift (getitem cookie_dat "Host") ;;
               cdesc <- optional_field cookie_dat "description" ;;
               collect_cookie_dat url cname chost "/" (OneTrust.as_name (PStr name))
                                  (OneTrust.category_lookup_en name) cdesc PNone ;;
               add_count 1) s in
    fst r = Val tt
    /\ database_cookie_data (snd r) = (database_cookie_data s ++ rows)%list
    /\ cookie_count (snd r) = cookie_count s + length rows.
Proof.
  induction cs as [|c cs IH]; intros rows s H; cbv zeta.
  - cbn in H. injection H as <-. cbn. rewrite app_nil_r. auto.
  - cbn [map all_some] in H.
    destruct (variantB_cookie_row url name c) as [row|] eqn:Ec; [|discriminate H].
    destruct (all_some (map (variantB_cookie_row url name) cs)) as [rest|] eqn:Ecs;
      [|discriminate H].
    injection H as <-.
    match goal with |- context [for_each _ ?f s] => set (body := f) end.
    remember (for_each (c :: cs) body s) as r eqn:Er. cbn [for_each] in Er.
    destruct (@variantB_cookie_run url name c row s Ec) as (P1 & P2 & P3).
    cbv zeta in P1, P2, P3. fold (body c) in P1, P2, P3.
    rewrite (bind_val _ _ _ (run_eq _ _ P1)) in Er. subst r.
    destruct (IH rest (snd (body c s)) eq_refl) as (Q1 & Q2 & Q3).
    cbv zeta in Q1, Q2, Q3. fold body in Q1, Q2, Q3.
    rewrite Q1, Q2, Q3, P2, P3. cbn [length]. rewrite <- app_assoc. cbn [app].
    repeat split. lia.
Qed.

Lemma cat_lookup_run name s :
  fst (OneTrust.cat_lookup (PStr name) s) = Val (OneTrust.category_lookup_en name)
  /\ database_cookie_data (snd (OneTrust.cat_lookup (PStr name) s)) = database_cookie_data s
  /\ cookie_count (snd (OneTrust.cat_lookup (PStr name) s)) = cookie_count s.
Proof.
  unfold OneTrust.cat_lookup, bind.
  destruct (OneTrust.category_lookup_en name); cbn; auto.
Qed.

Lemma variantB_group_run url g rows s :
  variantB_group_rows url g = Some rows ->
  let r := (parent <- lift (getitem g "Parent") ;;
            owner <- (if is_None parent then ret g
                      else lift (getitem g "Parent")) ;;
            sets <- lift (getitem owner "GroupLanguagePropertiesSets") ;;
            set0 <- lift (getindex sets 0) ;;
            group_name <- lift (getitem set0 "GroupName") ;;
            cat_name <- lift (getitem group_name "Text") ;;
            cat_id <- OneTrust.cat_lookup cat_name ;;
            cookies <- lift (getitem g "Cookies") ;;
            cs <- lift (iterate cookies) ;;
            for_each cs (fun cookie_dat =>
              cname <- lift (getitem cookie_dat "Name") ;;
              chost <- lift (getitem cookie_dat "Host") ;;
              cdesc <- optional_field cookie_dat "description" ;;
              collect_cookie_dat url cname chost "/" (OneTrust.as_name cat_name) cat_id
                                 cdesc PNone ;;
              add_count 1)) s in
  fst r = Val tt
  /\ database_cookie_data (snd r) = (database_cookie_data s ++ rows)%list
  /\ cookie_count (snd r) = cookie_count s + length rows.
Proof.
  intros H. cbv zeta. unfold variantB_group_rows, group_category_name in H.
  destruct (getitem g "Parent") as [parent|] eqn:Ep; [|discriminate H].
  set (owner := if is_None parent then g else parent).
  assert (Ho : (if is_None parent then group_text g else group_text parent)
               = group_text owner).
  { unfold owner. now destruct (is_None parent). }
  rewrite Ho in H. unfold group_text in H.
  destruct (getitem owner "GroupLanguagePropertiesSets") as [sets|] eqn:E1; [|discriminate H].
  destruct (getindex sets 0) as [set0|] eqn:E2; [|discriminate H].
  destruct (getitem set0 "GroupName") as [group_name|] eqn:E3; [|discriminate H].
  destruct (getitem group_name "Text") as [[| | |name| | |]|] eqn:E4; try discriminate H.
  destruct (getitem g "Cookies") as [cookies|] eqn:E5; [|discriminate H].
  destruct (iterate cookies) as [cs|] eqn:E6; [|discriminate H].
  match goal with |- context [bind _ ?f s] => set (k := f) end.
  remember (bind (lift (Val parent)) k s) as r eqn:Er.
  unfold bind at 1, lift at 1 in Er. unfold k in Er. clear k.
  assert (Eo : (if is_None parent then ret g else lift (Val parent)) s = (Val owner, s)).
  { unfold owner. now destruct (is_None parent). }
  rewrite (bind_val _ _ _ Eo) in Er.
  unfold bind at 1, lift at 1 in Er. rewrite E1 in Er.
  unfold bind at 1, lift at 1 in Er. rewrite E2 in Er.
  unfold bind at 1, lift at 1 in Er. rewrite E3 in Er.
  unfold bind at 1, lift at 1 in Er. rewrite E4 in Er.
  destruct (cat_lookup_run name s) as (C1 & C2 & C3).
  rewrite (bind_val _ _ _ (run_eq _ _ C1)) in Er.
  unfold bind at 1, lift at 1 in Er.
  unfold bind at 1, lift at 1 in Er. rewrite E6 in Er.
  destruct (@variantB_cookies_run url name cs rows (snd (OneTrust.cat_lookup (PStr name) s)) H)
    as (Q1 & Q2 & Q3).
  cbv zeta in Q1, Q2, Q3. subst r. rewrite Q1, Q2, Q3, C2, C3. auto.
Qed.

Lemma variantB_groups_run url groups :
  forall rows s,
    all_some (map (variantB_group_rows url) groups) = Some rows ->
    let r := for_each groups (fun g_contents =>
               parent <- lift (getitem g_contents "Parent") ;;
               owner <- (if is_None parent then ret g_contents
                         else lift (getitem g_contents "Parent")) ;;
               sets <- lift (getitem owner "GroupLanguagePropertiesSets") ;;
               set0 <- lift (getindex sets 0) ;;
               group_name <- lift (getitem set0 "GroupName") ;;
               cat_name <- lift (getitem group_name "Text") ;;
               cat_id <- OneTrust.cat_lookup cat_name ;;
               cookies <- lift (getitem g_contents "Cookies") ;;
               cs <- lift (iterate cookies) ;;
               for_each cs (fun cookie_dat =>
                 cname <- lift (getitem cookie_dat "Name") ;;
                 chost <- lift (getitem cookie_dat "Host") ;;
                 cdesc <- optional_field cookie_dat "description" ;;
                 collect_cookie_dat url cname chost "/" (OneTrust.as_name cat_name) cat_id
                                    cdesc PNone ;;
                 add_count 1)) s in
    fst r = Val tt
    /\ database_cookie_data (snd r) = (database_cookie_data s ++ concat rows)%list
    /\ cookie_count (snd r) = cookie_count s + length (concat rows).
Proof.
  induction groups as [|g groups IH]; intros rows s H; cbv zeta.
  - cbn in H. injection H as <-. cbn. rewrite app_nil_r. auto.
  - cbn [map all_some] in H.
    destruct (variantB_group_rows url g) as [row|] eqn:Eg; [|discriminate H].
    destruct (all_some (map (variantB_group_rows url) groups)) as [rest|] eqn:Egs;
      [|discriminate H].
    injection H as <-.
    match goal with |- context [for_each _ ?f s] => set (body := f) end.
    remember (for_each (g :: groups) body s) as r eqn:Er. cbn [for_each] in Er.
    destruct (@variantB_group_run url g row s Eg) as (P1 & P2 & P3).
    cbv zeta in P1, P2, P3. fold (body g) in P1, P2, P3.
    rewrite (bind_val _ _ _ (run_eq _ _ P1)) in Er. subst r.
    destruct (IH rest (snd (body g s)) eq_refl) as (Q1 & Q2 & Q3).
    cbv zeta in Q1, Q2, Q3. fold body in Q1, Q2, Q3.
    rewrite Q1, Q2, Q3, P2, P3. cbn [concat]. rewrite length_app, <- app_assoc.
    repeat split. lia.
Qed.

(** [variantB_extract_cookies_from_dict] on a consent object whose groups
    all have a parent entry, a name, and cookies with a name and a host
    that can be hashed: it appends one row per cookie, group by group and in
    the order of the cookies, under the name of the group or, for a group
    with a parent, under the name of its parent, with the category that
    [category_lookup_en] gives that name, a missing description being
    [None] and the type always [None].  It returns their number with
    [SUCCESS], or [MALFORM_RESP] when there is no cookie at all. *)
Theorem variantB_rows_take_the_name_of_the_parent
    (url : string) (consent_data g_data : pyval) (groups : list pyval)
    (rows : list CookieTuple) (s : Scraper) :
  getitem consent_data "Groups" = Val g_data ->
  iterate g_data = Val groups ->
  variantB_rows url groups = Some rows ->
  let r := OneTrust.variantB_extract_cookies_from_dict url consent_data s in
  fst r = Val (if Nat.eqb (length rows) 0
               then (0, MALFORM_RESP, Some "Consent Platform Script contained zero cookies!")
               else (length rows, SUCCESS,
                     Some ("Successfully retrieved " ++ str_of_nat (length rows)
                           ++ " cookies.")))
  /\ database_cookie_data (snd r) = (database_cookie_data s ++ rows)%list.
Proof.
  intros Hg Hi Hrows. cbv zeta. unfold variantB_rows in Hrows.
  destruct (all_some (map (variantB_group_rows url) groups)) as [rs|] eqn:Ers;
    [|discriminate Hrows].
  injection Hrows as <-.
  remember (OneTrust.variantB_extract_cookies_from_dict url consent_data s) as r eqn:Er.
  unfold OneTrust.variantB_extract_cookies_from_dict in Er.
  set (s0 := set_cookie_count 0 s).
  assert (E0 : set_count 0 s = (Val tt, s0)) by reflexivity.
  rewrite (bind_val _ _ _ E0) in Er.
  destruct (@variantB_groups_run url groups rs s0 Ers) as (P1 & P2 & P3).
  cbv zeta in P1, P2, P3.
  set (s1 := snd (for_each groups _ s0)) in *.
  assert (Ew : try_except
                 (OneTrust.variantB_walk_groups url consent_data ;; ret None)
                 (clauses
                    [except_ [AttributeError; KeyError] (fun ex =>
                       log ERROR "Could not retrieve an expected attribute from consent data dict." ;;
                       ret (Some (0, PARSE_ERROR,
                                  Some (type_ex ex ++ " - " ++ str_ex ex))))]) s0
               = (Val None, s1)).
  { apply try_val. unfold OneTrust.variantB_walk_groups.
    unfold bind at 1. unfold bind at 1, lift at 1. rewrite Hg.
    unfold bind at 1, lift at 1. rewrite Hi.
    rewrite (run_eq _ _ P1). reflexivity. }
  rewrite (bind_val _ _ _ Ew) in Er. unfold bind, get_count, ret in Er.
  assert (Hc : cookie_count s1 = length (concat rs)) by (rewrite P3; reflexivity).
  rewrite Hc in Er. subst r.
  destruct (Nat.eqb (length (concat rs)) 0); cbn [fst snd]; (split; [reflexivity|]);
    exact P2.
Qed.

Lemma variantB_rows_take_the_name_of_the_parent_witness :
  exists rows,
    variantB_rows "https://shop.example" consent_example_groups = Some rows
    /\ map ct_cat_name rows = ["Strictly Necessary Cookies"; "Targeting Cookies"]
    /\ database_cookie_data
         (snd (OneTrust.variantB_extract_cookies_from_dict "https://shop.example"
                 consent_example started_scraper))
       = (database_cookie_data started_scraper ++ rows)%list.
Proof.
  eexists. split; [reflexivity|]. split; [reflexivity|].
  exact (proj2 (@variantB_rows_take_the_name_of_the_parent
                  "https://shop.example" consent_example (PList consent_example_groups)
                  consent_example_groups _ started_scraper eq_refl eq_refl eq_refl)).
Defined.

End VariantBRows.

(** ** The checks on the text of cc.js *)

Section CookiebotRejectedBody.

(** In the Cookiebot extractor, when [cc.js] is fetched with [SUCCESS] but
    its text holds [CookieConsent.setOutOfRegion], a domain warning, or
    nothing but blanks, the crawl returns [False] and records
    [REGION_BLOCK] in the first case and [LIBRARY_ERROR] in the other two;
    no table of the text is read, so that no row is collected. *)
Theorem cookiebot_rejected_body_is_recorded
    (W : World) (url : string) (s s1 s2 s3 s4 : Scraper)
    (r : option Response) (cc_resp : Response) (rep1 : string) (cbid : string)
    (rep2 : option string) (referer : string) (report : string) (st : CrawlState)
    (Hsite : static_get_request W url [] s = (Val (r, SUCCESS, rep1), s1))
    (Hcbid : Cookiebot.try_retrieve_cbid W r url
               (snd (log DEBUG "Connection successful." s1))
             = (Val (cbid, SUCCESS, rep2), s2))
    (Href : Cookiebot.try_find_correct_referrer W cbid url
              (snd (log DEBUG ("Cookiebot UUID = " ++ cbid) s2))
            = (Val referer, s3))
    (Hcc : static_get_request W
             ("https://consent.cookiebot.com/" ++ cbid ++ "/cc.js?referer=" ++ referer)
             [("Referer", url)] s3
           = (Val (Some cc_resp, SUCCESS, report), s4))
    (Hrejected : rejected_body (text cc_resp) = Some st) :
  let s' := snd (Cookiebot.scrape_website W url s) in
  fst (Cookiebot.scrape_website W url s) = Val false
  /\ records st s s'
  /\ (exists rep, assoc_str url (crawl_log s') = Some (st, rep))
  /\ same_data s s'.
Proof.
  assert (Hrun : exists rep,
            Cookiebot.scrape_website W url s
            = (Val false, snd (update_crawl_stats url st (Some rep) s4))).
  { unfold Cookiebot.scrape_website.
    erewrite bind_val by exact Hsite. cbn beta iota.
    change (negb (CrawlState_eqb SUCCESS SUCCESS)) with false. cbn iota.
    erewrite bind_val by apply log_val.
    erewrite bind_val by exact Hcbid. cbn beta iota.
    change (negb (CrawlState_eqb SUCCESS SUCCESS)) with false. cbn iota.
    erewrite bind_val by apply log_val.
    erewrite bind_val by exact Href. cbv zeta.
    erewrite bind_val by exact Hcc. cbn beta iota.
    change (negb (CrawlState_eqb SUCCESS SUCCESS)) with false. cbn iota.
    unfold rejected_body in Hrejected.
    destruct (str_contains "CookieConsent.setOutOfRegion" (text cc_resp)).
    { injection Hrejected as <-. eexists.
      erewrite bind_val by apply update_val. reflexivity. }
    destruct (is_match (re_search Cookiebot.domain_warning_pattern (text cc_resp))).
    { injection Hrejected as <-. eexists.
      erewrite bind_val by apply update_val. reflexivity. }
    destruct (Nat.eqb (length (chars (strip (text cc_resp)))) 0); [|discriminate Hrejected].
    injection Hrejected as <-. eexists.
    erewrite bind_val by apply update_val. reflexivity. }
  destruct Hrun as (rep & Hrun). cbv zeta. rewrite Hrun. cbn [fst snd].
  assert (Hstill : still s s4).
  { pose proof (still_static_get_request W url [] s) as H1. rewrite Hsite in H1.
    pose proof (still_log DEBUG "Connection successful." s1) as H2.
    pose proof (still_try_retrieve_cbid W r url
                  (snd (log DEBUG "Connection successful." s1))) as H3.
    rewrite Hcbid in H3.
    pose proof (still_log DEBUG ("Cookiebot UUID = " ++ cbid) s2) as H4.
    pose proof (still_try_find_correct_referrer W cbid url
                  (snd (log DEBUG ("Cookiebot UUID = " ++ cbid) s2))) as H5.
    rewrite Href in H5.
    pose proof (still_static_get_request W
                  ("https://consent.cookiebot.com/" ++ cbid ++ "/cc.js?referer=" ++ referer)
                  [("Referer", url)] s3) as H6.
    rewrite Hcc in H6. cbn [snd] in *.
    repeat (eapply still_trans; [eassumption|]). apply still_refl. }
  destruct (update_after url st (Some rep) (still_gathers Hstill)) as (Hrec & _ & Hsd).
  split; [reflexivity | split; [exact Hrec | split]].
  - exists rep.
    destruct (update_crawl_stats_run url st (Some rep) s4)
      as (_ & _ & _ & _ & _ & Hlog & _).
    rewrite Hlog. apply assoc_dict_set.
  - apply Hsd, still_same_data, Hstill.
Qed.

(** The theorem on a site whose [cc.js] says that the region is not
    served. *)
Lemma cookiebot_rejected_body_is_recorded_witness :
  let W := cookiebot_world (Val (MkResponse 200 out_of_region_body)) in
  let s' := snd (Cookiebot.scrape_website W cookiebot_site started_scraper) in
  fst (Cookiebot.scrape_website W cookiebot_site started_scraper) = Val false
  /\ records REGION_BLOCK started_scraper s'
  /\ (exists rep, assoc_str cookiebot_site (crawl_log s') = Some (REGION_BLOCK, rep))
  /\ same_data started_scraper s'.
Proof.
  intros W.
  set (s1 := snd (static_get_request W cookiebot_site [] started_scraper)).
  set (s2 := snd (Cookiebot.try_retrieve_cbid W (Some (MkResponse 200 "<html></html>"))
                    cookiebot_site (snd (log DEBUG "Connection successful." s1)))).
  set (s3 := snd (Cookiebot.try_find_correct_referrer W cookiebot_cbid cookiebot_site
                    (snd (log DEBUG ("Cookiebot UUID = " ++ cookiebot_cbid) s2)))).
  set (s4 := snd (static_get_request W
                    ("https://consent.cookiebot.com/" ++ cookiebot_cbid
                     ++ "/cc.js?referer=" ++ cookiebot_site)
                    [("Referer", cookiebot_site)] s3)).
  apply (@cookiebot_rejected_body_is_recorded W cookiebot_site started_scraper
           s1 s2 s3 s4 (Some (MkResponse 200 "<html></html>"))
           (MkResponse 200 out_of_region_body) "200" cookiebot_cbid (Some "OK")
           cookiebot_site "200" REGION_BLOCK).
  - vm_compute. reflexivity.
  - vm_compute. reflexivity.
  - vm_compute. reflexivity.
  - vm_compute. reflexivity.
  - vm_compute. reflexivity.
Defined.

End CookiebotRejectedBody.

(** ** The crawl log of a crawl *)

Section NotesGeneric.

Variable url : string.

Lemma updates_for_trans l1 l2 a b c :
  updates_for url l1 a b -> updates_for url l2 b c -> updates_for url (l1 ++ l2) a c.
Proof.
  intros (H1 & F1) (H2 & F2). split.
  - intros e. rewrite H2, H1. unfold tally. rewrite filter_app, length_app. lia.
  - rewrite F2, F1. unfold failures_among.
    rewrite filter_app, length_app, repeat_app, app_assoc. reflexivity.
Qed.

Lemma notes_refl s : notes url s s.
Proof.
  exists []. split; [|reflexivity]. split; [intros e; cbn; lia|].
  cbn. now rewrite app_nil_r.
Qed.

Lemma notes_trans a b c : notes url a b -> notes url b c -> notes url a c.
Proof.
  intros (l1 & U1 & L1) (l2 & U2 & L2). exists (l1 ++ l2)%list. split.
  - rewrite map_app. exact (updates_for_trans U1 U2).
  - rewrite fold_left_app, <- L1. exact L2.
Qed.

Lemma notes_same {A} (c : M A) :
  (forall s, status_counts (snd (c s)) = status_counts s
             /\ failed_urls (snd (c s)) = failed_urls s
             /\ crawl_log (snd (c s)) = crawl_log s) ->
  keeps (notes url) c.
Proof.
  intros H s. destruct (H s) as (H1 & H2 & H3). exists []. split; [|exact H3].
  split; [intros e; rewrite H1; cbn; lia|]. rewrite H2. cbn. now rewrite app_nil_r.
Qed.

Lemma notes_of_still {A} (c : M A) : keeps still c -> keeps (notes url) c.
Proof.
  intros H. apply notes_same. intros s. pose proof (H s) as Hs.
  repeat split; [exact (still_status Hs) | exact (still_failed Hs)
                 | exact (still_crawl_log Hs)].
Qed.

Lemma notes_of_gathers {A} (c : M A) : keeps gathers c -> keeps (notes url) c.
Proof.
  intros H. apply notes_same. intros s. pose proof (H s) as Hs.
  repeat split; [exact (gathers_status Hs) | exact (gathers_failed Hs)
                 | exact (gathers_crawl_log Hs)].
Qed.

Lemma notes_update st report :
  report <> None -> keeps (notes url) (update_crawl_stats url st report).
Proof.
  intros Hr s. destruct report as [r|]; [clear Hr | congruence].
  exists [(st, r)].
  destruct (update_crawl_stats_run url st (Some r) s)
    as (_ & Hrec & _ & _ & _ & Hlog & Hf & _).
  cbv zeta in Hrec, Hlog, Hf. split; [split|].
  - intros e. rewrite Hrec. unfold tally. cbn [map fst filter].
    destruct (CrawlState_eqb e st); cbn; lia.
  - rewrite Hf. unfold failures_among. cbn [map fst filter].
    destruct (CrawlState_eqb st SUCCESS); cbn; [now rewrite app_nil_r | reflexivity].
  - rewrite Hlog. reflexivity.
Qed.

Lemma notes_update_some st r : keeps (notes url) (update_crawl_stats url st (Some r)).
Proof. apply notes_update. discriminate. Qed.

End NotesGeneric.

Ltac notes_step :=
  lazymatch goal with
  | |- keeps (notes ?u) (update_crawl_stats ?u _ (Some _)) => apply notes_update_some
  | |- keeps (notes ?u) (update_crawl_stats ?u _ _) =>
      apply notes_update; first [assumption | discriminate | auto]
  | |- keeps (notes _) (set_count _) =>
      apply notes_same; intros; repeat split; reflexivity
  | |- keeps (notes _) (add_count _) =>
      apply notes_same; intros; repeat split; reflexivity
  | |- keeps (notes _) (collect_cookie_dat _ _ _ _ _ _ _ _) =>
      apply notes_of_gathers, gathers_collect
  | |- keeps (notes _) (Cookiebot.dump_debug_js _ _) =>
      apply notes_of_still, still_dump_debug_js
  | |- keeps (notes _) (Termly.debug_dump_dict _ _) =>
      apply notes_of_gathers; intros ?; apply gathers_debug_dump_dict
  | |- keeps (notes ?u) (bind (OneTrust.check_state ?st ?rep) _) =>
      apply (@keeps_bind_yields (notes u) _ _ _ _ _ (@notes_trans u)
               (check_state_yields st rep));
      [unfold OneTrust.check_state | intros ? ->]
  | |- keeps (notes ?u) _ =>
      first [ solve [apply notes_of_still; auto with still_db nocore]
            | frame_step (@notes_refl u) (@notes_trans u) ]
  | |- handled (notes ?u) _ =>
      first [ apply handled_variant_failed; intros
            | frame_step (@notes_refl u) (@notes_trans u) ]
  end.

Section Reports.

Variable W : World.

Ltac report_leaf := cbn; intros; first [discriminate | congruence].

Lemma driver_get_reports url :
  yields (driver_get W url) (fun r => fst r <> SUCCESS -> snd r <> None).
Proof. unfold driver_get. repeat yields_step; report_leaf. Qed.

Lemma try_retrieve_cbid_reports res url :
  yields (Cookiebot.try_retrieve_cbid W res url)
         (fun r => snd (fst r) <> SUCCESS -> snd r <> None).
Proof.
  unfold Cookiebot.try_retrieve_cbid, Cookiebot.try_selenium_approach.
  apply yields_bind with (P := fun r => fst r <> SUCCESS -> snd r <> None);
    [apply driver_get_reports|].
  intros [state report] Hst. cbn [fst snd] in Hst.
  destruct (negb (CrawlState_eqb state SUCCESS)).
  - apply yields_ret. exact Hst.
  - apply yields_try; [|repeat yields_step; report_leaf].
    apply yields_bind
      with (P := fun first => forall r, first = Some r ->
                                        snd (fst r) <> SUCCESS -> snd r <> None).
    + repeat yields_step; first [intros r [= <-]; report_leaf | discriminate].
    + intros [r|] Hr; [apply yields_ret; now apply Hr|].
      repeat yields_step; report_leaf.
Qed.

Lemma retrieve_termly_json_reports url :
  yields (Termly.retrieve_termly_json W url)
         (fun r => snd (fst r) <> SUCCESS -> snd r <> None).
Proof.
  unfold Termly.retrieve_termly_json. cbv zeta.
  apply yields_bind with (P := fun r => fst r <> SUCCESS -> snd r <> None);
    [apply driver_get_reports|].
  intros [state report] Hst. cbn [fst snd] in Hst.
  destruct (negb (CrawlState_eqb state SUCCESS)).
  - apply yields_ret. exact Hst.
  - repeat yields_step; report_leaf.
Qed.

Lemma parse_termly_cookie_json_reports url cookie_dict :
  yields (Termly.parse_termly_cookie_json url cookie_dict) (fun r => snd r <> None).
Proof.
  unfold Termly.parse_termly_cookie_json. cbv zeta. repeat yields_step; report_leaf.
Qed.

Lemma variantA_get_and_parse_json_reports website_url domain_url dd_id rs_ids :
  yields (OneTrust.variantA_get_and_parse_json W website_url domain_url dd_id rs_ids)
         (fun r => snd r <> None).
Proof.
  unfold OneTrust.variantA_get_and_parse_json. repeat yields_step; report_leaf.
Qed.

Lemma variantB_check_element_reports e :
  yields (OneTrust.variantB_check_element e)
         (fun r => forall v, r = Some v -> snd v <> None).
Proof.
  unfold OneTrust.variantB_check_element.
  repeat yields_step; intros v [= <-] || discriminate; report_leaf.
Qed.

Lemma variantB_retrieve_script_path_reports url :
  yields (OneTrust.variantB_retrieve_script_path W url)
         (fun r => snd (fst r) <> SUCCESS -> snd r <> None).
Proof.
  unfold OneTrust.variantB_retrieve_script_path.
  apply yields_bind with (P := fun r => fst r <> SUCCESS -> snd r <> None);
    [apply driver_get_reports|].
  intros [state report] Hst. cbn [fst snd] in Hst.
  destruct (negb (CrawlState_eqb state SUCCESS)).
  - apply yields_ret. exact Hst.
  - apply yields_try.
    + apply yields_bind_any; intros _. apply yields_bind_any; intros elems.
      apply yields_bind with (P := fun r => forall v, r = Some v -> snd v <> None).
      * apply yields_for_return. intros e. apply variantB_check_element_reports.
      * intros [v|] Hv; apply yields_ret; [intros _; now apply Hv | report_leaf].
    + repeat yields_step. report_leaf.
Qed.

Lemma variantB_parse_script_for_object_reports script_url :
  yields (OneTrust.variantB_parse_script_for_object W script_url)
         (fun r => snd r <> None).
Proof.
  unfold OneTrust.variantB_parse_script_for_object. repeat yields_step; report_leaf.
Qed.

Lemma variantB_extract_reports website_url consent_data :
  yields (OneTrust.variantB_extract_cookies_from_dict website_url consent_data)
         (fun r => snd r <> None).
Proof.
  unfold OneTrust.variantB_extract_cookies_from_dict.
  apply yields_bind_any; intros _.
  apply yields_bind with (P := fun r => forall v, r = Some v -> snd v <> None).
  - repeat yields_step; intros v [= <-] || discriminate; report_leaf.
  - intros [v|] Hv; [apply yields_ret; now apply Hv|].
    repeat yields_step; report_leaf.
Qed.

End Reports.

Section FailsNoted.

Lemma fails_noted_quiet {A} (c : M A) : quiet c -> fails_noted c.
Proof.
  intros H s e s' E. specialize (H s e s' E).
  destruct e as [c0 msg|st msg]; [exact I | destruct H].
Qed.

Lemma fails_noted_bind {A B} (c : M A) (f : A -> M B) (Q : A -> Prop) :
  fails_noted c -> yields c Q -> (forall a, Q a -> fails_noted (f a)) ->
  fails_noted (bind c f).
Proof.
  intros Hc Hy Hf s e s'. unfold bind.
  destruct (c s) as [[a|e0] s1] eqn:E.
  - intros E2. exact (Hf a (Hy _ _ _ E) s1 e s' E2).
  - intros [= <- <-]. exact (Hc s e0 s1 E).
Qed.

Lemma fails_noted_check_state st report :
  (st <> SUCCESS -> report <> None) -> fails_noted (OneTrust.check_state st report).
Proof.
  intros H s e s'. unfold OneTrust.check_state.
  destruct (negb (CrawlState_eqb st SUCCESS)) eqn:E; [|discriminate].
  intros [= <- <-]. apply H. apply negb_true_iff in E. now apply CrawlState_eqb_neq.
Qed.

Lemma notes_try_variant_failed url {A} (c : M A)
      (k : CrawlState -> option string -> M A) :
  keeps (notes url) c -> fails_noted c ->
  (forall st m, m <> None -> keeps (notes url) (k st m)) ->
  keeps (notes url) (try_except c (OneTrust.except_variant_failed k)).
Proof.
  intros Hc Hf Hk s. unfold try_except. specialize (Hc s). specialize (Hf s).
  destruct (c s) as [[a|e] s1]; cbn [snd] in *; [exact Hc|].
  specialize (Hf e s1 eq_refl).
  destruct e as [c0 msg|st msg]; cbn [OneTrust.except_variant_failed snd]; [exact Hc|].
  eapply notes_trans; [exact Hc|]. exact (Hk st msg Hf s1).
Qed.

End FailsNoted.

Section CrawlLogOfACrawl.

Variable W : World.
Hypothesis HW : library_errors_only W.

Lemma notes_cookiebot url : keeps (notes url) (Cookiebot.scrape_website W url).
Proof.
  unfold Cookiebot.scrape_website.
  apply (@keeps_bind _ (@notes_trans url));
    [apply notes_of_still, still_static_get_request|].
  intros [[r state] report].
  destruct (negb (CrawlState_eqb state SUCCESS)); [repeat notes_step|].
  apply (@keeps_bind _ (@notes_trans url)); [repeat notes_step|]. intros _.
  apply (@keeps_bind_yields (notes url) _ _ _ _ _ (@notes_trans url)
           (try_retrieve_cbid_reports W r url));
    [apply notes_of_still, still_try_retrieve_cbid|].
  intros [[cbid state2] report2] Hst2. cbn [fst snd] in Hst2.
  destruct (negb (CrawlState_eqb state2 SUCCESS)) eqn:E2.
  - apply negb_true_iff, CrawlState_eqb_neq in E2. specialize (Hst2 E2).
    repeat notes_step.
  - unfold Cookiebot.parse_cc_js, Cookiebot.walk_tables, Cookiebot.parse_bucket.
    repeat notes_step.
Qed.

Lemma notes_termly url : keeps (notes url) (Termly.scrape_website W url).
Proof.
  unfold Termly.scrape_website.
  apply (@keeps_bind_yields (notes url) _ _ _ _ _ (@notes_trans url)
           (retrieve_termly_json_reports W url));
    [apply notes_of_still, still_retrieve_termly_json|].
  intros [[cookies_dict state] report] Hst. cbn [fst snd] in Hst.
  destruct (negb (CrawlState_eqb state SUCCESS)) eqn:E.
  - apply negb_true_iff, CrawlState_eqb_neq in E. specialize (Hst E).
    repeat notes_step.
  - apply (@keeps_bind _ (@notes_trans url)); [repeat notes_step|]. intros _.
    apply (@keeps_bind_yields (notes url) _ _ _ _ _ (@notes_trans url)
             (parse_termly_cookie_json_reports url cookies_dict)).
    + unfold Termly.parse_termly_cookie_json, Termly.walk_buckets, Termly.parse_cookie.
      cbv zeta. repeat notes_step.
    + intros [state2 report2] Hst2. cbn [snd] in Hst2. repeat notes_step.
Qed.

Lemma notes_variantA_block url : keeps (notes url) (OneTrust.variantA_block W url).
Proof.
  unfold OneTrust.variantA_block.
  apply (@keeps_bind _ (@notes_trans url));
    [apply notes_of_still, still_variantA_try_retrieve_uuid|].
  intros [[[domain_url dd_id] state] report].
  notes_step; [repeat notes_step|].
  apply (@keeps_bind _ (@notes_trans url)); [repeat notes_step|]. intros _.
  apply (@keeps_bind _ (@notes_trans url));
    [apply notes_of_still, still_variantA_try_retrieve_ruleset_id|].
  intros [[rs_ids state2] report2].
  notes_step; [repeat notes_step|].
  apply (@keeps_bind _ (@notes_trans url)); [repeat notes_step|]. intros _.
  apply (@keeps_bind _ (@notes_trans url)); [repeat notes_step|]. intros _.
  apply (@keeps_bind_yields (notes url) _ _ _ _ _ (@notes_trans url)
           (variantA_get_and_parse_json_reports W url domain_url dd_id rs_ids)).
  - unfold OneTrust.variantA_get_and_parse_json, OneTrust.variantA_fetch_ruleset,
      OneTrust.variantA_parse_ruleset, OneTrust.variantA_collect_cookie.
    repeat notes_step.
  - intros [[cookie_count state3] report3] H3. cbn [snd] in H3.
    notes_step; [repeat notes_step|]. repeat notes_step.
Qed.

Lemma notes_variantB_block url : keeps (notes url) (OneTrust.variantB_block W url).
Proof.
  unfold OneTrust.variantB_block.
  apply (@keeps_bind _ (@notes_trans url)); [repeat notes_step|]. intros _.
  apply (@keeps_bind _ (@notes_trans url));
    [apply notes_of_still, still_variantB_retrieve_script_path|].
  intros [[script_url state] report].
  notes_step; [repeat notes_step|].
  apply (@keeps_bind _ (@notes_trans url)); [repeat notes_step|]. intros _.
  apply (@keeps_bind _ (@notes_trans url));
    [apply notes_of_still, still_variantB_parse_script_for_object|].
  intros [[data_dict state2] report2].
  notes_step; [repeat notes_step|].
  apply (@keeps_bind _ (@notes_trans url)); [repeat notes_step|]. intros _.
  apply (@keeps_bind_yields (notes url) _ _ _ _ _ (@notes_trans url)
           (variantB_extract_reports url
              (match data_dict with Some d => d | None => PNone end))).
  - unfold OneTrust.variantB_extract_cookies_from_dict, OneTrust.variantB_walk_groups.
    repeat notes_step.
  - intros [[cookie_count state3] report3] H3. cbn [snd] in H3.
    notes_step; [repeat notes_step|]. repeat notes_step.
Qed.

Lemma fails_noted_variantB_block url : fails_noted (OneTrust.variantB_block W url).
Proof.
  unfold OneTrust.variantB_block.
  apply fails_noted_bind with (Q := fun _ => True);
    [apply fails_noted_quiet, quiet_log | apply yields_true |]. intros _ _.
  apply fails_noted_bind with (Q := fun r => snd (fst r) <> SUCCESS -> snd r <> None);
    [apply fails_noted_quiet, (quiet_variantB_retrieve_script_path HW)
    | apply variantB_retrieve_script_path_reports |].
  intros [[script_url state] report] Hst. cbn [fst snd] in Hst.
  apply fails_noted_bind with (Q := fun _ => True);
    [apply fails_noted_check_state; exact Hst | apply yields_true |]. intros _ _.
  apply fails_noted_bind with (Q := fun _ => True);
    [apply fails_noted_quiet, quiet_log | apply yields_true |]. intros _ _.
  apply fails_noted_bind with (Q := fun r => snd r <> None);
    [apply fails_noted_quiet, (quiet_variantB_parse_script_for_object HW)
    | apply variantB_parse_script_for_object_reports |].
  intros [[data_dict state2] report2] Hst2. cbn [snd] in Hst2.
  apply fails_noted_bind with (Q := fun _ => True);
    [apply fails_noted_check_state; intros _; exact Hst2 | apply yields_true |]. intros _ _.
  apply fails_noted_bind with (Q := fun _ => True);
    [apply fails_noted_quiet, quiet_log | apply yields_true |]. intros _ _.
  apply fails_noted_bind with (Q := fun r => snd r <> None);
    [apply fails_noted_quiet, quiet_variantB_extract_cookies_from_dict
    | apply variantB_extract_reports |].
  intros [[cookie_count state3] report3] Hst3. cbn [snd] in Hst3.
  apply fails_noted_bind with (Q := fun _ => True);
    [apply fails_noted_check_state; intros _; exact Hst3 | apply yields_true |]. intros _ _.
  apply fails_noted_quiet. quiet_frame.
Qed.

Lemma notes_onetrust url : keeps (notes url) (OneTrust.scrape_website W url).
Proof.
  unfold OneTrust.scrape_website.
  apply (@keeps_bind _ (@notes_trans url));
    [apply notes_of_still, still_static_get_request|].
  intros [[r state] report].
  destruct (negb (CrawlState_eqb state SUCCESS)); [repeat notes_step|].
  apply (@keeps_bind _ (@notes_trans url)); [repeat notes_step|]. intros _.
  apply (@keeps_bind _ (@notes_trans url)).
  - apply (@keeps_try _ (@notes_trans url)); [apply notes_variantA_block|].
    apply handled_variant_failed. intros st m. repeat notes_step.
  - intros [b|]; [repeat notes_step|].
    apply notes_try_variant_failed;
      [apply notes_variantB_block | apply fails_noted_variantB_block|].
    intros st m Hm. repeat notes_step.
Qed.

Lemma notes_scrape_website p url : keeps (notes url) (scrape_website W p url).
Proof.
  destruct p; cbn [scrape_website];
    [apply notes_cookiebot | apply notes_onetrust | apply notes_termly].
Qed.

End CrawlLogOfACrawl.

Section CrawlLogTheorem.

(** After a crawl that returns, the crawl log is the one from before with
    the entry of the crawled URL set to the outcome that the crawl recorded
    in the statistics, together with a report: every crawl that returns
    leaves a report in the log, and the entries of the other URLs are as
    they were.  A crawl that raises leaves the log as it is. *)
Theorem crawl_log_holds_the_recorded_outcome
    (W : World) (p : Provider) (url : string) (s : Scraper) :
  library_errors_only W ->
  let s' := snd (scrape_website W p url s) in
  match fst (scrape_website W p url s) with
  | Val b =>
      exists st rep,
        b = CrawlState_eqb st SUCCESS
        /\ records st s s'
        /\ crawl_log s' = dict_set url (st, rep) (crawl_log s)
        /\ assoc_str url (crawl_log s') = Some (st, rep)
  | Exc _ => crawl_log s' = crawl_log s
  end.
Proof.
  intros HW. cbv zeta.
  pose proof (tallies_scrape_website p HW url s) as Ht.
  destruct (notes_scrape_website HW p url s) as (l & (Hc & _) & Hlog).
  destruct (fst (scrape_website W p url s)) as [b|e].
  - destruct Ht as (st & Hb & Hrec).
    assert (Hl : map fst l = [st]).
    { apply updates_one. intros e. pose proof (Hc e) as H1. rewrite (Hrec e) in H1.
      destruct (CrawlState_eqb e st); lia. }
    destruct l as [|[st0 rep] [|o l]]; try discriminate Hl.
    cbn [map fst] in Hl. injection Hl as ->.
    exists st, rep. cbn [fold_left] in Hlog.
    split; [exact Hb|]. split; [exact Hrec|]. split; [exact Hlog|].
    rewrite Hlog. apply assoc_dict_set.
  - assert (Hl : map fst l = []).
    { apply updates_none. intros e0. pose proof (Hc e0) as H1. rewrite (Ht e0) in H1. lia. }
    destruct l; [exact Hlog | discriminate Hl].
Qed.

Lemma crawl_log_holds_the_recorded_outcome_witness :
  match fst (scrape_website empty_groups_world onetrust shop_url started_scraper) with
  | Val b =>
      exists st rep,
        b = CrawlState_eqb st SUCCESS
        /\ records st started_scraper
             (snd (scrape_website empty_groups_world onetrust shop_url started_scraper))
        /\ crawl_log (snd (scrape_website empty_groups_world onetrust shop_url
                             started_scraper))
           = dict_set shop_url (st, rep) (crawl_log started_scraper)
        /\ assoc_str shop_url
             (crawl_log (snd (scrape_website empty_groups_world onetrust shop_url
                                started_scraper)))
           = Some (st, rep)
  | Exc _ =>
      crawl_log (snd (scrape_website empty_groups_world onetrust shop_url started_scraper))
      = crawl_log started_scraper
  end.
Proof.
  exact (@crawl_log_holds_the_recorded_outcome empty_groups_world onetrust shop_url
           started_scraper empty_groups_world_library_errors).
Defined.

End CrawlLogTheorem.
